(* ===== verification/_CoqProject ===== *)
-Q . S2P
Prelude.v
GoTime.v
GoJson.v
GoOS.v
Paths.v
World.v
Sink.v
ArraySink.v
LineSink.v
Compose.v
Dates.v
Logger.v
MainLogger.v
SpinLogger.v
PlainLogger.v
Paced.v
PathLogger.v
BracketLogger.v
Ready.v
Inv.v
Live.v
JsonRead.v
LogRead.v
Race.v
Steps.v
Frame.v
Damage.v
Partial.v
BracketRace.v
