(* ===== verification/Prelude.v ===== *)
(** * gologger: a verification development

    The repository is a small Go logging package that exists in six successive
    variants of one file.  Every variant formats a levelled message
    (INFO/WARN/FATAL/PANIC) with optional context (process, elapsed time,
    user); the later ones show it through a terminal spinner and persist it as
    JSON, first as one object per line and then as one JSON array per file
    that is grown in place by cutting the closing bracket.  The development
    models the six variants: src/unnamed/part_001, the most complete one, in
    the greatest detail, then src/main.go, and part_000, part_002, part_003
    and part_004 on the definitions these two share.

    ** The program's parts and the files that model them

    - [Prelude] (this file): Go strings as [string] (a Go string is a byte
      sequence, and so is a Rocq [string]), prefix and suffix operations on
      them, [strings.Join], the [result] type, the state-and-error monad [M]
      in which all effectful code is written, Hoare triples for it and the
      rules of [stable] for what a computation keeps, the tactics and hint
      databases.
    - [GoTime]: the part of package [time] the logger calls: instants with a
      wall and an optional monotonic reading, [Sub] saturating at 64 bits,
      [Milliseconds], [IsZero], the layout [2006-01-02 15:04:05], and a clock
      that can only move forward.
    - [GoJson]: [encoding/json] on a struct of strings: string escaping as
      the encoder does it (HTML-safe, invalid UTF-8 replaced), [omitempty],
      compact and indented output.
    - [GoOS]: packages [os] and [path/filepath]: lexical path cleaning, a
      tree of directories and regular files, descriptors with an offset, and
      a fault plan that lets any system call fail, so that every
      [err != nil] branch of the source can be taken.  States that differ
      in the plan only are equivalent ([≡]), with [Proper] instances for
      the readers of the tree and the invariants, so that a plan is
      rewritten away.  It ends with the invariant [fd_inv] on the
      descriptors in use and the triples of the library calls for it.
    - [Paths]: the theory of [filepath.Clean] and [filepath.Dir] as [GoOS]
      models them: the shape of a clean path, cleaning as an idempotent
      operation that does not change what a path resolves to, the tables of
      the documentation of the two functions, and the paths that name an
      entry of their directory.
    - [World]: the state a log call runs in (clock, operating system,
      terminal), [os.Exit] and [panic] as the two errors of the monad [IO],
      [recover], and the spinner of [github.com/briandowns/spinner] reduced
      to what the logger uses of it (prefix, suffix, final message, start,
      stop).
    - [Sink]: the struct [logToJSON] with the JSON members its tags give it,
      and the contract between a logger and its file sink, the class
      [FileSink]: a log file stands for the list of records saved to it, and
      saving appends.  Sequences of saves are treated once, against the
      contract.
    - [ArraySink]: [saveToFile] and [fileExists] of part_001, the JSON array
      grown by truncate, seek and write.  It implements [FileSink].
    - [LineSink]: [saveToFile] of main.go, one compact object per line,
      appended.  It implements [FileSink].
    - [Compose]: the first half of [logMessage], which all variants share:
      the display parts, the spinner's prefix and suffix, the record, the
      closing time.  It is written once over the class [LogFields] of option
      structs, whose instances are the [LogOptions] of the variants.
    - [Dates]: the calendar behind the time stamp: [civil] of [GoTime]
      against the Gregorian calendar, decimal numbers of fixed width, and
      the layout of the stamp.
    - [Logger]: part_001: [Logger.FileLog] of dynamic type,
      [SetDefaultFileLog], [checkSaveLogOption], the second half of
      [logMessage] with the marker and the INFO to WARN downgrade, [Info],
      [Warn], [Fatal], [Panic], and the drivers [Test], [TestWithPanic] and
      [TestWithFatal].
    - [MainLogger]: main.go: [logMessage], which prints and then saves, the
      four levels, and the example of its documentation.
    - [SpinLogger]: part_003: the spinner and no file.
    - [PlainLogger]: part_000: no spinner and no file; the line goes through
      a [*log.Logger] with the flags [LstdFlags].
    - [Paced]: [Logger], [LogOptions] and [logMessage] of part_004 and
      part_002, which are the same text in the two files: a path per call
      with a default in the logger, a sleep of one second before each of the
      three optional fields, the save and the final line.  [saveToFile], in
      which the two files differ, is a variable of the section.
    - [PathLogger]: part_004: [saveToFile], which makes the directory and
      appends a line, and the logger of [Paced] on it.  It implements
      [FileSink].
    - [BracketLogger]: part_002: [saveToFile] with the first array format
      (the opening bracket is written when the file is created; later calls
      cut two bytes, write a comma and the record), and the logger of
      [Paced] on it.  It implements [FileSink].
    - [Ready]: the paths the sinks of part_001, part_004 and part_002 can
      save to, from the shape of the path.
    - [Inv]: what every call keeps.  The class [Kept] says what the library
      calls keep, [KeptOpen] what the calls on a descriptor keep, [KeptAt]
      what the calls that name one path keep, and [Steady] what the calls
      of the world keep; the
      well-formedness [wf] of the file system and the history relations
      [grows] and [later] are instances, and each [saveToFile], each
      [logMessage] and each driver keeps them, by one proof for all
      instances that follows the structure of the code ([stable_auto]).
    - [Live]: the logger of main.go on a machine whose system calls fail:
      the append is one whole, the planned faults only get fewer, runs of
      calls ([run]) and the step relation of a client that calls again and
      again ([logs]), with [eventually] over it.
    - [JsonRead]: the reader's side of the JSON the program writes, after
      RFC 8259: strings with their escapes, members, and sequences between
      braces or brackets with white space where the grammar allows it.
    - [LogRead]: the three layouts of the log on disk read back into
      records, and the class [Readable] of the sinks whose files a reader
      accepts.
    - [Race]: callers in several goroutines on one log file.  The package
      takes no lock; [saveToFile] of main.go and of part_001 are written
      again as machines that make one library call per step (the class
      [Caller], with the program points [LinePC] and [ArrayPC]), and a
      system is the operating system and a list of such callers, with a
      step for each call of each caller.
    - [Steps]: the same for [saveToFile] of part_004 and of part_002 (the
      program points [PathPC] and [BracketPC]); the class [Library] of the
      callers whose calls are library calls on one path, so that what the
      library keeps there a system keeps; the class [Closer] of the
      callers that close what they open; callers of part_004 together, by
      a simulation into the callers of main.go; and the first saves of two
      callers of an array sink.
    - [Frame]: what a save and the callers at a path leave alone: the
      predicate [apart] of a file that holds given bytes with no
      descriptor open on it is kept by every call on a descriptor and by
      every call on another path, hence by each [saveToFile] and by every
      schedule of callers ([others_kept]).
    - [Damage]: the two sinks that keep an array, on a machine where the
      write fails: the calls that a plan of faults spares, the texts a
      failed write of part_001 leaves behind, and the reader on them.
    - [Partial]: [saveToFile] of part_002 when one of the six calls that
      enter the record fails: what a call does that a plan spares or
      stops ([spares], [stops]), the text each failure leaves ([torn]),
      and what the later saves make of it.
    - [BracketRace]: two callers of part_002 on one log: the calls of a
      caller that holds the file open, from the measure on
      ([stale_cut_open], [enter_open]), a save of the other caller in
      between, and the text
      of a file whose array was closed under a caller ([overrun]).

    ** How state and operations correspond to the code

    A Go function with side effects is a function from a state to a result
    and a state, written in the monad [M]: [x <- f ;; k] is a call whose
    error returns early, [wrapErr] is
    [if err != nil { return fmt.Errorf(...) }], [defer_] is [defer], [try_]
    is a call whose error the caller inspects.  The file sink runs on an
    [OS], the logger on a [World].  A Go [string] is a [string]; an [int64]
    is a [Z] with the saturation or truncation written where the library has
    it; [any] is the inductive [any] with the dynamic types the code
    switches on; a struct is a record with the field names of the source,
    and an assignment to a field is the setter of that field.  A pointer
    receiver that is written through ([SetDefaultFileLog]) is a value passed
    along and returned.  Definitions keep the names of the source; where one
    Go function is modelled in two parts ([saveToFile] as [ensureFile] and
    [writeRecord] or as [initFile] and [writeEntry], [logMessage] as
    [formatMessage] and [finishMessage] or as [pacedMessage] and
    [closeMessage]) the parts are composed in a definition with the name of
    the function.  The name of the module tells the variant:
    [Logger.logMessage] is part_001, [MainLogger.logMessage] main.go,
    [PlainLogger.logMessage] part_000, [SpinLogger.logMessage] part_003,
    [PathLogger.logMessage] part_004 and [BracketLogger.logMessage]
    part_002.

    A theorem on a function is proved from a lemma that gives the outcome
    of the function in closed form on the states in question (the lemmas
    named [_run], and the laws [array_law], [line_law], [path_law] and
    [bracket_law] of the sinks); the theorems on callers use these lemmas
    too.

    ** What the theorems show

    - Formatter ([Compose]): the display parts are the level tag, then the
      process, the duration and the user when they are not empty, then the
      message; the record has exactly the fields the display has; the
      duration is the time since the start time in whole milliseconds,
      rounded down and not negative, measured before the closing time
      ([formatMessage_duration]).
    - File sinks ([ArraySink], [LineSink], [PathLogger], [BracketLogger]):
      [saveToFile] refines appending to a list of records; records saved in
      sequence are on disk in call order; missing directories are made and
      nothing else is touched; what happens to an existing file by its
      size, including the file of one byte that part_001 destroys and the
      empty file that part_002 fills without an opening bracket; the error
      when a regular file is in the way; and, by the invariant [fd_inv],
      that no descriptor stays open on any path under any plan of failing
      calls.  For part_002 this holds when [saveToFile] returns without
      error; when the write of the opening bracket fails it returns with
      the created file open, and at most that one.
    - Loggers ([Logger], [MainLogger]): a log call always returns and prints
      one line; the line and the state of the disk in each case of the file
      setting; a failed save turns INFO into WARN on the display only; a
      setting of a wrong type is reported under the success marker; the
      per-call override; [Fatal] exits with status 1 and [Panic] panics with
      the message; [TestWithPanic] recovers and returns, [TestWithFatal]
      exits; the runs of the drivers on a concrete machine.
    - The other variants: part_003 prints what main.go prints and leaves
      the disk alone; part_000 prints the header of package [log], a bar and
      the parts ([logMessage_console]); a call of part_004 or part_002
      returns with every sink, takes at least three seconds, saves at the
      path of the options or at the default path of the logger, and after
      a failed save shows [Failed to save log] without the error
      ([logMessage_path]); the examples of the documentation run as it
      says.
    - Invariants ([Inv], [Steps], [Frame]): every [saveToFile], every
      log call of
      the six variants and every test driver leaves the file system well
      formed (nodes hang in directories, descriptors are numbered below
      the next one and name regular files), on every error path, under
      every plan of faults, also when the call exits or panics; so does
      every schedule of callers that share the file system; whatever
      they do to their log, every file at another path that no descriptor
      is open on keeps its bytes ([saves_confined], [schedules_keep]); and
      once the callers of main.go, of part_001 or of part_004 have all
      returned the open descriptors are those of the start
      ([schedules_keep], with the class [Closer] of [Steps] for the
      descriptors a caller owns);
      and a log call only moves the world forward: the
      clock does not go back, printed lines stay, a directory stays a
      directory and a file a file.
    - Faults and progress ([Live]): [saveToFile] of main.go stores a record
      whole or not at all; with finitely many faults planned, every run of
      calls reaches a state from which each call stores its record
      ([run_settles], by the measure of the faults left); a run of calls
      loses at most as many records as faults were planned, and without
      faults the log gains one line for each call, in call order.
    - Round trips ([JsonRead], [LogRead]): a string the encoder wrote is
      read back as the string it was given, byte for byte when that was
      well-formed UTF-8 and with U+FFFD for each ill-formed byte
      otherwise; the objects [json.Marshal] and [json.MarshalIndent] write
      are read back as the record; the logs of part_001, part_002 (on a
      path that was new), part_004 and main.go are read back as the
      records that were saved, in order.  The text part_002 leaves in a
      file that was there and empty is refused by the reader.
    - Time stamps ([Dates]): [civil] is a bijection between day numbers
      and the dates of the Gregorian calendar ([civil_valid],
      [days_of_civil], [civil_days_of]); [appendInt] writes the digits of
      a number that fits its width ([appendInt_fixed]); in a year of four
      digits the stamp is date and time of day at fixed widths, nineteen
      bytes, and determines the second ([Format_stamp], [Format_seconds],
      [record_time] for the record [formatMessage] builds).
    - Paths ([Paths], [Ready]): [Clean] leaves no empty element and no
      [.], keeps [..] only in front and never in a rooted path
      ([elements_shape]), is idempotent ([Clean_idempotent]) and does not
      change what a path resolves to ([resolve_Clean]); every path that
      ends in a name names an entry of the directory [Dir] gives for it
      ([names_entry_app]), so that the first save at such a path succeeds
      in each of the three sinks that take a path, whenever no regular
      file stands where a directory is to be ([first_save]).
    - Concurrent callers ([Race], [Steps], [BracketRace]): the machines
      run alone are [saveToFile] ([callers_alone]); every schedule of
      callers ends;
      callers of main.go
      that share the log lose nothing but what a fault takes, whatever the
      schedule and the plan of faults: the log holds the record of every
      caller that returned nil, whole and once, and without faults all
      return nil ([appends_interleave], by an invariant of the step
      relation that does not look at the plan);
      callers of part_001 have a schedule on every log that holds a record
      after which both returned nil and the record of one is gone
      ([saveToFile_races]), and one after which the file is no array and
      stays none whatever is saved later ([saves_race_corrupts], in
      [Damage]); so have callers of part_002 ([bracket_races], in
      [BracketRace]): a save between the measure and the cut of another
      caller is cut off the file, and a save between the comma and the
      record of another closes the array before that record.  A run of
      callers is a schedule and a schedule a run ([runs_schedule]).
      Callers of part_004 that share a path lose nothing
      either, also when they have to make the directory of the path first
      ([paths_interleave]): [MkdirAll] is one call, and from the first one
      that succeeds on the callers are callers of main.go on the path.
      Two callers of part_001, or of part_002, that save the first record
      of a log have a schedule after which both returned nil and the
      record of one is gone: both find the file missing, and [os.Create]
      empties the file the other has written ([first_saves_race]).
    - Failed writes ([Damage], [Live]): when the write of [saveToFile] of
      part_001 fails on a log that holds records, the closing bracket is
      gone, every later save returns nil, and the file is no array after
      any number of them ([failed_append_corrupts]); when the write of the
      opening bracket fails in part_002, the created file stays open
      ([bracket_leaks]); when [saveToFile] of main.go fails, the call
      prints what it prints when the record is saved, and the log holds
      what it held ([logMessage_hides_failure]).
    - Failed saves of part_002 ([Partial]): when one of the six calls that
      enter a record fails, the call returns the error of that call with
      no descriptor open, and the file holds what the calls before have
      made of it; after the later saves the file is the array of the old
      and the later records when the cut, the second seek or the write of
      the record had failed, and no array, whatever is saved, when the
      first seek, the comma or the closing bracket had failed
      ([failed_entry]).

    ** Bounds and fuel

    The model of the program uses no fuel: every function of it is
    structurally recursive and every computation terminates.  The readers
    of [JsonRead] and [LogRead] that read item after item ([readRest],
    [readLines]) take the length of the text as fuel; each round reads at
    least one byte, and the round-trip theorems are stated for the readers
    that supply this fuel themselves ([readSeq], [readLog]), so they say
    that reading succeeds.  The faults of a machine are a finite list
    ([os_faults]): this is the fairness the progress theorem assumes, and
    its measure.  A caller of [Race] or [Steps] run alone takes the number
    of its library calls as fuel, 3 for main.go, 10 for part_001, 14 for
    part_002 and 4 for part_004, and more fuel changes nothing
    ([alone_add]); a system needs none, because each step
    lowers the number of calls its callers have left.  Durations are
    64-bit: [Sub] saturates at [minDuration] and [maxDuration] as the
    library does, and
    the theorem on the duration asks for an elapsed time below
    [maxDuration] (292 years).  Statements at concrete inputs run on
    [empty_OS], a machine with the working directory [/home/app] and the
    descriptors 0 to 2 taken.

    ** What is not modelled

    Of the libraries: the frames the spinner draws between [Start] and
    [Stop], its goroutine, and its check that standard output is a terminal
    (the model is a terminal: [Stop] prints the final message); file
    permissions other than through planned faults, symbolic links, and time
    zones other than a fixed offset.  Of concurrency: a library call is one
    step, so that no caller sees a call of another half done; the callers
    are calls of [saveToFile], and the lines the callers print are not
    interleaved.  The plans of [Partial] and [Damage] stop one call and
    spare the calls before it; a plan that stops [os.Stat] with the error
    of a missing file, on a file that is there, is not looked at.
    A [PathError] of [MkdirAll] names the path that was passed; the library
    names the prefix at which it failed.  The program never reads a log:
    the reader of [JsonRead] is the grammar of RFC 8259 for the texts the
    program writes, not [encoding/json]'s decoder; it reads objects whose
    values are strings, refuses escapes of surrogate halves, and copies
    bytes above 0x7F as they are.  A write that fails is modelled as
    writing nothing (no partial writes). *)

From Stdlib Require Export ZArith Lia Ascii.
From stdpp Require Export base tactics option list strings gmap pretty.

(** ** Go strings

    [s1 +:+ s2] is Go's [s1 + s2].  The standard library has few lemmas on
    [String.append]; the ones the development needs are proved here once. *)

Module Str.

Fixpoint take (n : nat) (s : string) : string :=
  match n, s with
  | S n', String c s' => String c (take n' s')
  | _, _ => EmptyString
  end.

Fixpoint drop (n : nat) (s : string) : string :=
  match n, s with
  | S n', String _ s' => drop n' s'
  | _, _ => s
  end.

Fixpoint repeat (c : ascii) (n : nat) : string :=
  match n with
  | O => EmptyString
  | S n' => String c (repeat c n')
  end.

(** [s[:len(s)-n]], the slice that drops the last [n] bytes. *)
Definition drop_end (n : nat) (s : string) : string :=
  take (String.length s - n) s.

(** Does [s] start with [p]?  ([strings.HasPrefix]) *)
Fixpoint has_prefix (p s : string) : bool :=
  match p, s with
  | EmptyString, _ => true
  | String a p', String b s' => if Ascii.eqb a b then has_prefix p' s' else false
  | String _ _, EmptyString => false
  end.

Lemma app_nil_l (s : string) : "" +:+ s = s.
Proof. reflexivity. Qed.

Lemma app_cons (c : ascii) (s t : string) :
  String c s +:+ t = String c (s +:+ t).
Proof. reflexivity. Qed.

Lemma app_nil_r (s : string) : s +:+ "" = s.
Proof. induction s as [|c s IH]; [done|]. by rewrite app_cons, IH. Qed.

Lemma app_assoc (s t u : string) : (s +:+ t) +:+ u = s +:+ (t +:+ u).
Proof. induction s as [|c s IH]; [done|]. by rewrite !app_cons, IH. Qed.

Lemma length_app (s t : string) :
  String.length (s +:+ t) = String.length s + String.length t.
Proof. induction s as [|c s IH]; [done|]. rewrite app_cons. simpl. by rewrite IH. Qed.

Lemma take_0 (s : string) : take 0 s = "".
Proof. by destruct s. Qed.

Lemma drop_0 (s : string) : drop 0 s = s.
Proof. by destruct s. Qed.

Lemma take_drop (n : nat) (s : string) : take n s +:+ drop n s = s.
Proof.
  revert s; induction n as [|n IH]; intros [|c s]; simpl; try done.
  by rewrite app_cons, IH.
Qed.

Lemma take_app_length (s t : string) : take (String.length s) (s +:+ t) = s.
Proof.
  induction s as [|c s IH]; [apply take_0|].
  rewrite app_cons. simpl. by rewrite IH.
Qed.

Lemma drop_app_length (s t : string) : drop (String.length s) (s +:+ t) = t.
Proof.
  induction s as [|c s IH]; [apply drop_0|].
  rewrite app_cons. simpl. by rewrite IH.
Qed.

Lemma take_app_le (n : nat) (s t : string) :
  n <= String.length s -> take n (s +:+ t) = take n s.
Proof.
  revert s; induction n as [|n IH]; intros [|c s] Hn; simpl in *;
    try done; try lia.
  rewrite IH; [done|lia].
Qed.

Lemma drop_app_le (n : nat) (s t : string) :
  n <= String.length s -> drop n (s +:+ t) = drop n s +:+ t.
Proof.
  revert s; induction n as [|n IH]; intros [|c s] Hn; simpl in *;
    try done; try lia.
  rewrite IH; [done|lia].
Qed.

Lemma take_ge (n : nat) (s : string) : String.length s <= n -> take n s = s.
Proof.
  revert s; induction n as [|n IH]; intros [|c s] Hn; simpl in *; try done; try lia.
  rewrite IH; [done|lia].
Qed.

Lemma drop_ge (n : nat) (s : string) : String.length s <= n -> drop n s = "".
Proof.
  revert s; induction n as [|n IH]; intros [|c s] Hn; simpl in *; try done; try lia.
  apply IH; lia.
Qed.

Lemma length_take (n : nat) (s : string) :
  String.length (take n s) = Nat.min n (String.length s).
Proof.
  revert s; induction n as [|n IH]; intros [|c s]; simpl; try done.
  by rewrite IH.
Qed.

Lemma length_drop (n : nat) (s : string) :
  String.length (drop n s) = String.length s - n.
Proof.
  revert s; induction n as [|n IH]; intros [|c s]; simpl; try done.
Qed.

Lemma take_take (a b : nat) (s : string) : take a (take b s) = take (Nat.min a b) s.
Proof.
  revert b s; induction a as [|a IH]; intros [|b] [|c s]; simpl; try done.
  by rewrite IH.
Qed.

Lemma length_repeat (c : ascii) (n : nat) : String.length (repeat c n) = n.
Proof. induction n as [|n IH]; simpl; [done|by rewrite IH]. Qed.

Lemma drop_end_app (s t : string) : drop_end (String.length t) (s +:+ t) = s.
Proof.
  unfold drop_end. rewrite length_app.
  replace (String.length s + String.length t - String.length t)
    with (String.length s) by lia.
  apply take_app_length.
Qed.

Lemma has_prefix_app (p s : string) : has_prefix p (p +:+ s) = true.
Proof.
  induction p as [|c p IH]; [done|].
  rewrite app_cons. simpl. by rewrite Ascii.eqb_refl.
Qed.

Lemma has_prefix_inv (p s : string) :
  has_prefix p s = true -> exists t, s = p +:+ t.
Proof.
  revert s; induction p as [|c p IH]; intros s H; [by exists s|].
  destruct s as [|d s]; [done|]. simpl in H.
  destruct (Ascii.eqb_spec c d) as [->|]; [|done].
  destruct (IH _ H) as [t ->]. by exists t.
Qed.

Lemma app_eq_nil (s t : string) : s +:+ t = "" -> s = "" /\ t = "".
Proof. destruct s; [done|discriminate]. Qed.

Lemma app_inv_head (s t u : string) : s +:+ t = s +:+ u -> t = u.
Proof. apply (inj (String.app s)). Qed.

Lemma app_inv_tail (s t u : string) : s +:+ u = t +:+ u -> s = t.
Proof.
  intros H.
  assert (Hl : String.length s = String.length t).
  { apply (f_equal String.length) in H. rewrite !length_app in H. lia. }
  apply (f_equal (take (String.length s))) in H.
  rewrite take_app_length in H. rewrite Hl, take_app_length in H. done.
Qed.

End Str.

(** [strings.Join(parts, sep)] *)
Definition Join (parts : list string) (sep : string) : string :=
  String.concat sep parts.

(** The double quote, which a string literal of this development never
    contains. *)
#[global] Arguments Join : simpl never.

Definition DQ : ascii := "034"%char.
Definition LF : ascii := "010"%char.

(** ** Results and the state-and-error monad *)

Inductive result (E A : Type) : Type :=
| Ok (a : A)
| Err (e : E).
Arguments Ok {E A} a.
Arguments Err {E A} e.

Definition is_ok {E A} (r : result E A) : bool :=
  match r with Ok _ => true | Err _ => false end.

Definition M (S E A : Type) : Type := S -> result E A * S.

Definition ret {S E A} (a : A) : M S E A := fun s => (Ok a, s).

Definition fail {S E A} (e : E) : M S E A := fun s => (Err e, s).

Definition bind {S E A B} (m : M S E A) (k : A -> M S E B) : M S E B :=
  fun s =>
    match m s with
    | (Ok a, s') => k a s'
    | (Err e, s') => (Err e, s')
    end.

(** [if err != nil { return f(err) }] around a call. *)
Definition wrapErr {S E A} (f : E -> E) (m : M S E A) : M S E A :=
  fun s =>
    match m s with
    | (Ok a, s') => (Ok a, s')
    | (Err e, s') => (Err (f e), s')
    end.

(** [defer c]: [c] runs when the body returns, with or without an error. *)
Definition defer_ {S E A} (c : S -> S) (m : M S E A) : M S E A :=
  fun s => let '(r, s') := m s in (r, c s').

(** A call whose error is inspected instead of returned: [err := f()]. *)
Definition try_ {S E A} (m : M S E A) : M S E (result E A) :=
  fun s => let '(r, s') := m s in (Ok r, s').

Definition gets {S E A} (f : S -> A) : M S E A := fun s => (Ok (f s), s).

Definition modify {S E} (f : S -> S) : M S E unit := fun s => (Ok tt, f s).

(** Running a computation of a component inside a larger state. *)
Definition zoom {S T E A} (get : T -> S) (set : S -> T -> T) (m : M S E A) : M T E A :=
  fun t => let '(r, s') := m (get t) in (r, set s' t).

Declare Scope io_scope.
Delimit Scope io_scope with io.
Notation "x <- m ;; k" := (bind m (fun x => k))
  (at level 100, m at next level, right associativity) : io_scope.
Notation "m ;;; k" := (bind m (fun _ => k))
  (at level 100, right associativity) : io_scope.

Section MonadLaws.
Context {S E : Type}.

Lemma bind_ret_l {A B} (a : A) (k : A -> M S E B) (s : S) :
  bind (ret a) k s = k a s.
Proof. reflexivity. Qed.

Lemma bind_ret_r {A} (m : M S E A) (s : S) : bind m ret s = m s.
Proof. unfold bind, ret. by destruct (m s) as [[a|e] s']. Qed.

Lemma bind_assoc {A B C} (m : M S E A) (k : A -> M S E B) (h : B -> M S E C) (s : S) :
  bind (bind m k) h s = bind m (fun a => bind (k a) h) s.
Proof. unfold bind. by destruct (m s) as [[a|e] s']. Qed.

Lemma bind_ok {A B} (m : M S E A) (k : A -> M S E B) (s s' : S) (a : A) :
  m s = (Ok a, s') -> bind m k s = k a s'.
Proof. unfold bind. by intros ->. Qed.

Lemma bind_err {A B} (m : M S E A) (k : A -> M S E B) (s s' : S) (e : E) :
  m s = (Err e, s') -> bind m k s = (Err e, s').
Proof. unfold bind. by intros ->. Qed.

Lemma bind_fail {A B} (e : E) (k : A -> M S E B) (s : S) :
  bind (fail e) k s = (Err e, s).
Proof. reflexivity. Qed.

Lemma wrapErr_ok {A} (f : E -> E) (m : M S E A) (s s' : S) (a : A) :
  m s = (Ok a, s') -> wrapErr f m s = (Ok a, s').
Proof. unfold wrapErr. by intros ->. Qed.

Lemma wrapErr_err {A} (f : E -> E) (m : M S E A) (s s' : S) (e : E) :
  m s = (Err e, s') -> wrapErr f m s = (Err (f e), s').
Proof. unfold wrapErr. by intros ->. Qed.

Lemma defer_run {A} (c : S -> S) (m : M S E A) (s s' : S) (r : result E A) :
  m s = (r, s') -> defer_ c m s = (r, c s').
Proof. unfold defer_. by intros ->. Qed.

End MonadLaws.

(** ** A program logic for [M]

    [hoare P m Q]: started in a state of [P], the computation [m] ends with a
    result and a state related by [Q].  Computations of [M] are total
    functions, so a triple speaks of the one outcome there is, error
    outcomes included. *)

Section Hoare.
Context {S E : Type}.

Definition hoare {A} (P : S -> Prop) (m : M S E A) (Q : result E A -> S -> Prop) : Prop :=
  forall s, P s -> Q (m s).1 (m s).2.

Lemma hoare_conseq {A} (P P' : S -> Prop) (m : M S E A) (Q Q' : result E A -> S -> Prop) :
  hoare P' m Q' -> (forall s, P s -> P' s) -> (forall r s, Q' r s -> Q r s) ->
  hoare P m Q.
Proof. intros H HP HQ s Hs. apply HQ, H, HP, Hs. Qed.

Lemma hoare_ret {A} (P : S -> Prop) (a : A) :
  hoare P (ret a) (fun r s => r = Ok a /\ P s).
Proof. by intros s Hs. Qed.

Lemma hoare_fail {A} (P : S -> Prop) (e : E) :
  hoare P (@fail S E A e) (fun r s => r = Err e /\ P s).
Proof. by intros s Hs. Qed.

Lemma hoare_bind {A B} (P : S -> Prop) (m : M S E A) (k : A -> M S E B)
    (Q : result E A -> S -> Prop) (R : result E B -> S -> Prop) :
  hoare P m Q ->
  (forall a, hoare (Q (Ok a)) (k a) R) ->
  (forall e s, Q (Err e) s -> R (Err e) s) ->
  hoare P (bind m k) R.
Proof.
  intros Hm Hk He s Hs. specialize (Hm s Hs). unfold bind.
  destruct (m s) as [[a|e] s']; simpl in *; [by apply Hk|by apply He].
Qed.

Lemma hoare_wrapErr {A} (P : S -> Prop) (f : E -> E) (m : M S E A)
    (Q R : result E A -> S -> Prop) :
  hoare P m Q ->
  (forall a s, Q (Ok a) s -> R (Ok a) s) ->
  (forall e s, Q (Err e) s -> R (Err (f e)) s) ->
  hoare P (wrapErr f m) R.
Proof.
  intros Hm Ha He s Hs. specialize (Hm s Hs). unfold wrapErr.
  destruct (m s) as [[a|e] s']; simpl in *; auto.
Qed.

Lemma hoare_defer {A} (P : S -> Prop) (c : S -> S) (m : M S E A)
    (Q R : result E A -> S -> Prop) :
  hoare P m Q -> (forall r s, Q r s -> R r (c s)) -> hoare P (defer_ c m) R.
Proof.
  intros Hm Hc s Hs. specialize (Hm s Hs). unfold defer_.
  destruct (m s) as [r s']; simpl in *; auto.
Qed.

Lemma hoare_try {A} (P : S -> Prop) (m : M S E A) (Q : result E A -> S -> Prop) :
  hoare P m Q -> hoare P (try_ m) (fun r s => exists r', r = Ok r' /\ Q r' s).
Proof.
  intros Hm s Hs. specialize (Hm s Hs). unfold try_.
  destruct (m s) as [r s']; simpl in *; eauto.
Qed.

Lemma hoare_if {A} (b : bool) (P : S -> Prop) (m1 m2 : M S E A)
    (Q : result E A -> S -> Prop) :
  (b = true -> hoare P m1 Q) -> (b = false -> hoare P m2 Q) ->
  hoare P (if b then m1 else m2) Q.
Proof. destruct b; auto. Qed.

(** A triple read at one state. *)
Lemma hoare_run {A} (P : S -> Prop) (m : M S E A) (Q : result E A -> S -> Prop)
    (s s' : S) (r : result E A) :
  hoare P m Q -> P s -> m s = (r, s') -> Q r s'.
Proof. intros H Hs Hm. specialize (H s Hs). by rewrite Hm in H. Qed.

(** ** Invariants

    [stable P m]: the computation [m] keeps the property [P] of the state,
    whatever it returns. *)
Definition stable {A} (P : S -> Prop) (m : M S E A) : Prop :=
  forall s, P s -> P (m s).2.

Lemma stable_ret {A} (P : S -> Prop) (a : A) : stable P (ret a).
Proof. by intros s Hs. Qed.

Lemma stable_fail {A} (P : S -> Prop) (e : E) : stable P (@fail S E A e).
Proof. by intros s Hs. Qed.

Lemma stable_bind {A B} (P : S -> Prop) (m : M S E A) (k : A -> M S E B) :
  stable P m -> (forall a, stable P (k a)) -> stable P (bind m k).
Proof.
  intros Hm Hk s Hs. specialize (Hm s Hs). unfold bind.
  destruct (m s) as [[a|e] s']; [by apply Hk|done].
Qed.

Lemma stable_wrapErr {A} (P : S -> Prop) (f : E -> E) (m : M S E A) :
  stable P m -> stable P (wrapErr f m).
Proof. intros Hm s Hs. specialize (Hm s Hs). unfold wrapErr. by destruct (m s) as [[a|e] s']. Qed.

Lemma stable_try {A} (P : S -> Prop) (m : M S E A) : stable P m -> stable P (try_ m).
Proof. intros Hm s Hs. specialize (Hm s Hs). unfold try_. by destruct (m s). Qed.

Lemma stable_defer {A} (P : S -> Prop) (c : S -> S) (m : M S E A) :
  stable P m -> (forall s, P s -> P (c s)) -> stable P (defer_ c m).
Proof. intros Hm Hc s Hs. specialize (Hm s Hs). unfold defer_. destruct (m s). by apply Hc. Qed.

(** A computation that moves the state forward in a transitive order
    keeps "later than [s0]". *)
Lemma stable_later {A} (R : S -> S -> Prop) `{!Transitive R} (m : M S E A) (s0 : S) :
  (forall s, R s (m s).2) -> stable (R s0) m.
Proof. intros Hm s Hs. by etrans. Qed.

Lemma stable_hoare {A} (P : S -> Prop) (m : M S E A) :
  stable P m <-> hoare P m (fun _ => P).
Proof. done. Qed.

End Hoare.

Lemma stable_zoom {S T E A} (P : T -> Prop) (get : T -> S) (set : S -> T -> T)
    (m : M S E A) :
  (forall t, P t -> P (set (m (get t)).2 t)) -> stable P (zoom get set m).
Proof. intros H t Ht. unfold zoom. specialize (H t Ht). by destruct (m (get t)). Qed.

(** ** Automation *)

Create HintDb golog discriminated.
Create Rewrite HintDb str.
Create Rewrite HintDb io.

#[export] Hint Rewrite Str.app_nil_l Str.app_nil_r Str.app_cons Str.app_assoc
  Str.length_app Str.take_0 Str.drop_0 Str.take_app_length Str.drop_app_length
  Str.length_take Str.length_drop Str.drop_end_app Str.has_prefix_app : str.

#[export] Hint Rewrite @bind_ret_l @bind_fail : io.

#[export] Hint Resolve Str.has_prefix_app Str.take_drop : golog.
#[export] Hint Resolve hoare_ret hoare_fail : golog.

(** Reassociate string concatenations to the right and normalise them. *)
Ltac str_norm := autorewrite with str in *.

(** Case analysis on the outcome of the computation a [bind] starts with. *)
Ltac bind_case :=
  match goal with
  | |- context [bind ?m ?k ?s] =>
      let r := fresh "r" in
      let s' := fresh "s" in
      let Hm := fresh "Hm" in
      destruct (m s) as [r s'] eqn:Hm;
      destruct r;
      [erewrite (bind_ok m k s) by exact Hm
      |erewrite (bind_err m k s) by exact Hm]
  end.

(** One step of a computation written with [wrapErr]: the call is replaced
    by its outcome, which [tac] proves. *)
Ltac step_ok tac := erewrite bind_ok; [|apply wrapErr_ok; tac]; simpl.
Ltac step_err tac := erewrite bind_err; [|apply wrapErr_err; tac]; simpl.
