(* ===== verification/GoTime.v ===== *)
(** * GoTime: the part of package [time] the logger calls

    An instant carries a wall reading (nanoseconds since January 1 of year 1,
    00:00:00 UTC, the library's zero instant), the offset of its location at
    that instant, and a monotonic reading when it came from [time.Now].
    [Sub] prefers the monotonic readings and saturates at 64 bits,
    [Milliseconds] truncates towards zero, [Format] is the one layout the
    logger uses.  The clock only moves forward: the time that passes before
    each reading is a natural number of nanoseconds. *)

From S2P Require Import Prelude.

Local Open Scope Z_scope.

Module GoTime.

(** ** Durations: [int64] nanoseconds *)

Definition Duration : Type := Z.

Definition minDuration : Duration := - 2 ^ 63.
Definition maxDuration : Duration := 2 ^ 63 - 1.

Definition Millisecond : Duration := 1000000.
Definition Second : Duration := 1000000000.

(** The value an operation returns when the exact one does not fit. *)
Definition sat64 (z : Z) : Duration :=
  if z <? minDuration then minDuration
  else if maxDuration <? z then maxDuration
  else z.

(** [Duration.Milliseconds]: integer division, which truncates in Go. *)
Definition Milliseconds (d : Duration) : Z := Z.quot d Millisecond.

(** ** Instants *)

Record Time : Type := mkTime {
  wall : Z;
  offset : Z;
  mono : option Z
}.

(** The zero value of [time.Time]. *)
Definition zeroTime : Time := {| wall := 0; offset := 0; mono := None |}.

Definition IsZero (t : Time) : bool := wall t =? 0.

(** [t.Sub(u)]: on monotonic readings when both instants have one. *)
Definition Sub (t u : Time) : Duration :=
  match mono t, mono u with
  | Some a, Some b => sat64 (a - b)
  | _, _ => sat64 (wall t - wall u)
  end.

(** ** The layout [2006-01-02 15:04:05] *)

(** Year, month and day of the proleptic Gregorian calendar from the number
    of days since January 1 of year 1. *)
Definition civil (days : Z) : Z * Z * Z :=
  let z := days + 306 in
  let era := z / 146097 in
  let doe := z - era * 146097 in
  let yoe := (doe - doe / 1460 + doe / 36524 - doe / 146096) / 365 in
  let doy := doe - (365 * yoe + yoe / 4 - yoe / 100) in
  let mp := (5 * doy + 2) / 153 in
  let d := doy - (153 * mp + 2) / 5 + 1 in
  let m := if mp <? 10 then mp + 3 else mp - 9 in
  let y := yoe + era * 400 + (if m <=? 2 then 1 else 0) in
  (y, m, d).

(** [appendInt(b, x, width)]: decimal, zero-padded to [width], sign first. *)
Definition appendInt (x : Z) (width : nat) : string :=
  let digits := pretty (Z.abs x) in
  let pad := Str.repeat "0"%char (width - String.length digits) in
  (if x <? 0 then "-" else "") +:+ pad +:+ digits.

(** Date and time of day in the location of the instant, the date with the
    separator [sep]. *)
Definition dateTime (sep : string) (t : Time) : string :=
  let secs := wall t / Second + offset t in
  let days := secs / 86400 in
  let sod := secs mod 86400 in
  let '(y, m, d) := civil days in
  appendInt y 4 +:+ sep +:+ appendInt m 2 +:+ sep +:+ appendInt d 2 +:+ " "
  +:+ appendInt (sod / 3600) 2 +:+ ":" +:+ appendInt (sod mod 3600 / 60) 2
  +:+ ":" +:+ appendInt (sod mod 60) 2.

(** [t.Format("2006-01-02 15:04:05")] *)
Definition Format (t : Time) : string := dateTime "-" t.

(** The header package [log] writes with the flags [LstdFlags] and no
    prefix: [2006/01/02 15:04:05] and a space. *)
Definition logHeader (t : Time) : string := dateTime "/" t +:+ " ".

#[global] Arguments Format : simpl never.
#[global] Arguments logHeader : simpl never.

(** ** The clock *)

Record Clock : Type := mkClock {
  clk_wall : Z;
  clk_mono : Z;
  clk_offset : Z;
  clk_delays : list N
}.

Definition advance (d : Z) (c : Clock) : Clock :=
  {| clk_wall := clk_wall c + d; clk_mono := clk_mono c + d;
     clk_offset := clk_offset c; clk_delays := clk_delays c |}.

Definition reading (c : Clock) : Time :=
  {| wall := clk_wall c; offset := clk_offset c; mono := Some (clk_mono c) |}.

(** The next delay passes. *)
Definition tick (c : Clock) : Clock :=
  let d := match clk_delays c with [] => 0%N | d :: _ => d end in
  {| clk_wall := clk_wall c + Z.of_N d; clk_mono := clk_mono c + Z.of_N d;
     clk_offset := clk_offset c; clk_delays := tl (clk_delays c) |}.

#[global] Arguments tick : simpl never.

(** [time.Now()]: the next delay passes, then the clock is read. *)
Definition Now {E} : M Clock E Time :=
  fun c => (Ok (reading (tick c)), tick c).

(** [time.Sleep(d)]: returns at once when [d] is not positive. *)
Definition Sleep {E} (d : Duration) : M Clock E unit :=
  fun c => (Ok tt, advance (Z.max 0 d) c).

(** ** Lemmas *)

Lemma sat64_range (z : Z) : minDuration <= sat64 z <= maxDuration.
Proof.
  unfold sat64, minDuration, maxDuration.
  repeat case_match; lia.
Qed.

Lemma sat64_id (z : Z) : minDuration <= z <= maxDuration -> sat64 z = z.
Proof.
  unfold sat64, minDuration, maxDuration.
  intros; repeat case_match; lia.
Qed.

Lemma sat64_nonneg (z : Z) : 0 <= z -> 0 <= sat64 z.
Proof.
  unfold sat64, minDuration, maxDuration.
  intros; repeat case_match; lia.
Qed.

Lemma sat64_mono (a b : Z) : a <= b -> sat64 a <= sat64 b.
Proof.
  unfold sat64, minDuration, maxDuration.
  intros; repeat case_match; lia.
Qed.

Lemma Milliseconds_nonneg (d : Duration) : 0 <= d -> 0 <= Milliseconds d.
Proof. intros. apply Z.quot_pos; [done|]. by unfold Millisecond. Qed.

(** Whole milliseconds: the remainder is less than one millisecond and has
    the sign of the duration. *)
Lemma Milliseconds_spec (d : Duration) :
  Z.abs (d - Milliseconds d * Millisecond) < Millisecond
  /\ 0 <= d * (d - Milliseconds d * Millisecond).
Proof.
  unfold Milliseconds, Millisecond.
  pose proof (Z.quot_rem' d 1000000) as Hqr.
  pose proof (Z.rem_bound_abs d 1000000 ltac:(lia)) as Hb.
  assert (Hs : 0 <= d * Z.rem d 1000000).
  { destruct (Z.le_gt_cases 0 d) as [Hd|Hd].
    - apply Z.mul_nonneg_nonneg; [done|]. apply Z.rem_nonneg; lia.
    - apply Z.mul_nonpos_nonpos; [lia|]. apply Z.rem_nonpos; lia. }
  revert Hqr Hb Hs. generalize (Z.rem d 1000000) (d ÷ 1000000).
  intros r q Hqr Hb Hs.
  replace (d - q * 1000000) with r by lia. lia.
Qed.

Lemma Milliseconds_floor (d : Duration) :
  0 <= d -> Milliseconds d * Millisecond <= d < (Milliseconds d + 1) * Millisecond.
Proof.
  intros Hd. unfold Milliseconds, Millisecond. rewrite Z.quot_div_nonneg by lia.
  pose proof (Z.div_mod d 1000000 ltac:(lia)).
  pose proof (Z.mod_pos_bound d 1000000 ltac:(lia)). lia.
Qed.

Lemma Milliseconds_exact (n : Z) : Milliseconds (n * Millisecond) = n.
Proof. unfold Milliseconds, Millisecond. apply Z.quot_mul. lia. Qed.

Lemma IsZero_zeroTime : IsZero zeroTime = true.
Proof. reflexivity. Qed.

Lemma Sub_mono_readings (t u : Time) (a b : Z) :
  mono t = Some a -> mono u = Some b -> Sub t u = sat64 (a - b).
Proof. unfold Sub. by intros -> ->. Qed.

Lemma Sub_self (t : Time) : Sub t t = 0.
Proof.
  unfold Sub. destruct (mono t); rewrite Z.sub_diag; by apply sat64_id.
Qed.

(** The clock's state after a computation is later than before. *)
Definition clock_le (c c' : Clock) : Prop :=
  clk_mono c <= clk_mono c' /\ clk_wall c' - clk_wall c = clk_mono c' - clk_mono c.

#[export] Instance clock_le_refl : Reflexive clock_le.
Proof. intros c. unfold clock_le. lia. Qed.

#[export] Instance clock_le_trans : Transitive clock_le.
Proof. intros a b c. unfold clock_le. lia. Qed.

Lemma advance_le (d : Z) (c : Clock) : 0 <= d -> clock_le c (advance d c).
Proof. unfold clock_le, advance; simpl. lia. Qed.

Lemma tick_le (c : Clock) : clock_le c (tick c).
Proof. unfold clock_le, tick; simpl. lia. Qed.

Lemma hd_tl_tl {A} (d : A) (l : list A) : hd d (tl (tl l)) = nth 2 l d.
Proof. by destruct l as [|? [|? [|]]]. Qed.

Lemma tick_mono (c : Clock) : clk_mono (tick c) = clk_mono c + Z.of_N (hd 0%N (clk_delays c)).
Proof. unfold tick; simpl. by destruct (clk_delays c). Qed.

Lemma tick_delays (c : Clock) : clk_delays (tick c) = tl (clk_delays c).
Proof. reflexivity. Qed.

(** One more delay adds to the elapsed time, short of saturation. *)
Lemma Sub_tick (c c0 : Clock) :
  clk_mono c0 <= clk_mono c -> clk_mono (tick c) - clk_mono c0 <= maxDuration ->
  Sub (reading (tick c)) (reading c0)
  = Sub (reading c) (reading c0) + Z.of_N (hd 0%N (clk_delays c)).
Proof.
  rewrite tick_mono. intros Hc He.
  change (Sub (reading (tick c)) (reading c0)) with (sat64 (clk_mono (tick c) - clk_mono c0)).
  change (Sub (reading c) (reading c0)) with (sat64 (clk_mono c - clk_mono c0)).
  rewrite tick_mono, !sat64_id by (unfold minDuration, maxDuration in *; lia). lia.
Qed.

Lemma Now_le {E} (c c' : Clock) (t : Time) :
  @Now E c = (Ok t, c') -> clock_le c c' /\ t = reading c'.
Proof.
  unfold Now. intros [= <- <-]. split; [|done]. apply tick_le.
Qed.

Lemma Sleep_le {E} (d : Duration) (c c' : Clock) :
  @Sleep E d c = (Ok tt, c') -> clk_mono c + Z.max 0 d = clk_mono c'.
Proof. unfold Sleep. by intros [= <-]. Qed.

(** Elapsed time between two readings of one clock is not negative. *)
Lemma Sub_reading_nonneg (c c' : Clock) :
  clock_le c c' -> 0 <= Sub (reading c') (reading c).
Proof.
  intros [Hm _]. unfold Sub, reading; simpl. apply sat64_nonneg. lia.
Qed.

(** Known dates. *)
Example civil_epoch : civil 719162 = (1970, 1, 1).
Proof. reflexivity. Qed.

Example civil_leap_day : civil (719162 + 19782) = (2024, 2, 29).
Proof. reflexivity. Qed.

Example Format_zeroTime : Format zeroTime = "0001-01-01 00:00:00".
Proof. vm_compute. reflexivity. Qed.

Example Format_sample :
  Format {| wall := ((719162 + 19782) * 86400 + 3600 * 13 + 60 * 5 + 9) * Second + 123;
            offset := 7200; mono := None |} = "2024-02-29 15:05:09".
Proof. vm_compute. reflexivity. Qed.

End GoTime.
