(* ===== verification/GoJson.v ===== *)
(** * GoJson: [encoding/json] on objects with string members

    The logger marshals one struct whose fields are all strings.  This file
    models what the encoder does with such a value: the members in order,
    each string escaped as [appendString] escapes it with HTML escaping on
    (the default of [Marshal] and [MarshalIndent]), and the layout of
    [MarshalIndent] with its prefix and indent.  Which members a struct has
    is decided by its tags, which belong to the logger's source. *)

From S2P Require Import Prelude.

Module GoJson.

Local Open Scope N_scope.

(** ** Bytes *)

Definition byte_in (c : ascii) (lo hi : N) : bool :=
  (lo <=? N_of_ascii c) && (N_of_ascii c <=? hi).

(** The table [hex] of the encoder. *)
Definition hex (n : N) : ascii :=
  match n with
  | 0 => "0" | 1 => "1" | 2 => "2" | 3 => "3" | 4 => "4" | 5 => "5"
  | 6 => "6" | 7 => "7" | 8 => "8" | 9 => "9" | 10 => "a" | 11 => "b"
  | 12 => "c" | 13 => "d" | 14 => "e" | _ => "f"
  end%char.

(** [htmlSafeSet]: the ASCII bytes that need no escape. *)
Definition htmlSafe (c : ascii) : bool :=
  let b := N_of_ascii c in
  (0x20 <=? b) && (b <? 0x80)
  && negb (b =? 0x22) && negb (b =? 0x26) && negb (b =? 0x3C)
  && negb (b =? 0x3E) && negb (b =? 0x5C).

(** The escape of an ASCII byte that is not in [htmlSafeSet]. *)
Definition escapeByte (c : ascii) : string :=
  let b := N_of_ascii c in
  if (b =? 0x5C) || (b =? 0x22) then String "\" (String c "")
  else if b =? 0x08 then "\b"
  else if b =? 0x0C then "\f"
  else if b =? 0x0A then "\n"
  else if b =? 0x0D then "\r"
  else if b =? 0x09 then "\t"
  else "\u00" +:+ String (hex (N.shiftr b 4)) (String (hex (N.land b 0xF)) "").

(** ** UTF-8

    The width of the well-formed sequence a string starts with, 0 when its
    first byte does not start one ([utf8.DecodeRuneInString] then returns
    [RuneError] with width 1). *)
Definition utf8_width (s : string) : nat :=
  match s with
  | EmptyString => 0%nat
  | String c0 rest =>
      let b0 := N_of_ascii c0 in
      if b0 <? 0x80 then 1%nat
      else if byte_in c0 0xC2 0xDF then
        match rest with
        | String c1 _ => if byte_in c1 0x80 0xBF then 2%nat else 0%nat
        | _ => 0%nat
        end
      else if byte_in c0 0xE0 0xEF then
        let lo := if b0 =? 0xE0 then 0xA0 else 0x80 in
        let hi := if b0 =? 0xED then 0x9F else 0xBF in
        match rest with
        | String c1 (String c2 _) =>
            if byte_in c1 lo hi && byte_in c2 0x80 0xBF then 3%nat else 0%nat
        | _ => 0%nat
        end
      else if byte_in c0 0xF0 0xF4 then
        let lo := if b0 =? 0xF0 then 0x90 else 0x80 in
        let hi := if b0 =? 0xF4 then 0x8F else 0xBF in
        match rest with
        | String c1 (String c2 (String c3 _)) =>
            if byte_in c1 lo hi && byte_in c2 0x80 0xBF && byte_in c3 0x80 0xBF
            then 4%nat else 0%nat
        | _ => 0%nat
        end
      else 0%nat
  end.

(** U+2028 and U+2029 are E2 80 A8 and E2 80 A9: the low digit when the
    string starts with one of them. *)
Definition line_separator (s : string) : option ascii :=
  match s with
  | String c0 (String c1 (String c2 _)) =>
      if (N_of_ascii c0 =? 0xE2) && (N_of_ascii c1 =? 0x80) then
        if N_of_ascii c2 =? 0xA8 then Some "8"%char
        else if N_of_ascii c2 =? 0xA9 then Some "9"%char
        else None
      else None
  | _ => None
  end.

(** Well-formed UTF-8, the strings the encoder does not alter by
    substitution. *)
Fixpoint valid_from (pending : nat) (s : string) : bool :=
  match s with
  | EmptyString => Nat.eqb pending 0
  | String _ rest =>
      match pending with
      | S n => valid_from n rest
      | O =>
          match utf8_width s with
          | O => false
          | S n => valid_from n rest
          end
      end
  end.

Definition ValidString (s : string) : bool := valid_from 0 s.

(** ** Strings *)

(** Where the encoder is inside the input: at a boundary, or inside a
    sequence of which [n] bytes are still to be copied or dropped. *)
Inductive mode : Type :=
| Scan
| Copy (n : nat)
| Skip (n : nat).

Fixpoint appendString_go (m : mode) (s : string) : string :=
  match s with
  | EmptyString => EmptyString
  | String c rest =>
      match m with
      | Copy (S n) => String c (appendString_go (Copy n) rest)
      | Skip (S n) => appendString_go (Skip n) rest
      | _ =>
          if N_of_ascii c <? 0x80 then
            (if htmlSafe c then String c "" else escapeByte c)
            +:+ appendString_go Scan rest
          else
            match utf8_width s with
            | O => "\ufffd" +:+ appendString_go Scan rest
            | S n =>
                match line_separator s with
                | Some d => "\u202" +:+ String d (appendString_go (Skip 2) rest)
                | None => String c (appendString_go (Copy n) rest)
                end
            end
      end
  end.

(** [appendString(dst, src, true)] on an empty [dst]. *)
Definition encodeString (s : string) : string :=
  String DQ (appendString_go Scan s +:+ String DQ "").

(** ** Objects *)

Definition member (colon : string) (kv : string * string) : string :=
  encodeString kv.1 +:+ colon +:+ encodeString kv.2.

(** [json.Marshal] of a struct with these members. *)
Definition Marshal (members : list (string * string)) : string :=
  "{" +:+ Join (member ":" <$> members) "," +:+ "}".

(** [json.MarshalIndent(v, prefix, indent)]: every line but the first starts
    with [prefix], members are one level deep. *)
Definition MarshalIndent (members : list (string * string)) (prefix indent : string) : string :=
  match members with
  | [] => "{}"
  | _ =>
      let nl := String LF prefix in
      "{" +:+ nl +:+ indent
      +:+ Join (member ": " <$> members) ("," +:+ nl +:+ indent)
      +:+ nl +:+ "}"
  end.

(** A member tagged [omitempty]. *)
Definition omitempty (key value : string) : list (string * string) :=
  if decide (value = "") then [] else [(key, value)].

#[global] Arguments Marshal : simpl never.
#[global] Arguments MarshalIndent : simpl never.
#[global] Arguments encodeString : simpl never.

(** ** Lemmas *)

Local Open Scope nat_scope.

Lemma omitempty_empty (key : string) : omitempty key "" = [].
Proof. reflexivity. Qed.

Lemma omitempty_nonempty (key value : string) :
  value <> "" -> omitempty key value = [(key, value)].
Proof. unfold omitempty. intros. by case_decide. Qed.

Lemma length_omitempty (key value : string) :
  length (omitempty key value) = if decide (value = "") then 0 else 1.
Proof. unfold omitempty. by case_decide. Qed.

(** A string of safe ASCII bytes is encoded as itself between quotes. *)
Fixpoint all_safe (s : string) : bool :=
  match s with
  | EmptyString => true
  | String c rest => htmlSafe c && all_safe rest
  end.

Lemma htmlSafe_ascii (c : ascii) : htmlSafe c = true -> (N_of_ascii c <? 0x80)%N = true.
Proof. unfold htmlSafe. intros H. repeat (apply andb_prop in H as [H ?]). done. Qed.

Lemma appendString_go_safe (s : string) :
  all_safe s = true -> appendString_go Scan s = s.
Proof.
  induction s as [|c s IH]; [done|]. simpl.
  intros [Hc Hs]%andb_prop. rewrite (htmlSafe_ascii _ Hc), Hc, (IH Hs). done.
Qed.

Lemma encodeString_safe (s : string) :
  all_safe s = true -> encodeString s = String DQ (s +:+ String DQ "").
Proof. intros H. unfold encodeString. by rewrite appendString_go_safe. Qed.

Lemma encodeString_empty : encodeString "" = String DQ (String DQ "").
Proof. reflexivity. Qed.

(** The encoder's output is never empty: it starts with a quote. *)
Lemma encodeString_starts (s : string) : exists t, encodeString s = String DQ t.
Proof. by eexists. Qed.

Lemma Marshal_shape (members : list (string * string)) :
  exists body, Marshal members = "{" +:+ body +:+ "}".
Proof. by eexists. Qed.

Example encode_plain : encodeString "hello" = String DQ ("hello" +:+ String DQ "").
Proof. reflexivity. Qed.

Example encode_html : appendString_go Scan "a<b>&c" = "a\u003cb\u003e\u0026c".
Proof. reflexivity. Qed.

Example encode_quote :
  appendString_go Scan (String DQ "x\y") = String "\" (String DQ "x\\y").
Proof. reflexivity. Qed.

Example encode_controls :
  appendString_go Scan (String LF (String "009" (String "001" ""))) = "\n\t\u0001".
Proof. reflexivity. Qed.

Example encode_utf8 : appendString_go Scan "✓ é" = "✓ é".
Proof. reflexivity. Qed.

Example encode_invalid :
  appendString_go Scan (String "255" (String "226" "x")) = "\ufffd\ufffdx".
Proof. reflexivity. Qed.

Example encode_line_separator :
  appendString_go Scan (String "226" (String "128" (String "168" "x"))) = "\u2028x".
Proof. reflexivity. Qed.

Example valid_check : ValidString "✓ ok" = true /\ ValidString (String "255" "") = false.
Proof. split; reflexivity. Qed.

Example marshal_two :
  Marshal [("level", "INFO"); ("message", "hi")]
  = "{" +:+ String DQ "level" +:+ String DQ ":" +:+ String DQ "INFO" +:+ String DQ ","
    +:+ String DQ "message" +:+ String DQ ":" +:+ String DQ "hi" +:+ String DQ "}".
Proof. reflexivity. Qed.

Example marshal_indent_two :
  MarshalIndent [("level", "INFO"); ("message", "hi")] "  " "  "
  = "{" +:+ String LF "    " +:+ String DQ "level" +:+ String DQ ": " +:+ String DQ "INFO"
    +:+ String DQ "," +:+ String LF "    " +:+ String DQ "message" +:+ String DQ ": "
    +:+ String DQ "hi" +:+ String DQ "" +:+ String LF "  }".
Proof. reflexivity. Qed.

End GoJson.
