(* ===== verification/GoOS.v ===== *)
(** * GoOS: packages [os] and [path/filepath] as the logger uses them

    Paths are cleaned lexically as [filepath.Clean] does and resolved to a
    list of components from the root.  The file system is a finite map from
    such lists to directories and regular files.  Open files live in a
    descriptor table with their offset, so that [Truncate], [Seek] and
    [WriteString] act on shared state as they do in the kernel and a handle
    that is never closed stays visible.  Every library call first consults a
    fault plan: a planned fault makes the call fail with that error and
    without effect, which is how permission errors, full disks and the like
    enter the model.  States that differ in the plan only are equivalent
    ([≡]); the readers of the tree and the invariants respect the
    equivalence, and the lemmas on what a call keeps are stated for
    properties that do. *)

From S2P Require Import Prelude.

Module GoOS.

(** ** Errors *)

Inductive Errno : Type :=
| ENOENT | EEXIST | ENOTDIR | EISDIR | EACCES | EINVAL | ENOSPC | EIO | EBADF.

#[export] Instance Errno_eq_dec : EqDecision Errno.
Proof. solve_decision. Defined.

Definition errno_string (e : Errno) : string :=
  match e with
  | ENOENT => "no such file or directory"
  | EEXIST => "file exists"
  | ENOTDIR => "not a directory"
  | EISDIR => "is a directory"
  | EACCES => "permission denied"
  | EINVAL => "invalid argument"
  | ENOSPC => "no space left on device"
  | EIO => "input/output error"
  | EBADF => "file already closed"
  end.

(** A Go [error]: an [*fs.PathError] of a failed call, or the value of
    [fmt.Errorf] and [errors.New], which is its text. *)
Inductive error : Type :=
| PathError (op path : string) (e : Errno)
| errorString (msg : string).

#[export] Instance error_eq_dec : EqDecision error.
Proof. solve_decision. Defined.

(** [err.Error()], which is also what [%v] prints. *)
Definition Error (e : error) : string :=
  match e with
  | PathError op path err => op +:+ " " +:+ path +:+ ": " +:+ errno_string err
  | errorString msg => msg
  end.

(** [fmt.Errorf(prefix + "%v", err)] *)
Definition Errorf (prefix : string) (err : error) : error :=
  errorString (prefix +:+ Error err).

(** [os.IsNotExist]: it does not look inside the text of other errors. *)
Definition IsNotExist (e : error) : bool :=
  match e with
  | PathError _ _ ENOENT => true
  | _ => false
  end.

(** ** Paths *)

Definition is_slash (c : ascii) : bool := Ascii.eqb c "/".

Fixpoint split (s : string) : list string :=
  match s with
  | EmptyString => [EmptyString]
  | String c rest =>
      if is_slash c then EmptyString :: split rest
      else match split rest with
           | h :: t => String c h :: t
           | [] => [String c EmptyString]
           end
  end.

Definition isRooted (p : string) : bool :=
  match p with
  | String c _ => is_slash c
  | EmptyString => false
  end.

(** The elements that remain, innermost first in [stack]. *)
Fixpoint clean_go (rooted : bool) (stack comps : list string) : list string :=
  match comps with
  | [] => rev stack
  | c :: cs =>
      if decide (c = "" \/ c = ".") then clean_go rooted stack cs
      else if decide (c = "..") then
        match stack with
        | top :: below =>
            if decide (top = "..") then clean_go rooted (c :: stack) cs
            else clean_go rooted below cs
        | [] => if rooted then clean_go rooted [] cs else clean_go rooted [c] cs
        end
      else clean_go rooted (c :: stack) cs
  end.

(** [filepath.Clean] *)
Definition Clean (p : string) : string :=
  let comps := clean_go (isRooted p) [] (split p) in
  if isRooted p then "/" +:+ Join comps "/"
  else match comps with
       | [] => "."
       | _ => Join comps "/"
       end.

(** [path[:i+1]] for the last separator [i], empty when there is none. *)
Fixpoint upto_last_slash (s : string) : string :=
  match s with
  | EmptyString => EmptyString
  | String c rest =>
      let r := upto_last_slash rest in
      if is_slash c || negb (bool_decide (r = "")) then String c r else EmptyString
  end.

(** [filepath.Dir] *)
Definition Dir (path : string) : string := Clean (upto_last_slash path).

(** The components of a path from the root, for a process whose working
    directory is [cwd]. *)
Definition resolve (cwd : list string) (p : string) : list string :=
  clean_go true (if isRooted p then [] else rev cwd) (split p).

(** ** The file system *)

Inductive Node : Type :=
| NDir
| NFile (data : string).

#[export] Instance Node_eq_dec : EqDecision Node.
Proof. solve_decision. Defined.

Inductive Flag : Type :=
| O_RDONLY | O_WRONLY | O_RDWR | O_APPEND | O_CREATE | O_TRUNC.

#[export] Instance Flag_eq_dec : EqDecision Flag.
Proof. solve_decision. Defined.

(** An open file description. *)
Record FileDesc : Type := mkFileDesc {
  of_name : string;
  of_key : list string;
  of_off : nat;
  of_append : bool
}.

Record OS : Type := mkOS {
  os_cwd : list string;
  os_nodes : gmap (list string) Node;
  os_fds : gmap nat FileDesc;
  os_next : nat;
  os_faults : list (option Errno)
}.

Definition with_nodes (f : gmap (list string) Node -> gmap (list string) Node) (o : OS) : OS :=
  {| os_cwd := os_cwd o; os_nodes := f (os_nodes o); os_fds := os_fds o;
     os_next := os_next o; os_faults := os_faults o |}.

Definition with_fds (f : gmap nat FileDesc -> gmap nat FileDesc) (o : OS) : OS :=
  {| os_cwd := os_cwd o; os_nodes := os_nodes o; os_fds := f (os_fds o);
     os_next := os_next o; os_faults := os_faults o |}.

Definition with_next (n : nat) (o : OS) : OS :=
  {| os_cwd := os_cwd o; os_nodes := os_nodes o; os_fds := os_fds o;
     os_next := n; os_faults := os_faults o |}.

Definition with_faults (l : list (option Errno)) (o : OS) : OS :=
  {| os_cwd := os_cwd o; os_nodes := os_nodes o; os_fds := os_fds o;
     os_next := os_next o; os_faults := l |}.

(** The root always exists. *)
Definition node_at (o : OS) (k : list string) : option Node :=
  match k with
  | [] => Some NDir
  | _ => os_nodes o !! k
  end.

Definition parent (k : list string) : list string := removelast k.

(** Why a path that is not there cannot be reached. *)
Definition missing (o : OS) (k : list string) : Errno :=
  match node_at o (parent k) with
  | Some NDir => ENOENT
  | Some (NFile _) => ENOTDIR
  | None => ENOENT
  end.

(** The content of a regular file, for the statements of the theorems. *)
Definition content (o : OS) (name : string) : option string :=
  match node_at o (resolve (os_cwd o) name) with
  | Some (NFile d) => Some d
  | _ => None
  end.

(** ** Library calls

    A call fails with the planned fault when there is one; otherwise its body
    runs.  The error is a [PathError] of the operation and the path. *)
Definition lift_errno {A} (op name : string) (r : result Errno A * OS) : result error A * OS :=
  match r with
  | (Ok a, o) => (Ok a, o)
  | (Err e, o) => (Err (PathError op name e), o)
  end.

Definition syscall {A} (op name : string) (body : OS -> result Errno A * OS) : M OS error A :=
  fun o =>
    match os_faults o with
    | Some e :: rest => (Err (PathError op name e), with_faults rest o)
    | None :: rest => lift_errno op name (body (with_faults rest o))
    | [] => lift_errno op name (body o)
    end.

(** [os.MkdirAll]: every missing directory on the way is created; a regular
    file on the way is an error. *)
Fixpoint mkdir_chain (pre todo : list string) (m : gmap (list string) Node)
  : result Errno (gmap (list string) Node) :=
  match todo with
  | [] => Ok m
  | c :: rest =>
      let p := pre ++ [c] in
      match m !! p with
      | Some NDir => mkdir_chain p rest m
      | Some (NFile _) => Err ENOTDIR
      | None => mkdir_chain p rest (<[p := NDir]> m)
      end
  end.

Definition MkdirAll (name : string) (perm : N) : M OS error unit :=
  syscall "mkdir" name (fun o =>
    match mkdir_chain [] (resolve (os_cwd o) name) (os_nodes o) with
    | Ok m => (Ok tt, with_nodes (fun _ => m) o)
    | Err e => (Err e, o)
    end).

Record FileInfo : Type := mkFileInfo {
  fi_size : Z;
  fi_isDir : bool
}.

Definition info_of (n : Node) : FileInfo :=
  match n with
  | NDir => {| fi_size := 4096; fi_isDir := true |}
  | NFile d => {| fi_size := Z.of_nat (String.length d); fi_isDir := false |}
  end.

(** [os.Stat] *)
Definition Stat (name : string) : M OS error FileInfo :=
  syscall "stat" name (fun o =>
    let k := resolve (os_cwd o) name in
    match node_at o k with
    | Some n => (Ok (info_of n), o)
    | None => (Err (missing o k), o)
    end).

Definition has (fl : Flag) (flags : list Flag) : bool := bool_decide (fl ∈ flags).

Definition new_fd (name : string) (k : list string) (flags : list Flag) (o : OS) : nat * OS :=
  let fd := os_next o in
  (fd, with_next (S fd)
         (with_fds (insert fd {| of_name := name; of_key := k; of_off := 0;
                                 of_append := has O_APPEND flags |}) o)).

(** [os.OpenFile].  The logger never opens a file for reading only; a
    directory cannot be opened for writing. *)
Definition OpenFile (name : string) (flags : list Flag) (perm : N) : M OS error nat :=
  syscall "open" name (fun o =>
    let k := resolve (os_cwd o) name in
    match node_at o k with
    | Some NDir => (Err EISDIR, o)
    | Some (NFile d) =>
        let o1 := if has O_TRUNC flags
                  then with_nodes (insert k (NFile "")) o else o in
        let '(fd, o2) := new_fd name k flags o1 in (Ok fd, o2)
    | None =>
        if has O_CREATE flags then
          match node_at o (parent k) with
          | Some NDir =>
              let '(fd, o2) := new_fd name k flags (with_nodes (insert k (NFile "")) o) in
              (Ok fd, o2)
          | Some (NFile _) => (Err ENOTDIR, o)
          | None => (Err ENOENT, o)
          end
        else (Err (missing o k), o)
    end).

(** [os.Create(name)] is [OpenFile(name, O_RDWR|O_CREATE|O_TRUNC, 0666)]. *)
Definition Create (name : string) : M OS error nat :=
  OpenFile name [O_RDWR; O_CREATE; O_TRUNC] 438.

(** A call on an open file: it fails with [EBADF] on a descriptor that is
    not open, and on one whose file is gone. *)
Definition on_file {A} (op : string) (fd : nat)
    (body : FileDesc -> string -> OS -> result Errno A * OS) : M OS error A :=
  fun o =>
    match os_fds o !! fd with
    | None => (Err (PathError op "" EBADF), o)
    | Some f =>
        syscall op (of_name f) (fun o' =>
          match node_at o' (of_key f) with
          | Some (NFile d) => body f d o'
          | _ => (Err EBADF, o')
          end) o
    end.

(** [file.Stat()] *)
Definition File_Stat (fd : nat) : M OS error FileInfo :=
  on_file "stat" fd (fun f d o => (Ok (info_of (NFile d)), o)).

(** A file of [n] bytes from [d]: cut, or extended with zero bytes. *)
Definition resize (n : nat) (d : string) : string :=
  Str.take n d +:+ Str.repeat "000"%char (n - String.length d).

(** [file.Truncate(size)]: the offset stays where it is. *)
Definition File_Truncate (fd : nat) (size : Z) : M OS error unit :=
  on_file "truncate" fd (fun f d o =>
    if (size <? 0)%Z then (Err EINVAL, o)
    else (Ok tt, with_nodes (insert (of_key f) (NFile (resize (Z.to_nat size) d))) o)).

Inductive Whence : Type := SeekStart | SeekCurrent | SeekEnd.

(** [file.Seek(offset, whence)] returns the new offset; a negative one is
    refused. *)
Definition File_Seek (fd : nat) (offset : Z) (whence : Whence) : M OS error Z :=
  on_file "seek" fd (fun f d o =>
    let base := match whence with
                | SeekStart => 0%Z
                | SeekCurrent => Z.of_nat (of_off f)
                | SeekEnd => Z.of_nat (String.length d)
                end in
    let pos := (base + offset)%Z in
    if (pos <? 0)%Z then (Err EINVAL, o)
    else (Ok pos, with_fds (insert fd {| of_name := of_name f; of_key := of_key f;
                                         of_off := Z.to_nat pos;
                                         of_append := of_append f |}) o)).

(** The bytes of a file after [s] is written at offset [off]. *)
Definition write_at (off : nat) (s d : string) : string :=
  resize off d +:+ s +:+ Str.drop (off + String.length s) d.

(** [file.WriteString(s)] and [file.Write(b)]: at the offset, or at the end
    of the file when it was opened with [O_APPEND]. *)
Definition File_WriteString (fd : nat) (s : string) : M OS error nat :=
  on_file "write" fd (fun f d o =>
    let off := if of_append f then String.length d else of_off f in
    (Ok (String.length s),
     with_fds (insert fd {| of_name := of_name f; of_key := of_key f;
                            of_off := off + String.length s;
                            of_append := of_append f |})
       (with_nodes (insert (of_key f) (NFile (write_at off s d))) o))).

(** [file.Close()]: the descriptor is released even when the call reports
    an error. *)
Definition File_Close (fd : nat) : M OS error unit :=
  fun o =>
    match os_fds o !! fd with
    | None => (Err (PathError "close" "" EBADF), o)
    | Some f =>
        syscall "close" (of_name f) (fun o' => (Ok tt, o'))
          (with_fds (delete fd) o)
    end.

(** What [defer file.Close()] does to the state. *)
Definition close_deferred (fd : nat) (o : OS) : OS := (File_Close fd o).2.

(** A machine whose disk holds the working directory and nothing else;
    descriptors 0 to 2 are the standard streams. *)
Definition empty_OS : OS :=
  {| os_cwd := ["home"; "app"];
     os_nodes := {[ ["home"] := NDir; ["home"; "app"] := NDir ]};
     os_fds := ∅; os_next := 3; os_faults := [] |}.

(** ** Well-formed states

    Every node but the root hangs in a directory, descriptors are handed
    out in increasing order, and an open descriptor names a regular file. *)

(** Every node hangs in a directory. *)
Definition tree_wf (o : OS) : Prop :=
  forall k n, os_nodes o !! k = Some n -> k <> [] /\ node_at o (parent k) = Some NDir.

(** Descriptors are numbered below [os_next]. *)
Definition fds_bounded (o : OS) : Prop :=
  forall fd f, os_fds o !! fd = Some f -> fd < os_next o.

(** An open descriptor names a regular file. *)
Definition fds_open (o : OS) : Prop :=
  forall fd f, os_fds o !! fd = Some f ->
    exists d, os_nodes o !! of_key f = Some (NFile d).

Definition wf (o : OS) : Prop := tree_wf o /\ fds_bounded o /\ fds_open o.

(** The path names an entry of the directory [filepath.Dir] gives for it. *)
Definition names_entry (cwd : list string) (p : string) : Prop :=
  parent (resolve cwd p) = resolve cwd (Dir p) /\ resolve cwd p <> [].

(** The number of open descriptors. *)
Definition open_count (o : OS) : nat := size (os_fds o).

(** ** States that differ in the plan of faults only

    What a state says of the files and of the descriptors does not depend
    on the faults still planned: two states are equivalent when they differ
    in the plan only.  The projections, the readers of the tree and the
    invariants respect the equivalence, so a plan is rewritten away. *)

#[export] Instance OS_equiv : Equiv OS := fun o o' =>
  os_cwd o = os_cwd o' /\ os_nodes o = os_nodes o' /\ os_fds o = os_fds o'
  /\ os_next o = os_next o'.

#[export] Instance OS_equivalence : Equivalence (≡@{OS}).
Proof.
  split; [by intros o|by intros o o' (?&?&?&?)|].
  intros o1 o2 o3 (?&?&?&?) (?&?&?&?). repeat split; congruence.
Qed.

#[export] Instance os_cwd_proper : Proper ((≡) ==> (=)) os_cwd.
Proof. by intros o o' (?&?&?&?). Qed.

#[export] Instance os_nodes_proper : Proper ((≡) ==> (=)) os_nodes.
Proof. by intros o o' (?&?&?&?). Qed.

#[export] Instance os_fds_proper : Proper ((≡) ==> (=)) os_fds.
Proof. by intros o o' (?&?&?&?). Qed.

#[export] Instance os_next_proper : Proper ((≡) ==> (=)) os_next.
Proof. by intros o o' (?&?&?&?). Qed.

#[export] Instance with_nodes_proper f : Proper ((≡) ==> (≡)) (with_nodes f).
Proof. intros o o' (?&?&?&?). repeat split; simpl; congruence. Qed.

#[export] Instance with_fds_proper f : Proper ((≡) ==> (≡)) (with_fds f).
Proof. intros o o' (?&?&?&?). repeat split; simpl; congruence. Qed.

#[export] Instance with_next_proper n : Proper ((≡) ==> (≡)) (with_next n).
Proof. by intros o o' (?&?&?&?). Qed.

#[export] Instance node_at_proper : Proper ((≡) ==> (=) ==> (=)) node_at.
Proof. intros o o' Ho [|x k] ? <-; [done|]. unfold node_at. by rewrite Ho. Qed.

#[export] Instance missing_proper : Proper ((≡) ==> (=) ==> (=)) missing.
Proof. intros o o' Ho k ? <-. unfold missing. by rewrite Ho. Qed.

#[export] Instance content_proper : Proper ((≡) ==> (=) ==> (=)) content.
Proof. intros o o' Ho p ? <-. unfold content. by rewrite Ho. Qed.

#[export] Instance tree_wf_proper : Proper ((≡) ==> iff) tree_wf.
Proof. intros o o' Ho. unfold tree_wf. by setoid_rewrite Ho. Qed.

#[export] Instance fds_bounded_proper : Proper ((≡) ==> iff) fds_bounded.
Proof. intros o o' Ho. unfold fds_bounded. by setoid_rewrite Ho. Qed.

#[export] Instance fds_open_proper : Proper ((≡) ==> iff) fds_open.
Proof. intros o o' Ho. unfold fds_open. by setoid_rewrite Ho. Qed.

#[export] Instance wf_proper : Proper ((≡) ==> iff) wf.
Proof. intros o o' Ho. unfold wf. by rewrite Ho. Qed.

#[export] Instance open_count_proper : Proper ((≡) ==> (=)) open_count.
Proof. intros o o' Ho. unfold open_count. by rewrite Ho. Qed.

(** The plan of a state is forgotten. *)
Lemma with_faults_equiv (l : list (option Errno)) (o : OS) : with_faults l o ≡ o.
Proof. done. Qed.

Lemma with_faults_id (o : OS) : with_faults (os_faults o) o = o.
Proof. by destruct o. Qed.

(** Equivalent states are one state under two plans. *)
Lemma equiv_with_faults (o o' : OS) : o ≡ o' <-> o = with_faults (os_faults o) o'.
Proof.
  split; [|intros ->; apply with_faults_equiv].
  destruct o, o'. intros (?&?&?&?); simpl in *. by subst.
Qed.

Lemma equiv_same_plan (o o' : OS) : o ≡ o' -> os_faults o = os_faults o' -> o = o'.
Proof. intros H%equiv_with_faults Hf. rewrite H, Hf. apply with_faults_id. Qed.

(** ** Lemmas: what a call does when no fault is planned *)

Section Run.
Context (o : OS) (Hnf : os_faults o = []).

Lemma syscall_run {A} (op name : string) (body : OS -> result Errno A * OS) :
  syscall op name body o = lift_errno op name (body o).
Proof. unfold syscall. by rewrite Hnf. Qed.

Lemma MkdirAll_run (name : string) (perm : N) (m : gmap (list string) Node) :
  mkdir_chain [] (resolve (os_cwd o) name) (os_nodes o) = Ok m ->
  MkdirAll name perm o = (Ok tt, with_nodes (fun _ => m) o).
Proof. intros Hm. unfold MkdirAll. rewrite syscall_run, Hm. done. Qed.

Lemma MkdirAll_notdir (name : string) (perm : N) (e : Errno) :
  mkdir_chain [] (resolve (os_cwd o) name) (os_nodes o) = Err e ->
  MkdirAll name perm o = (Err (PathError "mkdir" name e), o).
Proof. intros Hm. unfold MkdirAll. rewrite syscall_run, Hm. done. Qed.

Lemma Stat_found (name : string) (n : Node) :
  node_at o (resolve (os_cwd o) name) = Some n ->
  Stat name o = (Ok (info_of n), o).
Proof. intros Hn. unfold Stat. rewrite syscall_run, Hn. done. Qed.

Lemma Stat_missing (name : string) :
  node_at o (resolve (os_cwd o) name) = None ->
  Stat name o = (Err (PathError "stat" name (missing o (resolve (os_cwd o) name))), o).
Proof. intros Hn. unfold Stat. rewrite syscall_run, Hn. done. Qed.

Lemma OpenFile_existing (name : string) (flags : list Flag) (perm : N) (d : string) :
  node_at o (resolve (os_cwd o) name) = Some (NFile d) ->
  has O_TRUNC flags = false ->
  OpenFile name flags perm o
  = (Ok (os_next o), (new_fd name (resolve (os_cwd o) name) flags o).2).
Proof.
  intros Hn Ht. unfold OpenFile. rewrite syscall_run, Hn, Ht. done.
Qed.

Lemma OpenFile_creates (name : string) (flags : list Flag) (perm : N) :
  node_at o (resolve (os_cwd o) name) = None ->
  node_at o (parent (resolve (os_cwd o) name)) = Some NDir ->
  has O_CREATE flags = true ->
  OpenFile name flags perm o
  = (Ok (os_next o),
     (new_fd name (resolve (os_cwd o) name) flags
        (with_nodes (insert (resolve (os_cwd o) name) (NFile "")) o)).2).
Proof.
  intros Hn Hp Hc. unfold OpenFile. rewrite syscall_run, Hn, Hc, Hp. done.
Qed.

Lemma OpenFile_missing (name : string) (flags : list Flag) (perm : N) :
  node_at o (resolve (os_cwd o) name) = None ->
  has O_CREATE flags = false ->
  OpenFile name flags perm o
  = (Err (PathError "open" name (missing o (resolve (os_cwd o) name))), o).
Proof.
  intros Hn Hc. unfold OpenFile. rewrite syscall_run, Hn, Hc. done.
Qed.

Lemma OpenFile_directory (name : string) (flags : list Flag) (perm : N) :
  node_at o (resolve (os_cwd o) name) = Some NDir ->
  OpenFile name flags perm o = (Err (PathError "open" name EISDIR), o).
Proof. intros Hn. unfold OpenFile. rewrite syscall_run, Hn. done. Qed.

Lemma on_file_run {A} (op : string) (fd : nat) (f : FileDesc) (d : string)
    (body : FileDesc -> string -> OS -> result Errno A * OS) :
  os_fds o !! fd = Some f ->
  node_at o (of_key f) = Some (NFile d) ->
  on_file op fd body o = lift_errno op (of_name f) (body f d o).
Proof. intros Hf Hn. unfold on_file. rewrite Hf, syscall_run, Hn. done. Qed.

Lemma File_Stat_run (fd : nat) (f : FileDesc) (d : string) :
  os_fds o !! fd = Some f ->
  node_at o (of_key f) = Some (NFile d) ->
  File_Stat fd o
  = (Ok {| fi_size := Z.of_nat (String.length d); fi_isDir := false |}, o).
Proof. intros Hf Hn. unfold File_Stat. by rewrite (on_file_run _ _ _ _ _ Hf Hn). Qed.

Lemma File_Truncate_run (fd : nat) (f : FileDesc) (d : string) (size : Z) :
  os_fds o !! fd = Some f ->
  node_at o (of_key f) = Some (NFile d) ->
  (0 <= size)%Z ->
  File_Truncate fd size o
  = (Ok tt, with_nodes (insert (of_key f) (NFile (resize (Z.to_nat size) d))) o).
Proof.
  intros Hf Hn Hs. unfold File_Truncate. rewrite (on_file_run _ _ _ _ _ Hf Hn).
  destruct (Z.ltb_spec size 0); [lia|done].
Qed.

Lemma File_Seek_end (fd : nat) (f : FileDesc) (d : string) (offset : Z) :
  os_fds o !! fd = Some f ->
  node_at o (of_key f) = Some (NFile d) ->
  (0 <= Z.of_nat (String.length d) + offset)%Z ->
  File_Seek fd offset SeekEnd o
  = (Ok (Z.of_nat (String.length d) + offset)%Z,
     with_fds (insert fd {| of_name := of_name f; of_key := of_key f;
                            of_off := Z.to_nat (Z.of_nat (String.length d) + offset);
                            of_append := of_append f |}) o).
Proof.
  intros Hf Hn Hs. unfold File_Seek. rewrite (on_file_run _ _ _ _ _ Hf Hn).
  destruct (Z.ltb_spec (Z.of_nat (String.length d) + offset) 0); [lia|done].
Qed.

Lemma File_Seek_before_start (fd : nat) (f : FileDesc) (d : string) (offset : Z) :
  os_fds o !! fd = Some f ->
  node_at o (of_key f) = Some (NFile d) ->
  (Z.of_nat (String.length d) + offset < 0)%Z ->
  File_Seek fd offset SeekEnd o = (Err (PathError "seek" (of_name f) EINVAL), o).
Proof.
  intros Hf Hn Hs. unfold File_Seek. rewrite (on_file_run _ _ _ _ _ Hf Hn).
  destruct (Z.ltb_spec (Z.of_nat (String.length d) + offset) 0); [done|lia].
Qed.

Lemma File_WriteString_run (fd : nat) (f : FileDesc) (d s : string) :
  os_fds o !! fd = Some f ->
  node_at o (of_key f) = Some (NFile d) ->
  File_WriteString fd s o
  = (Ok (String.length s),
     let off := if of_append f then String.length d else of_off f in
     with_fds (insert fd {| of_name := of_name f; of_key := of_key f;
                            of_off := off + String.length s;
                            of_append := of_append f |})
       (with_nodes (insert (of_key f) (NFile (write_at off s d))) o)).
Proof. intros Hf Hn. unfold File_WriteString. by rewrite (on_file_run _ _ _ _ _ Hf Hn). Qed.

Lemma File_Close_run (fd : nat) (f : FileDesc) :
  os_fds o !! fd = Some f ->
  File_Close fd o = (Ok tt, with_fds (delete fd) o).
Proof.
  intros Hf. unfold File_Close. rewrite Hf. unfold syscall. simpl. by rewrite Hnf.
Qed.

Lemma close_deferred_run (fd : nat) (f : FileDesc) :
  os_fds o !! fd = Some f -> close_deferred fd o = with_fds (delete fd) o.
Proof. intros Hf. unfold close_deferred. by rewrite (File_Close_run _ _ Hf). Qed.

End Run.

(** A planned fault is what the call returns, and the call has no other
    effect. *)
Lemma syscall_fault {A} (op name : string) (body : OS -> result Errno A * OS)
    (o : OS) (e : Errno) (rest : list (option Errno)) :
  os_faults o = Some e :: rest ->
  syscall op name body o = (Err (PathError op name e), with_faults rest o).
Proof. unfold syscall. by intros ->. Qed.

(** ** Lemmas: files written through a descriptor *)

Lemma resize_length (d : string) : resize (String.length d) d = d.
Proof.
  unfold resize. rewrite Str.take_ge by lia.
  by rewrite Nat.sub_diag, Str.app_nil_r.
Qed.

Lemma resize_le (n : nat) (d : string) : n <= String.length d -> resize n d = Str.take n d.
Proof.
  intros Hn. unfold resize. replace (n - String.length d) with 0 by lia.
  by rewrite Str.app_nil_r.
Qed.

Lemma length_resize (n : nat) (d : string) : String.length (resize n d) = n.
Proof.
  unfold resize. rewrite Str.length_app, Str.length_take, Str.length_repeat. lia.
Qed.

(** Writing at the end of a file appends. *)
Lemma write_at_end (s d : string) : write_at (String.length d) s d = d +:+ s.
Proof.
  unfold write_at. rewrite resize_length, Str.drop_ge by lia.
  by rewrite Str.app_nil_r.
Qed.

(** Writing over the tail of a file replaces the tail. *)
Lemma write_at_tail (s d1 d2 : string) :
  String.length d2 <= String.length s ->
  write_at (String.length d1) s (d1 +:+ d2) = d1 +:+ s.
Proof.
  intros Hl. unfold write_at.
  rewrite resize_le by (rewrite Str.length_app; lia).
  rewrite Str.take_app_length, Str.drop_ge; [by rewrite Str.app_nil_r|].
  rewrite Str.length_app. lia.
Qed.

(** What truncate-by-one, seek-back-by-one and write leave of a file: its
    last two bytes are replaced by what is written. *)
Lemma write_over_last_byte (s d : string) :
  2 <= String.length d -> 1 <= String.length s ->
  write_at (String.length d - 2) s (resize (String.length d - 1) d)
  = Str.drop_end 2 d +:+ s.
Proof.
  intros Hd Hs. rewrite resize_le by lia. unfold Str.drop_end.
  rewrite <- (Str.take_drop (String.length d - 2) (Str.take (String.length d - 1) d)) at 1.
  rewrite Str.take_take, Nat.min_l by lia.
  set (d1 := Str.take (String.length d - 2) d).
  assert (Hl : String.length d1 = String.length d - 2).
  { unfold d1. rewrite Str.length_take. lia. }
  rewrite <- Hl at 1.
  apply write_at_tail.
  rewrite Str.length_drop, !Str.length_take. lia.
Qed.

(** Seek-back-by-one and write: the last byte is replaced. *)
Lemma write_at_last (s d : string) :
  1 <= String.length d -> 1 <= String.length s ->
  write_at (String.length d - 1) s d = Str.drop_end 1 d +:+ s.
Proof.
  intros Hd Hs. unfold Str.drop_end.
  rewrite <- (Str.take_drop (String.length d - 1) d) at 2.
  replace (String.length d - 1) with (String.length (Str.take (String.length d - 1) d)) at 1
    by (rewrite Str.length_take; lia).
  apply write_at_tail. rewrite Str.length_drop. lia.
Qed.

Lemma write_at_empty (s : string) : write_at 0 s "" = s.
Proof. apply (write_at_end s ""). Qed.

Lemma node_at_cons (o : OS) (c : string) (k : list string) :
  node_at o (c :: k) = os_nodes o !! (c :: k).
Proof. reflexivity. Qed.

Lemma node_at_ne (o : OS) (k : list string) : k <> [] -> node_at o k = os_nodes o !! k.
Proof. by destruct k. Qed.

(** ** Lemmas: [MkdirAll] *)

(** The paths [MkdirAll] visits from [pre] on: [pre] extended by a
    non-empty prefix of [todo]. *)
Definition on_way (pre todo k : list string) : Prop :=
  exists t1 t2, todo = t1 ++ t2 /\ t1 <> [] /\ k = pre ++ t1.

(** The same paths as a list, and the test that none is a regular file. *)
Fixpoint way (pre todo : list string) : list (list string) :=
  match todo with
  | [] => []
  | c :: rest => (pre ++ [c]) :: way (pre ++ [c]) rest
  end.

Definition way_free (m : gmap (list string) Node) (pre todo : list string) : bool :=
  forallb (fun k => match m !! k with Some (NFile _) => false | _ => true end)
          (way pre todo).

Lemma on_way_nil (pre k : list string) : ~ on_way pre [] k.
Proof. intros (t1 & t2 & Ht & Hne & _). by destruct t1. Qed.

Lemma on_way_cons (pre : list string) (c : string) (rest k : list string) :
  on_way pre (c :: rest) k <-> k = pre ++ [c] \/ on_way (pre ++ [c]) rest k.
Proof.
  split.
  - intros (t1 & t2 & Ht & Hne & ->). destruct t1 as [|c' t1]; [done|].
    simplify_eq/=. destruct t1 as [|c'' t1]; [by left|right].
    exists (c'' :: t1), t2. by rewrite <- (assoc_L app).
  - intros [->|(t1 & t2 & -> & Hne & ->)].
    + by exists [c], rest.
    + exists (c :: t1), t2. by rewrite <- (assoc_L app).
Qed.

Lemma on_way_way (todo pre k : list string) : on_way pre todo k <-> k ∈ way pre todo.
Proof.
  revert pre. induction todo as [|c rest IH]; intros pre; simpl.
  - split; [by intros ?%on_way_nil|by intros ?%elem_of_nil].
  - rewrite on_way_cons, elem_of_cons, IH. done.
Qed.

Lemma way_free_spec (m : gmap (list string) Node) (pre todo : list string) :
  way_free m pre todo = true ->
  forall k d, on_way pre todo k -> m !! k <> Some (NFile d).
Proof.
  unfold way_free. rewrite forallb_forall. intros H k d Hk%on_way_way Hm.
  apply list_elem_of_In, H in Hk. by rewrite Hm in Hk.
Qed.

Lemma way_free_complete (m : gmap (list string) Node) (pre todo : list string) :
  (forall k d, on_way pre todo k -> m !! k <> Some (NFile d)) ->
  way_free m pre todo = true.
Proof.
  intros H. unfold way_free. rewrite forallb_forall. intros k Hk%list_elem_of_In%on_way_way.
  specialize (H k). destruct (m !! k) as [[|d]|]; [done| |done]. by destruct (H d).
Qed.

Lemma on_way_longer (pre todo k : list string) :
  on_way pre todo k -> length pre < length k <= length pre + length todo.
Proof.
  intros (t1 & t2 & -> & Hne & ->). rewrite !length_app.
  destruct t1; [done|simpl; lia].
Qed.

Lemma on_way_target (pre todo : list string) : todo <> [] -> on_way pre todo (pre ++ todo).
Proof. intros. exists todo, []. by rewrite app_nil_r. Qed.

Lemma mkdir_chain_off_way (todo pre : list string) (m m' : gmap (list string) Node)
    (k : list string) :
  mkdir_chain pre todo m = Ok m' -> ~ on_way pre todo k -> m' !! k = m !! k.
Proof.
  revert pre m. induction todo as [|c rest IH]; intros pre m Hm Hk; simpl in Hm.
  - by simplify_eq.
  - rewrite on_way_cons in Hk.
    destruct (m !! (pre ++ [c])) as [[|d]|] eqn:Hp; [|done|].
    + apply (IH _ _ Hm). tauto.
    + rewrite (IH _ _ Hm) by tauto. apply lookup_insert_ne. naive_solver.
Qed.

Lemma mkdir_chain_on_way (todo pre : list string) (m m' : gmap (list string) Node)
    (k : list string) :
  mkdir_chain pre todo m = Ok m' -> on_way pre todo k -> m' !! k = Some NDir.
Proof.
  revert pre m. induction todo as [|c rest IH]; intros pre m Hm Hk; simpl in Hm.
  - by apply on_way_nil in Hk.
  - apply on_way_cons in Hk.
    assert (Hself : ~ on_way (pre ++ [c]) rest (pre ++ [c])).
    { intros Hw%on_way_longer. lia. }
    destruct (m !! (pre ++ [c])) as [[|d]|] eqn:Hp; [|done|];
      (destruct Hk as [->|Hk]; [|by apply (IH _ _ Hm)]);
      rewrite (mkdir_chain_off_way _ _ _ _ _ Hm Hself); [done|].
    apply lookup_insert_eq.
Qed.

(** [MkdirAll] succeeds unless a regular file is in the way. *)
Lemma mkdir_chain_ok (todo pre : list string) (m : gmap (list string) Node) :
  (forall k d, on_way pre todo k -> m !! k <> Some (NFile d)) ->
  exists m', mkdir_chain pre todo m = Ok m'.
Proof.
  revert pre m. induction todo as [|c rest IH]; intros pre m Hfree; simpl.
  - by eexists.
  - destruct (m !! (pre ++ [c])) as [[|d]|] eqn:Hp.
    + apply IH. intros k d Hk. apply Hfree, on_way_cons. by right.
    + exfalso. apply (Hfree (pre ++ [c]) d); [|done]. apply on_way_cons. by left.
    + apply IH. intros k d Hk.
      assert (k <> pre ++ [c]).
      { intros ->. apply on_way_longer in Hk. lia. }
      rewrite lookup_insert_ne by done. apply Hfree, on_way_cons. by right.
Qed.

Lemma mkdir_chain_blocked (todo pre : list string) (m : gmap (list string) Node)
    (e : Errno) :
  mkdir_chain pre todo m = Err e ->
  e = ENOTDIR /\ exists k, on_way pre todo k.
Proof.
  revert pre m. induction todo as [|c rest IH]; intros pre m Hm; simpl in Hm; [done|].
  destruct (m !! (pre ++ [c])) as [[|d]|] eqn:Hp.
  - destruct (IH _ _ Hm) as [-> [k Hk]]. split; [done|].
    exists k. apply on_way_cons. by right.
  - simplify_eq. split; [done|]. exists (pre ++ [c]). apply on_way_cons. by left.
  - destruct (IH _ _ Hm) as [-> [k Hk]]. split; [done|].
    exists k. apply on_way_cons. by right.
Qed.

(** Nodes that were there stay what they were. *)
Lemma mkdir_chain_keeps (todo pre : list string) (m m' : gmap (list string) Node)
    (k : list string) (n : Node) :
  mkdir_chain pre todo m = Ok m' -> m !! k = Some n -> m' !! k = Some n.
Proof.
  revert pre m. induction todo as [|c rest IH]; intros pre m Hm Hk; simpl in Hm.
  - by simplify_eq.
  - destruct (m !! (pre ++ [c])) as [[|d]|] eqn:Hp; [by eapply IH|done|].
    eapply IH; [done|]. rewrite lookup_insert_ne; [done|]. congruence.
Qed.

(** What is there afterwards was there before, or is a new directory. *)
(** A chain that succeeds met no regular file. *)
Lemma mkdir_chain_free (todo pre : list string) (m m' : gmap (list string) Node) :
  mkdir_chain pre todo m = Ok m' -> way_free m pre todo = true.
Proof.
  intros Hm. apply way_free_complete. intros k d Hk Hf.
  pose proof (mkdir_chain_keeps _ _ _ _ _ _ Hm Hf).
  pose proof (mkdir_chain_on_way _ _ _ _ _ Hm Hk). congruence.
Qed.

Lemma mkdir_chain_new (todo pre : list string) (m m' : gmap (list string) Node)
    (k : list string) (n : Node) :
  mkdir_chain pre todo m = Ok m' -> m' !! k = Some n ->
  m !! k = Some n \/ (m !! k = None /\ n = NDir /\ on_way pre todo k).
Proof.
  revert pre m. induction todo as [|c rest IH]; intros pre m Hm Hk; simpl in Hm.
  - left. by simplify_eq.
  - destruct (m !! (pre ++ [c])) as [[|d]|] eqn:Hp; [|done|].
    + destruct (IH _ _ Hm Hk) as [?|(? & ? & ?)]; [by left|right].
      rewrite on_way_cons. tauto.
    + destruct (decide (k = pre ++ [c])) as [->|Hne].
      * right. rewrite on_way_cons.
        destruct (IH _ _ Hm Hk) as [Hi|(Hi & _)];
          rewrite lookup_insert_eq in Hi; naive_solver.
      * destruct (IH _ _ Hm Hk) as [Hi|(Hi & ? & ?)];
          rewrite lookup_insert_ne in Hi by done; [by left|right].
        rewrite on_way_cons. tauto.
Qed.

Lemma parent_ne (k : list string) : k <> [] -> parent k <> k.
Proof.
  intros Hk Heq. apply (f_equal length) in Heq. unfold parent in Heq.
  destruct k as [|x l] using rev_ind; [done|].
  rewrite removelast_last, length_app in Heq. simpl in Heq. lia.
Qed.

Lemma names_entry_off_way (cwd : list string) (p : string) :
  names_entry cwd p -> ~ on_way [] (resolve cwd (Dir p)) (resolve cwd p).
Proof.
  intros [Hp Hne] Hw%on_way_longer. rewrite <- Hp in Hw. unfold parent in Hw.
  destruct (resolve cwd p) as [|c k] using rev_ind; [done|].
  rewrite removelast_last, length_app in Hw. simpl in Hw. lia.
Qed.

(** The directory is there once [MkdirAll] has run. *)
Lemma mkdir_chain_target (todo : list string) (m m' : gmap (list string) Node) (o : OS) :
  mkdir_chain [] todo m = Ok m' ->
  node_at (with_nodes (fun _ => m') o) todo = Some NDir.
Proof.
  intros Hm. destruct todo as [|c t]; [done|].
  simpl. apply (mkdir_chain_on_way _ _ _ _ _ Hm). by apply (on_way_target []).
Qed.

Lemma fds_bounded_fresh (o : OS) (n : nat) :
  fds_bounded o -> os_fds o !! (n + os_next o) = None.
Proof.
  intros Hb. destruct (os_fds o !! (n + os_next o)) as [f|] eqn:Hf; [|done].
  apply Hb in Hf. lia.
Qed.

Lemma content_node (o : OS) (p : string) :
  resolve (os_cwd o) p <> [] ->
  content o p = match os_nodes o !! resolve (os_cwd o) p with
                | Some (NFile d) => Some d
                | _ => None
                end.
Proof. intros Hne. unfold content. by rewrite node_at_ne. Qed.

(** ** One open file

    The states a function passes through while it works on one file
    through one descriptor, and what each call does to them. *)

Section Opened.
Context (cwd : list string) (M : gmap (list string) Node) (F : gmap nat FileDesc).
Context (name : string) (k : list string) (fd : nat).
Context (Hk : k <> []) (Hname : resolve cwd name = k) (Hfd : F !! fd = None).

(** The file is not there. *)
Definition st_missing (nx : nat) : OS :=
  {| os_cwd := cwd; os_nodes := M; os_fds := F; os_next := nx; os_faults := [] |}.

(** The file holds [d]; the descriptors are those of [F]. *)
Definition st_closed (nx : nat) (d : string) : OS :=
  {| os_cwd := cwd; os_nodes := <[k := NFile d]> M; os_fds := F; os_next := nx;
     os_faults := [] |}.

(** The file holds [d] and is open at offset [off]. *)
Definition st_open (nx : nat) (d : string) (off : nat) : OS :=
  {| os_cwd := cwd; os_nodes := <[k := NFile d]> M;
     os_fds := <[fd := {| of_name := name; of_key := k; of_off := off;
                          of_append := false |}]> F;
     os_next := nx; os_faults := [] |}.

Lemma open_existing (d : string) (flags : list Flag) (perm : N) :
  has O_TRUNC flags = false -> has O_APPEND flags = false ->
  OpenFile name flags perm (st_closed fd d) = (Ok fd, st_open (S fd) d 0).
Proof using Hk Hname.
  intros Ht Ha. erewrite OpenFile_existing; [|done| |done].
  - unfold new_fd, st_open; simpl. by rewrite Hname, Ha.
  - simpl. rewrite Hname, node_at_ne by done. simpl. apply lookup_insert_eq.
Qed.

Lemma create_missing :
  M !! k = None -> node_at (st_missing fd) (parent k) = Some NDir ->
  Create name (st_missing fd) = (Ok fd, st_open (S fd) "" 0).
Proof using Hk Hname.
  intros Hm Hp. unfold Create.
  rewrite (OpenFile_creates (st_missing fd) eq_refl name); [| |simpl; by rewrite Hname|done].
  - unfold new_fd, st_open; simpl. by rewrite Hname.
  - simpl. by rewrite Hname, node_at_ne.
Qed.

Lemma stat_open (nx : nat) (d : string) (off : nat) :
  File_Stat fd (st_open nx d off)
  = (Ok {| fi_size := Z.of_nat (String.length d); fi_isDir := false |}, st_open nx d off).
Proof using Hk.
  eapply File_Stat_run; [done|apply lookup_insert_eq|].
  simpl. rewrite node_at_ne by done. apply lookup_insert_eq.
Qed.

Lemma truncate_open (nx : nat) (d : string) (off : nat) (size : Z) :
  (0 <= size)%Z ->
  File_Truncate fd size (st_open nx d off)
  = (Ok tt, st_open nx (resize (Z.to_nat size) d) off).
Proof using Hk.
  intros Hs. erewrite File_Truncate_run; [|done|apply lookup_insert_eq| |done].
  - unfold st_open, with_nodes; simpl. by rewrite insert_insert_eq.
  - simpl. rewrite node_at_ne by done. apply lookup_insert_eq.
Qed.

Lemma seek_end_open (nx : nat) (d : string) (off : nat) (offset : Z) :
  (0 <= Z.of_nat (String.length d) + offset)%Z ->
  File_Seek fd offset SeekEnd (st_open nx d off)
  = (Ok (Z.of_nat (String.length d) + offset)%Z,
     st_open nx d (Z.to_nat (Z.of_nat (String.length d) + offset))).
Proof using Hk.
  intros Hs. erewrite File_Seek_end; [|done|apply lookup_insert_eq| |done].
  - unfold st_open, with_fds; simpl. by rewrite insert_insert_eq.
  - simpl. rewrite node_at_ne by done. apply lookup_insert_eq.
Qed.

Lemma write_open (nx : nat) (d s : string) (off : nat) :
  File_WriteString fd s (st_open nx d off)
  = (Ok (String.length s), st_open nx (write_at off s d) (off + String.length s)).
Proof using Hk.
  erewrite File_WriteString_run; [|done|apply lookup_insert_eq|].
  - unfold st_open, with_fds, with_nodes; simpl. by rewrite !insert_insert_eq.
  - simpl. rewrite node_at_ne by done. apply lookup_insert_eq.
Qed.

(** [Seek(0, io.SeekEnd)] and a write: the text is appended. *)
Lemma append_open (nx : nat) (d s : string) (off : nat) :
  bind (File_Seek fd 0 SeekEnd) (fun _ => File_WriteString fd s) (st_open nx d off)
  = (Ok (String.length s), st_open nx (d +:+ s) (String.length (d +:+ s))).
Proof using Hk.
  rewrite (bind_ok _ _ _ _ _ (seek_end_open nx d off 0 ltac:(lia))), write_open.
  replace (Z.to_nat (Z.of_nat (String.length d) + 0)) with (String.length d) by lia.
  by rewrite write_at_end, Str.length_app.
Qed.

(** A write at the end of the file. *)
Lemma write_more (nx : nat) (d s : string) :
  File_WriteString fd s (st_open nx d (String.length d))
  = (Ok (String.length s), st_open nx (d +:+ s) (String.length (d +:+ s))).
Proof using Hk. by rewrite write_open, write_at_end, Str.length_app. Qed.

(** The same steps with the code that follows them. *)
Lemma stat_then {A} (nx : nat) (d : string) (off : nat) (rest : FileInfo -> Prelude.M OS error A) :
  bind (File_Stat fd) rest (st_open nx d off)
  = rest {| fi_size := Z.of_nat (String.length d); fi_isDir := false |} (st_open nx d off).
Proof using Hk. by rewrite (bind_ok _ _ _ _ _ (stat_open nx d off)). Qed.

Lemma truncate_then {A} (nx : nat) (d : string) (off : nat) (size : Z) (rest : Prelude.M OS error A) :
  (0 <= size)%Z ->
  bind (File_Truncate fd size) (fun _ => rest) (st_open nx d off)
  = rest (st_open nx (resize (Z.to_nat size) d) off).
Proof using Hk. intros Hs. by rewrite (bind_ok _ _ _ _ _ (truncate_open nx d off size Hs)). Qed.

Lemma seek_end_then {A} (nx : nat) (d : string) (off : nat) (rest : Prelude.M OS error A) :
  bind (File_Seek fd 0 SeekEnd) (fun _ => rest) (st_open nx d off)
  = rest (st_open nx d (String.length d)).
Proof using Hk.
  rewrite (bind_ok _ _ _ _ _ (seek_end_open nx d off 0 ltac:(lia))).
  by replace (Z.to_nat (Z.of_nat (String.length d) + 0)) with (String.length d) by lia.
Qed.

Lemma append_then {A} (nx : nat) (d s : string) (off : nat) (rest : Prelude.M OS error A) :
  bind (File_Seek fd 0 SeekEnd) (fun _ => bind (File_WriteString fd s) (fun _ => rest))
    (st_open nx d off)
  = rest (st_open nx (d +:+ s) (String.length (d +:+ s))).
Proof using Hk.
  rewrite <- (bind_assoc (File_Seek fd 0 SeekEnd) (fun _ => File_WriteString fd s)).
  by rewrite (bind_ok _ _ _ _ _ (append_open nx d s off)).
Qed.

Lemma write_then {A} (nx : nat) (d s : string) (rest : Prelude.M OS error A) :
  bind (File_WriteString fd s) (fun _ => rest) (st_open nx d (String.length d))
  = rest (st_open nx (d +:+ s) (String.length (d +:+ s))).
Proof using Hk. by rewrite (bind_ok _ _ _ _ _ (write_more nx d s)). Qed.

Lemma close_open (nx : nat) (d : string) (off : nat) :
  File_Close fd (st_open nx d off) = (Ok tt, st_closed nx d).
Proof using Hfd.
  erewrite File_Close_run; [|done|apply lookup_insert_eq].
  unfold st_closed, with_fds; simpl. by rewrite delete_insert_eq, delete_id.
Qed.

Lemma close_deferred_open (nx : nat) (d : string) (off : nat) :
  close_deferred fd (st_open nx d off) = st_closed nx d.
Proof using Hfd. unfold close_deferred. by rewrite close_open. Qed.

End Opened.

(** Runs the steps on the open file at the head of the goal. *)
Ltac file_run :=
  repeat first [rewrite bind_assoc | rewrite bind_ret_l | rewrite stat_then by done
               |rewrite truncate_then by (done || lia) | rewrite seek_end_then by done
               |rewrite write_then by done]; simpl.

(** ** Paths that can be saved to

    A state and a path on which making the directory and opening the file
    cannot fail: no fault is planned, the path names an entry of its directory, no regular file is in
    the way to that directory, and the path is not a directory itself. *)
Definition savable (o : OS) (p : string) : Prop :=
  os_faults o = [] /\ fds_bounded o /\ names_entry (os_cwd o) p
  /\ (forall k d, on_way [] (resolve (os_cwd o) (Dir p)) k ->
                  os_nodes o !! k <> Some (NFile d))
  /\ os_nodes o !! resolve (os_cwd o) p <> Some NDir.

(** [savable] as a test, for concrete states. *)
Definition savableb (o : OS) (p : string) : bool :=
  bool_decide (os_faults o = [])
  && bool_decide (map_Forall (fun fd _ => fd < os_next o) (os_fds o))
  && bool_decide (parent (resolve (os_cwd o) p) = resolve (os_cwd o) (Dir p))
  && negb (bool_decide (resolve (os_cwd o) p = []))
  && way_free (os_nodes o) [] (resolve (os_cwd o) (Dir p))
  && negb (bool_decide (os_nodes o !! resolve (os_cwd o) p = Some NDir)).

Lemma savableb_sound (o : OS) (p : string) : savableb o p = true -> savable o p.
Proof.
  unfold savableb, savable, names_entry, fds_bounded.
  rewrite !andb_true_iff, !negb_true_iff, !bool_decide_eq_true, !bool_decide_eq_false.
  intros [[[[[Hf Hb] Hp] Hne] Hw] Hd].
  split_and!; [done|exact Hb|done|done|by apply way_free_spec|done].
Qed.

(** What [MkdirAll] on the directory of such a path does: the missing
    directories are made, the entry of the path is as before, and its
    directory is there. *)
Lemma MkdirAll_savable (o : OS) (p : string) (perm : N) :
  savable o p ->
  exists m, mkdir_chain [] (resolve (os_cwd o) (Dir p)) (os_nodes o) = Ok m
    /\ MkdirAll (Dir p) perm o = (Ok tt, with_nodes (fun _ => m) o)
    /\ m !! resolve (os_cwd o) p = os_nodes o !! resolve (os_cwd o) p
    /\ node_at (with_nodes (fun _ => m) o) (parent (resolve (os_cwd o) p)) = Some NDir.
Proof.
  intros (Hnf & Hb & Hname & Hfree & Hnd).
  destruct (mkdir_chain_ok _ _ _ Hfree) as [m Hm]. exists m. split_and!; [done| | |].
  - by apply MkdirAll_run.
  - apply (mkdir_chain_off_way _ _ _ _ _ Hm). by apply names_entry_off_way.
  - rewrite (proj1 Hname). by eapply mkdir_chain_target.
Qed.

(** Existing nodes stay, and the path can be saved to again, when the
    directories are made and the entry of the path becomes a file. *)
Lemma savable_insert (o : OS) (p data : string) (m : gmap (list string) Node) (n : nat) :
  savable o p ->
  mkdir_chain [] (resolve (os_cwd o) (Dir p)) (os_nodes o) = Ok m ->
  savable {| os_cwd := os_cwd o; os_nodes := <[resolve (os_cwd o) p := NFile data]> m;
             os_fds := os_fds o; os_next := n + os_next o; os_faults := os_faults o |} p.
Proof.
  intros (Hnf & Hb & Hname & Hfree & Hnd) Hm. unfold savable. simpl.
  split; [done|]. split; [|split; [done|split]].
  - intros fd f Hf. apply Hb in Hf. simpl. lia.
  - intros k d Hk. rewrite lookup_insert_ne.
    + by rewrite (mkdir_chain_on_way _ _ _ _ _ Hm Hk).
    + intros <-. by apply (names_entry_off_way _ _ Hname).
  - by rewrite lookup_insert_eq.
Qed.

(** The path can be saved to again when its entry has become a file and
    descriptors were closed. *)
Lemma savable_file (o o' : OS) (p d : string) :
  savable o p -> os_cwd o' = os_cwd o ->
  os_nodes o' = <[resolve (os_cwd o) p := NFile d]> (os_nodes o) ->
  os_fds o' ⊆ os_fds o -> os_next o' = os_next o -> os_faults o' = [] ->
  savable o' p.
Proof.
  intros (Hnf & Hb & Hname & Hfree & Hnd) Hc Hn Hf Hx Hfl. unfold savable.
  rewrite Hc, Hn. split_and!; [done| |done| |by rewrite lookup_insert_eq].
  - intros fd f H. rewrite Hx. eapply Hb, lookup_weaken; done.
  - intros k d' Hk. rewrite lookup_insert_ne; [by apply Hfree|].
    intros <-. by apply (names_entry_off_way _ _ Hname).
Qed.

(** The directory of the path is there once the directories are made and
    the entry of the path is a file. *)
Lemma made_directory (o o' : OS) (p data : string) (m : gmap (list string) Node) :
  names_entry (os_cwd o) p ->
  mkdir_chain [] (resolve (os_cwd o) (Dir p)) (os_nodes o) = Ok m ->
  os_nodes o' = <[resolve (os_cwd o) p := NFile data]> m ->
  node_at o' (resolve (os_cwd o) (Dir p)) = Some NDir.
Proof.
  intros [Hp Hne] Hm Ho'. pose proof (parent_ne _ Hne) as Hk. rewrite Hp in Hk.
  destruct (resolve (os_cwd o) (Dir p)) as [|c t] eqn:HD; [done|]. simpl.
  rewrite Ho', lookup_insert_ne by done.
  apply (mkdir_chain_on_way _ _ _ _ _ Hm). by apply (on_way_target []).
Qed.

(** ** Descriptors in use

    The invariant behind "no handle stays open": it holds before and after
    every library call, on the error paths and under every fault plan. *)

(** The descriptors of [F], numbered below [n0], are open as they were, and
    beyond them exactly those of [X] are open. *)
Definition fd_inv (F : gmap nat FileDesc) (n0 : nat) (X : gset nat) (o : OS) : Prop :=
  n0 <= os_next o
  /\ (forall fd, fd < n0 -> os_fds o !! fd = F !! fd)
  /\ (forall fd, n0 <= fd -> fd ∉ X -> os_fds o !! fd = None)
  /\ (forall fd, fd ∈ X -> n0 <= fd < os_next o).

(** A postcondition that does not look at the error. *)
Definition post {A} (Q : A -> OS -> Prop) (QE : OS -> Prop) (r : result error A) (o : OS) : Prop :=
  match r with
  | Ok a => Q a o
  | Err _ => QE o
  end.

#[export] Instance fd_inv_proper F n0 X : Proper ((≡) ==> iff) (fd_inv F n0 X).
Proof. intros o o' Ho. unfold fd_inv. by setoid_rewrite Ho. Qed.

Lemma post_same {A} (P : OS -> Prop) (r : result error A) (o : OS) :
  post (fun _ => P) P r o -> P o.
Proof. by destruct r. Qed.

Section Descriptors.
Context (F : gmap nat FileDesc) (n0 : nat).

Lemma fd_inv_init (o : OS) : fds_bounded o -> fd_inv (os_fds o) (os_next o) ∅ o.
Proof.
  intros Hb. split_and!; [done|done| |set_solver].
  intros fd Hfd _. destruct (os_fds o !! fd) eqn:H; [|done]. apply Hb in H. lia.
Qed.

Lemma fd_inv_done (o o' : OS) :
  fds_bounded o -> fd_inv (os_fds o) (os_next o) ∅ o' ->
  os_fds o' = os_fds o /\ fds_bounded o'.
Proof.
  intros Hb (Hn & Hlo & Hhi & _).
  assert (os_fds o' = os_fds o) as Heq.
  { apply map_eq. intros fd. destruct (decide (fd < os_next o)) as [|Hge]; [by apply Hlo|].
    rewrite Hhi by (set_solver || lia).
    destruct (os_fds o !! fd) eqn:H; [|done]. apply Hb in H. lia. }
  split; [done|]. intros fd f. rewrite Heq. intros H%Hb. lia.
Qed.

Lemma fd_inv_nodes (X : gset nat) (f : gmap (list string) Node -> gmap (list string) Node)
    (o : OS) :
  fd_inv F n0 X o -> fd_inv F n0 X (with_nodes f o).
Proof. done. Qed.

Lemma fd_inv_new (X : gset nat) (name : string) (k : list string) (flags : list Flag) (o : OS) :
  fd_inv F n0 X o ->
  fd_inv F n0 (X ∪ {[ (new_fd name k flags o).1 ]}) (new_fd name k flags o).2.
Proof.
  intros (Hn & Hlo & Hhi & HX). unfold new_fd; simpl. split_and!; simpl.
  - lia.
  - intros fd Hfd. rewrite lookup_insert_ne by lia. by apply Hlo.
  - intros fd Hfd Hx. rewrite lookup_insert_ne by set_solver. apply Hhi; [done|set_solver].
  - intros fd [Hx| ->%elem_of_singleton]%elem_of_union; [|lia]. apply HX in Hx. lia.
Qed.

Lemma fd_inv_update (X : gset nat) (fd : nat) (f : FileDesc) (o : OS) :
  fd ∈ X -> fd_inv F n0 X o -> fd_inv F n0 X (with_fds (insert fd f) o).
Proof.
  intros Hfd (Hn & Hlo & Hhi & HX). pose proof (HX _ Hfd). split_and!; simpl; [done| |  |done].
  - intros fd' ?. rewrite lookup_insert_ne by lia. by apply Hlo.
  - intros fd' ? ?. rewrite lookup_insert_ne by set_solver. by apply Hhi.
Qed.

Lemma fd_inv_delete (X : gset nat) (fd : nat) (o : OS) :
  fd ∈ X -> fd_inv F n0 X o -> fd_inv F n0 (X ∖ {[fd]}) (with_fds (delete fd) o).
Proof.
  intros Hfd (Hn & Hlo & Hhi & HX). pose proof (HX _ Hfd). split_and!; simpl; [done| | |].
  - intros fd' ?. rewrite lookup_delete_ne by lia. by apply Hlo.
  - intros fd' ? Hx. destruct (decide (fd' = fd)) as [->|]; [by rewrite lookup_delete_eq|].
    rewrite lookup_delete_ne by done. apply Hhi; [done|set_solver].
  - intros fd' Hx. apply HX. set_solver.
Qed.

(** A system call keeps what its body keeps, when that does not depend on
    the plan. *)
Lemma hoare_syscall {A} (P : OS -> Prop) `{!Proper ((≡) ==> iff) P}
    (Q : A -> OS -> Prop) (QE : OS -> Prop)
    (op name : string) (body : OS -> result Errno A * OS) :
  (forall o, P o -> QE o) ->
  (forall o, P o -> match body o with
                    | (Ok a, o') => Q a o'
                    | (Err _, o') => QE o'
                    end) ->
  hoare P (syscall op name body) (post Q QE).
Proof.
  intros HE Hb o Ho. unfold syscall.
  destruct (os_faults o) as [|[e|] rest]; simpl.
  - specialize (Hb o Ho). by destruct (body o) as [[a|e] o'].
  - apply HE. by rewrite with_faults_equiv.
  - rewrite <- (with_faults_equiv rest) in Ho. specialize (Hb _ Ho).
    by destruct (body _) as [[a|e] o'].
Qed.

Lemma hoare_keep {A} (X : gset nat) (op name : string) (body : OS -> result Errno A * OS) :
  (forall o, fd_inv F n0 X o -> fd_inv F n0 X (body o).2) ->
  hoare (fd_inv F n0 X) (syscall op name body)
    (post (fun _ => fd_inv F n0 X) (fd_inv F n0 X)).
Proof.
  intros Hb. apply (hoare_syscall (fd_inv F n0 X)); [done|].
  intros o Ho. specialize (Hb o Ho). by destruct (body o) as [[a|e] o'].
Qed.

Lemma MkdirAll_fds (X : gset nat) (name : string) (perm : N) :
  hoare (fd_inv F n0 X) (MkdirAll name perm)
    (post (fun _ => fd_inv F n0 X) (fd_inv F n0 X)).
Proof. apply hoare_keep. intros o Ho. by case_match. Qed.

Lemma Stat_fds (X : gset nat) (name : string) :
  hoare (fd_inv F n0 X) (Stat name) (post (fun _ => fd_inv F n0 X) (fd_inv F n0 X)).
Proof. apply hoare_keep. intros o Ho. cbv zeta. by case_match. Qed.

Lemma fd_inv_fresh (X : gset nat) (o : OS) : fd_inv F n0 X o -> os_next o ∉ X.
Proof. intros (_ & _ & _ & HX) Hx. apply HX in Hx. lia. Qed.

Lemma OpenFile_fds (X : gset nat) (name : string) (flags : list Flag) (perm : N) :
  hoare (fd_inv F n0 X) (OpenFile name flags perm)
    (post (fun fd o => (fd ∉ X) /\ fd_inv F n0 (X ∪ {[fd]}) o) (fd_inv F n0 X)).
Proof.
  apply (hoare_syscall (fd_inv F n0 X)); [done|]. intros o Ho. cbv zeta.
  pose proof (fd_inv_fresh X o Ho).
  repeat case_match; simplify_eq; try done;
    match goal with H : new_fd ?n ?k ?fl ?o' = _ |- _ =>
      pose proof (fd_inv_new X n k fl o') as Hn; rewrite H in Hn;
      injection H as <- <- end;
    (split; [done|apply Hn]); try done; by apply fd_inv_nodes.
Qed.

Lemma on_file_fds {A} (X : gset nat) (op : string) (fd : nat)
    (body : FileDesc -> string -> OS -> result Errno A * OS) :
  (forall f d o, fd_inv F n0 X o -> fd_inv F n0 X (body f d o).2) ->
  hoare (fd_inv F n0 X) (on_file op fd body)
    (post (fun _ => fd_inv F n0 X) (fd_inv F n0 X)).
Proof.
  intros Hb o Ho. unfold on_file. destruct (os_fds o !! fd) as [f|]; [|done].
  apply (hoare_keep X); [|done]. intros o' Ho'. repeat case_match; try done. by apply Hb.
Qed.

Lemma close_deferred_fds (X : gset nat) (fd : nat) (o : OS) :
  fd ∈ X -> fd_inv F n0 X o -> fd_inv F n0 (X ∖ {[fd]}) (close_deferred fd o).
Proof.
  intros Hfd Ho. unfold close_deferred, File_Close.
  destruct (os_fds o !! fd) as [f|] eqn:Hf; simpl.
  - eapply post_same, (hoare_keep (X ∖ {[fd]}) "close" (of_name f) (fun o' => (Ok tt, o')));
      [done|by apply fd_inv_delete].
  - destruct Ho as (Hn & Hlo & Hhi & HX). pose proof (HX _ Hfd). split_and!; [done|done| |].
    + intros fd' ? Hx. destruct (decide (fd' = fd)) as [->|]; [done|]. apply Hhi; [done|set_solver].
    + intros fd' Hx. apply HX. set_solver.
Qed.

End Descriptors.

(** A computation that keeps the descriptors in use, whatever it returns. *)
Definition keeps {A} (F : gmap nat FileDesc) (n0 : nat) (X : gset nat) (m : M OS error A) : Prop :=
  hoare (fd_inv F n0 X) m (post (fun _ => fd_inv F n0 X) (fd_inv F n0 X)).

Section Keeps.
Context (F : gmap nat FileDesc) (n0 : nat) (X : gset nat).

Lemma keeps_ret {A} (a : A) : keeps F n0 X (ret a : M OS error A).
Proof. by intros o Ho. Qed.

Lemma keeps_bind {A B} (m : M OS error A) (k : A -> M OS error B) :
  keeps F n0 X m -> (forall a, keeps F n0 X (k a)) -> keeps F n0 X (bind m k).
Proof. intros Hm Hk. eapply hoare_bind; [apply Hm|intros a; apply Hk|done]. Qed.

Lemma keeps_wrapErr {A} (f : error -> error) (m : M OS error A) :
  keeps F n0 X m -> keeps F n0 X (wrapErr f m).
Proof. intros Hm. eapply hoare_wrapErr; [apply Hm|done|done]. Qed.

Lemma keeps_try {A} (m : M OS error A) : keeps F n0 X m -> keeps F n0 X (try_ m).
Proof.
  intros Hm o Ho. specialize (Hm o Ho). unfold try_. destruct (m o) as [r o'].
  by apply post_same in Hm.
Qed.

Lemma keeps_run {A} (m : M OS error A) (o : OS) :
  keeps F n0 X m -> fd_inv F n0 X o -> fd_inv F n0 X (m o).2.
Proof. intros Hm Ho. by eapply post_same, Hm. Qed.

(** A computation that opens one more descriptor, or fails and opens
    none. *)
Definition opens (m : M OS error nat) : Prop :=
  hoare (fd_inv F n0 X) m
    (post (fun fd o => (fd ∉ X) /\ fd_inv F n0 (X ∪ {[fd]}) o) (fd_inv F n0 X)).

Lemma opens_OpenFile (name : string) (flags : list Flag) (perm : N) :
  opens (OpenFile name flags perm).
Proof. apply OpenFile_fds. Qed.

Lemma opens_wrapErr (f : error -> error) (m : M OS error nat) :
  opens m -> opens (wrapErr f m).
Proof.
  intros Hm. eapply hoare_wrapErr; [apply Hm|intros a s H; exact H|intros e s H; exact H].
Qed.

(** A file is opened, used and closed by a deferred call. *)
Lemma keeps_open {A} (m : M OS error nat) (k : nat -> M OS error A) :
  opens m ->
  (forall fd, fd ∉ X -> keeps F n0 (X ∪ {[fd]}) (k fd)) ->
  keeps F n0 X (bind m (fun file => defer_ (close_deferred file) (k file))).
Proof.
  intros Hm Hk. eapply hoare_bind; [apply Hm|intros file|done].
  intros o [Hfile Ho]. unfold defer_.
  pose proof (Hk file Hfile o Ho) as Ho'.
  destruct (k file o) as [r o']. apply post_same in Ho'. simpl in *.
  apply (close_deferred_fds _ _ _ file) in Ho'; [|set_solver].
  replace ((X ∪ {[file]}) ∖ {[file]}) with X in Ho' by set_solver. by destruct r.
Qed.

End Keeps.

Section FileCalls.
Context (F : gmap nat FileDesc) (n0 : nat) (X : gset nat) (fd : nat) (Hfd : fd ∈ X).

Lemma File_Stat_fds : keeps F n0 X (File_Stat fd).
Proof using Type. by apply on_file_fds. Qed.

Lemma File_Truncate_fds (size : Z) : keeps F n0 X (File_Truncate fd size).
Proof using Type. apply on_file_fds. intros f d o Ho. by case_match. Qed.

Lemma File_Seek_fds (offset : Z) (whence : Whence) : keeps F n0 X (File_Seek fd offset whence).
Proof using Hfd.
  apply on_file_fds. intros f d o Ho. cbv zeta. case_match; [done|]. by apply fd_inv_update.
Qed.

Lemma File_WriteString_fds (s : string) : keeps F n0 X (File_WriteString fd s).
Proof using Hfd. apply on_file_fds. intros f d o Ho. by apply fd_inv_update. Qed.

End FileCalls.

End GoOS.
