(* ===== verification/Paths.v ===== *)
(** * Paths: [filepath.Clean], [filepath.Dir] and the resolution of a path

    What the theorems on the sinks ask of a path, that it names an entry of
    its directory, holds for every path that ends in a name.  On the way:
    cleaning a path does not change what it resolves to, and a clean path
    is its own cleaning. *)

From S2P Require Import Prelude GoOS.

Module Paths.

Import GoOS.

(** ** Names *)

Fixpoint no_slash (s : string) : bool :=
  match s with
  | EmptyString => true
  | String c rest => negb (is_slash c) && no_slash rest
  end.

(** A path element that stays when the path is cleaned. *)
Definition kept (c : string) : Prop := c <> "" /\ c <> ".".

(** A file name: no separator, not empty, not [.] and not [..]. *)
Definition plain (n : string) : Prop := no_slash n = true /\ kept n /\ n <> "..".

#[export] Instance plain_dec (n : string) : Decision (plain n).
Proof. unfold plain, kept. apply _. Defined.

(** ** Splitting at the separators *)

Lemma split_nonempty (s : string) : split s <> [].
Proof. destruct s as [|c s]; simpl; [done|]. by destruct (is_slash c), (split s). Qed.

Lemma split_no_slash (n : string) : no_slash n = true -> split n = [n].
Proof.
  induction n as [|c n IH]; simpl; [done|]. intros [Hc Hn]%andb_true_iff.
  apply negb_true_iff in Hc. by rewrite Hc, IH.
Qed.

Lemma split_app (s t : string) : split (s +:+ "/" +:+ t) = split s ++ split t.
Proof.
  induction s as [|c s IH]; simpl; [done|]. rewrite IH.
  destruct (is_slash c); [done|]. pose proof (split_nonempty s). by destruct (split s).
Qed.

Lemma split_all_no_slash (s : string) : Forall (fun c => no_slash c = true) (split s).
Proof.
  induction s as [|c s IH]; simpl; [by constructor|].
  destruct (is_slash c) eqn:Hc; [by constructor|].
  destruct (split s) as [|h t]; [by constructor; [simpl; rewrite Hc|]|].
  inversion IH; subst. constructor; [simpl; by rewrite Hc|done].
Qed.

(** Joining and splitting again. *)
Lemma split_Join (comps : list string) :
  comps <> [] -> Forall (fun c => no_slash c = true) comps -> split (Join comps "/") = comps.
Proof.
  unfold Join. induction comps as [|c [|c' cs] IH]; [done| |]; intros _ Hall.
  - simpl. apply split_no_slash. by inversion Hall.
  - inversion Hall as [|?? Hc Hcs]; subst. change (String.concat "/" (c :: c' :: cs))
      with (c +:+ "/" +:+ String.concat "/" (c' :: cs)).
    by rewrite split_app, split_no_slash, IH.
Qed.

(** ** Cleaning *)

(** The elements are taken one after the other. *)
Lemma clean_go_app (r : bool) (l1 l2 st : list string) :
  clean_go r st (l1 ++ l2) = clean_go r (rev (clean_go r st l1)) l2.
Proof.
  revert st. induction l1 as [|c l1 IH]; intros st; simpl; [by rewrite rev_involutive|].
  repeat case_decide; try done. destruct st as [|top below]; [by destruct r|].
  by case_decide.
Qed.

Lemma clean_go_skip (r : bool) (st l : list string) (c : string) :
  c = "" \/ c = "." -> clean_go r st (c :: l) = clean_go r st l.
Proof. intros Hc. simpl. by rewrite decide_True. Qed.

Lemma clean_go_push (r : bool) (st l : list string) (c : string) :
  kept c -> c <> ".." -> clean_go r st (c :: l) = clean_go r (c :: st) l.
Proof.
  intros [H1 H2] H3. simpl. rewrite decide_False by (by intros [|]). by rewrite decide_False.
Qed.

Lemma clean_go_pop (r : bool) (st l : list string) (c : string) :
  c <> ".." -> clean_go r (c :: st) (".." :: l) = clean_go r st l.
Proof. intros Hc. simpl. by rewrite decide_False. Qed.

(** A name at the end of a path is the last element of what it resolves
    to. *)
Lemma clean_go_snoc (r : bool) (st l : list string) (n : string) :
  plain n -> clean_go r st (l ++ [n]) = clean_go r st l ++ [n].
Proof.
  intros (_ & Hk & Hd). rewrite clean_go_app, clean_go_push by done. simpl.
  by rewrite rev_involutive.
Qed.

Lemma clean_go_snoc_skip (r : bool) (st l : list string) (c : string) :
  c = "" \/ c = "." -> clean_go r st (l ++ [c]) = clean_go r st l.
Proof. intros Hc. rewrite clean_go_app, clean_go_skip by done. simpl. apply rev_involutive. Qed.

(** What stays satisfies what the stack and the elements satisfy. *)
Lemma clean_go_Forall (P : string -> Prop) (r : bool) (l st : list string) :
  Forall P st -> Forall P l -> Forall P (clean_go r st l).
Proof.
  revert st. induction l as [|c l IH]; intros st Hst Hl; simpl; [by apply Forall_rev|].
  inversion Hl; subst. repeat case_decide; auto.
  destruct st as [|top below]; [destruct r; auto|].
  inversion Hst; subst. case_decide; auto.
Qed.

Lemma clean_go_kept (r : bool) (l st : list string) :
  Forall kept st -> Forall kept (clean_go r st l).
Proof.
  revert st. induction l as [|c l IH]; intros st Hst; simpl; [by apply Forall_rev|].
  case_decide as Hc; [auto|]. assert (kept c) by (unfold kept; tauto).
  case_decide; [|auto]. destruct st as [|top below]; [destruct r; auto|].
  inversion Hst; subst. case_decide; auto.
Qed.

(** Cleaning first changes nothing for a later cleaning: a rooted path is
    cleaned again as a rooted path from the root, another path by any
    cleaning from any stack. *)
Lemma clean_go_again (r r' : bool) (S : list string) (l st : list string) :
  (r = true -> r' = true /\ S = []) -> Forall kept st ->
  clean_go r' S (rev st ++ l) = clean_go r' S (clean_go r st l).
Proof.
  intros Hr. revert st. induction l as [|c l IH]; intros st Hst; [by rewrite app_nil_r|].
  simpl clean_go at 3. case_decide as Hc.
  { rewrite <- IH by done. rewrite !clean_go_app. by rewrite clean_go_skip. }
  assert (kept c) as Hk by (unfold kept; tauto).
  case_decide as Hd; [subst c|].
  - destruct st as [|top below].
    + destruct r; [|by rewrite <- IH by (by constructor)].
      destruct Hr as [-> ->]; [done|]. by rewrite <- IH.
    + inversion Hst; subst. case_decide.
      * rewrite <- IH by (by constructor). simpl rev. by rewrite <- !app_assoc.
      * rewrite <- IH by done. simpl rev. rewrite <- app_assoc. simpl.
        by rewrite !(clean_go_app _ (rev below)), clean_go_push, clean_go_pop.
  - rewrite <- IH by (by constructor). simpl rev. by rewrite <- app_assoc.
Qed.

(** ** [Clean] *)

(** The elements of the clean path. *)
Definition elements (p : string) : list string := clean_go (isRooted p) [] (split p).

Lemma elements_no_slash (p : string) : Forall (fun c => no_slash c = true) (elements p).
Proof. apply clean_go_Forall; [constructor|apply split_all_no_slash]. Qed.

Lemma elements_kept (p : string) : Forall kept (elements p).
Proof. apply clean_go_kept. constructor. Qed.

Lemma isRooted_Join (comps : list string) :
  Forall (fun c => no_slash c = true) comps -> Forall kept comps ->
  isRooted (Join comps "/") = false.
Proof.
  unfold Join. destruct comps as [|c cs]; [done|]. intros Hs Hk.
  inversion Hs as [|?? Hc _]; inversion Hk as [|?? [Hne _] _]; subst.
  destruct c as [|a c]; [done|]. apply andb_true_iff in Hc as [Ha%negb_true_iff _].
  by destruct cs.
Qed.

Lemma isRooted_Clean (p : string) : isRooted (Clean p) = isRooted p.
Proof.
  unfold Clean. fold (elements p). destruct (isRooted p) eqn:Hr; [done|].
  pose proof (isRooted_Join (elements p) (elements_no_slash p) (elements_kept p)).
  by destruct (elements p).
Qed.

(** The clean path splits into its elements, behind an empty element when
    it is rooted; the path of no elements is [.]. *)
Lemma split_Clean (p : string) :
  split (Clean p)
  = if isRooted p then "" :: (if decide (elements p = []) then [""] else elements p)
    else if decide (elements p = []) then ["."] else elements p.
Proof.
  unfold Clean. fold (elements p). pose proof (elements_no_slash p) as Hs.
  destruct (isRooted p).
  - change ("/" +:+ ?s) with ("" +:+ "/" +:+ s). rewrite split_app. simpl.
    case_decide as He; [by rewrite He|by rewrite split_Join].
  - destruct (elements p) as [|c cs]; [done|]. by rewrite decide_False, split_Join.
Qed.

(** Cleaning the clean path gives its elements again. *)
Lemma clean_go_Clean (r : bool) (S : list string) (p : string) :
  clean_go r S (split (Clean p)) = clean_go r S (elements p).
Proof.
  rewrite split_Clean.
  destruct (isRooted p); [rewrite clean_go_skip by auto|]; case_decide as He; rewrite ?He; try done;
    by rewrite clean_go_skip by auto.
Qed.

(** A path and its cleaning resolve to the same place. *)
Theorem resolve_Clean (cwd : list string) (p : string) :
  resolve cwd (Clean p) = resolve cwd p.
Proof.
  unfold resolve. rewrite isRooted_Clean, clean_go_Clean. unfold elements.
  symmetry. destruct (isRooted p); by apply (clean_go_again _ true _ _ []).
Qed.

(** A clean path is its own cleaning. *)
Theorem Clean_idempotent (p : string) : Clean (Clean p) = Clean p.
Proof.
  unfold Clean at 1 3. rewrite isRooted_Clean, clean_go_Clean. unfold elements.
  by rewrite <- (clean_go_again (isRooted p) (isRooted p) [] _ []).
Qed.

(** ** The shape of a clean path

    No element is empty or [.]; the elements [..] come first, and a rooted
    path has none: every [..] behind a name is gone with that name. *)

(** The stack of [clean_go], innermost element first: names above the
    [..] elements. *)
Definition stacked (r : bool) (st : list string) : Prop :=
  exists k ns, st = ns ++ replicate k ".." /\ Forall (fun c => c <> "..") ns
               /\ (r = true -> k = 0).

Lemma stacked_push (r : bool) (st : list string) (c : string) :
  c <> ".." -> stacked r st -> stacked r (c :: st).
Proof. intros Hc (k & ns & -> & Hns & Hk). exists k, (c :: ns). by repeat constructor. Qed.

Lemma stacked_pop (r : bool) (st : list string) (c : string) :
  c <> ".." -> stacked r (c :: st) -> stacked r st.
Proof.
  intros Hc (k & [|n ns] & Hst & Hns & Hk).
  - destruct k; simplify_eq/=.
  - inversion Hns; simplify_eq/=. by exists k, ns.
Qed.

Lemma stacked_dotdot (st : list string) : stacked false (".." :: st) -> stacked false (".." :: ".." :: st).
Proof.
  intros (k & [|n ns] & Hst & Hns & _).
  - exists (S k), []. simpl in *. by rewrite <- Hst.
  - inversion Hns; simplify_eq/=.
Qed.

Lemma stacked_rooted (st : list string) (c : string) : stacked true (c :: st) -> c <> "..".
Proof.
  intros (k & [|n ns] & Hst & Hns & Hk); rewrite Hk in Hst by done; simplify_eq/=.
  by inversion Hns.
Qed.

Lemma clean_go_stacked (r : bool) (l st : list string) :
  stacked r st -> stacked r (rev (clean_go r st l)).
Proof.
  revert st. induction l as [|c l IH]; intros st Hst; simpl; [by rewrite rev_involutive|].
  case_decide; [auto|]. case_decide as Hd; [subst c|by apply IH, stacked_push].
  destruct st as [|top below].
  - destruct r; [auto|]. apply IH. by exists 1, [].
  - case_decide as Ht; [subst top|by apply IH, (stacked_pop _ _ top)].
    destruct r; [by apply stacked_rooted in Hst|]. by apply IH, stacked_dotdot.
Qed.

Lemma rev_replicate {A} (k : nat) (x : A) : rev (replicate k x) = replicate k x.
Proof. induction k as [|k IH]; simpl; [done|]. by rewrite IH, <- replicate_S_end. Qed.

(** The elements of a clean path: [k] times [..], none when the path is
    rooted, and then names. *)
Theorem elements_shape (p : string) :
  exists k ns, elements p = replicate k ".." ++ ns
    /\ Forall (fun c => no_slash c = true /\ kept c /\ c <> "..") ns
    /\ (isRooted p = true -> k = 0).
Proof.
  destruct (clean_go_stacked (isRooted p) (split p) []) as (k & ns & Hst & Hns & Hk);
    [by exists 0, []|]. fold (elements p) in Hst.
  apply (f_equal (@rev string)) in Hst. rewrite rev_involutive, rev_app_distr in Hst.
  rewrite rev_replicate in Hst.
  exists k, (rev ns). split; [done|]. split; [|done].
  pose proof (elements_no_slash p) as H1. pose proof (elements_kept p) as H2.
  rewrite Hst in H1, H2. apply Forall_app in H1 as [_ H1]. apply Forall_app in H2 as [_ H2].
  apply Forall_rev in Hns. rewrite Forall_forall in *. naive_solver.
Qed.

(** The tables of the documentation of [filepath.Clean] and
    [filepath.Dir]. *)
Example Clean_table :
  Clean <$> ["a/c"; "a//c"; "a/c/."; "a/c/b/.."; "/../a/c"; "/../a/b/../././/c"; "";
             "abc/"; "../../abc"; "abc/def/../../.."; "/"; "./logs/app.json"]
  = ["a/c"; "a/c"; "a/c"; "a/c"; "/a/c"; "/a/c"; "."; "abc"; "../../abc"; ".."; "/";
     "logs/app.json"].
Proof. reflexivity. Qed.

Example Dir_table :
  Dir <$> ["/foo/bar/baz.js"; "/foo/bar/baz"; "/foo/bar/baz/"; "/dirty//path///"; "dev.txt";
           "../todo.txt"; ".."; "."; "/"; ""]
  = ["/foo/bar"; "/foo/bar"; "/foo/bar/baz"; "/dirty/path"; "."; ".."; "."; "."; "/"; "."].
Proof. reflexivity. Qed.

(** ** [Dir] *)

Lemma upto_last_slash_name (n : string) : no_slash n = true -> upto_last_slash n = "".
Proof.
  induction n as [|c n IH]; simpl; [done|]. intros [Hc Hn]%andb_true_iff.
  apply negb_true_iff in Hc. by rewrite Hc, IH.
Qed.

Lemma upto_last_slash_app (d n : string) :
  no_slash n = true -> upto_last_slash (d +:+ "/" +:+ n) = d +:+ "/".
Proof.
  intros Hn. induction d as [|c d IH]; simpl; [by rewrite upto_last_slash_name|].
  rewrite IH. destruct d; simpl; by rewrite orb_true_r.
Qed.

Lemma isRooted_app (d s : string) : isRooted (d +:+ "/" +:+ s) = isRooted (d +:+ "/").
Proof. by destruct d. Qed.

(** The directory of a name is the working directory, and the directory
    of a path that ends in a name is the path before that name. *)
Lemma resolve_Dir_name (cwd : list string) (n : string) :
  no_slash n = true -> resolve cwd (Dir n) = resolve cwd "".
Proof. intros Hn. unfold Dir. by rewrite upto_last_slash_name. Qed.

Lemma resolve_Dir_app (cwd : list string) (d n : string) :
  no_slash n = true -> resolve cwd (Dir (d +:+ "/" +:+ n)) = resolve cwd (d +:+ "/").
Proof. intros Hn. unfold Dir. by rewrite upto_last_slash_app, resolve_Clean. Qed.

Lemma resolve_name (cwd : list string) (n : string) :
  plain n -> resolve cwd n = resolve cwd "" ++ [n].
Proof.
  intros Hn. pose proof Hn as (Hs & [Hne _] & _). unfold resolve.
  replace (isRooted n) with false
    by (destruct n as [|c n]; [done|]; by apply andb_true_iff in Hs as [?%negb_true_iff _]).
  rewrite split_no_slash by done.
  change (split "") with ([] ++ [""]). change [n] with ([] ++ [n]).
  by rewrite clean_go_snoc, clean_go_snoc_skip by auto.
Qed.

Lemma resolve_app (cwd : list string) (d n : string) :
  plain n -> resolve cwd (d +:+ "/" +:+ n) = resolve cwd (d +:+ "/") ++ [n].
Proof.
  intros Hn. unfold resolve. rewrite isRooted_app.
  change (d +:+ "/") with (d +:+ "/" +:+ ""). rewrite !split_app, (split_no_slash n) by apply Hn.
  change (split "") with [""]. by rewrite clean_go_snoc, clean_go_snoc_skip by auto.
Qed.

(** ** Paths that name an entry of their directory *)

(** A name in the working directory. *)
Theorem names_entry_name (cwd : list string) (n : string) :
  plain n -> names_entry cwd n.
Proof.
  intros Hn. unfold names_entry. rewrite resolve_name, resolve_Dir_name by (done || apply Hn).
  unfold parent. rewrite removelast_last. split; [done|]. by intros []%app_eq_nil.
Qed.

(** A name behind a path. *)
Theorem names_entry_app (cwd : list string) (d n : string) :
  plain n -> names_entry cwd (d +:+ "/" +:+ n).
Proof.
  intros Hn. unfold names_entry. rewrite resolve_app, resolve_Dir_app by (done || apply Hn).
  unfold parent. rewrite removelast_last. split; [done|]. by intros []%app_eq_nil.
Qed.

End Paths.
