(* ===== verification/World.v ===== *)
(** * World: the state a log call runs in, and the spinner

    A log call reads the clock, writes to the terminal through a spinner and
    touches the file system.  [World] holds the three.  [IO] is the monad of
    code that runs in it; its error channel carries the two ways a Go
    function does not return: [os.Exit] and [panic]. *)

From S2P Require Import Prelude GoTime GoOS.

Module World.

Import GoTime GoOS.

Record World : Type := mkWorld {
  w_clock : Clock;
  w_os : OS;
  w_out : list string
}.

Definition with_clock (c : Clock) (w : World) : World :=
  {| w_clock := c; w_os := w_os w; w_out := w_out w |}.

Definition with_os (o : OS) (w : World) : World :=
  {| w_clock := w_clock w; w_os := o; w_out := w_out w |}.

Definition with_out (l : list string) (w : World) : World :=
  {| w_clock := w_clock w; w_os := w_os w; w_out := l |}.

(** How control leaves a function that does not return. *)
Inductive Exit : Type :=
| Exited (code : Z)
| Panicked (value : string).

Definition IO (A : Type) : Type := M World Exit A.

(** [time.Now()] and [time.Sleep] in the world. *)
Definition now : IO Time := zoom w_clock with_clock Now.

Definition sleep (d : Duration) : IO unit := zoom w_clock with_clock (Sleep d).

(** A call into the operating system whose error the caller inspects:
    [err := f(...)]. *)
Definition os_call {A} (m : M OS error A) : IO (result error A) :=
  fun w => let '(r, o) := m (w_os w) in (Ok r, with_os o w).

(** [fmt.Fprint(os.Stdout, s)] *)
Definition print (s : string) : IO unit :=
  fun w => (Ok tt, with_out (w_out w ++ [s]) w).

(** [Println] of a [*log.Logger] made by [log.New(os.Stdout, "", log.LstdFlags)]:
    the header with the time of the call, the operands separated by spaces,
    a line break. *)
Definition Println (operands : list string) : IO unit :=
  bind now (fun t => print (logHeader t +:+ Join operands " " +:+ String LF "")).

(** [os.Exit(code)] and [panic(v)] *)
Definition exit {A} (code : Z) : IO A := fail (Exited code).

Definition panic {A} (v : string) : IO A := fail (Panicked v).

(** [defer func() { if r := recover(); r != nil { h } }()] around a body: a
    panic is stopped and the handler runs; [os.Exit] runs no deferred
    call. *)
Definition recover_ (h : string -> IO unit) (body : IO unit) : IO unit :=
  fun w =>
    match body w with
    | (Err (Panicked v), w') => h v w'
    | other => other
    end.

(** ** The spinner

    [spinner.New] gives a stopped spinner; [Start] makes it active; while it
    is active the terminal shows prefix, a frame and suffix on one line that
    [Stop] erases before it prints [FinalMSG].  Only that last line stays. *)
Record Spinner : Type := mkSpinner {
  Prefix : string;
  Suffix : string;
  FinalMSG : string;
  active : bool
}.

Definition spinner_New : Spinner :=
  {| Prefix := ""; Suffix := ""; FinalMSG := ""; active := false |}.

Definition set_Prefix (v : string) (s : Spinner) : Spinner :=
  {| Prefix := v; Suffix := Suffix s; FinalMSG := FinalMSG s; active := active s |}.

Definition set_Suffix (v : string) (s : Spinner) : Spinner :=
  {| Prefix := Prefix s; Suffix := v; FinalMSG := FinalMSG s; active := active s |}.

Definition set_FinalMSG (v : string) (s : Spinner) : Spinner :=
  {| Prefix := Prefix s; Suffix := Suffix s; FinalMSG := v; active := active s |}.

Definition Start (s : Spinner) : Spinner :=
  {| Prefix := Prefix s; Suffix := Suffix s; FinalMSG := FinalMSG s; active := true |}.

(** [s.Stop()]: nothing happens on a spinner that is not active. *)
Definition Stop (s : Spinner) : IO Spinner :=
  if active s then
    bind (if decide (FinalMSG s = "") then ret tt else print (FinalMSG s))
      (fun _ => ret {| Prefix := Prefix s; Suffix := Suffix s;
                       FinalMSG := FinalMSG s; active := false |})
  else ret s.

(** A world at a given instant on an empty machine. *)
Definition initial (wall_ns : Z) (delays : list N) : World :=
  {| w_clock := {| clk_wall := wall_ns; clk_mono := 1000; clk_offset := 0;
                   clk_delays := delays |};
     w_os := empty_OS; w_out := [] |}.

(** ** Lemmas *)

Lemma now_run (w : World) :
  now w = (Ok (reading (tick (w_clock w))), with_clock (tick (w_clock w)) w).
Proof. reflexivity. Qed.

Lemma sleep_run (d : Duration) (w : World) :
  sleep d w = (Ok tt, with_clock (advance (Z.max 0 d) (w_clock w)) w).
Proof. reflexivity. Qed.

Lemma now_os (w w' : World) (t : Time) : now w = (Ok t, w') -> w_os w' = w_os w.
Proof. by intros [= <- <-]. Qed.

Lemma now_out (w w' : World) (t : Time) : now w = (Ok t, w') -> w_out w' = w_out w.
Proof. by intros [= <- <-]. Qed.

Lemma now_clock_le (w w' : World) (t : Time) :
  now w = (Ok t, w') -> clock_le (w_clock w) (w_clock w') /\ t = reading (w_clock w').
Proof. intros [= <- <-]. simpl. split; [apply tick_le|done]. Qed.

Lemma now_total (w : World) : exists t w', now w = (Ok t, w').
Proof. by eexists _, _. Qed.

Lemma os_call_run {A} (m : M OS error A) (w : World) :
  os_call m w = (Ok (m (w_os w)).1, with_os (m (w_os w)).2 w).
Proof. unfold os_call. by destruct (m (w_os w)). Qed.

Lemma Println_run (operands : list string) (w : World) :
  Println operands w
  = (Ok tt, with_out (w_out w ++ [logHeader (reading (tick (w_clock w)))
                                   +:+ Join operands " " +:+ String LF ""])
              (with_clock (tick (w_clock w)) w)).
Proof. reflexivity. Qed.

Lemma os_call_ok {A} (m : M OS error A) (w : World) (r : result error A) (o' : OS) :
  m (w_os w) = (r, o') -> os_call m w = (Ok r, with_os o' w).
Proof. intros Hm. by rewrite os_call_run, Hm. Qed.

Lemma Stop_active (s : Spinner) (w : World) :
  active s = true -> FinalMSG s <> "" ->
  exists s', Stop s w = (Ok s', with_out (w_out w ++ [FinalMSG s]) w) /\ active s' = false.
Proof.
  intros Ha Hf. unfold Stop. rewrite Ha. case_decide; [done|].
  by eexists.
Qed.

Lemma Stop_inactive (s : Spinner) (w : World) :
  active s = false -> Stop s w = (Ok s, w).
Proof. intros Ha. unfold Stop. by rewrite Ha. Qed.

(** [s.Stop()] on an active spinner with a final message prints it, and the
    code after it runs on that state. *)
Lemma Stop_then {A} (s : Spinner) (line : string) (k : IO A) (w : World) :
  active s = true -> line <> "" ->
  bind (Stop (set_FinalMSG line s)) (fun _ => k) w = k (with_out (w_out w ++ [line]) w).
Proof. intros Ha Hl. unfold Stop. simpl. rewrite Ha. by case_decide. Qed.

(** The last two statements of a log call: the final line is printed. *)
Lemma Stop_final (s : Spinner) (line : string) (w : World) :
  active s = true -> line <> "" ->
  bind (Stop (set_FinalMSG line s)) (fun _ => ret tt) w
  = (Ok tt, with_out (w_out w ++ [line]) w).
Proof. intros Ha Hl. unfold Stop. simpl. rewrite Ha. by case_decide. Qed.

(** A call that returns, followed by [os.Exit] or [panic]. *)
Lemma exit_after (m : IO unit) (code : Z) (w w' : World) :
  m w = (Ok tt, w') -> bind m (fun _ => exit code) w = (Err (Exited code) : result Exit unit, w').
Proof. intros Hm. by rewrite (bind_ok _ _ _ _ _ Hm). Qed.

Lemma panic_after (m : IO unit) (v : string) (w w' : World) :
  m w = (Ok tt, w') -> bind m (fun _ => panic v) w = (Err (Panicked v) : result Exit unit, w').
Proof. intros Hm. by rewrite (bind_ok _ _ _ _ _ Hm). Qed.

Lemma recover_panic (h : string -> IO unit) (body : IO unit) (w w' : World) (v : string) :
  body w = (Err (Panicked v), w') -> recover_ h body w = h v w'.
Proof. unfold recover_. by intros ->. Qed.

Lemma recover_exit (h : string -> IO unit) (body : IO unit) (w w' : World) (c : Z) :
  body w = (Err (Exited c), w') -> recover_ h body w = (Err (Exited c), w').
Proof. unfold recover_. by intros ->. Qed.

Lemma recover_return (h : string -> IO unit) (body : IO unit) (w w' : World) :
  body w = (Ok tt, w') -> recover_ h body w = (Ok tt, w').
Proof. unfold recover_. by intros ->. Qed.

(** Runs the clock readings and the returns at the head of a computation. *)
Ltac io_run :=
  repeat (first [rewrite bind_ret_l | rewrite bind_assoc
                |rewrite (bind_ok _ _ _ _ _ (now_run _))
                |rewrite (bind_ok _ _ _ _ _ (sleep_run _ _))]; simpl).

End World.
