(* ===== verification/Sink.v ===== *)
(** * Sink: the record of a log call and what a file sink promises

    Every variant that writes a file marshals the same struct, [logToJSON],
    and hands it to a function [saveToFile].  The variants differ in the
    format they keep on disk.  This file holds the struct with the members
    its tags give it, and the contract a sink has with the logger: a log
    file stands for the list of records saved to it, and saving appends one
    record to that list.  The theorems about sequences of saves are proved
    here once, against the contract. *)

From S2P Require Import Prelude GoJson GoOS.

Module Sink.

Import GoJson GoOS.

Local Open Scope io_scope.

(** ** Data *)

Module logToJSON.
Record logToJSON : Type := mk {
  ClosingTime : string;
  Level : string;
  Process : string;
  Duration : string;
  User : string;
  Message : string
}.
Definition zero : logToJSON :=
  {| ClosingTime := ""; Level := ""; Process := ""; Duration := ""; User := "";
     Message := "" |}.
Definition set_ClosingTime (v : string) (j : logToJSON) : logToJSON :=
  {| ClosingTime := v; Level := Level j; Process := Process j;
     Duration := Duration j; User := User j; Message := Message j |}.
Definition set_Level (v : string) (j : logToJSON) : logToJSON :=
  {| ClosingTime := ClosingTime j; Level := v; Process := Process j;
     Duration := Duration j; User := User j; Message := Message j |}.
Definition set_Process (v : string) (j : logToJSON) : logToJSON :=
  {| ClosingTime := ClosingTime j; Level := Level j; Process := v;
     Duration := Duration j; User := User j; Message := Message j |}.
Definition set_Duration (v : string) (j : logToJSON) : logToJSON :=
  {| ClosingTime := ClosingTime j; Level := Level j; Process := Process j;
     Duration := v; User := User j; Message := Message j |}.
Definition set_User (v : string) (j : logToJSON) : logToJSON :=
  {| ClosingTime := ClosingTime j; Level := Level j; Process := Process j;
     Duration := Duration j; User := v; Message := Message j |}.
Definition set_Message (v : string) (j : logToJSON) : logToJSON :=
  {| ClosingTime := ClosingTime j; Level := Level j; Process := Process j;
     Duration := Duration j; User := User j; Message := v |}.
End logToJSON.
Abbreviation logToJSON := logToJSON.logToJSON.

(** The members the struct tags of [logToJSON] give its JSON object. *)
Definition members (j : logToJSON) : list (string * string) :=
  [("time", logToJSON.ClosingTime j); ("level", logToJSON.Level j)]
  ++ omitempty "process" (logToJSON.Process j)
  ++ omitempty "duration" (logToJSON.Duration j)
  ++ omitempty "user" (logToJSON.User j)
  ++ [("message", logToJSON.Message j)].

(** ** The contract

    [save] is the sink at a fixed path, [holds o js] says that the log on
    disk stands for the records [js], [ready] is the condition on the state
    under which saving cannot fail.  Saving appends, keeps the sink ready
    and leaves no descriptor open. *)
Class FileSink : Type := {
  save : logToJSON -> M OS error unit;
  holds : OS -> list logToJSON -> Prop;
  ready : OS -> Prop;
  save_appends (o : OS) (js : list logToJSON) (j : logToJSON) :
    ready o -> holds o js ->
    exists o', save j o = (Ok tt, o') /\ holds o' (js ++ [j]) /\ ready o'
               /\ os_fds o' = os_fds o
}.

(** One save after the other, stopping at the first error. *)
Fixpoint save_all `{FileSink} (js : list logToJSON) : M OS error unit :=
  match js with
  | [] => ret tt
  | j :: rest => save j ;;; save_all rest
  end.

(** ** Lemmas *)

Lemma members_length (j : logToJSON) :
  3 <= length (members j) <= 6.
Proof.
  unfold members. rewrite !length_app, !length_omitempty. simpl.
  repeat case_decide; lia.
Qed.

Lemma members_first (j : logToJSON) :
  exists rest, members j = ("time", logToJSON.ClosingTime j) :: ("level", logToJSON.Level j) :: rest.
Proof. by eexists. Qed.

Lemma members_last (j : logToJSON) :
  last (members j) = Some ("message", logToJSON.Message j).
Proof. unfold members. by rewrite !app_assoc, last_snoc. Qed.

Lemma members_keys (j : logToJSON) :
  (members j).*1 `sublist_of` ["time"; "level"; "process"; "duration"; "user"; "message"].
Proof.
  unfold members, omitempty. repeat case_decide; simpl; repeat constructor.
Qed.

Section Sequence.
Context `{FileSink}.

Lemma save_all_app (js1 js2 : list logToJSON) (o : OS) :
  save_all (js1 ++ js2) o = (save_all js1 ;;; save_all js2) o.
Proof.
  revert o. induction js1 as [|j js1 IH]; intros o; simpl.
  - by rewrite bind_ret_l.
  - unfold bind. destruct (save j o) as [[[]|e] o']; [by rewrite IH|done].
Qed.

Lemma save_all_appends (js : list logToJSON) :
  forall (o : OS) (js0 : list logToJSON),
  ready o -> holds o js0 ->
  exists o', save_all js o = (Ok tt, o') /\ holds o' (js0 ++ js) /\ ready o'
             /\ os_fds o' = os_fds o.
Proof.
  induction js as [|j js IH]; intros o js0 Hr Hh; simpl.
  - exists o. by rewrite app_nil_r.
  - destruct (save_appends o js0 j Hr Hh) as (o1 & Hs & Hh1 & Hr1 & Hf1).
    destruct (IH o1 (js0 ++ [j]) Hr1 Hh1) as (o2 & Hs2 & Hh2 & Hr2 & Hf2).
    exists o2. rewrite (bind_ok _ _ _ _ _ Hs). rewrite <- app_assoc in Hh2.
    split_and!; [done|done|done|congruence].
Qed.

End Sequence.

End Sink.
