(* ===== verification/ArraySink.v ===== *)
(** * ArraySink: one JSON array per log file, grown in place

    The file sink of src/unnamed/part_001: the record [logToJSON] with its
    JSON members, [fileExists], and [saveToFile], which makes the directory,
    creates the file when it is missing, and then either writes the first
    record between brackets or cuts the closing bracket, steps back over the
    line break before it and writes a comma, the record and a new closing
    bracket.  [saveToFile] is split at the point where its two deferred
    [Close] calls are registered: [ensureFile] and [writeRecord].

    The abstract state of a log file is the list of records saved to it
    ([stored]); the main theorem is that [saveToFile] implements appending
    to that list. *)

From S2P Require Import Prelude GoJson GoOS Sink.

Module ArraySink.

Import GoJson GoOS Sink.

Local Open Scope io_scope.

(** [json.MarshalIndent(jsoner, prefix, indent)] with its error result. *)
Definition jsonMarshalIndent (j : logToJSON) (prefix indent : string) : M OS error string :=
  ret (MarshalIndent (members j) prefix indent).

(** ** The file sink *)

Definition fileExists (filename : string) : M OS error bool :=
  r <- try_ (Stat filename) ;;
  ret (match r with
       | Ok _ => true
       | Err err => negb (IsNotExist err)
       end).

Definition close_created (created : option nat) (o : OS) : OS :=
  match created with
  | Some fd => close_deferred fd o
  | None => o
  end.

(** The first part of [saveToFile]: the directory is made and the file is
    created when it is not there.  The result is the handle of the created
    file, whose [Close] is deferred to the end of [saveToFile]. *)
Definition ensureFile (filePath : string) : M OS error (option nat) :=
  let dir := Dir filePath in
  wrapErr (Errorf "directory creation failed, ") (MkdirAll dir 493) ;;;
  there <- fileExists filePath ;;
  if negb there
  then file <- wrapErr (Errorf "file creation failed, ") (Create filePath) ;;
       ret (Some file)
  else ret None.

(** The second part: the file is opened, measured and written. *)
Definition writeRecord (jsoner : logToJSON) (filePath : string) : M OS error unit :=
  file <- wrapErr (Errorf "file open failed, ") (OpenFile filePath [O_RDWR] 420) ;;
  defer_ (close_deferred file) (
    stat <- wrapErr (Errorf "file stat failed, ") (File_Stat file) ;;
    jsonData <- wrapErr (Errorf "JSON marshaling failed, ")
                  (jsonMarshalIndent jsoner "  " "  ") ;;
    if (fi_size stat =? 0)%Z then
      wrapErr (Errorf "initial write failed, ")
        (File_WriteString file ("[" +:+ String LF "  " +:+ jsonData +:+ String LF "]")) ;;;
      ret tt
    else
      wrapErr (Errorf "truncate failed, ") (File_Truncate file (fi_size stat - 1)) ;;;
      wrapErr (Errorf "seek failed, ") (File_Seek file (-1) SeekEnd) ;;;
      wrapErr (Errorf "append failed, ")
        (File_WriteString file ("," +:+ String LF "  " +:+ jsonData +:+ String LF "]")) ;;;
      ret tt).

Definition saveToFile (jsoner : logToJSON) (filePath : string) : M OS error unit :=
  created <- ensureFile filePath ;;
  defer_ (close_created created) (writeRecord jsoner filePath).

(** ** Texts on disk *)

Definition recordText (j : logToJSON) : string := MarshalIndent (members j) "  " "  ".

Definition firstEntry (j : logToJSON) : string :=
  "[" +:+ String LF "  " +:+ recordText j +:+ String LF "]".

Definition nextEntry (j : logToJSON) : string :=
  "," +:+ String LF "  " +:+ recordText j +:+ String LF "]".

(** The state after [writeRecord] has replaced the content of [k]: one more
    descriptor number is used up. *)
Definition written (k : list string) (data : string) (o : OS) : OS :=
  with_next (S (os_next o)) (with_nodes (insert k (NFile data)) o).

(** The state [saveToFile] leaves: the directories [MkdirAll] made, the
    file with its new content, no descriptor more than before, and [n]
    descriptor numbers used up. *)
Definition saved (k : list string) (data : string) (m : gmap (list string) Node)
    (n : nat) (o : OS) : OS :=
  {| os_cwd := os_cwd o; os_nodes := <[k := NFile data]> m; os_fds := os_fds o;
     os_next := n + os_next o; os_faults := os_faults o |}.

(** ** The log a file holds

    The abstract state of a log file is the list of records saved to it.  A
    file that holds the records [js] has the text [arrayText js]; a log
    without records is a file that is not there or is empty. *)

Definition entrySep : string := "," +:+ String LF "  ".

Definition arrayText (js : list logToJSON) : string :=
  "[" +:+ String LF "  " +:+ Join (recordText <$> js) entrySep +:+ String LF "]".

Definition stored (o : OS) (p : string) (js : list logToJSON) : Prop :=
  match js with
  | [] => content o p = None \/ content o p = Some ""
  | _ => content o p = Some (arrayText js)
  end.

(** A record, for the statements at concrete inputs. *)
Definition sample1 : logToJSON :=
  {| logToJSON.ClosingTime := "2024-02-29 13:00:00"; logToJSON.Level := "INFO";
     logToJSON.Process := "P"; logToJSON.Duration := "250 ms";
     logToJSON.User := ""; logToJSON.Message := "hello" |}.

(** ** Lemmas: the second part, on a file that is there *)

Section Sink.
Context (o : OS) (filePath : string) (k : list string) (d : string) (j : logToJSON).
Context (Hnf : os_faults o = []).
Context (Hk : resolve (os_cwd o) filePath = k) (Hne : k <> []).
Context (Hfile : os_nodes o !! k = Some (NFile d)).
Context (Hfresh : os_fds o !! os_next o = None).

Let opened : OS := (new_fd filePath k [O_RDWR] o).2.

Lemma opened_file : node_at opened k = Some (NFile d).
Proof. unfold opened. simpl. by rewrite node_at_ne. Qed.

Lemma open_step :
  OpenFile filePath [O_RDWR] 420 o = (Ok (os_next o), opened).
Proof.
  unfold opened. rewrite <- Hk.
  eapply OpenFile_existing; [done| |done]. rewrite Hk. by rewrite node_at_ne.
Qed.

Lemma close_opened (o' : OS) :
  os_faults o' = [] ->
  os_next o' = S (os_next o) ->
  (exists f, os_fds o' = <[os_next o := f]> (os_fds o)) ->
  close_deferred (os_next o) o' = with_fds (fun _ => os_fds o) o'.
Proof.
  intros Hf Hn [f Hfds]. erewrite close_deferred_run; [|done|by rewrite Hfds, lookup_insert_eq].
  unfold with_fds. f_equal. rewrite Hfds, delete_insert_eq. by apply delete_id.
Qed.

Lemma stat_step :
  File_Stat (os_next o) opened
  = (Ok {| fi_size := Z.of_nat (String.length d); fi_isDir := false |}, opened).
Proof. eapply File_Stat_run; [done|apply lookup_insert_eq|apply opened_file]. Qed.

Lemma writeRecord_empty :
  d = "" -> writeRecord j filePath o = (Ok tt, written k (firstEntry j) o).
Proof using All.
  intros Hd. unfold writeRecord.
  step_ok ltac:(apply open_step).
  erewrite defer_run; cycle 1.
  { step_ok ltac:(apply stat_step).
    step_ok ltac:(reflexivity).
    destruct (Z.eqb_spec (Z.of_nat (String.length d)) 0) as [_|Hx]; [|by rewrite Hd in Hx].
    step_ok ltac:(eapply File_WriteString_run; [done|apply lookup_insert_eq|apply opened_file]).
    reflexivity. }
  f_equal. rewrite close_opened; [|done|done|simpl; rewrite insert_insert_eq; by eexists].
  destruct o; simpl in *. unfold written, with_fds, with_nodes, with_next; simpl.
  by rewrite Hd, write_at_empty.
Qed.

(** A file of two bytes or more loses its last byte, and the record is
    written over the byte before it. *)
Lemma writeRecord_append :
  2 <= String.length d ->
  writeRecord j filePath o
  = (Ok tt, written k (Str.drop_end 2 d +:+ nextEntry j) o).
Proof using All.
  intros Hd. unfold writeRecord.
  step_ok ltac:(apply open_step).
  erewrite defer_run; cycle 1.
  { step_ok ltac:(apply stat_step).
    step_ok ltac:(reflexivity).
    destruct (Z.eqb_spec (Z.of_nat (String.length d)) 0) as [|_]; [lia|].
    step_ok ltac:(eapply File_Truncate_run; [done|apply lookup_insert_eq|apply opened_file|lia]).
    step_ok ltac:(eapply File_Seek_end; [done|apply lookup_insert_eq|simpl; rewrite node_at_ne by done; apply lookup_insert_eq|rewrite length_resize; lia]).
    step_ok ltac:(eapply File_WriteString_run; [done|apply lookup_insert_eq|simpl; rewrite node_at_ne by done; apply lookup_insert_eq]).
    reflexivity. }
  f_equal. rewrite close_opened; [|done|done|simpl; rewrite !insert_insert_eq; by eexists].
  destruct o; simpl in *. unfold written, with_fds, with_nodes, with_next; simpl.
  rewrite !insert_insert_eq. do 3 f_equal.
  replace (Z.to_nat (Z.of_nat (String.length d) - 1)) with (String.length d - 1) by lia.
  rewrite length_resize.
  replace (Z.to_nat (Z.of_nat (String.length d - 1) + -1)) with (String.length d - 2) by lia.
  unfold nextEntry, recordText. apply write_over_last_byte; [done|].
  rewrite Str.length_app. simpl. lia.
Qed.

(** A file of one byte is emptied, and the seek before its start fails. *)
Lemma writeRecord_one_byte :
  String.length d = 1 ->
  writeRecord j filePath o
  = (Err (errorString ("seek failed, seek " +:+ filePath +:+ ": invalid argument")),
     written k "" o).
Proof using All.
  intros Hd. unfold writeRecord.
  step_ok ltac:(apply open_step).
  erewrite defer_run; cycle 1.
  { step_ok ltac:(apply stat_step).
    step_ok ltac:(reflexivity).
    rewrite Hd. simpl.
    step_ok ltac:(eapply File_Truncate_run; [done|apply lookup_insert_eq|apply opened_file|lia]).
    step_err ltac:(eapply File_Seek_before_start; [done|apply lookup_insert_eq|simpl; rewrite node_at_ne by done; apply lookup_insert_eq|done]).
    reflexivity. }
  f_equal. rewrite close_opened; [|done|done|simpl; by eexists].
  destruct o; simpl in *. unfold written, with_fds, with_nodes, with_next; simpl.
  done.
Qed.

End Sink.

(** ** Lemmas: the first part *)

Section Ensure.
Context (o : OS) (filePath : string).
Context (Hnf : os_faults o = []).
Context (Hname : names_entry (os_cwd o) filePath).
Context (Hfree : forall k d, on_way [] (resolve (os_cwd o) (Dir filePath)) k ->
                             os_nodes o !! k <> Some (NFile d)).

Let k := resolve (os_cwd o) filePath.

Lemma ensure_mkdir :
  exists m, mkdir_chain [] (resolve (os_cwd o) (Dir filePath)) (os_nodes o) = Ok m
            /\ m !! k = os_nodes o !! k
            /\ node_at (with_nodes (fun _ => m) o) (parent k) = Some NDir.
Proof using All.
  destruct (mkdir_chain_ok _ _ _ Hfree) as [m Hm]. exists m. split; [done|]. split.
  - apply (mkdir_chain_off_way _ _ _ _ _ Hm). by apply names_entry_off_way.
  - unfold k. rewrite (proj1 Hname). by eapply mkdir_chain_target.
Qed.

Let o1 (m : gmap (list string) Node) : OS := with_nodes (fun _ => m) o.

Lemma fileExists_missing (m : gmap (list string) Node) :
  m !! k = None -> node_at (o1 m) (parent k) = Some NDir ->
  fileExists filePath (o1 m) = (Ok false, o1 m).
Proof using Hnf Hname.
  intros Hmk Hdir. unfold fileExists, try_, bind.
  rewrite (Stat_missing (o1 m) Hnf); [|by rewrite node_at_ne by apply Hname].
  unfold missing. simpl. fold k. fold (o1 m). by rewrite Hdir.
Qed.

Lemma fileExists_found (m : gmap (list string) Node) (n : Node) :
  m !! k = Some n -> fileExists filePath (o1 m) = (Ok true, o1 m).
Proof using Hnf Hname.
  intros Hmk. unfold fileExists, try_, bind.
  by rewrite (Stat_found (o1 m) Hnf _ n); [|by rewrite node_at_ne by apply Hname].
Qed.

Lemma ensureFile_fresh :
  os_nodes o !! k = None ->
  exists m, mkdir_chain [] (resolve (os_cwd o) (Dir filePath)) (os_nodes o) = Ok m
    /\ ensureFile filePath o
       = (Ok (Some (os_next o)),
          (new_fd filePath k [O_RDWR; O_CREATE; O_TRUNC]
             (with_nodes (insert k (NFile "")) (o1 m))).2).
Proof using All.
  intros Hnew. destruct ensure_mkdir as (m & Hm & Hmk & Hdir). exists m. split; [done|].
  rewrite Hnew in Hmk. unfold ensureFile.
  rewrite (bind_ok _ _ _ _ _ (wrapErr_ok _ _ _ _ _ (MkdirAll_run o Hnf _ _ _ Hm))).
  rewrite (bind_ok _ _ _ _ _ (fileExists_missing m Hmk Hdir)). simpl.
  erewrite bind_ok; [done|]. apply wrapErr_ok.
  apply (OpenFile_creates (o1 m) Hnf); [|done|done].
  by rewrite node_at_ne by apply Hname.
Qed.

Lemma ensureFile_existing (d : string) :
  os_nodes o !! k = Some (NFile d) ->
  exists m, mkdir_chain [] (resolve (os_cwd o) (Dir filePath)) (os_nodes o) = Ok m
    /\ m !! k = Some (NFile d)
    /\ ensureFile filePath o = (Ok None, o1 m).
Proof using All.
  intros Hold. destruct ensure_mkdir as (m & Hm & Hmk & Hdir). exists m.
  rewrite Hold in Hmk. split; [done|]. split; [done|].
  unfold ensureFile.
  rewrite (bind_ok _ _ _ _ _ (wrapErr_ok _ _ _ _ _ (MkdirAll_run o Hnf _ _ _ Hm))).
  by rewrite (bind_ok _ _ _ _ _ (fileExists_found m _ Hmk)).
Qed.

End Ensure.

(** ** [saveToFile] on a state without faults *)

Section Save.
Context (o : OS) (filePath : string) (j : logToJSON).
Context (Hnf : os_faults o = []).
Context (Hb : fds_bounded o).
Context (Hname : names_entry (os_cwd o) filePath).
Context (Hfree : forall k d, on_way [] (resolve (os_cwd o) (Dir filePath)) k ->
                             os_nodes o !! k <> Some (NFile d)).

Let k := resolve (os_cwd o) filePath.

Lemma saveToFile_fresh_run :
  os_nodes o !! k = None ->
  exists m, mkdir_chain [] (resolve (os_cwd o) (Dir filePath)) (os_nodes o) = Ok m
    /\ saveToFile j filePath o = (Ok tt, saved k (firstEntry j) m 2 o).
Proof using All.
  intros Hnew.
  destruct (ensureFile_fresh o filePath Hnf Hname Hfree Hnew) as (m & Hm & He).
  exists m. split; [done|]. unfold saveToFile. rewrite (bind_ok _ _ _ _ _ He).
  erewrite defer_run; cycle 1.
  { apply (writeRecord_empty _ filePath k ""); simpl; [done|done|apply Hname| | |done].
    - apply lookup_insert_eq.
    - rewrite lookup_insert_ne by lia. apply (fds_bounded_fresh o 1 Hb). }
  f_equal. simpl. erewrite close_deferred_run; [|done|simpl; apply lookup_insert_eq].
  destruct o. unfold saved, written, with_fds, with_nodes, with_next. simpl in *. f_equal.
  - by rewrite insert_insert_eq.
  - rewrite delete_insert_eq. apply delete_id, (fds_bounded_fresh _ 0 Hb).
Qed.

(** What [saveToFile] does to a file that is there, by its size. *)
Lemma saveToFile_existing_run (d : string) :
  os_nodes o !! k = Some (NFile d) ->
  exists m, mkdir_chain [] (resolve (os_cwd o) (Dir filePath)) (os_nodes o) = Ok m
    /\ saveToFile j filePath o
       = match String.length d with
         | 0 => (Ok tt, saved k (firstEntry j) m 1 o)
         | 1 => (Err (errorString ("seek failed, seek " +:+ filePath
                                   +:+ ": invalid argument")),
                 saved k "" m 1 o)
         | _ => (Ok tt, saved k (Str.drop_end 2 d +:+ nextEntry j) m 1 o)
         end.
Proof using All.
  intros Hold.
  destruct (ensureFile_existing o filePath Hnf Hname Hfree d Hold) as (m & Hm & Hmk & He).
  exists m. split; [done|]. unfold saveToFile. rewrite (bind_ok _ _ _ _ _ He).
  set (o1 := with_nodes (fun _ => m) o).
  assert (Hw : forall r data,
    writeRecord j filePath o1 = (r, written k data o1) ->
    defer_ (close_created None) (writeRecord j filePath) o1 = (r, saved k data m 1 o)).
  { intros r data H. unfold defer_. rewrite H. by destruct o. }
  assert (Hfresh : os_fds o1 !! os_next o1 = None) by apply (fds_bounded_fresh o 0 Hb).
  destruct d as [|c1 [|c2 d']]; apply Hw.
  - by apply (writeRecord_empty o1 filePath k "" j Hnf eq_refl (proj2 Hname) Hmk Hfresh).
  - by apply (writeRecord_one_byte o1 filePath k _ j Hnf eq_refl (proj2 Hname) Hmk Hfresh).
  - apply (writeRecord_append o1 filePath k _ j Hnf eq_refl (proj2 Hname) Hmk Hfresh).
    simpl. lia.
Qed.

End Save.

(** ** Error paths *)

Lemma saveToFile_mkdir_fails (j : logToJSON) (p : string) (o o' : OS) (e : error) :
  MkdirAll (Dir p) 493 o = (Err e, o') ->
  saveToFile j p o = (Err (Errorf "directory creation failed, " e), o').
Proof.
  intros Hm. unfold saveToFile, ensureFile.
  erewrite bind_err; [done|]. erewrite bind_err; [done|]. by apply wrapErr_err.
Qed.

(** What [saveToFile] returns when a regular file is in the way. *)
Lemma saveToFile_notdir (j : logToJSON) (p : string) (o : OS) :
  os_faults o = [] ->
  way_free (os_nodes o) [] (resolve (os_cwd o) (Dir p)) = false ->
  saveToFile j p o
  = (Err (errorString ("directory creation failed, mkdir " +:+ Dir p
                       +:+ ": not a directory")), o).
Proof.
  intros Hnf Hw.
  destruct (mkdir_chain [] (resolve (os_cwd o) (Dir p)) (os_nodes o)) as [m|e] eqn:Hm.
  - apply mkdir_chain_free in Hm. congruence.
  - destruct (mkdir_chain_blocked _ _ _ _ Hm) as [-> _].
    by rewrite (saveToFile_mkdir_fails j p o o _ (MkdirAll_notdir o Hnf _ _ _ Hm)).
Qed.

(** With a regular file where a directory of the path should be, the
    directory cannot be made: the error names that step and the state is as
    before. *)
Theorem saveToFile_blocked (j : logToJSON) (p : string) (o : OS) (k : list string)
    (d : string) :
  os_faults o = [] ->
  on_way [] (resolve (os_cwd o) (Dir p)) k -> os_nodes o !! k = Some (NFile d) ->
  saveToFile j p o
  = (Err (errorString ("directory creation failed, mkdir " +:+ Dir p
                       +:+ ": not a directory")), o).
Proof.
  intros Hnf Hk Hd. apply saveToFile_notdir; [done|].
  destruct (way_free _ _ _) eqn:Hw; [|done].
  by destruct (way_free_spec _ _ _ Hw k d Hk).
Qed.

(** ** No descriptor stays open *)

Section Leak.
Context (F : gmap nat FileDesc) (n0 : nat) (j : logToJSON) (p : string).

Lemma writeRecord_fds (X : gset nat) : keeps F n0 X (writeRecord j p).
Proof.
  unfold writeRecord.
  apply keeps_open; [apply opens_wrapErr, opens_OpenFile|]. intros file Hfile.
  assert (file ∈ X ∪ {[file]}) as Hf by set_solver.
  apply keeps_bind; [by apply keeps_wrapErr, File_Stat_fds|]. intros stat.
  apply keeps_bind; [apply keeps_wrapErr, keeps_ret|]. intros jsonData.
  destruct (fi_size stat =? 0)%Z;
    repeat (apply keeps_bind; [apply keeps_wrapErr|intros _]);
    auto using keeps_ret, File_WriteString_fds, File_Truncate_fds, File_Seek_fds.
Qed.

Lemma fileExists_fds (X : gset nat) : keeps F n0 X (fileExists p).
Proof.
  unfold fileExists. apply keeps_bind; [apply keeps_try, Stat_fds|].
  intros r. apply keeps_ret.
Qed.

(** The descriptor [ensureFile] leaves open is the one it returns. *)
Definition created_set (created : option nat) : gset nat :=
  match created with
  | Some fd => {[fd]}
  | None => ∅
  end.

Lemma ensureFile_fds :
  hoare (fd_inv F n0 ∅) (ensureFile p)
    (post (fun created => fd_inv F n0 (created_set created)) (fd_inv F n0 ∅)).
Proof.
  unfold ensureFile.
  eapply hoare_bind; [apply keeps_wrapErr, MkdirAll_fds|intros []|done].
  eapply hoare_bind; [apply fileExists_fds|intros there|done].
  destruct there; simpl; [by intros o Ho|].
  eapply hoare_bind; [apply opens_wrapErr, opens_OpenFile|intros file|done].
  intros o [_ Ho]. simpl. by rewrite union_empty_l_L in Ho.
Qed.

Lemma close_created_fds (created : option nat) (o : OS) :
  fd_inv F n0 (created_set created) o -> fd_inv F n0 ∅ (close_created created o).
Proof.
  destruct created as [fd|]; simpl; [|done]. intros Ho.
  apply (close_deferred_fds _ _ _ fd) in Ho; [|set_solver].
  by replace ({[fd]} ∖ {[fd]} : gset nat) with (∅ : gset nat) in Ho by set_solver.
Qed.

Lemma saveToFile_fds : keeps F n0 ∅ (saveToFile j p).
Proof.
  unfold saveToFile.
  eapply hoare_bind; [apply ensureFile_fds|intros created|done].
  eapply hoare_defer; [apply writeRecord_fds|].
  intros r o Ho%post_same%close_created_fds. by destruct r.
Qed.

End Leak.

(** C2: [saveToFile] leaves open exactly the descriptors that were open
    before, on every path and whatever call fails. *)
Theorem saveToFile_closes (j : logToJSON) (p : string) (o : OS) :
  fds_bounded o ->
  os_fds (saveToFile j p o).2 = os_fds o /\ fds_bounded (saveToFile j p o).2.
Proof.
  intros Hb. apply fd_inv_done; [done|].
  eapply post_same, saveToFile_fds, fd_inv_init, Hb.
Qed.

(** ** Refinement *)

Lemma Join_snoc (l : list string) (x sep : string) :
  l <> [] -> Join (l ++ [x]) sep = Join l sep +:+ sep +:+ x.
Proof.
  unfold Join. induction l as [|a [|b l] IH]; intros Hl; [done|done|].
  change (String.concat sep ((a :: b :: l) ++ [x]))
    with (a +:+ sep +:+ String.concat sep ((b :: l) ++ [x])).
  rewrite IH by done.
  change (String.concat sep (a :: b :: l)) with (a +:+ sep +:+ String.concat sep (b :: l)).
  by rewrite !Str.app_assoc.
Qed.

Lemma arrayText_single (j : logToJSON) : arrayText [j] = firstEntry j.
Proof. reflexivity. Qed.

Lemma arrayText_snoc (js : list logToJSON) (j : logToJSON) :
  js <> [] -> Str.drop_end 2 (arrayText js) +:+ nextEntry j = arrayText (js ++ [j]).
Proof.
  intros Hjs. unfold arrayText, nextEntry.
  rewrite fmap_app. change (recordText <$> [j]) with [recordText j].
  rewrite Join_snoc by (by destruct js).
  rewrite <- !Str.app_assoc.
  rewrite (Str.drop_end_app _ (String LF "]")). unfold entrySep.
  by rewrite !Str.app_assoc.
Qed.

Lemma length_arrayText (js : list logToJSON) : 2 <= String.length (arrayText js).
Proof. unfold arrayText. rewrite !Str.length_app. simpl. lia. Qed.

Lemma content_saved (o : OS) (p : string) (data : string) (m : gmap (list string) Node)
    (n : nat) :
  resolve (os_cwd o) p <> [] ->
  content (saved (resolve (os_cwd o) p) data m n o) p = Some data.
Proof.
  intros Hne. unfold content. simpl. rewrite node_at_ne by done. simpl.
  by rewrite lookup_insert_eq.
Qed.

Lemma savable_saved (o : OS) (p : string) (data : string) (m : gmap (list string) Node)
    (n : nat) :
  savable o p ->
  mkdir_chain [] (resolve (os_cwd o) (Dir p)) (os_nodes o) = Ok m ->
  savable (saved (resolve (os_cwd o) p) data m n o) p.
Proof. apply savable_insert. Qed.

Lemma saved_refines (o : OS) (p : string) (js : list logToJSON) (j : logToJSON)
    (data : string) (m : gmap (list string) Node) (n : nat) :
  savable o p ->
  mkdir_chain [] (resolve (os_cwd o) (Dir p)) (os_nodes o) = Ok m ->
  data = arrayText (js ++ [j]) ->
  let o' := saved (resolve (os_cwd o) p) data m n o in
  stored o' p (js ++ [j]) /\ savable o' p /\ os_fds o' = os_fds o.
Proof.
  intros Hs Hm -> o'. split; [|split; [by apply savable_saved|done]].
  unfold stored, o'. rewrite content_saved by apply Hs.
  by destruct js.
Qed.

(** The law of the sink at [p]. *)
Lemma array_law (o : OS) (p : string) (js : list logToJSON) (j : logToJSON) :
  savable o p -> stored o p js ->
  exists o', saveToFile j p o = (Ok tt, o')
    /\ stored o' p (js ++ [j]) /\ savable o' p /\ os_fds o' = os_fds o.
Proof.
  intros Hs Hst. pose proof Hs as (Hnf & Hb & Hname & Hfree & Hnd).
  unfold stored in Hst. rewrite content_node in Hst by apply Hname.
  destruct (os_nodes o !! resolve (os_cwd o) p) as [[|d]|] eqn:Hk; [done| |].
  - destruct (saveToFile_existing_run o p j Hnf Hb Hname Hfree d Hk) as (m & Hm & ->).
    destruct js as [|j0 js].
    + assert (d = "") as -> by (destruct Hst; congruence).
      eexists. split; [done|]. by apply saved_refines.
    + assert (d = arrayText (j0 :: js)) as Hd by congruence.
      pose proof (length_arrayText (j0 :: js)) as Hl. rewrite <- Hd in Hl.
      destruct (String.length d) as [|[|n]]; [lia|lia|].
      eexists. split; [done|]. apply saved_refines; [done|done|].
      rewrite Hd. by apply arrayText_snoc.
  - destruct (saveToFile_fresh_run o p j Hnf Hb Hname Hfree Hk) as (m & Hm & ->).
    assert (js = []) as -> by (by destruct js).
    eexists. split; [done|]. by apply saved_refines.
Qed.

(** C1: [saveToFile] implements appending a record to the log: on a state
    where it can save, it returns without error, the text of the file is
    the JSON array of the records it held followed by the new one, it can be
    saved to again, and the open descriptors are the ones that were open. *)
Theorem saveToFile_refines (o : OS) (p : string) (js : list logToJSON) (j : logToJSON) :
  savable o p -> stored o p js ->
  exists o', saveToFile j p o = (Ok tt, o')
    /\ content o' p = Some (arrayText (js ++ [j]))
    /\ stored o' p (js ++ [j]) /\ savable o' p /\ os_fds o' = os_fds o.
Proof.
  intros Hs Hst. destruct (array_law o p js j Hs Hst) as (o' & Hr & Hst' & Hs' & Hfd).
  exists o'. split_and!; try done. by destruct js.
Qed.

Lemma saved_directory (o : OS) (p data : string) (m : gmap (list string) Node) (n : nat) :
  names_entry (os_cwd o) p ->
  mkdir_chain [] (resolve (os_cwd o) (Dir p)) (os_nodes o) = Ok m ->
  node_at (saved (resolve (os_cwd o) p) data m n o) (resolve (os_cwd o) (Dir p)) = Some NDir.
Proof.
  intros [Hp Hne] Hm. pose proof (parent_ne _ Hne) as Hk. rewrite Hp in Hk.
  destruct (resolve (os_cwd o) (Dir p)) as [|c t] eqn:HD; [done|]. simpl.
  rewrite lookup_insert_ne by done.
  apply (mkdir_chain_on_way _ _ _ _ _ Hm). by apply (on_way_target []).
Qed.

(** C36: on a file that is there, [saveToFile] goes by its size: an empty file
    gets the first record between brackets; a file of two bytes or more
    loses its last two bytes to a comma, the record and a closing bracket;
    a file of one byte is emptied and the call fails at the seek. *)
Theorem saveToFile_by_size (o : OS) (p d : string) (j : logToJSON) :
  savable o p -> content o p = Some d ->
  exists o',
    saveToFile j p o
    = (match String.length d with
       | 1 => Err (errorString ("seek failed, seek " +:+ p +:+ ": invalid argument"))
       | _ => Ok tt
       end, o')
    /\ content o' p
       = Some (match String.length d with
               | 0 => firstEntry j
               | 1 => ""
               | _ => Str.drop_end 2 d +:+ nextEntry j
               end)
    /\ os_fds o' = os_fds o.
Proof.
  intros (Hnf & Hb & Hname & Hfree & Hnd) Hc. rewrite content_node in Hc by apply Hname.
  destruct (os_nodes o !! resolve (os_cwd o) p) as [[|d']|] eqn:Hk; simplify_eq.
  destruct (saveToFile_existing_run o p j Hnf Hb Hname Hfree d Hk) as (m & Hm & ->).
  destruct (String.length d) as [|[|n]]; eexists; (split; [done|]);
    by rewrite content_saved by apply Hname.
Qed.

(** Saving to a path that is not there makes the missing directories and
    the file, which then holds the record between brackets; every file and
    directory that was there is as before. *)
Theorem saveToFile_creates (o : OS) (p : string) (j : logToJSON) :
  savable o p -> content o p = None ->
  exists o',
    saveToFile j p o = (Ok tt, o')
    /\ node_at o' (resolve (os_cwd o) (Dir p)) = Some NDir
    /\ content o' p = Some (firstEntry j)
    /\ (forall k n, os_nodes o !! k = Some n -> os_nodes o' !! k = Some n).
Proof.
  intros (Hnf & Hb & Hname & Hfree & Hnd) Hc. rewrite content_node in Hc by apply Hname.
  destruct (os_nodes o !! resolve (os_cwd o) p) as [[|d']|] eqn:Hk; simplify_eq.
  destruct (saveToFile_fresh_run o p j Hnf Hb Hname Hfree Hk) as (m & Hm & ->).
  eexists. split; [done|]. split_and!.
  - by apply saved_directory.
  - by rewrite content_saved by apply Hname.
  - intros k n Hkn. simpl. rewrite lookup_insert_ne by congruence.
    by apply (mkdir_chain_keeps _ _ _ _ _ _ Hm).
Qed.

Lemma saveToFile_by_size_witness :
  exists o',
    saveToFile sample1 "x.json" (with_nodes (insert ["home"; "app"; "x.json"] (NFile "]")) empty_OS)
    = (match String.length "]" with
       | 1 => Err (errorString ("seek failed, seek " +:+ "x.json" +:+ ": invalid argument"))
       | _ => Ok tt
       end, o')
    /\ content o' "x.json"
       = Some (match String.length "]" with
               | 0 => firstEntry sample1
               | 1 => ""
               | _ => Str.drop_end 2 "]" +:+ nextEntry sample1
               end)
    /\ os_fds o' = os_fds (with_nodes (insert ["home"; "app"; "x.json"] (NFile "]")) empty_OS).
Proof.
  apply (saveToFile_by_size
           (with_nodes (insert ["home"; "app"; "x.json"] (NFile "]")) empty_OS) "x.json" "]").
  - apply savableb_sound. vm_compute. reflexivity.
  - vm_compute. reflexivity.
Defined.

Lemma saveToFile_creates_witness :
  exists o',
    saveToFile sample1 "./logs/app.json" empty_OS = (Ok tt, o')
    /\ node_at o' (resolve (os_cwd empty_OS) (Dir "./logs/app.json")) = Some NDir
    /\ content o' "./logs/app.json" = Some (firstEntry sample1)
    /\ (forall k n, os_nodes empty_OS !! k = Some n -> os_nodes o' !! k = Some n).
Proof.
  apply (saveToFile_creates empty_OS "./logs/app.json" sample1).
  - apply savableb_sound. vm_compute. reflexivity.
  - vm_compute. reflexivity.
Defined.

Lemma saveToFile_refines_witness :
  exists o', saveToFile sample1 "./logs/app.json" empty_OS = (Ok tt, o')
    /\ content o' "./logs/app.json" = Some (arrayText ([] ++ [sample1]))
    /\ stored o' "./logs/app.json" ([] ++ [sample1])
    /\ savable o' "./logs/app.json" /\ os_fds o' = os_fds empty_OS.
Proof.
  apply (saveToFile_refines empty_OS "./logs/app.json" [] sample1).
  - apply savableb_sound. vm_compute. reflexivity.
  - left. vm_compute. reflexivity.
Defined.

Lemma saveToFile_blocked_witness :
  saveToFile sample1 "/invalid/path/test.json"
    (with_nodes (insert ["invalid"] (NFile "")) empty_OS)
  = (Err (errorString ("directory creation failed, mkdir " +:+ Dir "/invalid/path/test.json"
                       +:+ ": not a directory")),
     with_nodes (insert ["invalid"] (NFile "")) empty_OS).
Proof.
  apply (saveToFile_blocked sample1 "/invalid/path/test.json" _ ["invalid"] "").
  - reflexivity.
  - apply on_way_cons. by left.
  - reflexivity.
Defined.

Lemma saveToFile_closes_witness :
  os_fds (saveToFile sample1 "./logs/app.json"
            (with_faults [None; None; None; None; None; Some ENOSPC] empty_OS)).2
  = os_fds (with_faults [None; None; None; None; None; Some ENOSPC] empty_OS)
  /\ fds_bounded (saveToFile sample1 "./logs/app.json"
                    (with_faults [None; None; None; None; None; Some ENOSPC] empty_OS)).2.
Proof.
  apply (saveToFile_closes sample1 "./logs/app.json"
           (with_faults [None; None; None; None; None; Some ENOSPC] empty_OS)).
  intros fd f Hf. vm_compute in Hf. discriminate.
Defined.

(** ** The sink contract *)

#[export] Instance array_sink (p : string) : FileSink :=
  {| save j := saveToFile j p; holds o js := stored o p js; ready o := savable o p;
     save_appends o js j := array_law o p js j |}.

(** C8: records saved one after the other to a path that is not there leave a
    JSON array with exactly these records, in the order of the calls. *)
Theorem saveToFile_sequence (o : OS) (p : string) (js : list logToJSON) :
  savable o p -> content o p = None ->
  exists o', save_all (H:=array_sink p) js o = (Ok tt, o')
    /\ content o' p = (if js is [] then None else Some (arrayText js))
    /\ os_fds o' = os_fds o.
Proof.
  intros Ha Hc.
  destruct (save_all_appends (H:=array_sink p) js o [] Ha) as (o' & Hs & Hh & _ & Hf).
  { by left. }
  exists o'. split; [done|]. split; [|done].
  destruct js as [|j js]; [by injection Hs as <-|done].
Qed.

Lemma saveToFile_sequence_witness :
  exists o', save_all (H:=array_sink "./logs/app.json") [sample1; sample1; sample1] empty_OS
             = (Ok tt, o')
    /\ content o' "./logs/app.json" = Some (arrayText [sample1; sample1; sample1])
    /\ os_fds o' = os_fds empty_OS.
Proof.
  apply (saveToFile_sequence empty_OS "./logs/app.json" [sample1; sample1; sample1]).
  - apply savableb_sound. vm_compute. reflexivity.
  - vm_compute. reflexivity.
Defined.

End ArraySink.
