(* ===== verification/LineSink.v ===== *)
(** * LineSink: one JSON object per line, appended

    The file sink of src/main.go: [saveToFile] opens [log.json] in the
    working directory for appending, creating it when it is missing, and
    writes the compact JSON of the record and a line break.  Nothing is read
    and nothing is cut: the log on disk is the concatenation of the lines of
    the records saved so far. *)

From S2P Require Import Prelude GoJson GoOS Sink.

Module LineSink.

Import GoJson GoOS Sink.

Local Open Scope io_scope.

(** ** The code *)

(** [json.Marshal(jsoner)] with its error result. *)
Definition jsonMarshal (j : logToJSON) : M OS error string :=
  ret (Marshal (members j)).

(** The body of [saveToFile], for the file it names. *)
Definition appendTo (name : string) (jsoner : logToJSON) : M OS error unit :=
  file <- OpenFile name [O_CREATE; O_WRONLY; O_APPEND] 420 ;;
  defer_ (close_deferred file) (
    jsonData <- jsonMarshal jsoner ;;
    File_WriteString file (jsonData +:+ String LF "") ;;;
    ret tt).

Definition saveToFile (jsoner : logToJSON) : M OS error unit :=
  appendTo "log.json" jsoner.

(** ** The log a file holds *)

Definition lineText (j : logToJSON) : string := Marshal (members j) +:+ String LF "".

Fixpoint linesText (js : list logToJSON) : string :=
  match js with
  | [] => ""
  | j :: rest => lineText j +:+ linesText rest
  end.

(** A file that is not there holds no record, as an empty one does. *)
Definition stored (o : OS) (name : string) (js : list logToJSON) : Prop :=
  content o name = Some (linesText js) \/ (js = [] /\ content o name = None).

(** A state on which appending to [name] cannot fail: no fault is planned,
    the name is an entry of a directory that exists, and it is not a
    directory itself. *)
Definition appendable (o : OS) (name : string) : Prop :=
  os_faults o = [] /\ fds_bounded o
  /\ resolve (os_cwd o) name <> []
  /\ node_at o (parent (resolve (os_cwd o) name)) = Some NDir
  /\ os_nodes o !! resolve (os_cwd o) name <> Some NDir.

Definition appendableb (o : OS) (name : string) : bool :=
  bool_decide (os_faults o = [])
  && bool_decide (map_Forall (fun fd _ => fd < os_next o) (os_fds o))
  && negb (bool_decide (resolve (os_cwd o) name = []))
  && bool_decide (node_at o (parent (resolve (os_cwd o) name)) = Some NDir)
  && negb (bool_decide (os_nodes o !! resolve (os_cwd o) name = Some NDir)).

(** The state after a line was appended: the file has its new content and
    one descriptor number is used up. *)
Definition appended (k : list string) (data : string) (o : OS) : OS :=
  with_next (S (os_next o)) (with_nodes (insert k (NFile data)) o).

(** A record, for the statements at concrete inputs. *)
Definition sample : logToJSON :=
  {| logToJSON.ClosingTime := "2024-02-29 13:00:00"; logToJSON.Level := "INFO";
     logToJSON.Process := ""; logToJSON.Duration := ""; logToJSON.User := "";
     logToJSON.Message := "hello" |}.

(** ** Lemmas *)

Lemma linesText_snoc (js : list logToJSON) (j : logToJSON) :
  linesText (js ++ [j]) = linesText js +:+ lineText j.
Proof.
  induction js as [|j0 js IH]; simpl.
  - by rewrite Str.app_nil_r.
  - by rewrite IH, Str.app_assoc.
Qed.

Lemma appendableb_sound (o : OS) (name : string) : appendableb o name = true -> appendable o name.
Proof.
  unfold appendableb, appendable, fds_bounded.
  rewrite !andb_true_iff, !negb_true_iff, !bool_decide_eq_true, !bool_decide_eq_false.
  intros [[[[Hf Hb] Hne] Hp] Hd]. split_and!; [done|exact Hb|done|done|done].
Qed.

Section Append.
Context (o : OS) (name : string) (j : logToJSON).
Context (Hnf : os_faults o = []) (Hb : fds_bounded o).
Context (Hne : resolve (os_cwd o) name <> []).

Let k := resolve (os_cwd o) name.

(** What the write and the deferred close do once the file is open. *)
Lemma append_opened (d : string) (o1 : OS) :
  os_faults o1 = [] -> os_cwd o1 = os_cwd o -> os_next o1 = os_next o ->
  os_fds o1 = os_fds o -> os_nodes o1 !! k = Some (NFile d) ->
  defer_ (close_deferred (os_next o))
    (jsonData <- jsonMarshal j ;;
     File_WriteString (os_next o) (jsonData +:+ String LF "") ;;;
     ret tt)
    (new_fd name k [O_CREATE; O_WRONLY; O_APPEND] o1).2
  = (Ok tt, appended k (d +:+ lineText j) o1).
Proof using Hb Hne.
  intros Hf1 Hc1 Hn1 Hfd1 Hk1.
  assert (os_fds o !! os_next o = None) as Hfresh by apply (fds_bounded_fresh o 0 Hb).
  erewrite defer_run; cycle 1.
  { unfold jsonMarshal. rewrite bind_ret_l.
    erewrite bind_ok; [reflexivity|].
    eapply File_WriteString_run; [done|simpl; rewrite Hn1; apply lookup_insert_eq|].
    simpl. by rewrite node_at_ne. }
  f_equal. simpl. rewrite Hn1.
  erewrite close_deferred_run; [|done|simpl; apply lookup_insert_eq].
  destruct o1; simpl in *. subst. unfold appended, with_fds, with_nodes, with_next; simpl.
  f_equal.
  - by rewrite write_at_end.
  - rewrite insert_insert_eq, delete_insert_eq. by apply delete_id.
Qed.

Lemma appendTo_existing (d : string) :
  os_nodes o !! k = Some (NFile d) ->
  appendTo name j o = (Ok tt, appended k (d +:+ lineText j) o).
Proof using All.
  intros Hk. unfold appendTo.
  erewrite bind_ok; [|eapply OpenFile_existing; [done| |done]; by rewrite node_at_ne].
  by apply append_opened.
Qed.

Lemma appendTo_new :
  os_nodes o !! k = None -> node_at o (parent k) = Some NDir ->
  appendTo name j o = (Ok tt, appended k (lineText j) o).
Proof using All.
  intros Hk Hp. unfold appendTo.
  erewrite bind_ok; [|eapply OpenFile_creates; [done| |done|done]; by rewrite node_at_ne].
  rewrite (append_opened "" (with_nodes (insert k (NFile "")) o)); try done.
  - unfold appended, with_nodes, with_next; simpl. by rewrite insert_insert_eq.
  - simpl. apply lookup_insert_eq.
Qed.

End Append.

Lemma content_appended (o : OS) (name data : string) :
  resolve (os_cwd o) name <> [] ->
  content (appended (resolve (os_cwd o) name) data o) name = Some data.
Proof.
  intros Hne. unfold content. simpl. rewrite node_at_ne by done. simpl.
  by rewrite lookup_insert_eq.
Qed.

Lemma appendable_appended (o : OS) (name data : string) :
  appendable o name -> appendable (appended (resolve (os_cwd o) name) data o) name.
Proof.
  intros (Hnf & Hb & Hne & Hp & Hd). unfold appendable. simpl. split_and!; try done.
  - intros fd f Hf. apply Hb in Hf. simpl. lia.
  - destruct (parent (resolve (os_cwd o) name)) as [|c t] eqn:Hk; [done|]. simpl in *.
    rewrite lookup_insert_ne; [done|]. intros Heq. rewrite <- Heq in Hk.
    apply (f_equal length) in Hk. unfold parent in Hk.
    destruct (resolve (os_cwd o) name) as [|x l] using rev_ind; [done|].
    rewrite removelast_last, length_app in Hk. simpl in Hk. lia.
  - by rewrite lookup_insert_eq.
Qed.

(** What [appendTo] does on a state where it cannot fail. *)
Lemma appendTo_run (o : OS) (name : string) (j : logToJSON) :
  appendable o name ->
  appendTo name j o
  = (Ok tt, appended (resolve (os_cwd o) name)
              (default "" (content o name) +:+ lineText j) o).
Proof.
  intros (Hnf & Hb & Hne & Hp & Hd). rewrite content_node by done.
  destruct (os_nodes o !! resolve (os_cwd o) name) as [[|d]|] eqn:Hk; [done| |].
  - by apply appendTo_existing.
  - by apply appendTo_new.
Qed.

Lemma stored_content (o : OS) (name : string) (js : list logToJSON) :
  stored o name js -> default "" (content o name) = linesText js.
Proof. by intros [->|[-> ->]]. Qed.

(** The law of the sink at [name]. *)
Lemma line_law (o : OS) (name : string) (js : list logToJSON) (j : logToJSON) :
  appendable o name -> stored o name js ->
  exists o', appendTo name j o = (Ok tt, o')
    /\ stored o' name (js ++ [j]) /\ appendable o' name /\ os_fds o' = os_fds o.
Proof.
  intros Ha Hst. rewrite (appendTo_run o name j Ha), (stored_content _ _ _ Hst).
  eexists. split; [done|]. split; [|split; [by apply appendable_appended|done]].
  left. rewrite content_appended by apply Ha. by rewrite linesText_snoc.
Qed.

(** C9: [appendTo] implements appending a record to the log of lines: it
    returns without error, the text of the file is the lines it held
    followed by the line of the new record, and no descriptor stays open. *)
Theorem appendTo_refines (o : OS) (name : string) (js : list logToJSON) (j : logToJSON) :
  appendable o name -> stored o name js ->
  exists o', appendTo name j o = (Ok tt, o')
    /\ content o' name = Some (linesText js +:+ lineText j)
    /\ stored o' name (js ++ [j]) /\ appendable o' name /\ os_fds o' = os_fds o.
Proof.
  intros Ha Hst. destruct (line_law o name js j Ha Hst) as (o' & Hr & Hst' & Ha' & Hfd).
  exists o'. split_and!; try done. rewrite <- linesText_snoc.
  destruct Hst' as [H|[H _]]; [done|by destruct js].
Qed.

Lemma appendTo_refines_witness :
  exists o', appendTo "log.json" sample empty_OS = (Ok tt, o')
    /\ content o' "log.json" = Some (linesText [] +:+ lineText sample)
    /\ stored o' "log.json" ([] ++ [sample]) /\ appendable o' "log.json"
    /\ os_fds o' = os_fds empty_OS.
Proof.
  apply (appendTo_refines empty_OS "log.json" [] sample).
  - apply appendableb_sound. vm_compute. reflexivity.
  - right. split; [reflexivity|]. vm_compute. reflexivity.
Defined.

Lemma appendTo_fds (F : gmap nat FileDesc) (n0 : nat) (X : gset nat) (name : string)
    (j : logToJSON) :
  keeps F n0 X (appendTo name j).
Proof.
  unfold appendTo. apply keeps_open; [apply opens_OpenFile|].
  intros file Hfile. apply keeps_bind; [apply keeps_ret|]. intros jsonData.
  apply keeps_bind; [apply File_WriteString_fds; set_solver|]. intros _. apply keeps_ret.
Qed.

(** [appendTo] leaves open exactly the descriptors that were open,
    whatever call fails. *)
Theorem appendTo_closes (name : string) (j : logToJSON) (o : OS) :
  fds_bounded o ->
  os_fds (appendTo name j o).2 = os_fds o /\ fds_bounded (appendTo name j o).2.
Proof.
  intros Hb. apply fd_inv_done; [done|].
  eapply post_same, appendTo_fds, fd_inv_init, Hb.
Qed.

(** ** The sink contract *)

#[export] Instance line_sink (name : string) : FileSink :=
  {| save := appendTo name; holds o js := stored o name js;
     ready o := appendable o name;
     save_appends o js j := line_law o name js j |}.

(** Records saved one after the other to a file that is not there leave
    exactly their lines, in the order of the calls. *)
Theorem appendTo_sequence (o : OS) (name : string) (js : list logToJSON) :
  appendable o name -> content o name = None ->
  exists o', save_all (H:=line_sink name) js o = (Ok tt, o')
    /\ content o' name = (if js is [] then None else Some (linesText js))
    /\ os_fds o' = os_fds o.
Proof.
  intros Ha Hc.
  destruct (save_all_appends (H:=line_sink name) js o [] Ha) as (o' & Hs & Hh & _ & Hf).
  { by right. }
  exists o'. split; [done|]. split; [|done].
  destruct js as [|j js]; [by injection Hs as <-|].
  by destruct Hh as [Hh|[? _]].
Qed.

Lemma appendTo_sequence_witness :
  exists o', save_all (H:=line_sink "log.json") [sample; sample] empty_OS = (Ok tt, o')
    /\ content o' "log.json" = Some (linesText [sample; sample])
    /\ os_fds o' = os_fds empty_OS.
Proof.
  apply (appendTo_sequence empty_OS "log.json" [sample; sample]).
  - apply appendableb_sound. vm_compute. reflexivity.
  - vm_compute. reflexivity.
Defined.

Lemma appendTo_closes_witness :
  os_fds (appendTo "log.json" sample (with_faults [None; Some EIO] empty_OS)).2
  = os_fds (with_faults [None; Some EIO] empty_OS)
  /\ fds_bounded (appendTo "log.json" sample (with_faults [None; Some EIO] empty_OS)).2.
Proof.
  apply (appendTo_closes "log.json" sample (with_faults [None; Some EIO] empty_OS)).
  intros fd f Hf. vm_compute in Hf. discriminate.
Defined.

(** When the file cannot be opened, [saveToFile] returns the error of
    [OpenFile] as it is, and the state [OpenFile] left. *)
Theorem saveToFile_open_fails (j : logToJSON) (o o' : OS) (e : error) :
  OpenFile "log.json" [O_CREATE; O_WRONLY; O_APPEND] 420 o = (Err e, o') ->
  saveToFile j o = (Err e, o').
Proof. intros Ho. unfold saveToFile, appendTo. by rewrite (bind_err _ _ _ _ _ Ho). Qed.

Lemma saveToFile_open_fails_witness :
  saveToFile sample (with_faults [Some EACCES] empty_OS)
  = (Err (PathError "open" "log.json" EACCES), empty_OS).
Proof. apply saveToFile_open_fails. reflexivity. Defined.

End LineSink.
