(* ===== verification/Compose.v ===== *)
(** * Compose: from a log call to its display parts and its record

    Every variant of [logMessage] builds the same two things from the level,
    the message and the options of the call: the list [logParts] shown on
    the terminal (and mirrored in the spinner's suffix while it grows), and
    the struct [jsoner] handed to the file sink.  The variants differ in the
    fields their [LogOptions] has beyond [StartTime], [Process] and [User],
    so the code is modelled once, over the class [LogFields] of option
    structs with these three fields. *)

From S2P Require Import Prelude GoTime GoJson GoOS World Sink.

Module Compose.

Import GoTime GoJson World Sink.

Local Open Scope io_scope.

(** ** Data *)

Definition INFO : string := "INFO".
Definition WARN : string := "WARN".
Definition FATAL : string := "FATAL".
Definition PANIC : string := "PANIC".

(** An option struct: the fields every variant reads, and the zero value
    [var opts LogOptions] starts from. *)
Class LogFields (Opts : Type) : Type := {
  StartTime : Opts -> Time;
  Process : Opts -> string;
  User : Opts -> string;
  zeroOptions : Opts
}.

(** The option struct of the variants without a per-call file setting. *)
Module LogOptions.
Record LogOptions : Type := mk {
  StartTime : Time;
  Process : string;
  User : string
}.
End LogOptions.
Abbreviation LogOptions := LogOptions.LogOptions.

#[export] Instance LogOptions_fields : LogFields LogOptions :=
  {| StartTime := LogOptions.StartTime; Process := LogOptions.Process;
     User := LogOptions.User;
     zeroOptions := {| LogOptions.StartTime := zeroTime; LogOptions.Process := "";
                       LogOptions.User := "" |} |}.

(** [options ...LogOptions]: the first one counts, none gives the zero
    value. *)
Definition firstOptions {Opts} `{!LogFields Opts} (options : list Opts) : Opts :=
  match options with
  | o :: _ => o
  | [] => zeroOptions
  end.

(** [fmt.Sprintf(" [%s]", level)] *)
Definition tag (level : string) : string := " [" +:+ level +:+ "]".

(** [fmt.Sprintf("%d ms", d.Milliseconds())] *)
Definition millis (d : Duration) : string := pretty (Milliseconds d) +:+ " ms".

(** The variables [logMessage] has built when it has read the closing
    time. *)
Record Draft : Type := mkDraft {
  d_parts : list string;
  d_spinner : Spinner;
  d_json : logToJSON;
  d_closing : Time
}.

(** ** The code *)

Definition formatMessage {Opts} `{!LogFields Opts} (level message : string) (opts : Opts)
  : IO Draft :=
  let jsoner := logToJSON.zero in
  let s := Start spinner_New in
  startingTime <- now ;;
  let s := set_Prefix (Format startingTime +:+ " ") s in
  let logParts := [tag level] in
  let s := set_Suffix (nth 0 logParts "") s in
  let jsoner := logToJSON.set_Level level jsoner in
  let '(logParts, s, jsoner) :=
    if decide (Process opts <> "") then
      let logParts := logParts ++ [Process opts] in
      (logParts, set_Suffix (Join logParts " | ") s,
       logToJSON.set_Process (Process opts) jsoner)
    else (logParts, s, jsoner) in
  st <- (if negb (IsZero (StartTime opts)) then
           currentTime <- now ;;
           let duration := millis (Sub currentTime (StartTime opts)) in
           let logParts := logParts ++ [duration] in
           ret (logParts, set_Suffix (Join logParts " | ") s,
                logToJSON.set_Duration duration jsoner)
         else ret (logParts, s, jsoner)) ;;
  let '(logParts, s, jsoner) := st in
  let '(logParts, s, jsoner) :=
    if decide (User opts <> "") then
      let logParts := logParts ++ [User opts] in
      (logParts, set_Suffix (Join logParts " | ") s,
       logToJSON.set_User (User opts) jsoner)
    else (logParts, s, jsoner) in
  let logParts := logParts ++ [message] in
  let s := set_Suffix (Join logParts " | ") s in
  let jsoner := logToJSON.set_Message message jsoner in
  closingTime <- now ;;
  let jsoner := logToJSON.set_ClosingTime (Format closingTime) jsoner in
  ret {| d_parts := logParts; d_spinner := s; d_json := jsoner;
         d_closing := closingTime |}.

(** The final line: closing time, marker, the parts, a line break. *)
Definition finalLine (closingTime : Time) (marker : string) (logParts : list string) : string :=
  Format closingTime +:+ marker +:+ Join logParts " | " +:+ String LF "".

(** ** What the code computes

    The same values written without the step-by-step updates: a field is
    present when its source is not empty, the duration is measured at the
    reading after the starting time, the closing time is the last
    reading. *)

Definition optional (s : string) : list string := if decide (s = "") then [] else [s].

Section Fields.
Context {Opts} `{!LogFields Opts} (level message : string) (opts : Opts).

(** The display parts and the record of a call whose duration field is
    [dur] and whose closing time is shown as [closing]. *)
Definition partsOf (dur : string) : list string :=
  [tag level] ++ optional (Process opts) ++ optional dur
  ++ optional (User opts) ++ [message].

Definition recordWith (dur closing : string) : logToJSON :=
  {| logToJSON.ClosingTime := closing;
     logToJSON.Level := level;
     logToJSON.Process := Process opts;
     logToJSON.Duration := dur;
     logToJSON.User := User opts;
     logToJSON.Message := message |}.

End Fields.

Section Closed.
Context {Opts} `{!LogFields Opts} (level message : string) (opts : Opts) (c : Clock).

Definition timed : bool := negb (IsZero (StartTime opts)).

Definition duration : string :=
  if timed then millis (Sub (reading (tick (tick c))) (StartTime opts)) else "".

Definition closingClock : Clock := tick (if timed then tick (tick c) else tick c).

Definition displayParts : list string := partsOf level message opts duration.

Definition recordOf : logToJSON :=
  recordWith level message opts duration (Format (reading closingClock)).

Definition draftOf : Draft :=
  {| d_parts := displayParts;
     d_spinner := {| Prefix := Format (reading (tick c)) +:+ " ";
                     Suffix := Join displayParts " | "; FinalMSG := "";
                     active := true |};
     d_json := recordOf;
     d_closing := reading closingClock |}.

End Closed.

(** A call for the statements at concrete inputs: a process that started
    when the clock showed [slowStart]; 150 ms pass before the starting time
    is read and 100 ms more before the duration is measured. *)
Definition slowClock : Clock :=
  {| clk_wall := 63844765200 * Second; clk_mono := 5000; clk_offset := 0;
     clk_delays := [150000000%N; 100000000%N; 7000%N] |}.

Definition slowWorld : World := {| w_clock := slowClock; w_os := GoOS.empty_OS; w_out := [] |}.

(** The same clock with 5 ms between the measurement and the closing
    time. *)
Definition lateClock : Clock :=
  {| clk_wall := 63844765200 * Second; clk_mono := 5000; clk_offset := 0;
     clk_delays := [0%N; 0%N; 5000000%N] |}.

Definition slowOptions : LogOptions :=
  {| LogOptions.StartTime := reading slowClock; LogOptions.Process := "P";
     LogOptions.User := "" |}.

(** ** Lemmas *)

Lemma millis_nonempty (d : Duration) : millis d <> "".
Proof. unfold millis. by intros [_ ?]%Str.app_eq_nil. Qed.

Lemma optional_omitempty (key value : string) : (omitempty key value).*2 = optional value.
Proof. unfold omitempty, optional. by case_decide. Qed.

Lemma finalLine_nonempty (t : Time) (marker : string) (parts : list string) :
  finalLine t marker parts <> "".
Proof.
  unfold finalLine. intros [_ [_ [_ ?]%Str.app_eq_nil]%Str.app_eq_nil]%Str.app_eq_nil.
  done.
Qed.

Section ClosedLemmas.
Context {Opts} `{!LogFields Opts} (level message : string) (opts : Opts).

(** [formatMessage] returns, reads the clock two or three times and touches
    nothing else; its results are the values of the closed forms. *)
Lemma formatMessage_run (w : World) :
  formatMessage level message opts w
  = (Ok (draftOf level message opts (w_clock w)),
     with_clock (closingClock opts (w_clock w)) w).
Proof.
  unfold formatMessage, draftOf, displayParts, recordOf, partsOf, recordWith, closingClock,
    duration, timed, optional.
  pose proof (millis_nonempty (Sub (reading (tick (tick (w_clock w)))) (StartTime opts))).
  destruct (IsZero (StartTime opts)); simpl;
    repeat case_decide; try done;
    repeat match goal with Hx : _ = "" |- _ => rewrite Hx end; reflexivity.
Qed.

Lemma closingClock_le (c : Clock) : clock_le c (closingClock opts c).
Proof.
  unfold closingClock. destruct (timed opts); repeat (etrans; [|apply tick_le]); done.
Qed.

End ClosedLemmas.

Section Claims.
Context {Opts} `{!LogFields Opts} (level message : string) (opts : Opts).

Lemma partsOf_tail (dur closing : string) :
  (members (recordWith level message opts dur closing)).*2
  = closing :: level :: tail (partsOf level message opts dur).
Proof. unfold members, partsOf. rewrite !fmap_app, !optional_omitempty. done. Qed.

Lemma displayParts_tail (c : Clock) :
  (members (recordOf level message opts c)).*2
  = Format (reading (closingClock opts c)) :: level :: tail (displayParts level message opts c).
Proof. apply partsOf_tail. Qed.

Lemma partsOf_minimal (closing : string) :
  Process opts = "" -> User opts = "" ->
  partsOf level message opts "" = [tag level; message]
  /\ members (recordWith level message opts "" closing)
     = [("time", closing); ("level", level); ("message", message)].
Proof. intros Hp Hu. unfold partsOf, members. simpl. by rewrite Hp, Hu. Qed.

Lemma partsOf_process (dur closing : string) :
  Process opts <> "" ->
  partsOf level message opts dur !! 1 = Some (Process opts)
  /\ members (recordWith level message opts dur closing) !! 2
     = Some ("process", Process opts).
Proof.
  intros Hp. unfold partsOf, members, optional; simpl.
  rewrite omitempty_nonempty by done. by case_decide.
Qed.

(** C5: the display parts are the level tag, then the process, the duration
    and the user when they are not empty, then the message, and the spinner
    shows them joined; the call returns and moves nothing but the clock. *)
Theorem formatMessage_parts (w : World) :
  exists d,
    formatMessage level message opts w = (Ok d, with_clock (closingClock opts (w_clock w)) w)
    /\ d_parts d = [tag level] ++ optional (Process opts)
                   ++ optional (duration opts (w_clock w))
                   ++ optional (User opts) ++ [message]
    /\ Suffix (d_spinner d) = Join (d_parts d) " | "
    /\ active (d_spinner d) = true /\ FinalMSG (d_spinner d) = "".
Proof. eexists. split; [apply formatMessage_run|done]. Qed.

(** C6: the record has the fields the display has: the values of its JSON
    members are the closing time, the level and the display parts after the
    tag, under keys taken in order from time, level, process, duration,
    user, message. *)
Theorem formatMessage_record (w : World) :
  exists d w',
    formatMessage level message opts w = (Ok d, w')
    /\ (members (d_json d)).*2 = Format (d_closing d) :: level :: tail (d_parts d)
    /\ (members (d_json d)).*1 `sublist_of`
         ["time"; "level"; "process"; "duration"; "user"; "message"].
Proof.
  eexists _, _. split; [apply formatMessage_run|]. split; [apply displayParts_tail|].
  apply members_keys.
Qed.

(** With no process, no user and a zero start time the record has the
    members time, level and message only. *)
Theorem formatMessage_minimal (w : World) :
  Process opts = "" -> User opts = "" -> IsZero (StartTime opts) = true ->
  exists d w',
    formatMessage level message opts w = (Ok d, w')
    /\ d_parts d = [tag level; message]
    /\ members (d_json d)
       = [("time", Format (d_closing d)); ("level", level); ("message", message)].
Proof.
  intros Hp Hu Hz. eexists _, _. split; [apply formatMessage_run|].
  unfold draftOf, displayParts, recordOf, duration, timed; simpl. rewrite Hz.
  by apply partsOf_minimal.
Qed.

(** A process that is not empty is the second display part and the
    member after time and level. *)
Theorem formatMessage_process_second (w : World) :
  Process opts <> "" ->
  exists d w',
    formatMessage level message opts w = (Ok d, w')
    /\ d_parts d !! 1 = Some (Process opts)
    /\ members (d_json d) !! 2 = Some ("process", Process opts).
Proof.
  intros Hp. eexists _, _. split; [apply formatMessage_run|]. by apply partsOf_process.
Qed.

(** When the start time was read from the clock earlier, the duration is
    the time between that reading and the second reading of the call in
    whole milliseconds, rounded down, and is not negative. *)
Lemma duration_floor (w : World) (c0 : Clock) :
  StartTime opts = reading c0 -> IsZero (StartTime opts) = false ->
  clock_le c0 (w_clock w) ->
  let e := (clk_mono (tick (tick (w_clock w))) - clk_mono c0)%Z in
  (e <= maxDuration)%Z ->
  exists d w' n,
    formatMessage level message opts w = (Ok d, w')
    /\ logToJSON.Duration (d_json d) = pretty n +:+ " ms"
    /\ (0 <= n /\ n * Millisecond <= e < (n + 1) * Millisecond)%Z.
Proof.
  intros Hs Hz Hc e He. eexists _, _, _. split; [apply formatMessage_run|].
  assert (0 <= e)%Z as H0.
  { destruct Hc as [Hc _]. pose proof (tick_le (w_clock w)) as [? _].
    pose proof (tick_le (tick (w_clock w))) as [? _]. unfold e. lia. }
  simpl. unfold duration, timed, millis. rewrite Hz, Hs. split; [reflexivity|].
  change (Sub _ _) with (sat64 e). clearbody e.
  rewrite sat64_id by (unfold minDuration, maxDuration in *; lia).
  split; [by apply Milliseconds_nonneg|by apply Milliseconds_floor].
Qed.
(** The duration is measured before the closing time is read: the time
    that passes between the two readings is in the closing time of the record
    and not in its duration, which falls short of the time from the start to
    the closing time by exactly that delay. *)
Theorem duration_before_closing (w : World) (c0 : Clock) :
  StartTime opts = reading c0 -> IsZero (StartTime opts) = false ->
  clock_le c0 (w_clock w) ->
  (clk_mono (closingClock opts (w_clock w)) - clk_mono c0 <= maxDuration)%Z ->
  exists d w',
    formatMessage level message opts w = (Ok d, w')
    /\ logToJSON.ClosingTime (d_json d) = Format (d_closing d)
    /\ logToJSON.Duration (d_json d)
       = millis (Sub (d_closing d) (StartTime opts)
                 - Z.of_N (nth 2 (clk_delays (w_clock w)) 0%N))%Z.
Proof.
  intros Hs Hz [Hc _] He. eexists _, _. split; [apply formatMessage_run|].
  split; [reflexivity|]. revert He. unfold closingClock, timed. rewrite Hz. simpl negb. cbv iota. intros He.
  pose proof (tick_le (w_clock w)) as [? _].
  pose proof (tick_le (tick (w_clock w))) as [? _].
  change (logToJSON.Duration _) with (duration opts (w_clock w)).
  change (d_closing _) with (reading (closingClock opts (w_clock w))).
  unfold duration, closingClock, timed. rewrite Hz, Hs. simpl negb. cbv iota.
  rewrite (Sub_tick (tick (tick (w_clock w)))), !tick_delays, hd_tl_tl by (done || lia).
  f_equal. lia.
Qed.

(** C10: when the start time was read from the clock earlier, the duration is
    the time between that reading and the second reading of the call in
    whole milliseconds, rounded down, and is not negative.  It is measured
    before the closing time is read: the time that passes between the two
    readings is in the closing time of the record and not in its duration,
    which falls short of the time from the start to the closing time by
    exactly that delay. *)
Theorem formatMessage_duration (w : World) (c0 : Clock) :
  StartTime opts = reading c0 -> IsZero (StartTime opts) = false ->
  clock_le c0 (w_clock w) ->
  let e := (clk_mono (tick (tick (w_clock w))) - clk_mono c0)%Z in
  (e <= maxDuration)%Z ->
  exists d w' n,
    formatMessage level message opts w = (Ok d, w')
    /\ logToJSON.Duration (d_json d) = pretty n +:+ " ms"
    /\ (0 <= n /\ n * Millisecond <= e < (n + 1) * Millisecond)%Z
    /\ logToJSON.ClosingTime (d_json d) = Format (d_closing d)
    /\ ((clk_mono (closingClock opts (w_clock w)) - clk_mono c0 <= maxDuration)%Z ->
        logToJSON.Duration (d_json d)
        = millis (Sub (d_closing d) (StartTime opts)
                  - Z.of_N (nth 2 (clk_delays (w_clock w)) 0%N))%Z).
Proof.
  intros Hs Hz Hc e He.
  destruct (duration_floor w c0 Hs Hz Hc He) as (d & w' & n & Hr & Hd & Hn).
  exists d, w', n. do 3 (split; [done|]). split.
  - rewrite formatMessage_run in Hr. by injection Hr as <- <-.
  - intros Hcl. destruct (duration_before_closing w c0 Hs Hz Hc Hcl) as (d' & w'' & Hr' & _ & Hd').
    rewrite Hr in Hr'. by injection Hr' as <- <-.
Qed.

End Claims.

Lemma duration_before_closing_witness :
  exists d w',
    formatMessage "INFO" "m" slowOptions
      {| w_clock := lateClock; w_os := GoOS.empty_OS; w_out := [] |} = (Ok d, w')
    /\ logToJSON.ClosingTime (d_json d) = Format (d_closing d)
    /\ logToJSON.Duration (d_json d)
       = millis (Sub (d_closing d) (StartTime slowOptions)
                 - Z.of_N (nth 2 [0; 0; 5000000] 0)%N)%Z.
Proof.
  apply (duration_before_closing "INFO" "m" slowOptions
           {| w_clock := lateClock; w_os := GoOS.empty_OS; w_out := [] |} slowClock);
    [reflexivity|reflexivity|vm_compute; split; [discriminate|reflexivity]
    |vm_compute; discriminate].
Defined.

Lemma formatMessage_minimal_witness :
  exists d w',
    formatMessage "INFO" "hello" zeroOptions slowWorld = (Ok d, w')
    /\ d_parts d = [tag "INFO"; "hello"]
    /\ members (d_json d)
       = [("time", Format (d_closing d)); ("level", "INFO"); ("message", "hello")].
Proof.
  apply (formatMessage_minimal "INFO" "hello" (zeroOptions : LogOptions) slowWorld);
    reflexivity.
Defined.

Lemma formatMessage_process_second_witness :
  exists d w',
    formatMessage "WARN" "slow" slowOptions slowWorld = (Ok d, w')
    /\ d_parts d !! 1 = Some "P"
    /\ members (d_json d) !! 2 = Some ("process", "P").
Proof.
  assert (Hp : Process slowOptions <> "") by (simpl; discriminate).
  exact (formatMessage_process_second "WARN" "slow" slowOptions slowWorld Hp).
Defined.

Lemma formatMessage_duration_witness :
  exists d w' n,
    formatMessage "WARN" "slow" slowOptions slowWorld = (Ok d, w')
    /\ logToJSON.Duration (d_json d) = pretty n +:+ " ms"
    /\ (0 <= n /\ n * Millisecond <= 250000000 < (n + 1) * Millisecond)%Z
    /\ logToJSON.ClosingTime (d_json d) = Format (d_closing d)
    /\ ((clk_mono (closingClock slowOptions (w_clock slowWorld)) - clk_mono slowClock
         <= maxDuration)%Z ->
        logToJSON.Duration (d_json d)
        = millis (Sub (d_closing d) (StartTime slowOptions)
                  - Z.of_N (nth 2 (clk_delays (w_clock slowWorld)) 0%N))%Z).
Proof.
  apply (formatMessage_duration "WARN" "slow" slowOptions slowWorld slowClock);
    [reflexivity|reflexivity|reflexivity|vm_compute; discriminate].
Defined.

(** The scenario of a slow process: with 250 ms between the start time
    and the measurement the record has the process and a duration of
    [250 ms]. *)
Example slow_record :
  exists d w',
    formatMessage "WARN" "slow" slowOptions slowWorld = (Ok d, w')
    /\ d_parts d = [" [WARN]"; "P"; "250 ms"; "slow"]
    /\ members (d_json d)
       = [("time", "2024-02-29 01:00:00"); ("level", "WARN"); ("process", "P");
          ("duration", "250 ms"); ("message", "slow")].
Proof. eexists _, _. split; [vm_compute; reflexivity|]. split; reflexivity. Qed.

(** With 5 ms between the measurement and the closing time the record
    says 0 ms, and the closing time is 5 ms after the start. *)
Example late_record :
  exists d w',
    formatMessage "INFO" "m" slowOptions
      {| w_clock := lateClock; w_os := GoOS.empty_OS; w_out := [] |} = (Ok d, w')
    /\ logToJSON.Duration (d_json d) = "0 ms"
    /\ Milliseconds (Sub (d_closing d) (StartTime slowOptions)) = 5%Z.
Proof. eexists _, _. split; [vm_compute; reflexivity|]. split; reflexivity. Qed.

End Compose.
