(* ===== verification/Dates.v ===== *)
(** * Dates: the calendar behind the time stamp

    [civil] of [GoTime] turns a day number into year, month and day.  Here
    it is shown to produce dates of the calendar, each day its own: the
    month is one of twelve, the day is within the month, leap years
    included, and the day number is recovered from the date.  The layout
    [2006-01-02 15:04:05] then has its nineteen bytes, for the years that
    have four digits. *)

From S2P Require Import Prelude GoTime GoJson GoOS World Sink Compose.

Module Dates.

Import GoTime World Sink Compose.

Local Open Scope Z_scope.

(** ** The calendar *)

Definition leap (y : Z) : bool :=
  (y mod 4 =? 0) && (negb (y mod 100 =? 0) || (y mod 400 =? 0)).

Definition month_length (y m : Z) : Z :=
  if m =? 2 then (if leap y then 29 else 28)
  else if (m =? 4) || (m =? 6) || (m =? 9) || (m =? 11) then 30 else 31.

Definition valid_date (y m d : Z) : Prop := 1 <= m <= 12 /\ 1 <= d <= month_length y m.

(** The number of the day of a date, counted as [civil] counts. *)
Definition days_of (y m d : Z) : Z :=
  let y' := if m <=? 2 then y - 1 else y in
  let era := y' / 400 in
  let yoe := y' - era * 400 in
  let mp := if m <=? 2 then m + 9 else m - 3 in
  let doy := (153 * mp + 2) / 5 + d - 1 in
  era * 146097 + (yoe * 365 + yoe / 4 - yoe / 100 + doy) - 306.

(** The steps of [civil]: the year of the era of 400 years, the day of
    the year that starts in March, and month and day from it. *)
Definition year_of_era (doe : Z) : Z :=
  (doe - doe / 1460 + doe / 36524 - doe / 146096) / 365.

Definition day_of_year (doe : Z) : Z :=
  doe - (365 * year_of_era doe + year_of_era doe / 4 - year_of_era doe / 100).

Definition month_of (doy : Z) : Z :=
  if (5 * doy + 2) / 153 <? 10 then (5 * doy + 2) / 153 + 3 else (5 * doy + 2) / 153 - 9.

Definition day_of (doy : Z) : Z := doy - (153 * ((5 * doy + 2) / 153) + 2) / 5 + 1.

Ltac cases :=
  repeat match goal with
    | |- context [Z.ltb ?x ?y] => destruct (Z.ltb_spec x y)
    | |- context [Z.leb ?x ?y] => destruct (Z.leb_spec x y)
    | |- context [Z.eqb ?x ?y] => destruct (Z.eqb_spec x y)
    end; simpl.

Ltac arith := Z.div_mod_to_equations; lia.

Lemma civil_steps (days : Z) :
  civil days
  = let era := (days + 306) / 146097 in
    let doe := days + 306 - era * 146097 in
    let doy := day_of_year doe in
    (year_of_era doe + era * 400 + (if month_of doy <=? 2 then 1 else 0),
     month_of doy, day_of doy).
Proof. reflexivity. Qed.

Lemma day_of_era_range (days : Z) :
  0 <= days + 306 - (days + 306) / 146097 * 146097 <= 146096.
Proof. arith. Qed.

(** A year of the era has 365 days, and a 366th when it is the last of
    four but not the last of a hundred, or the last of the era. *)
Lemma day_of_year_range (doe : Z) :
  0 <= doe <= 146096 ->
  0 <= year_of_era doe <= 399 /\ 0 <= day_of_year doe <= 365
  /\ (day_of_year doe = 365 ->
      year_of_era doe mod 4 = 3
      /\ (year_of_era doe mod 100 = 99 -> year_of_era doe = 399)).
Proof. intros H. unfold day_of_year, year_of_era. arith. Qed.

Lemma month_day_range (doy : Z) :
  0 <= doy <= 365 ->
  1 <= month_of doy <= 12 /\ 1 <= day_of doy <= 31
  /\ (month_of doy = 2 -> day_of doy <= 29 /\ (day_of doy = 29 -> doy = 365))
  /\ (month_of doy = 4 \/ month_of doy = 6 \/ month_of doy = 9 \/ month_of doy = 11 ->
      day_of doy <= 30).
Proof. intros H. unfold month_of, day_of. cases; arith. Qed.

(** [civil] gives a date of the calendar. *)
Theorem civil_valid (days : Z) :
  valid_date (civil days).1.1 (civil days).1.2 (civil days).2.
Proof.
  rewrite civil_steps. cbv zeta. simpl fst; simpl snd.
  pose proof (day_of_era_range days) as He.
  set (era := (days + 306) / 146097) in *. set (doe := days + 306 - era * 146097) in *.
  destruct (day_of_year_range doe He) as (Hy & Hd & Hl).
  destruct (month_day_range (day_of_year doe) Hd) as (Hm & Hday & Hfeb & H30).
  set (yoe := year_of_era doe) in *. set (m := month_of (day_of_year doe)) in *.
  set (d := day_of (day_of_year doe)) in *. clearbody m d yoe. clear He.
  unfold valid_date, month_length, leap. split; [done|]. split; [lia|].
  cases; try lia; arith.
Qed.

(** The day number is recovered from the date: no two days have the same
    date. *)
Theorem days_of_civil (days : Z) :
  days_of (civil days).1.1 (civil days).1.2 (civil days).2 = days.
Proof.
  rewrite civil_steps. cbv zeta. simpl fst; simpl snd.
  pose proof (day_of_era_range days) as He.
  set (era := (days + 306) / 146097) in *. set (doe := days + 306 - era * 146097) in *.
  destruct (day_of_year_range doe He) as (Hy & Hd & _).
  assert (doe = 365 * year_of_era doe + year_of_era doe / 4 - year_of_era doe / 100
                + day_of_year doe) as Hdoe by (unfold day_of_year; lia).
  set (yoe := year_of_era doe) in *. set (doy := day_of_year doe) in *. clearbody yoe doy.
  unfold days_of, month_of, day_of. cases; arith.
Qed.

(** The steps of [civil] undo the steps of [days_of]. *)
Lemma year_of_era_days (yoe doy : Z) :
  0 <= yoe <= 399 -> 0 <= doy <= 365 ->
  (doy = 365 -> yoe mod 4 = 3 /\ (yoe mod 100 = 99 -> yoe = 399)) ->
  year_of_era (yoe * 365 + yoe / 4 - yoe / 100 + doy) = yoe.
Proof. intros Hy Hd Hl. unfold year_of_era. arith. Qed.

Lemma month_day_days (mp d : Z) :
  0 <= mp <= 11 -> 1 <= d <= (153 * (mp + 1) + 2) / 5 - (153 * mp + 2) / 5 ->
  (5 * ((153 * mp + 2) / 5 + d - 1) + 2) / 153 = mp.
Proof. intros Hm Hd. arith. Qed.

Lemma day_of_days (mp d : Z) :
  0 <= mp <= 11 -> 1 <= d <= (153 * (mp + 1) + 2) / 5 - (153 * mp + 2) / 5 ->
  day_of ((153 * mp + 2) / 5 + d - 1) = d.
Proof. intros Hm Hd. unfold day_of. rewrite month_day_days by done. lia. Qed.

(** The month counted from March. *)
Definition march_month (m : Z) : Z := if m <=? 2 then m + 9 else m - 3.

Lemma month_of_march (m d : Z) :
  1 <= m <= 12 ->
  1 <= d <= (153 * (march_month m + 1) + 2) / 5 - (153 * march_month m + 2) / 5 ->
  month_of ((153 * march_month m + 2) / 5 + d - 1) = m.
Proof.
  intros Hm Hd. unfold month_of.
  rewrite month_day_days by first [done|unfold march_month; cases; lia].
  unfold march_month. cases; lia.
Qed.

Lemma month_length_march (y m : Z) :
  1 <= m <= 12 ->
  month_length y m <= (153 * (march_month m + 1) + 2) / 5 - (153 * march_month m + 2) / 5
  /\ (153 * march_month m + 2) / 5 + month_length y m - 1
     <= if (m =? 2) && leap y then 365 else 364.
Proof.
  intros Hm. assert (Hc : m = 1 \/ m = 2 \/ m = 3 \/ m = 4 \/ m = 5 \/ m = 6 \/ m = 7 \/ m = 8
                          \/ m = 9 \/ m = 10 \/ m = 11 \/ m = 12) by lia.
  unfold month_length.
  repeat destruct Hc as [->|Hc]; try subst m; simpl; try destruct (leap y); done.
Qed.

(** The year of the era of the year that starts in March. *)
Lemma leap_era (y : Z) :
  leap y = true ->
  ((y - 1) - (y - 1) / 400 * 400) mod 4 = 3
  /\ (((y - 1) - (y - 1) / 400 * 400) mod 100 = 99 -> (y - 1) - (y - 1) / 400 * 400 = 399).
Proof.
  unfold leap. rewrite andb_true_iff, orb_true_iff, negb_true_iff, !Z.eqb_eq, Z.eqb_neq.
  intros [H4 H]. arith.
Qed.

Lemma era_days (era yoe doy : Z) :
  0 <= yoe <= 399 -> 0 <= doy <= 365 ->
  (era * 146097 + (yoe * 365 + yoe / 4 - yoe / 100 + doy) - 306 + 306) / 146097 = era.
Proof. intros Hy Hd. arith. Qed.

(** Every date of the calendar is the date of its day. *)
Theorem civil_days_of (y m d : Z) :
  valid_date y m d -> civil (days_of y m d) = (y, m, d).
Proof.
  intros [Hm Hd]. destruct (month_length_march y m Hm) as [Hlen Hdoy].
  rewrite civil_steps. unfold days_of. cbv zeta. fold (march_month m).
  set (y' := if m <=? 2 then y - 1 else y).
  set (yoe := y' - y' / 400 * 400). set (doy := (153 * march_month m + 2) / 5 + d - 1).
  assert (0 <= yoe <= 399) as Hy by (unfold yoe; arith).
  assert (0 <= doy <= 365
          /\ (doy = 365 -> yoe mod 4 = 3 /\ (yoe mod 100 = 99 -> yoe = 399))) as [Hr Hl].
  { assert (0 <= (153 * march_month m + 2) / 5) by (unfold march_month; cases; arith).
    destruct ((m =? 2) && leap y) eqn:E; [|unfold doy; lia].
    apply andb_true_iff in E as [->%Z.eqb_eq Hleap]. split; [unfold doy; lia|].
    intros _. apply leap_era in Hleap. exact Hleap. }
  rewrite (era_days (y' / 400) yoe doy) by done.
  replace (_ - 306 + 306 - _) with (yoe * 365 + yoe / 4 - yoe / 100 + doy) by lia.
  unfold day_of_year. rewrite year_of_era_days by done.
  replace (_ - (365 * yoe + yoe / 4 - yoe / 100)) with doy by lia.
  unfold doy. rewrite month_of_march, day_of_days by first [lia|unfold march_month; cases; lia].
  f_equal. f_equal. unfold yoe, y'. cases; lia.
Qed.

(** ** Numbers of fixed width *)

(** The last [w] decimal digits of [x]. *)
Fixpoint fixed (w : nat) (x : N) : string :=
  match w with
  | O => ""
  | S w' => fixed w' (x / 10) +:+ String (pretty_N_char (x mod 10)) ""
  end.

Lemma length_fixed (w : nat) (x : N) : String.length (fixed w x) = w.
Proof.
  revert x. induction w as [|w IH]; intros x; simpl; [done|].
  rewrite Str.length_app, IH. simpl. lia.
Qed.

Lemma repeat_snoc (c : ascii) (n : nat) :
  Str.repeat c n +:+ String c "" = Str.repeat c (S n).
Proof.
  induction n as [|n IH]; [done|].
  change (Str.repeat c (S n)) with (String c (Str.repeat c n)) at 1. by rewrite Str.app_cons, IH.
Qed.

Lemma fixed_0 (w : nat) : fixed w 0 = Str.repeat "0" w.
Proof.
  induction w as [|w IH]; [done|].
  change (fixed (S w) 0) with (fixed w 0 +:+ String "0" ""). by rewrite IH, repeat_snoc.
Qed.

(** What [pretty] writes of a number below [10 ^ w]: its last [k] digits
    for some [k] up to [w], the digits before them being zeros. *)
Lemma pretty_fixed (w : nat) (x : N) (s : string) :
  (x < 10 ^ N.of_nat w)%N ->
  exists k, (k <= w)%nat /\ pretty_N_go x s = fixed k x +:+ s
    /\ fixed w x = Str.repeat "0" (w - k) +:+ fixed k x /\ (x = 0%N <-> k = O).
Proof.
  revert x s. induction w as [|w IH]; intros x s Hx.
  - exists O. assert (x = 0)%N as -> by (simpl in Hx; lia).
    split_and!; [lia|apply pretty_N_go_0|done|done].
  - destruct (decide (x = 0)%N) as [->|Hne].
    { exists O. rewrite (fixed_0 (S w)), Nat.sub_0_r. simpl fixed. rewrite Str.app_nil_r.
      split_and!; [lia|apply pretty_N_go_0|done|done]. }
    destruct (IH (x / 10)%N (String (pretty_N_char (x mod 10)) s)) as (k & Hk & Hgo & Hfix & _).
    { apply N.Div0.div_lt_upper_bound. rewrite Nat2N.inj_succ, N.pow_succ_r' in Hx. lia. }
    exists (S k). rewrite pretty_N_go_step, Hgo by lia. simpl fixed.
    rewrite Hfix, !Str.app_assoc. simpl. split_and!; [lia|done|done|done].
Qed.

(** [appendInt] of a number that fits the width writes its digits, with the
    zeros before them. *)
Lemma appendInt_fixed (w : nat) (x : Z) :
  (1 <= w)%nat -> 0 <= x < 10 ^ Z.of_nat w -> appendInt x w = fixed w (Z.to_N x).
Proof.
  intros Hw Hx. unfold appendInt. destruct (Z.ltb_spec x 0) as [|_]; [lia|].
  rewrite Z.abs_eq, Str.app_nil_l by lia. destruct x as [|p|p]; [|clear Hw|lia].
  - simpl. rewrite fixed_0. destruct w; [lia|]. simpl. by rewrite Nat.sub_0_r, repeat_snoc.
  - destruct (pretty_fixed w (Npos p) "") as (k & Hk & Hgo & Hfix & _).
    { apply N2Z.inj_lt. rewrite N2Z.inj_pow, nat_N_Z. simpl. lia. }
    change (pretty (Zpos p)) with (pretty_N_go (Npos p) ""). simpl Z.to_N.
    by rewrite Hgo, Str.app_nil_r, length_fixed, Hfix.
Qed.

(** ** The layout [2006-01-02 15:04:05] *)

(** The seconds of an instant in its location, and its year. *)
Definition seconds (t : Time) : Z := wall t / Second + offset t.

Definition year (t : Time) : Z := (civil (seconds t / 86400)).1.1.

(** The time stamp of a date and a time of day. *)
Definition stamp (sep : string) (y m d h mi s : Z) : string :=
  fixed 4 (Z.to_N y) +:+ sep +:+ fixed 2 (Z.to_N m) +:+ sep +:+ fixed 2 (Z.to_N d) +:+ " "
  +:+ fixed 2 (Z.to_N h) +:+ ":" +:+ fixed 2 (Z.to_N mi) +:+ ":" +:+ fixed 2 (Z.to_N s).

(** A date and a time of day. *)
Definition valid_time (y m d h mi s : Z) : Prop :=
  valid_date y m d /\ 0 <= y <= 9999 /\ 0 <= h < 24 /\ 0 <= mi < 60 /\ 0 <= s < 60.

Lemma dateTime_stamp (sep : string) (t : Time) :
  0 <= year t <= 9999 ->
  exists y m d h mi s : Z,
    valid_time y m d h mi s
    /\ seconds t = days_of y m d * 86400 + h * 3600 + mi * 60 + s
    /\ dateTime sep t = stamp sep y m d h mi s.
Proof.
  unfold year, dateTime. fold (seconds t). set (secs := seconds t). intros Hy.
  pose proof (civil_valid (secs / 86400)) as Hv. pose proof (days_of_civil (secs / 86400)) as Hd.
  destruct (civil (secs / 86400)) as [[y m] d]. simpl in *.
  exists y, m, d, (secs mod 86400 / 3600), (secs mod 86400 mod 3600 / 60), (secs mod 86400 mod 60).
  pose proof Hv as [Hm Hday].
  assert (month_length y m <= 31) by (unfold month_length; cases; try destruct (leap y); lia).
  split; [unfold valid_time; split_and!; try done; arith|]. split; [rewrite Hd; arith|].
  unfold stamp. by rewrite !appendInt_fixed by (lia || arith).
Qed.

Lemma length_stamp (sep : string) (y m d h mi s : Z) :
  String.length (stamp sep y m d h mi s) = (17 + 2 * String.length sep)%nat.
Proof. unfold stamp. rewrite !Str.length_app, !length_fixed. simpl. lia. Qed.

(** Texts of one length in front of two texts. *)
Lemma app_inj_length (s1 s2 t1 t2 : string) :
  String.length s1 = String.length s2 -> s1 +:+ t1 = s2 +:+ t2 -> s1 = s2 /\ t1 = t2.
Proof.
  revert s2. induction s1 as [|c s1 IH]; intros [|c' s2] Hl H; simplify_eq/=; [done|].
  destruct (IH s2 ltac:(done) ltac:(done)) as [-> ->]. done.
Qed.

Lemma fixed_inj (w : nat) (x y : N) :
  (x < 10 ^ N.of_nat w)%N -> (y < 10 ^ N.of_nat w)%N -> fixed w x = fixed w y -> x = y.
Proof.
  revert x y. induction w as [|w IH]; intros x y Hx Hy H; [simpl in *; lia|].
  rewrite Nat2N.inj_succ, N.pow_succ_r' in Hx, Hy. simpl in H.
  apply app_inj_length in H as [H1 [= H2]]; [|by rewrite !length_fixed].
  apply IH in H1; [|apply N.Div0.div_lt_upper_bound; lia..].
  apply pretty_N_char_inj in H2; [|apply N.mod_lt; lia..].
  rewrite (N.div_mod x 10), (N.div_mod y 10) by lia. congruence.
Qed.

Lemma fixed_inj_Z (w : nat) (x y : Z) :
  0 <= x < 10 ^ Z.of_nat w -> 0 <= y < 10 ^ Z.of_nat w ->
  fixed w (Z.to_N x) = fixed w (Z.to_N y) -> x = y.
Proof.
  intros Hx Hy H. apply fixed_inj in H; [lia| |];
    apply N2Z.inj_lt; rewrite N2Z.inj_pow, nat_N_Z, Z2N.id; simpl; lia.
Qed.

(** The stamp is read back: equal stamps are the same date and time. *)
Lemma stamp_inj (sep : string) (y m d h mi s y' m' d' h' mi' s' : Z) :
  valid_time y m d h mi s -> valid_time y' m' d' h' mi' s' ->
  stamp sep y m d h mi s = stamp sep y' m' d' h' mi' s' ->
  y = y' /\ m = m' /\ d = d' /\ h = h' /\ mi = mi' /\ s = s'.
Proof.
  intros ([Hm Hd] & Hy & Hh & Hmi & Hs) ([Hm' Hd'] & Hy' & Hh' & Hmi' & Hs') H.
  assert (month_length y m <= 31 /\ month_length y' m' <= 31) as [? ?]
    by (unfold month_length; split; cases; try destruct (leap _); lia).
  unfold stamp in H.
  do 10 (apply app_inj_length in H as [? H]; [|by rewrite ?length_fixed]).
  split_and!; (eapply fixed_inj_Z; [| |eassumption]); simpl; lia.
Qed.

(** ** The theorems *)

(** The time stamp has its layout: the date of the calendar and the time
    of day of the instant, each number at its width. *)
Theorem Format_stamp (t : Time) :
  0 <= year t <= 9999 ->
  exists y m d h mi s : Z,
    valid_time y m d h mi s
    /\ seconds t = days_of y m d * 86400 + h * 3600 + mi * 60 + s
    /\ Format t = stamp "-" y m d h mi s.
Proof. apply dateTime_stamp. Qed.

(** Instants with the same stamp are in the same second. *)
Theorem Format_seconds (t u : Time) :
  0 <= year t <= 9999 -> 0 <= year u <= 9999 -> Format t = Format u -> seconds t = seconds u.
Proof.
  intros (y & m & d & h & mi & s & Hv & -> & ->)%Format_stamp
         (y' & m' & d' & h' & mi' & s' & Hv' & -> & ->)%Format_stamp H.
  apply stamp_inj in H as (-> & -> & -> & -> & -> & ->); done.
Qed.

(** The header of package [log] has the same layout with [/] in the
    date, and a space behind. *)
Theorem logHeader_stamp (t : Time) :
  0 <= year t <= 9999 ->
  exists y m d h mi s : Z,
    valid_time y m d h mi s
    /\ seconds t = days_of y m d * 86400 + h * 3600 + mi * 60 + s
    /\ logHeader t = stamp "/" y m d h mi s +:+ " ".
Proof.
  intros (y & m & d & h & mi & s & Hv & Hs & Hd)%(dateTime_stamp "/").
  exists y, m, d, h, mi, s. unfold logHeader. by rewrite Hd.
Qed.

(** C35: the time field of a record has the layout [YYYY-MM-DD HH:MM:SS].
    In a year of four digits, the record [formatMessage] builds carries
    the date of the calendar and the time of day of the closing time, the
    year at four digits and the other numbers at two: nineteen bytes. *)
Theorem record_time {Opts} `{!LogFields Opts} (level message : string) (opts : Opts)
    (w : World) :
  0 <= year (reading (closingClock opts (w_clock w))) <= 9999 ->
  exists d w' y m dd h mi s,
    formatMessage level message opts w = (Ok d, w')
    /\ valid_time y m dd h mi s
    /\ seconds (d_closing d) = days_of y m dd * 86400 + h * 3600 + mi * 60 + s
    /\ logToJSON.ClosingTime (d_json d) = stamp "-" y m dd h mi s
    /\ String.length (logToJSON.ClosingTime (d_json d)) = 19%nat.
Proof.
  intros (y & m & d & h & mi & s & Hv & Hs & Hd)%Format_stamp.
  eexists _, _, y, m, d, h, mi, s. split; [apply formatMessage_run|].
  split_and!; [done|done|exact Hd|]. simpl. by rewrite Hd, length_stamp.
Qed.

Lemma record_time_witness :
  exists d w' y m dd h mi s,
    formatMessage "WARN" "slow" slowOptions slowWorld = (Ok d, w')
    /\ valid_time y m dd h mi s
    /\ seconds (d_closing d) = days_of y m dd * 86400 + h * 3600 + mi * 60 + s
    /\ logToJSON.ClosingTime (d_json d) = stamp "-" y m dd h mi s
    /\ String.length (logToJSON.ClosingTime (d_json d)) = 19%nat.
Proof.
  apply (record_time "WARN" "slow" slowOptions slowWorld). by vm_compute.
Defined.

End Dates.
