(* ===== verification/Logger.v ===== *)
(** * Logger: the logger with a default file setting and a JSON array on disk

    The model of src/unnamed/part_001, the most complete variant: the
    [Logger] with its [FileLog] setting of dynamic type, [logMessage] with the
    spinner and the per-call override, [checkSaveLogOption], the four levels,
    and the three test drivers of the file.  [saveToFile] of this variant is
    in [ArraySink].

    [logMessage] is split where the source changes subject: [formatMessage]
    (in [Compose]) is the part that builds the display parts and the record
    up to the closing time, [finishMessage] the part that decides about the
    file and prints the final line. *)

From S2P Require Import Prelude GoTime GoJson GoOS World Sink ArraySink Compose.

Module Logger.

Import GoTime GoJson GoOS World Sink ArraySink Compose.

Local Open Scope io_scope.

(** ** Data *)

(** A value of type [any], as far as the code tells its dynamic types
    apart; [aother] carries the name [%T] prints. *)
Inductive any : Type :=
| anil
| abool (b : bool)
| astring (s : string)
| aother (type_name : string).

#[export] Instance any_eq_dec : EqDecision any.
Proof. solve_decision. Defined.

(** [%T] *)
Definition type_name_of (v : any) : string :=
  match v with
  | anil => "<nil>"
  | abool _ => "bool"
  | astring _ => "string"
  | aother n => n
  end.

(** The [*log.Logger] field is set by [New] and never used by this
    variant; it carries no state of the model. *)
Record Logger : Type := mkLogger {
  FileLog : any
}.

Definition New : Logger := {| FileLog := abool false |}.

Module LogOptions.
Record LogOptions : Type := mk {
  StartTime : Time;
  Process : string;
  User : string;
  FileLog : any
}.
End LogOptions.
Abbreviation LogOptions := LogOptions.LogOptions.

#[export] Instance LogOptions_fields : LogFields LogOptions :=
  {| StartTime := LogOptions.StartTime; Process := LogOptions.Process;
     User := LogOptions.User;
     zeroOptions := {| LogOptions.StartTime := zeroTime; LogOptions.Process := "";
                       LogOptions.User := ""; LogOptions.FileLog := anil |} |}.

Definition SetDefaultFileLog (l : Logger) (fileLog : any) : Logger :=
  {| FileLog := fileLog |}.

Definition checkSaveLogOption (fileLogSetting : any) : bool * string * option error :=
  let path := "./log.json" in
  match fileLogSetting with
  | abool v => (v, path, None)
  | astring v =>
      if decide (v <> "") then (true, v, None) else (false, path, None)
  | _ =>
      (false, "",
       Some (errorString
               ("log will not be saved, invalid file log setting type: "
                +:+ type_name_of fileLogSetting +:+ ", expected bool or string")))
  end.

(** ** The log call *)

(** The second half of [logMessage], from the decision about the file to
    [s.Stop()]. *)
Definition finishMessage (level : string) (fileLogSetting : any) (d : Draft) : IO unit :=
  let logParts := d_parts d in
  let s := d_spinner d in
  let jsoner := d_json d in
  let closingTime := d_closing d in
  let '(shouldSaveToFile, filePath, err) := checkSaveLogOption fileLogSetting in
  let '(logParts, s) :=
    match err with
    | Some err =>
        let errorMsg := "Error: " +:+ Error err in
        let logParts := logParts ++ [errorMsg] in
        (logParts, set_FinalMSG (finalLine closingTime " x" logParts) s)
    | None => (logParts, s)
    end in
  s <- (if shouldSaveToFile then
          r <- os_call (saveToFile jsoner filePath) ;;
          match r with
          | Err err =>
              let '(logParts, jsoner) :=
                if decide (level = INFO)
                then (<[0 := tag WARN]> logParts, logToJSON.set_Level WARN jsoner)
                else (logParts, jsoner) in
              let errorMsg := "Error: " +:+ Error err in
              let logParts := logParts ++ [errorMsg] in
              ret (set_FinalMSG (finalLine closingTime " x" logParts) s)
          | Ok _ =>
              let logParts := logParts ++ ["Log saved!"] in
              ret (set_FinalMSG (finalLine closingTime " ✓" logParts) s)
          end
        else ret (set_FinalMSG (finalLine closingTime " ✓" logParts) s)) ;;
  Stop s ;;;
  ret tt.

(** The setting of the call when it has one, the logger's otherwise. *)
Definition fileLogSettingOf (l : Logger) (opts : LogOptions) : any :=
  if decide (LogOptions.FileLog opts <> anil) then LogOptions.FileLog opts
  else FileLog l.

Definition logMessage (l : Logger) (level message : string) (options : list LogOptions)
  : IO unit :=
  let opts := firstOptions options in
  let fileLogSetting := fileLogSettingOf l opts in
  d <- formatMessage level message opts ;;
  finishMessage level fileLogSetting d.

Definition Info (l : Logger) (message : string) (options : list LogOptions) : IO unit :=
  logMessage l INFO message options.

Definition Warn (l : Logger) (message : string) (options : list LogOptions) : IO unit :=
  logMessage l WARN message options.

Definition Fatal (l : Logger) (message : string) (options : list LogOptions) : IO unit :=
  logMessage l FATAL message options ;;;
  exit 1.

Definition Panic (l : Logger) (message : string) (options : list LogOptions) : IO unit :=
  logMessage l PANIC message options ;;;
  panic message.

(** The display parts after a failed save. *)
Definition failedParts (level : string) (parts : list string) (e : error) : list string :=
  (if decide (level = INFO) then <[0 := tag WARN]> parts else parts)
  ++ ["Error: " +:+ Error e].

(** ** The test drivers

    [l] is a pointer in the source and [SetDefaultFileLog] changes the
    logger behind it; here the logger is passed along and returned. *)

(** An option struct with the named fields set, as a composite literal
    gives it. *)
Definition options (start : Time) (process user : string) (fileLog : any) : LogOptions :=
  {| LogOptions.StartTime := start; LogOptions.Process := process;
     LogOptions.User := user; LogOptions.FileLog := fileLog |}.

(** The seven cases the three drivers start with. *)
Definition cases (l : Logger) : IO Logger :=
  Info l "Test 1: Default settings - no file logging" [] ;;;
  let l := SetDefaultFileLog l (astring "./logs/custom_default.json") in
  Info l "Test 3: Default set to custom path" [] ;;;
  Info l "Test 4: Override default path for single log"
    [options zeroTime "" "" (astring "./logs/single_override.json")] ;;;
  t <- now ;;
  Info l "Test 5: Full features test"
    [options t "MainProcess" "TestUser" (astring "./logs/full_test.json")] ;;;
  Info l "Test 6: Error handling test"
    [options zeroTime "" "" (astring "/invalid/path/test.json")] ;;;
  let l := SetDefaultFileLog l (abool false) in
  Info l "Test 7: Default false with override" [options zeroTime "" "" (abool true)] ;;;
  startTime <- now ;;
  sleep (200 * Millisecond)%Z ;;;
  Info l "Test 8: Process duration test"
    [options startTime "SlowProcess" "" (astring "./logs/process_test.json")] ;;;
  ret l.

Definition Test (l : Logger) : IO Logger := cases l.

Definition TestWithPanic (l : Logger) : IO Logger :=
  l <- cases l ;;
  recover_ (fun r =>
              Info l "Recovered from panic"
                [options zeroTime "PanicRecovery" "" (astring "./logs/recovery.json")])
    (Panic l "Test 9: Panic test with options"
       [options zeroTime "PanicProcess" "TestUser" (astring "./logs/panic_test.json")]) ;;;
  ret l.

Definition TestWithFatal (l : Logger) : IO Logger :=
  l <- cases l ;;
  Fatal l "Test 10: Fatal test with options"
    [options zeroTime "FatalProcess" "TestUser" (astring "./logs/fatal_test.json")] ;;;
  ret l.

(** The example of the comment on [New]: the cases of [Test] on a new
    logger, with one more after the first, for the default set to
    [true]. *)
Definition example : IO Logger :=
  let log := New in
  Info log "Test 1: Default settings - no file logging" [] ;;;
  let log := SetDefaultFileLog log (abool true) in
  Info log "Test 2: Default set to true - will log to default path" [] ;;;
  let log := SetDefaultFileLog log (astring "./logs/custom_default.json") in
  Info log "Test 3: Default set to custom path" [] ;;;
  Info log "Test 4: Override default path for single log"
    [options zeroTime "" "" (astring "./logs/single_override.json")] ;;;
  t <- now ;;
  Info log "Test 5: Full features test"
    [options t "MainProcess" "TestUser" (astring "./logs/full_test.json")] ;;;
  Info log "Test 6: Error handling test"
    [options zeroTime "" "" (astring "/invalid/path/test.json")] ;;;
  let log := SetDefaultFileLog log (abool false) in
  Info log "Test 7: Default false with override" [options zeroTime "" "" (abool true)] ;;;
  startTime <- now ;;
  sleep (200 * Millisecond)%Z ;;;
  Info log "Test 8: Process duration test"
    [options startTime "SlowProcess" "" (astring "./logs/process_test.json")] ;;;
  ret log.

(** States for the statements at concrete inputs: the machine of
    [slowWorld] with a regular file at [/invalid], so that the directory of
    the fifth case cannot be made. *)
Definition blockedWorld : World :=
  with_os (with_nodes (insert ["invalid"] (NFile "")) empty_OS) slowWorld.

(** A call without options. *)
Definition noOptions : list LogOptions := [].

(** A line of the terminal. *)
Definition line (s : string) : string := s +:+ String LF "".

(** ** Lemmas: the second half of a log call *)

Section Finish.
Context (level : string) (setting : any) (d : Draft) (w : World).
Context (Ha : active (d_spinner d) = true).

Lemma finishMessage_without_file (p : string) :
  checkSaveLogOption setting = (false, p, None) ->
  finishMessage level setting d w
  = (Ok tt, with_out (w_out w ++ [finalLine (d_closing d) " ✓" (d_parts d)]) w).
Proof using Ha.
  intros Hc. unfold finishMessage. rewrite Hc. rewrite bind_ret_l.
  rewrite Stop_final; [done|done|apply finalLine_nonempty].
Qed.

Lemma finishMessage_invalid (p : string) (e : error) :
  checkSaveLogOption setting = (false, p, Some e) ->
  finishMessage level setting d w
  = (Ok tt, with_out (w_out w ++ [finalLine (d_closing d) " ✓"
                                     (d_parts d ++ ["Error: " +:+ Error e])]) w).
Proof using Ha.
  intros Hc. unfold finishMessage. rewrite Hc. rewrite bind_ret_l.
  rewrite Stop_final; [done|done|apply finalLine_nonempty].
Qed.

Lemma finishMessage_saved (p : string) (o' : OS) :
  checkSaveLogOption setting = (true, p, None) ->
  saveToFile (d_json d) p (w_os w) = (Ok tt, o') ->
  finishMessage level setting d w
  = (Ok tt, with_out (w_out w ++ [finalLine (d_closing d) " ✓"
                                     (d_parts d ++ ["Log saved!"])]) (with_os o' w)).
Proof using Ha.
  intros Hc Hs. unfold finishMessage. rewrite Hc.
  rewrite bind_assoc. erewrite bind_ok; [|by apply os_call_ok]. cbv beta iota. rewrite bind_ret_l.
  rewrite Stop_final; [done|done|apply finalLine_nonempty].
Qed.

Lemma finishMessage_failed (p : string) (o' : OS) (e : error) :
  checkSaveLogOption setting = (true, p, None) ->
  saveToFile (d_json d) p (w_os w) = (Err e, o') ->
  finishMessage level setting d w
  = (Ok tt, with_out (w_out w ++ [finalLine (d_closing d) " x"
                                     (failedParts level (d_parts d) e)]) (with_os o' w)).
Proof using Ha.
  intros Hc Hs. unfold finishMessage. rewrite Hc.
  rewrite bind_assoc. erewrite bind_ok; [|by apply os_call_ok]. cbv beta iota.
  unfold failedParts. case_decide; rewrite bind_ret_l;
    (rewrite Stop_final; [done|done|apply finalLine_nonempty]).
Qed.
End Finish.

Lemma checkSaveLogOption_err (v : any) (b : bool) (p : string) (e : error) :
  checkSaveLogOption v = (b, p, Some e) -> b = false.
Proof. destruct v; simpl; try case_decide; congruence. Qed.

Lemma finishMessage_total (level : string) (setting : any) (d : Draft) (w : World) :
  active (d_spinner d) = true ->
  exists line o', finishMessage level setting d w
             = (Ok tt, with_out (w_out w ++ [line]) (with_os o' w)).
Proof.
  intros Ha. destruct (checkSaveLogOption setting) as [[b p] [e|]] eqn:Hc.
  - pose proof (checkSaveLogOption_err _ _ _ _ Hc) as ->.
    eexists _, (w_os w). erewrite finishMessage_invalid by done. by destruct w.
  - destruct b.
    + destruct (saveToFile (d_json d) p (w_os w)) as [[[]|e] o'] eqn:Hs.
      * eexists _, _. by eapply finishMessage_saved.
      * eexists _, _. by eapply finishMessage_failed.
    + eexists _, (w_os w). erewrite finishMessage_without_file by done. by destruct w.
Qed.

Lemma displayParts_head {Opts} `{!LogFields Opts} (level message : string) (opts : Opts)
    (c : Clock) :
  displayParts level message opts c = tag level :: tail (displayParts level message opts c).
Proof. reflexivity. Qed.

Section Call.
Context (l : Logger) (level message : string) (options : list LogOptions) (w : World).

Lemma logMessage_finish :
  logMessage l level message options w
  = finishMessage level (fileLogSettingOf l (firstOptions options))
      (draftOf level message (firstOptions options) (w_clock w))
      (with_clock (closingClock (firstOptions options) (w_clock w)) w).
Proof. unfold logMessage. by rewrite (bind_ok _ _ _ _ _ (formatMessage_run _ _ _ _)). Qed.

(** A log call returns. *)
Lemma logMessage_ok : exists w', logMessage l level message options w = (Ok tt, w').
Proof.
  rewrite logMessage_finish.
  destruct (finishMessage_total level (fileLogSettingOf l (firstOptions options))
              (draftOf level message (firstOptions options) (w_clock w))
              (with_clock (closingClock (firstOptions options) (w_clock w)) w) eq_refl)
    as (line & o' & ->).
  by eexists.
Qed.

(** C7: a log call returns: whatever the options, the setting and the state
    of the file system, it neither exits nor panics, prints exactly one line
    and leaves the clock at the closing time. *)
Theorem logMessage_returns :
  exists line o',
    logMessage l level message options w
    = (Ok tt, with_out (w_out w ++ [line])
                (with_os o' (with_clock (closingClock (firstOptions options) (w_clock w)) w))).
Proof.
  rewrite logMessage_finish.
  destruct (finishMessage_total level (fileLogSettingOf l (firstOptions options))
              (draftOf level message (firstOptions options) (w_clock w))
              (with_clock (closingClock (firstOptions options) (w_clock w)) w) eq_refl)
    as (line & o' & ->).
  by eexists _, _.
Qed.

(** When the setting asks for no file, the line printed is the closing
    time, the success marker and the display parts, and the file system is
    not touched. *)
Theorem logMessage_without_file (p : string) :
  checkSaveLogOption (fileLogSettingOf l (firstOptions options)) = (false, p, None) ->
  exists d w1,
    formatMessage level message (firstOptions options) w = (Ok d, w1)
    /\ w_os w1 = w_os w
    /\ logMessage l level message options w
       = (Ok tt, with_out (w_out w ++ [finalLine (d_closing d) " ✓" (d_parts d)]) w1).
Proof.
  intros Hc. eexists _, _. split; [apply formatMessage_run|]. split; [done|].
  rewrite logMessage_finish. by erewrite finishMessage_without_file.
Qed.

(** C33: a setting that is neither a bool nor a string is reported on the
    line, nothing is saved, and the line still carries the success
    marker. *)
Theorem logMessage_invalid_setting :
  (forall b, fileLogSettingOf l (firstOptions options) <> abool b) ->
  (forall s, fileLogSettingOf l (firstOptions options) <> astring s) ->
  exists d w1,
    formatMessage level message (firstOptions options) w = (Ok d, w1)
    /\ w_os w1 = w_os w
    /\ logMessage l level message options w
       = (Ok tt,
          with_out (w_out w ++ [finalLine (d_closing d) " ✓"
             (d_parts d ++ ["Error: log will not be saved, invalid file log setting type: "
                            +:+ type_name_of (fileLogSettingOf l (firstOptions options))
                            +:+ ", expected bool or string"])]) w1).
Proof.
  intros Hb Hs. eexists _, _. split; [apply formatMessage_run|]. split; [done|].
  rewrite logMessage_finish.
  destruct (fileLogSettingOf l (firstOptions options)) as [|b|s|n] eqn:Hv;
    [|by destruct (Hb b)|by destruct (Hs s)|];
    (erewrite finishMessage_invalid; [|reflexivity|reflexivity]); reflexivity.
Qed.

(** C3: when the sink can save, the record of the call is appended to the
    log on disk and the line ends with [Log saved!] after the success
    marker. *)
Theorem logMessage_saved (p : string) (js : list logToJSON) :
  checkSaveLogOption (fileLogSettingOf l (firstOptions options)) = (true, p, None) ->
  savable (w_os w) p -> stored (w_os w) p js ->
  exists d w1 o',
    formatMessage level message (firstOptions options) w = (Ok d, w1)
    /\ logMessage l level message options w
       = (Ok tt, with_out (w_out w ++ [finalLine (d_closing d) " ✓"
                                         (d_parts d ++ ["Log saved!"])]) (with_os o' w1))
    /\ stored o' p (js ++ [d_json d]) /\ savable o' p /\ os_fds o' = os_fds (w_os w).
Proof.
  intros Hc Hs Hst.
  destruct (ArraySink.array_law (w_os w) p js
              (recordOf level message (firstOptions options) (w_clock w)) Hs Hst)
    as (o' & Hsave & Hst' & Hs' & Hfd).
  eexists _, _, o'. split; [apply formatMessage_run|]. split; [|done].
  rewrite logMessage_finish. by erewrite finishMessage_saved.
Qed.

(** C4: when saving fails the call still returns; the line carries the
    failure marker and the error, and an INFO call is displayed as WARN
    while its record keeps the level of the call. *)
Theorem logMessage_save_failed (p : string) (e : error) (o' : OS) :
  checkSaveLogOption (fileLogSettingOf l (firstOptions options)) = (true, p, None) ->
  (forall d w1, formatMessage level message (firstOptions options) w = (Ok d, w1) ->
                saveToFile (d_json d) p (w_os w) = (Err e, o')) ->
  exists d w1,
    formatMessage level message (firstOptions options) w = (Ok d, w1)
    /\ logToJSON.Level (d_json d) = level
    /\ logMessage l level message options w
       = (Ok tt,
          with_out (w_out w ++ [finalLine (d_closing d) " x"
             ([tag (if decide (level = INFO) then WARN else level)]
              ++ tail (d_parts d) ++ ["Error: " +:+ Error e])]) (with_os o' w1)).
Proof.
  intros Hc Hs. specialize (Hs _ _ (formatMessage_run _ _ _ _)).
  eexists _, _. split; [apply formatMessage_run|]. split; [done|].
  rewrite logMessage_finish. erewrite finishMessage_failed by done.
  unfold failedParts. simpl d_parts. rewrite displayParts_head. by case_decide.
Qed.

End Call.

(** ** The setting, and the levels that do not return *)

(** [checkSaveLogOption] by the dynamic type of the setting: a bool
    decides with the default path, a string that is not empty is the path,
    the empty string saves nothing, anything else is an error that names the
    type. *)
Theorem checkSaveLogOption_spec (v : any) :
  checkSaveLogOption v
  = match v with
    | abool b => (b, "./log.json", None)
    | astring "" => (false, "./log.json", None)
    | astring s => (true, s, None)
    | _ => (false, "",
            Some (errorString ("log will not be saved, invalid file log setting type: "
                               +:+ type_name_of v +:+ ", expected bool or string")))
    end.
Proof. destruct v as [|b|[|c s]|n]; reflexivity. Qed.

(** [checkSaveLogOption] asks to save only without an error and with a
    path that is not empty: the default path for [true], the string
    itself otherwise. *)
Theorem checkSaveLogOption_saves (v : any) (p : string) (e : option error) :
  checkSaveLogOption v = (true, p, e) ->
  e = None /\ p <> "" /\ (v = abool true /\ p = "./log.json" \/ v = astring p).
Proof.
  destruct v as [|[]|s|n]; simpl; try case_decide; intros [= <- <-]; split_and!; auto.
Qed.

(** A file setting in the options of the call overrides the logger's
    default, and only the first option struct counts. *)
Theorem logMessage_override (l l' : Logger) (level message : string) (opts : LogOptions)
    (rest : list LogOptions) :
  LogOptions.FileLog opts <> anil ->
  logMessage l level message (opts :: rest) = logMessage l' level message [opts].
Proof.
  intros Hf. unfold logMessage, fileLogSettingOf. simpl. by rewrite !decide_True.
Qed.

(** Without a file setting in the options, and without options, the
    logger's default decides. *)
Theorem logMessage_default (l : Logger) (level message : string) (opts : LogOptions) :
  LogOptions.FileLog opts = anil ->
  fileLogSettingOf l opts = FileLog l
  /\ fileLogSettingOf l (firstOptions []) = FileLog l.
Proof. intros Hf. unfold fileLogSettingOf. rewrite Hf. done. Qed.

(** [Fatal] logs as [logMessage] does at level FATAL and then exits
    with status 1, whatever the sink did. *)
Theorem Fatal_exits (l : Logger) (message : string) (options : list LogOptions) (w : World) :
  exists w', logMessage l FATAL message options w = (Ok tt, w')
             /\ Fatal l message options w = (Err (Exited 1), w').
Proof.
  destruct (logMessage_ok l FATAL message options w) as (w' & Hl).
  exists w'. split; [done|]. by apply exit_after.
Qed.

(** [Panic] logs at level PANIC and then panics with the message; a
    deferred handler that recovers runs on the state the log call left. *)
Theorem Panic_panics (l : Logger) (message : string) (options : list LogOptions) (w : World)
    (h : string -> IO unit) :
  exists w', logMessage l PANIC message options w = (Ok tt, w')
             /\ Panic l message options w = (Err (Panicked message), w')
             /\ recover_ h (Panic l message options) w = h message w'.
Proof.
  destruct (logMessage_ok l PANIC message options w) as (w' & Hl).
  exists w'. split; [done|]. split; [by apply panic_after|].
  by apply recover_panic, panic_after.
Qed.

(** C34: the four levels of part_001.  [Info] and [Warn] return; [Fatal]
    logs at level FATAL and then exits with status 1; [Panic] logs at level
    PANIC and then panics with the message, and a deferred handler that
    recovers runs on the state the log call left: whatever the file sink
    did. *)
Theorem levels_terminate (l : Logger) (message : string) (options : list LogOptions)
    (w : World) (h : string -> IO unit) :
  (exists w', Info l message options w = (Ok tt, w'))
  /\ (exists w', Warn l message options w = (Ok tt, w'))
  /\ (exists w', logMessage l FATAL message options w = (Ok tt, w')
                 /\ Fatal l message options w = (Err (Exited 1), w'))
  /\ (exists w', logMessage l PANIC message options w = (Ok tt, w')
                 /\ Panic l message options w = (Err (Panicked message), w')
                 /\ recover_ h (Panic l message options) w = h message w').
Proof.
  split_and!; [apply logMessage_ok..|apply Fatal_exits|apply Panic_panics].
Qed.

(** ** The test drivers *)

Lemma Info_returns (l : Logger) (message : string) (options : list LogOptions) (w : World) :
  exists w', Info l message options w = (Ok tt, w').
Proof.
  unfold Info. destruct (logMessage_ok l INFO message options w) as (? & ->).
  by eexists.
Qed.

Ltac info_step :=
  match goal with
  | |- context [bind (Info ?l ?m ?o) ?k ?w] =>
      let w' := fresh "w" in let H := fresh "H" in
      destruct (Info_returns l m o w) as [w' H];
      rewrite (bind_ok _ _ _ _ _ H); clear H; cbv beta
  | |- context [bind now ?k ?w] =>
      rewrite (bind_ok _ _ _ _ _ (now_run w)); cbv beta
  | |- context [bind (sleep ?d) ?k ?w] =>
      rewrite (bind_ok (sleep d) k w _ tt eq_refl); cbv beta
  end.

Lemma cases_returns (l : Logger) (w : World) :
  exists w', cases l w = (Ok {| FileLog := abool false |}, w').
Proof. unfold cases. repeat info_step. by eexists. Qed.

(** [Test] returns, on every state, with the default setting switched
    back to [false]. *)
Theorem Test_returns (l : Logger) (w : World) :
  exists w', Test l w = (Ok {| FileLog := abool false |}, w').
Proof. apply cases_returns. Qed.

(** [TestWithFatal] never returns: after the seven cases it exits
    with status 1. *)
Theorem TestWithFatal_exits (l : Logger) (w : World) :
  exists w', TestWithFatal l w = (Err (Exited 1), w').
Proof.
  unfold TestWithFatal. destruct (cases_returns l w) as [w1 H].
  rewrite (bind_ok _ _ _ _ _ H).
  destruct (logMessage_ok {| FileLog := abool false |} FATAL "Test 10: Fatal test with options"
    [options zeroTime "FatalProcess" "TestUser" (astring "./logs/fatal_test.json")] w1)
    as (w2 & Hf).
  exists w2. by rewrite (bind_err _ _ _ _ _ (exit_after _ 1 _ _ Hf)).
Qed.

(** [TestWithPanic] returns: the panic of its last call is recovered by
    the deferred handler, which logs once more. *)
Theorem TestWithPanic_recovers (l : Logger) (w : World) :
  exists w', TestWithPanic l w = (Ok {| FileLog := abool false |}, w').
Proof.
  unfold TestWithPanic. destruct (cases_returns l w) as [w1 H].
  rewrite (bind_ok _ _ _ _ _ H).
  set (h := fun _ : string => Info _ _ _).
  destruct (logMessage_ok {| FileLog := abool false |} PANIC "Test 9: Panic test with options"
    [options zeroTime "PanicProcess" "TestUser" (astring "./logs/panic_test.json")] w1)
    as (w2 & Hp).
  pose proof (recover_panic h _ _ _ _
                (panic_after _ "Test 9: Panic test with options" _ _ Hp)) as Hr.
  destruct (Info_returns {| FileLog := abool false |} "Recovered from panic"
    [options zeroTime "PanicRecovery" "" (astring "./logs/recovery.json")] w2) as [w3 Hi].
  exists w3. erewrite bind_ok; [done|]. unfold Panic. by rewrite Hr.
Qed.

(** ** Concrete calls *)

Lemma logMessage_without_file_witness :
  exists d w1,
    formatMessage INFO "hello" (firstOptions noOptions) slowWorld = (Ok d, w1)
    /\ w_os w1 = w_os slowWorld
    /\ logMessage New INFO "hello" noOptions slowWorld
       = (Ok tt, with_out (w_out slowWorld ++ [finalLine (d_closing d) " ✓" (d_parts d)]) w1).
Proof. exact (logMessage_without_file New INFO "hello" noOptions slowWorld "./log.json" eq_refl). Defined.

Lemma logMessage_invalid_setting_witness :
  exists d w1,
    formatMessage INFO "hello" (firstOptions noOptions) slowWorld = (Ok d, w1)
    /\ w_os w1 = w_os slowWorld
    /\ logMessage (SetDefaultFileLog New (aother "int")) INFO "hello" noOptions slowWorld
       = (Ok tt,
          with_out (w_out slowWorld ++ [finalLine (d_closing d) " ✓"
             (d_parts d ++ ["Error: log will not be saved, invalid file log setting type: "
                            +:+ "int" +:+ ", expected bool or string"])]) w1).
Proof.
  apply (logMessage_invalid_setting (SetDefaultFileLog New (aother "int")) INFO "hello"
           noOptions slowWorld); intros x; vm_compute; discriminate.
Defined.

Lemma logMessage_saved_witness :
  exists d w1 o',
    formatMessage INFO "hello" (firstOptions noOptions) slowWorld = (Ok d, w1)
    /\ logMessage (SetDefaultFileLog New (astring "./logs/app.json")) INFO "hello" noOptions
         slowWorld
       = (Ok tt, with_out (w_out slowWorld ++ [finalLine (d_closing d) " ✓"
                                         (d_parts d ++ ["Log saved!"])]) (with_os o' w1))
    /\ stored o' "./logs/app.json" ([] ++ [d_json d]) /\ savable o' "./logs/app.json"
    /\ os_fds o' = os_fds (w_os slowWorld).
Proof.
  apply (logMessage_saved (SetDefaultFileLog New (astring "./logs/app.json")) INFO "hello"
           noOptions slowWorld "./logs/app.json" []).
  - reflexivity.
  - apply savableb_sound. vm_compute. reflexivity.
  - left. vm_compute. reflexivity.
Defined.

Lemma logMessage_save_failed_witness :
  exists d w1,
    formatMessage INFO "hello"
      (firstOptions [options zeroTime "" "" (astring "/invalid/path/test.json")])
      blockedWorld = (Ok d, w1)
    /\ logToJSON.Level (d_json d) = INFO
    /\ logMessage New INFO "hello" [options zeroTime "" "" (astring "/invalid/path/test.json")]
         blockedWorld
       = (Ok tt,
          with_out (w_out blockedWorld ++ [finalLine (d_closing d) " x"
             ([tag (if decide (INFO = INFO) then WARN else INFO)]
              ++ tail (d_parts d)
              ++ ["Error: " +:+ Error (errorString
                    "directory creation failed, mkdir /invalid/path: not a directory")])])
            (with_os (w_os blockedWorld) w1)).
Proof.
  apply (logMessage_save_failed New INFO "hello"
           [options zeroTime "" "" (astring "/invalid/path/test.json")] blockedWorld
           "/invalid/path/test.json").
  - reflexivity.
  - intros d w1 _. apply (saveToFile_notdir (d_json d)); reflexivity.
Defined.

Lemma checkSaveLogOption_saves_witness :
  (None : option error) = None /\ "./logs/a.json" <> ""
  /\ (astring "./logs/a.json" = abool true /\ "./logs/a.json" = "./log.json"
      \/ astring "./logs/a.json" = astring "./logs/a.json").
Proof. apply (checkSaveLogOption_saves (astring "./logs/a.json")). reflexivity. Defined.

Lemma logMessage_override_witness :
  logMessage New INFO "m" [options zeroTime "" "" (abool true); options zeroTime "P" "" anil]
  = logMessage (SetDefaultFileLog New (astring "x.json")) INFO "m"
      [options zeroTime "" "" (abool true)].
Proof. apply logMessage_override. vm_compute. discriminate. Defined.

Lemma logMessage_default_witness :
  fileLogSettingOf New (options zeroTime "P" "" anil) = FileLog New
  /\ fileLogSettingOf New (firstOptions []) = FileLog New.
Proof. apply (logMessage_default New INFO "m"). reflexivity. Defined.

(** The run of [Test] on a machine where [/invalid] is a regular file:
    seven lines, the fifth one downgraded to WARN with the error, no
    descriptor left open, and the record of the sixth case alone in the
    default file. *)
Example Test_run :
  (Test New blockedWorld).1 = Ok {| FileLog := abool false |}
  /\ w_out (Test New blockedWorld).2
     = line <$>
       ["2024-02-29 01:00:00 ✓ [INFO] | Test 1: Default settings - no file logging";
        "2024-02-29 01:00:00 ✓ [INFO] | Test 3: Default set to custom path | Log saved!";
        "2024-02-29 01:00:00 ✓ [INFO] | Test 4: Override default path for single log | Log saved!";
        "2024-02-29 01:00:00 ✓ [INFO] | MainProcess | 0 ms | TestUser | Test 5: Full features test | Log saved!";
        "2024-02-29 01:00:00 x [WARN] | Test 6: Error handling test | Error: directory creation failed, mkdir /invalid/path: not a directory";
        "2024-02-29 01:00:00 ✓ [INFO] | Test 7: Default false with override | Log saved!";
        "2024-02-29 01:00:00 ✓ [INFO] | SlowProcess | 200 ms | Test 8: Process duration test | Log saved!"]
  /\ os_fds (w_os (Test New blockedWorld).2) = ∅
  /\ content (w_os (Test New blockedWorld).2) "./log.json"
     = Some (arrayText [{| logToJSON.ClosingTime := "2024-02-29 01:00:00";
                           logToJSON.Level := "INFO"; logToJSON.Process := "";
                           logToJSON.Duration := ""; logToJSON.User := "";
                           logToJSON.Message := "Test 7: Default false with override" |}]).
Proof. vm_compute. done. Qed.

(** The example of the documentation on the same machine: the lines of
    [Test] with one more after the first, and the default file holds the
    records of the second and the seventh call as one array. *)
Example example_saves :
  (example blockedWorld).1 = Ok {| FileLog := abool false |}
  /\ take 2 (w_out (example blockedWorld).2)
     = line <$>
       ["2024-02-29 01:00:00 ✓ [INFO] | Test 1: Default settings - no file logging";
        "2024-02-29 01:00:00 ✓ [INFO] | Test 2: Default set to true - will log to default path | Log saved!"]
  /\ drop 2 (w_out (example blockedWorld).2) = drop 1 (w_out (Test New blockedWorld).2)
  /\ os_fds (w_os (example blockedWorld).2) = ∅
  /\ content (w_os (example blockedWorld).2) "./log.json"
     = Some (arrayText
         [{| logToJSON.ClosingTime := "2024-02-29 01:00:00";
             logToJSON.Level := "INFO"; logToJSON.Process := "";
             logToJSON.Duration := ""; logToJSON.User := "";
             logToJSON.Message := "Test 2: Default set to true - will log to default path" |};
          {| logToJSON.ClosingTime := "2024-02-29 01:00:00";
             logToJSON.Level := "INFO"; logToJSON.Process := "";
             logToJSON.Duration := ""; logToJSON.User := "";
             logToJSON.Message := "Test 7: Default false with override" |}]).
Proof. vm_compute. done. Qed.

(** The runs of the two other drivers on the same machine: the last lines,
    and how control leaves. *)
Example TestWithPanic_run :
  (TestWithPanic New blockedWorld).1 = Ok {| FileLog := abool false |}
  /\ drop 7 (w_out (TestWithPanic New blockedWorld).2)
     = line <$>
       ["2024-02-29 01:00:00 ✓ [PANIC] | PanicProcess | TestUser | Test 9: Panic test with options | Log saved!";
        "2024-02-29 01:00:00 ✓ [INFO] | PanicRecovery | Recovered from panic | Log saved!"].
Proof. vm_compute. done. Qed.

Example TestWithFatal_run :
  (TestWithFatal New blockedWorld).1 = Err (Exited 1)
  /\ drop 7 (w_out (TestWithFatal New blockedWorld).2)
     = line <$>
       ["2024-02-29 01:00:00 ✓ [FATAL] | FatalProcess | TestUser | Test 10: Fatal test with options | Log saved!"].
Proof. vm_compute. done. Qed.

End Logger.
