(* ===== verification/MainLogger.v ===== *)
(** * MainLogger: the logger of src/main.go

    The variant that always writes to [log.json] in the working directory,
    one JSON object per line ([LineSink]).  Its [logMessage] prints the final
    line with the success marker before it saves, and drops the error
    [saveToFile] returns: the outcome of the save changes neither the line
    nor the result of the call. *)

From S2P Require Import Prelude GoTime GoJson GoOS World Sink LineSink Compose.

Module MainLogger.

Import GoTime GoJson GoOS World Sink LineSink Compose.

Local Open Scope io_scope.

(** ** The code *)

(** The struct has one field, the [*log.Logger] that [New] sets and nothing
    reads. *)
Record Logger : Type := mkLogger { }.

Definition New : Logger := mkLogger.

Definition logMessage (l : Logger) (level message : string) (options : list LogOptions)
  : IO unit :=
  let opts := firstOptions options in
  d <- formatMessage level message opts ;;
  let s := set_FinalMSG (finalLine (d_closing d) " ✓" (d_parts d)) (d_spinner d) in
  Stop s ;;;
  os_call (saveToFile (d_json d)) ;;;
  ret tt.

Definition Info (l : Logger) (message : string) (options : list LogOptions) : IO unit :=
  logMessage l INFO message options.

Definition Warn (l : Logger) (message : string) (options : list LogOptions) : IO unit :=
  logMessage l WARN message options.

Definition Fatal (l : Logger) (message : string) (options : list LogOptions) : IO unit :=
  logMessage l FATAL message options ;;;
  exit 1.

Definition Panic (l : Logger) (message : string) (options : list LogOptions) : IO unit :=
  logMessage l PANIC message options ;;;
  panic message.

(** The example of the comment on [New]. *)
Definition example : IO unit :=
  let log := New in
  startTime <- now ;;
  Info log "Information message"
    [{| LogOptions.StartTime := startTime; LogOptions.User := "Admin";
        LogOptions.Process := "MainProcess" |}] ;;;
  Warn log "Warning message"
    [{| LogOptions.StartTime := zeroTime; LogOptions.User := "Guest";
        LogOptions.Process := "WorkerProcess" |}] ;;;
  Info log "Message only" [].

(** A machine whose working directory is a file system without room: the
    second system call fails. *)
Definition fullWorld : World :=
  with_os (with_faults [None; Some ENOSPC] empty_OS) slowWorld.

(** ** Lemmas *)

Section Call.
Context (l : Logger) (level message : string) (options : list LogOptions) (w : World).

(** A log call of this variant returns, prints the line with the success
    marker and runs [saveToFile] on the record afterwards; the error of
    [saveToFile] is dropped, so that the line and the result are the same
    whether the record was saved or not. *)
Theorem logMessage_prints_then_saves :
  exists d w1,
    formatMessage level message (firstOptions options) w = (Ok d, w1)
    /\ logMessage l level message options w
       = (Ok tt,
          with_os (saveToFile (d_json d) (w_os w)).2
            (with_out (w_out w ++ [finalLine (d_closing d) " ✓" (d_parts d)]) w1)).
Proof.
  eexists _, _. split; [apply formatMessage_run|]. unfold logMessage.
  rewrite (bind_ok _ _ _ _ _ (formatMessage_run _ _ _ _)).
  rewrite Stop_then; [|done|apply finalLine_nonempty].
  unfold bind. by rewrite os_call_run.
Qed.

(** On a state where [log.json] can be appended to, the record of the
    call becomes the last line of the log and no descriptor stays open. *)
Theorem logMessage_appends_line (js : list logToJSON) :
  appendable (w_os w) "log.json" -> stored (w_os w) "log.json" js ->
  exists d w1 o',
    formatMessage level message (firstOptions options) w = (Ok d, w1)
    /\ logMessage l level message options w
       = (Ok tt, with_os o'
                   (with_out (w_out w ++ [finalLine (d_closing d) " ✓" (d_parts d)]) w1))
    /\ stored o' "log.json" (js ++ [d_json d])
    /\ appendable o' "log.json" /\ os_fds o' = os_fds (w_os w).
Proof.
  intros Ha Hst. destruct logMessage_prints_then_saves as (d & w1 & Hd & Hl).
  destruct (line_law _ _ js (d_json d) Ha Hst) as (o' & Hs & Hst' & Ha' & Hfd).
  exists d, w1, o'. split; [done|]. split; [|done].
  rewrite Hl. unfold saveToFile. by rewrite Hs.
Qed.

(** The call in closed form. *)
Lemma logMessage_run :
  let opts := firstOptions options in
  let d := draftOf level message opts (w_clock w) in
  logMessage l level message options w
  = (Ok tt, with_os (saveToFile (d_json d) (w_os w)).2
              (with_out (w_out w ++ [finalLine (d_closing d) " ✓" (d_parts d)])
                 (with_clock (closingClock opts (w_clock w)) w))).
Proof.
  destruct logMessage_prints_then_saves as (d & w1 & Hd & Hl).
  rewrite formatMessage_run in Hd. by injection Hd as <- <-.
Qed.

Lemma logMessage_returns_ok :
  exists w', logMessage l level message options w = (Ok tt, w').
Proof. destruct logMessage_prints_then_saves as (d & w1 & _ & ->). by eexists. Qed.

End Call.

Lemma logMessage_appends_line_witness :
  exists d w1 o',
    formatMessage "WARN" "slow" (firstOptions [slowOptions]) slowWorld = (Ok d, w1)
    /\ logMessage New "WARN" "slow" [slowOptions] slowWorld
       = (Ok tt, with_os o'
                   (with_out (w_out slowWorld ++ [finalLine (d_closing d) " ✓" (d_parts d)])
                      w1))
    /\ stored o' "log.json" ([] ++ [d_json d])
    /\ appendable o' "log.json" /\ os_fds o' = os_fds (w_os slowWorld).
Proof.
  apply (logMessage_appends_line New "WARN" "slow" [slowOptions] slowWorld []).
  - apply appendableb_sound. vm_compute. reflexivity.
  - right. split; [reflexivity|]. vm_compute. reflexivity.
Defined.

(** [Fatal] of this variant prints and saves as [logMessage] does and
    then exits with status 1. *)
Theorem Fatal_terminates (l : Logger) (message : string) (options : list LogOptions)
    (w : World) :
  exists w', logMessage l FATAL message options w = (Ok tt, w')
             /\ Fatal l message options w = (Err (Exited 1), w').
Proof.
  destruct (logMessage_returns_ok l FATAL message options w) as [w' Hl].
  exists w'. split; [done|]. unfold Fatal. by rewrite (bind_ok _ _ _ _ _ Hl).
Qed.

(** [Panic] of this variant prints and saves and then panics with the
    message. *)
Theorem Panic_raises (l : Logger) (message : string) (options : list LogOptions)
    (w : World) :
  exists w', logMessage l PANIC message options w = (Ok tt, w')
             /\ Panic l message options w = (Err (Panicked message), w').
Proof.
  destruct (logMessage_returns_ok l PANIC message options w) as [w' Hl].
  exists w'. split; [done|]. unfold Panic. by rewrite (bind_ok _ _ _ _ _ Hl).
Qed.

(** The example of the documentation: three lines on the terminal and
    three lines in [log.json], in the order of the calls. *)
Example example_run :
  (example slowWorld).1 = Ok tt
  /\ w_out (example slowWorld).2
     = (fun s => s +:+ String LF "") <$>
       ["2024-02-29 01:00:00 ✓ [INFO] | MainProcess | 100 ms | Admin | Information message";
        "2024-02-29 01:00:00 ✓ [WARN] | WorkerProcess | Guest | Warning message";
        "2024-02-29 01:00:00 ✓ [INFO] | Message only"]
  /\ content (w_os (example slowWorld).2) "log.json"
     = Some (linesText
         [logToJSON.mk "2024-02-29 01:00:00" "INFO" "MainProcess" "100 ms" "Admin"
            "Information message";
          logToJSON.mk "2024-02-29 01:00:00" "WARN" "WorkerProcess" "" "Guest"
            "Warning message";
          logToJSON.mk "2024-02-29 01:00:00" "INFO" "" "" "" "Message only"]).
Proof. vm_compute. done. Qed.

End MainLogger.
