(* ===== verification/SpinLogger.v ===== *)
(** * SpinLogger: the logger of src/unnamed/part_003

    The variant with the spinner and no file: [logMessage] builds the
    display parts while the spinner shows them and stops the spinner with
    the final line.  There is no record.  The terminal shows what the
    logger of main.go shows, which is the statement of the last theorem. *)

From S2P Require Import Prelude GoTime GoJson GoOS World Sink LineSink Compose MainLogger.

Module SpinLogger.

Import GoTime GoOS World Sink Compose.

Local Open Scope io_scope.

(** ** The code *)

Record Logger : Type := mkLogger { }.

Definition New : Logger := mkLogger.

(** The final message, as line 103 builds it. *)
Definition finalMessage (closingTime : Time) (logParts : list string) : string :=
  (Format closingTime +:+ " ") +:+ "✓" +:+ Join logParts " | " +:+ String LF "".

#[global] Arguments finalMessage : simpl never.

Definition logMessage (l : Logger) (level message : string) (options : list LogOptions)
  : IO unit :=
  let s := Start spinner_New in
  startingTime <- now ;;
  let s := set_Prefix (Format startingTime +:+ " ") s in
  let logParts := [tag level] in
  let s := set_Suffix (nth 0 logParts "") s in
  let opts := firstOptions options in
  let '(logParts, s) :=
    if decide (Process opts <> "") then
      let logParts := logParts ++ [Process opts] in
      (logParts, set_Suffix (Join logParts " | ") s)
    else (logParts, s) in
  st <- (if negb (IsZero (StartTime opts)) then
           currentTime <- now ;;
           let duration := millis (Sub currentTime (StartTime opts)) in
           let logParts := logParts ++ [duration] in
           ret (logParts, set_Suffix (Join logParts " | ") s)
         else ret (logParts, s)) ;;
  let '(logParts, s) := st in
  let '(logParts, s) :=
    if decide (User opts <> "") then
      let logParts := logParts ++ [User opts] in
      (logParts, set_Suffix (Join logParts " | ") s)
    else (logParts, s) in
  let logParts := logParts ++ [message] in
  let s := set_Suffix (Join logParts " | ") s in
  closingTime <- now ;;
  let s := set_FinalMSG (finalMessage closingTime logParts) s in
  Stop s ;;;
  ret tt.

Definition Info (l : Logger) (message : string) (options : list LogOptions) : IO unit :=
  logMessage l INFO message options.

Definition Warn (l : Logger) (message : string) (options : list LogOptions) : IO unit :=
  logMessage l WARN message options.

Definition Fatal (l : Logger) (message : string) (options : list LogOptions) : IO unit :=
  logMessage l FATAL message options ;;;
  exit 1.

Definition Panic (l : Logger) (message : string) (options : list LogOptions) : IO unit :=
  logMessage l PANIC message options ;;;
  panic message.

(** The example of the comment on [New]. *)
Definition example : IO unit :=
  let log := New in
  startTime <- now ;;
  Info log "Information message"
    [{| LogOptions.StartTime := startTime; LogOptions.User := "Admin";
        LogOptions.Process := "MainProcess" |}] ;;;
  Warn log "Warning message"
    [{| LogOptions.StartTime := zeroTime; LogOptions.User := "Guest";
        LogOptions.Process := "WorkerProcess" |}] ;;;
  Info log "Message only" [].

(** ** Lemmas *)

(** The final message of this variant is the final line of the others. *)
Lemma final_text (t : Time) (parts : list string) :
  finalMessage t parts = finalLine t " ✓" parts.
Proof. unfold finalMessage, finalLine. by rewrite Str.app_assoc. Qed.

Section Call.
Context (l : Logger) (level message : string) (options : list LogOptions) (w : World).

(** A log call of part_003 returns and prints one line: the closing
    time, the success marker and the display parts in the order level,
    process, duration, user, message; it reads the clock and touches nothing
    else. *)
Theorem logMessage_line :
  logMessage l level message options w
  = (Ok tt,
     with_out (w_out w ++ [finalLine (reading (closingClock (firstOptions options) (w_clock w)))
                             " ✓"
                             (displayParts level message (firstOptions options) (w_clock w))])
       (with_clock (closingClock (firstOptions options) (w_clock w)) w)).
Proof.
  unfold logMessage, displayParts, partsOf, closingClock, duration, timed, optional.
  pose proof (millis_nonempty
    (Sub (reading (tick (tick (w_clock w)))) (StartTime (firstOptions options)))).
  destruct (IsZero (StartTime (firstOptions options))); simpl; repeat case_decide; try done;
    io_run; rewrite final_text, Stop_final by (done || apply finalLine_nonempty); done.
Qed.

(** The terminal and the clock after a log call of part_003 are those
    after the same call of main.go; the file system is as before. *)
Lemma logMessage_as_main (lm : MainLogger.Logger) :
  (logMessage l level message options w).1
  = (MainLogger.logMessage lm level message options w).1
  /\ w_out (logMessage l level message options w).2
     = w_out (MainLogger.logMessage lm level message options w).2
  /\ w_clock (logMessage l level message options w).2
     = w_clock (MainLogger.logMessage lm level message options w).2
  /\ w_os (logMessage l level message options w).2 = w_os w.
Proof.
  destruct (MainLogger.logMessage_prints_then_saves lm level message options w)
    as (d & w1 & Hd & ->).
  rewrite formatMessage_run in Hd. injection Hd as <- <-.
  by rewrite logMessage_line.
Qed.

End Call.

(** [Fatal] of part_003 prints the line and exits with status 1;
    [Panic] prints it and panics with the message. *)
Theorem Fatal_and_Panic (l : Logger) (message : string) (options : list LogOptions)
    (w : World) :
  (exists w', Fatal l message options w = (Err (Exited 1), w')
              /\ w_out w' = w_out (logMessage l FATAL message options w).2)
  /\ (exists w', Panic l message options w = (Err (Panicked message), w')
                 /\ w_out w' = w_out (logMessage l PANIC message options w).2).
Proof.
  split; eexists; (split; [by eapply exit_after || eapply panic_after; apply logMessage_line|]);
    by rewrite logMessage_line.
Qed.

(** The example of the documentation shows on the terminal what the
    example of main.go shows, on every machine, and writes no file. *)
Theorem example_as_main (w : World) :
  (example w).1 = Ok tt
  /\ (MainLogger.example w).1 = Ok tt
  /\ w_out (example w).2 = w_out (MainLogger.example w).2
  /\ w_clock (example w).2 = w_clock (MainLogger.example w).2
  /\ w_os (example w).2 = w_os w.
Proof.
  unfold example, MainLogger.example, Info, Warn, MainLogger.Info, MainLogger.Warn.
  rewrite !(bind_ok _ _ _ _ _ (now_run _)).
  rewrite !(bind_ok _ _ _ _ _ (logMessage_line _ _ _ _ _)), logMessage_line.
  rewrite !(bind_ok _ _ _ _ _ (MainLogger.logMessage_run _ _ _ _ _)), MainLogger.logMessage_run.
  done.
Qed.

End SpinLogger.
