(* ===== verification/PlainLogger.v ===== *)
(** * PlainLogger: the logger of src/unnamed/part_000

    The first variant: no spinner and no file.  [logMessage] builds the
    parts and prints them through a [*log.Logger] with the flags
    [LstdFlags], which puts the date and the time of the call in front.  The
    tag of the level has no leading space here; the parts after it are those
    of every later variant. *)

From S2P Require Import Prelude GoTime GoJson GoOS World Sink LineSink Compose.
From S2P Require Import MainLogger SpinLogger.

Module PlainLogger.

Import GoTime GoOS World Sink Compose.

Local Open Scope io_scope.

(** ** The code *)

(** The [*log.Logger] of the struct is fixed by [New]: standard output, no
    prefix, [LstdFlags].  [World.Println] is its [Println]. *)
Record Logger : Type := mkLogger { }.

Definition New : Logger := mkLogger.

Definition logMessage (l : Logger) (level message : string) (options : list LogOptions)
  : IO unit :=
  let logParts := ["[" +:+ level +:+ "]"] in
  let opts := firstOptions options in
  let logParts :=
    if decide (Process opts <> "") then logParts ++ [Process opts] else logParts in
  logParts <- (if negb (IsZero (StartTime opts)) then
                 currentTime <- now ;;
                 let duration := millis (Sub currentTime (StartTime opts)) in
                 ret (logParts ++ [duration])
               else ret logParts) ;;
  let logParts :=
    if decide (User opts <> "") then logParts ++ [User opts] else logParts in
  let logParts := logParts ++ [message] in
  Println ["|"; Join logParts " | "].

Definition Info (l : Logger) (message : string) (options : list LogOptions) : IO unit :=
  logMessage l INFO message options.

Definition Warn (l : Logger) (message : string) (options : list LogOptions) : IO unit :=
  logMessage l WARN message options.

Definition Fatal (l : Logger) (message : string) (options : list LogOptions) : IO unit :=
  logMessage l FATAL message options ;;;
  exit 1.

Definition Panic (l : Logger) (message : string) (options : list LogOptions) : IO unit :=
  logMessage l PANIC message options ;;;
  panic message.

(** ** What the code computes *)

Section Closed.
Context (level message : string) (opts : LogOptions) (c : Clock).

(** The clock when the duration is measured: the first reading of the
    call. *)
Definition measured : string :=
  if timed opts then millis (Sub (reading (tick c)) (StartTime opts)) else "".

Definition printClock : Clock := tick (if timed opts then tick c else c).

Definition plainParts : list string :=
  ("[" +:+ level +:+ "]") :: tail (partsOf level message opts measured).

Definition plainLine : string :=
  logHeader (reading printClock) +:+ Join ["|"; Join plainParts " | "] " "
  +:+ String LF "".

End Closed.

(** ** Lemmas *)

Section Call.
Context (l : Logger) (level message : string) (options : list LogOptions) (w : World).

(** What a call does, in closed form. *)
Lemma logMessage_plain_run :
  logMessage l level message options w
  = (Ok tt,
     with_out (w_out w ++ [plainLine level message (firstOptions options) (w_clock w)])
       (with_clock (printClock (firstOptions options) (w_clock w)) w)).
Proof.
  unfold logMessage, plainLine, plainParts, partsOf, printClock, measured, timed, optional.
  pose proof (millis_nonempty
    (Sub (reading (tick (w_clock w))) (StartTime (firstOptions options)))).
  destruct (IsZero (StartTime (firstOptions options))); simpl; repeat case_decide; try done;
    io_run; by rewrite Println_run.
Qed.

(** A log call of part_000 returns and prints one line: the header of
    package log with the time of printing, a bar, and the parts level,
    process, duration, user, message joined by bars, where the duration is
    measured at the first reading of the clock and is there only when the
    start time is not zero; the clock moves forward and nothing else
    changes. *)
Lemma logMessage_plain :
  exists c' : Clock,
    logMessage l level message options w
    = (Ok tt,
       with_out (w_out w ++
                 [logHeader (reading c') +:+ "| " +:+
                  Join (("[" +:+ level +:+ "]")
                        :: optional (Process (firstOptions options))
                        ++ optional (measured (firstOptions options) (w_clock w))
                        ++ optional (User (firstOptions options)) ++ [message]) " | "
                  +:+ String LF ""])
         (with_clock c' w))
    /\ clock_le (w_clock w) c'
    /\ (IsZero (StartTime (firstOptions options)) = true
        -> measured (firstOptions options) (w_clock w) = "").
Proof.
  exists (printClock (firstOptions options) (w_clock w)). split_and!.
  - by rewrite logMessage_plain_run.
  - unfold printClock. destruct (timed _); repeat (etrans; [|apply tick_le]); done.
  - unfold measured, timed. by intros ->.
Qed.

End Call.

(** [Fatal] of part_000 prints the line and exits with status 1;
    [Panic] prints it and panics with the message. *)
Theorem Fatal_Panic_plain (l : Logger) (message : string) (options : list LogOptions)
    (w : World) :
  (exists w', Fatal l message options w = (Err (Exited 1), w')
              /\ w_out w' = w_out (logMessage l FATAL message options w).2)
  /\ (exists w', Panic l message options w = (Err (Panicked message), w')
                 /\ w_out w' = w_out (logMessage l PANIC message options w).2).
Proof.
  split; eexists; (split; [by eapply exit_after || eapply panic_after; apply logMessage_plain_run|]);
    by rewrite logMessage_plain_run.
Qed.

(** A call with process and start time on a clock that moves: the line
    as the terminal shows it. *)
Example plain_run :
  w_out (Warn New "slow" [slowOptions] slowWorld).2
  = ["2024/02/29 01:00:00 | [WARN] | P | 150 ms | slow" +:+ String LF ""].
Proof. vm_compute. reflexivity. Qed.

(** C39: the variants without a file.  A log call of part_000 returns and
    prints one line: the header of package log with the time of printing,
    a bar, and the parts level, process, duration, user, message joined by
    bars, where the duration is there only when the start time is not
    zero; the clock moves forward and nothing else changes.  A log call of
    part_003 returns what the call of src/main.go returns, prints the line
    it prints and leaves the clock it leaves, and does not touch the file
    system. *)
Theorem logMessage_console (level message : string) (options : list LogOptions) (w : World) :
  (forall l : Logger, exists c' : Clock,
     logMessage l level message options w
     = (Ok tt,
        with_out (w_out w ++
                  [logHeader (reading c') +:+ "| " +:+
                   Join (("[" +:+ level +:+ "]")
                         :: optional (Process (firstOptions options))
                         ++ optional (measured (firstOptions options) (w_clock w))
                         ++ optional (User (firstOptions options)) ++ [message]) " | "
                   +:+ String LF ""])
          (with_clock c' w))
     /\ clock_le (w_clock w) c'
     /\ (IsZero (StartTime (firstOptions options)) = true
         -> measured (firstOptions options) (w_clock w) = ""))
  /\ (forall (l : SpinLogger.Logger) (lm : MainLogger.Logger),
       (SpinLogger.logMessage l level message options w).1
       = (MainLogger.logMessage lm level message options w).1
       /\ w_out (SpinLogger.logMessage l level message options w).2
          = w_out (MainLogger.logMessage lm level message options w).2
       /\ w_clock (SpinLogger.logMessage l level message options w).2
          = w_clock (MainLogger.logMessage lm level message options w).2
       /\ w_os (SpinLogger.logMessage l level message options w).2 = w_os w).
Proof.
  split; [intros l; apply logMessage_plain|intros l lm; apply SpinLogger.logMessage_as_main].
Qed.

End PlainLogger.
