(* ===== verification/Paced.v ===== *)
(** * Paced: the logger with a path per call and a pause between the steps

    src/unnamed/part_004 and src/unnamed/part_002 have the same [Logger],
    the same [LogOptions] and, line by line, the same [logMessage]: the
    option struct carries [SaveToFile] and [LogFilePath], the logger a
    default path, and the call sleeps one second before each of the three
    optional fields and once more after a failed save.  The two variants
    differ in [saveToFile], which is the variable of this file: [PathLogger]
    and [BracketLogger] supply theirs. *)

From S2P Require Import Prelude GoTime GoJson GoOS World Sink Compose.

Module Paced.

Import GoTime GoJson GoOS World Sink Compose.

Local Open Scope io_scope.

(** ** Data *)

Record Logger : Type := mkLogger {
  DefaultSaveToFile : bool;
  DefaultLogPath : string
}.

Definition New : Logger :=
  {| DefaultSaveToFile := false; DefaultLogPath := "./log.json" |}.

Module LogOptions.
Record LogOptions : Type := mk {
  StartTime : Time;
  Process : string;
  User : string;
  SaveToFile : bool;
  LogFilePath : string
}.
Definition set_LogFilePath (v : string) (o : LogOptions) : LogOptions :=
  {| StartTime := StartTime o; Process := Process o; User := User o;
     SaveToFile := SaveToFile o; LogFilePath := v |}.
End LogOptions.
Abbreviation LogOptions := LogOptions.LogOptions.

#[export] Instance LogOptions_fields : LogFields LogOptions :=
  {| StartTime := LogOptions.StartTime; Process := LogOptions.Process;
     User := LogOptions.User;
     zeroOptions := {| LogOptions.StartTime := zeroTime; LogOptions.Process := "";
                       LogOptions.User := ""; LogOptions.SaveToFile := false;
                       LogOptions.LogFilePath := "" |} |}.

(** ** The code *)

(** The options of the call with the default path filled in. *)
Definition withDefaults (l : Logger) (options : list LogOptions) : LogOptions :=
  let opts := firstOptions options in
  if decide (LogOptions.LogFilePath opts = "")
  then LogOptions.set_LogFilePath (DefaultLogPath l) opts
  else opts.

(** The first half of [logMessage], up to the closing time. *)
Definition pacedMessage (level message : string) (opts : LogOptions) : IO Draft :=
  let jsoner := logToJSON.zero in
  let s := Start spinner_New in
  startingTime <- now ;;
  let s := set_Prefix (Format startingTime +:+ " ") s in
  let logParts := [tag level] in
  let s := set_Suffix (nth 0 logParts "") s in
  let jsoner := logToJSON.set_Level level jsoner in
  sleep (1 * Second)%Z ;;;
  let '(logParts, s, jsoner) :=
    if decide (Process opts <> "") then
      let logParts := logParts ++ [Process opts] in
      (logParts, set_Suffix (Join logParts " | ") s,
       logToJSON.set_Process (Process opts) jsoner)
    else (logParts, s, jsoner) in
  sleep (1 * Second)%Z ;;;
  st <- (if negb (IsZero (StartTime opts)) then
           currentTime <- now ;;
           let duration := millis (Sub currentTime (StartTime opts)) in
           let logParts := logParts ++ [duration] in
           ret (logParts, set_Suffix (Join logParts " | ") s,
                logToJSON.set_Duration duration jsoner)
         else ret (logParts, s, jsoner)) ;;
  let '(logParts, s, jsoner) := st in
  sleep (1 * Second)%Z ;;;
  let '(logParts, s, jsoner) :=
    if decide (User opts <> "") then
      let logParts := logParts ++ [User opts] in
      (logParts, set_Suffix (Join logParts " | ") s,
       logToJSON.set_User (User opts) jsoner)
    else (logParts, s, jsoner) in
  let logParts := logParts ++ [message] in
  let s := set_Suffix (Join logParts " | ") s in
  let jsoner := logToJSON.set_Message message jsoner in
  closingTime <- now ;;
  let jsoner := logToJSON.set_ClosingTime (Format closingTime) jsoner in
  ret {| d_parts := logParts; d_spinner := s; d_json := jsoner;
         d_closing := closingTime |}.

Section Sink.
Context (saveToFile : logToJSON -> string -> M OS error unit).

(** The second half: the save when it is asked for, and the final line. *)
Definition closeMessage (opts : LogOptions) (d : Draft) : IO unit :=
  let logParts := d_parts d in
  let s := d_spinner d in
  let jsoner := d_json d in
  let closingTime := d_closing d in
  s <- (if LogOptions.SaveToFile opts then
          r <- os_call (saveToFile jsoner (LogOptions.LogFilePath opts)) ;;
          match r with
          | Err err =>
              let logParts := logParts ++ ["Failed to save log"] in
              let s := set_FinalMSG (finalLine closingTime " x" logParts) s in
              sleep (1 * Second)%Z ;;;
              ret s
          | Ok _ => ret (set_FinalMSG (finalLine closingTime " ✓" logParts) s)
          end
        else ret (set_FinalMSG (finalLine closingTime " ✓" logParts) s)) ;;
  Stop s ;;;
  ret tt.

Definition logMessage (l : Logger) (level message : string) (options : list LogOptions)
  : IO unit :=
  let opts := withDefaults l options in
  d <- pacedMessage level message opts ;;
  closeMessage opts d.

Definition Info (l : Logger) (message : string) (options : list LogOptions) : IO unit :=
  logMessage l INFO message options.

Definition Warn (l : Logger) (message : string) (options : list LogOptions) : IO unit :=
  logMessage l WARN message options.

Definition Fatal (l : Logger) (message : string) (options : list LogOptions) : IO unit :=
  logMessage l FATAL message options ;;;
  exit 1.

Definition Panic (l : Logger) (message : string) (options : list LogOptions) : IO unit :=
  logMessage l PANIC message options ;;;
  panic message.

End Sink.

(** ** What the code computes *)

(** The clock after [time.Sleep(1 * time.Second)]. *)
Definition pause (c : Clock) : Clock := advance (Z.max 0 (1 * Second)) c.

#[global] Arguments pause : simpl never.

Section Closed.
Context (level message : string) (opts : LogOptions) (c : Clock).

(** The clock before the duration is measured: one reading and two
    pauses. *)
Definition beforeMeasure : Clock := pause (pause (tick c)).

Definition pacedDuration : string :=
  if timed opts then millis (Sub (reading (tick beforeMeasure)) (StartTime opts)) else "".

Definition pacedClosing : Clock :=
  tick (pause (if timed opts then tick beforeMeasure else beforeMeasure)).

Definition pacedParts : list string := partsOf level message opts pacedDuration.

Definition pacedDraft : Draft :=
  {| d_parts := pacedParts;
     d_spinner := {| Prefix := Format (reading (tick c)) +:+ " ";
                     Suffix := Join pacedParts " | "; FinalMSG := "";
                     active := true |};
     d_json := recordWith level message opts pacedDuration (Format (reading pacedClosing));
     d_closing := reading pacedClosing |}.

End Closed.

(** ** Lemmas *)

Lemma pause_mono (c : Clock) : clk_mono (pause c) = (clk_mono c + Second)%Z.
Proof. reflexivity. Qed.

Lemma pacedMessage_run (level message : string) (opts : LogOptions) (w : World) :
  pacedMessage level message opts w
  = (Ok (pacedDraft level message opts (w_clock w)),
     with_clock (pacedClosing opts (w_clock w)) w).
Proof.
  unfold pacedMessage, pacedDraft, pacedParts, partsOf, recordWith, pacedClosing,
    pacedDuration, beforeMeasure, timed, optional.
  pose proof (millis_nonempty
    (Sub (reading (tick (pause (pause (tick (w_clock w)))))) (StartTime opts))).
  destruct (IsZero (StartTime opts)); simpl; repeat case_decide; try done;
    repeat match goal with Hx : _ = "" |- _ => rewrite Hx end; reflexivity.
Qed.

Lemma pacedClosing_mono (opts : LogOptions) (c : Clock) :
  (clk_mono c + 3 * Second <= clk_mono (pacedClosing opts c))%Z.
Proof.
  unfold pacedClosing, beforeMeasure.
  pose proof (proj1 (tick_le c)) as H1.
  pose proof (proj1 (tick_le (pause (pause (tick c))))) as H2.
  destruct (timed opts).
  - pose proof (proj1 (tick_le (pause (tick (pause (pause (tick c))))))) as H3.
    rewrite !pause_mono in *. lia.
  - pose proof (proj1 (tick_le (pause (pause (pause (tick c)))))) as H3.
    rewrite !pause_mono in *. lia.
Qed.

Section Close.
Context (saveToFile : logToJSON -> string -> M OS error unit).
Context (opts : LogOptions) (d : Draft) (w : World).
Context (Ha : active (d_spinner d) = true).

Lemma closeMessage_without_file :
  LogOptions.SaveToFile opts = false ->
  closeMessage saveToFile opts d w
  = (Ok tt, with_out (w_out w ++ [finalLine (d_closing d) " ✓" (d_parts d)]) w).
Proof using Ha.
  intros Hs. unfold closeMessage. rewrite Hs, bind_ret_l.
  by rewrite Stop_final by (done || apply finalLine_nonempty).
Qed.

Lemma closeMessage_saved (o' : OS) :
  LogOptions.SaveToFile opts = true ->
  saveToFile (d_json d) (LogOptions.LogFilePath opts) (w_os w) = (Ok tt, o') ->
  closeMessage saveToFile opts d w
  = (Ok tt, with_out (w_out w ++ [finalLine (d_closing d) " ✓" (d_parts d)])
              (with_os o' w)).
Proof using Ha.
  intros Hs Hsave. unfold closeMessage. rewrite Hs, bind_assoc.
  rewrite (bind_ok _ _ _ _ _ (os_call_ok _ _ _ _ Hsave)). cbv beta iota. rewrite bind_ret_l.
  by rewrite Stop_final by (done || apply finalLine_nonempty).
Qed.

Lemma closeMessage_failed (o' : OS) (e : error) :
  LogOptions.SaveToFile opts = true ->
  saveToFile (d_json d) (LogOptions.LogFilePath opts) (w_os w) = (Err e, o') ->
  closeMessage saveToFile opts d w
  = (Ok tt, with_out (w_out w ++ [finalLine (d_closing d) " x"
                                     (d_parts d ++ ["Failed to save log"])])
              (with_clock (pause (w_clock w)) (with_os o' w))).
Proof using Ha.
  intros Hs Hsave. unfold closeMessage. rewrite Hs, bind_assoc.
  rewrite (bind_ok _ _ _ _ _ (os_call_ok _ _ _ _ Hsave)). cbv beta iota.
  rewrite bind_assoc, (bind_ok _ _ _ _ _ (sleep_run _ _)), bind_ret_l.
  by rewrite Stop_final by (done || apply finalLine_nonempty).
Qed.

End Close.

Section Call.
Context (saveToFile : logToJSON -> string -> M OS error unit).
Context (l : Logger) (level message : string) (options : list LogOptions) (w : World).

Lemma logMessage_close :
  logMessage saveToFile l level message options w
  = closeMessage saveToFile (withDefaults l options)
      (pacedDraft level message (withDefaults l options) (w_clock w))
      (with_clock (pacedClosing (withDefaults l options) (w_clock w)) w).
Proof. unfold logMessage. by rewrite (bind_ok _ _ _ _ _ (pacedMessage_run _ _ _ _)). Qed.

(** C32: the first half of a paced log call returns; the display parts are
    the tag, then process, duration and user when they are not empty, then
    the message; the record has the fields the display has; nothing but the
    clock changes, and at least three seconds pass. *)
Theorem logMessage_paced :
  exists d w1,
    pacedMessage level message (withDefaults l options) w = (Ok d, w1)
    /\ d_parts d = [tag level] ++ optional (Process (firstOptions options))
                   ++ optional (logToJSON.Duration (d_json d))
                   ++ optional (User (firstOptions options)) ++ [message]
    /\ (members (d_json d)).*2 = Format (d_closing d) :: level :: tail (d_parts d)
    /\ w_os w1 = w_os w /\ w_out w1 = w_out w
    /\ (clk_mono (w_clock w) + 3 * Second <= clk_mono (w_clock w1))%Z.
Proof.
  eexists _, _. split; [apply pacedMessage_run|]. split_and!; try done.
  - unfold withDefaults. by case_decide.
  - exact (partsOf_tail _ _ _ _ _).
  - apply pacedClosing_mono.
Qed.

(** A paced log call returns on every state, prints exactly one line
    and takes at least three seconds. *)
Theorem logMessage_paced_returns :
  exists line o' c',
    logMessage saveToFile l level message options w
    = (Ok tt, with_out (w_out w ++ [line]) (with_os o' (with_clock c' w)))
    /\ (clk_mono (w_clock w) + 3 * Second <= clk_mono c')%Z.
Proof.
  rewrite logMessage_close.
  pose proof (pacedClosing_mono (withDefaults l options) (w_clock w)) as Hc.
  set (opts := withDefaults l options) in *. set (c1 := pacedClosing opts (w_clock w)) in *.
  destruct (LogOptions.SaveToFile opts) eqn:Hs.
  - destruct (saveToFile (d_json (pacedDraft level message opts (w_clock w)))
                (LogOptions.LogFilePath opts) (w_os w)) as [[[]|e] o'] eqn:Hsave.
    + eexists _, o', c1. by erewrite closeMessage_saved.
    + eexists _, o', (pause c1). erewrite closeMessage_failed by done.
      split; [done|]. rewrite pause_mono. unfold Second in *. lia.
  - eexists _, (w_os w), c1. erewrite closeMessage_without_file by done.
    split; [by destruct w|done].
Qed.

End Call.

Section Contract.
Context (saveToFile : logToJSON -> string -> M OS error unit).
Context (l : Logger) (level message : string) (options : list LogOptions) (w : World).

(** When the options ask for the file, the record goes to the path of
    the options, or to the default path of the logger when the options name
    none; against the contract of a sink at that path, the record becomes
    the last one of the log and the line carries the success marker. *)
Theorem logMessage_paced_saved (S : FileSink) (js : list logToJSON) :
  LogOptions.SaveToFile (firstOptions options) = true ->
  (forall j, save j = saveToFile j (LogOptions.LogFilePath (withDefaults l options))) ->
  ready (w_os w) -> holds (w_os w) js ->
  exists d w1 o',
    pacedMessage level message (withDefaults l options) w = (Ok d, w1)
    /\ logMessage saveToFile l level message options w
       = (Ok tt, with_out (w_out w ++ [finalLine (d_closing d) " ✓" (d_parts d)])
                   (with_os o' w1))
    /\ holds o' (js ++ [d_json d]) /\ ready o' /\ os_fds o' = os_fds (w_os w).
Proof.
  intros Hs Hsave Hr Hh.
  destruct (save_appends (w_os w) js
              (d_json (pacedDraft level message (withDefaults l options) (w_clock w))) Hr Hh)
    as (o' & Ho' & Hh' & Hr' & Hfd).
  eexists _, _, o'. split; [apply pacedMessage_run|]. split; [|done].
  rewrite logMessage_close. rewrite Hsave in Ho'.
  erewrite closeMessage_saved; [done|done| |exact Ho'].
  unfold withDefaults. by case_decide.
Qed.

(** The path a call saves to. *)
Lemma withDefaults_path :
  LogOptions.LogFilePath (withDefaults l options)
  = if decide (LogOptions.LogFilePath (firstOptions options) = "")
    then DefaultLogPath l else LogOptions.LogFilePath (firstOptions options).
Proof. unfold withDefaults. by case_decide. Qed.

(** When the save fails the call returns after one more second; the
    line carries the failure marker and the words [Failed to save log], and
    the error itself is not shown. *)
Theorem logMessage_paced_failed (e : error) (o' : OS) :
  LogOptions.SaveToFile (firstOptions options) = true ->
  saveToFile (d_json (pacedDraft level message (withDefaults l options) (w_clock w)))
    (LogOptions.LogFilePath (withDefaults l options)) (w_os w) = (Err e, o') ->
  exists d w1,
    pacedMessage level message (withDefaults l options) w = (Ok d, w1)
    /\ logMessage saveToFile l level message options w
       = (Ok tt, with_out (w_out w ++ [finalLine (d_closing d) " x"
                                         (d_parts d ++ ["Failed to save log"])])
                   (with_clock (pause (w_clock w1)) (with_os o' w1))).
Proof.
  intros Hs Hsave. eexists _, _. split; [apply pacedMessage_run|].
  rewrite logMessage_close. erewrite closeMessage_failed; [done|done| |apply Hsave].
  unfold withDefaults. by case_decide.
Qed.

(** Without [SaveToFile] in the options nothing is saved, whatever the
    logger's [DefaultSaveToFile] says: the field is never read. *)
Theorem logMessage_paced_no_file (b : bool) :
  LogOptions.SaveToFile (firstOptions options) = false ->
  exists d w1,
    pacedMessage level message (withDefaults l options) w = (Ok d, w1)
    /\ w_os w1 = w_os w
    /\ logMessage saveToFile {| DefaultSaveToFile := b; DefaultLogPath := DefaultLogPath l |}
         level message options w
       = (Ok tt, with_out (w_out w ++ [finalLine (d_closing d) " ✓" (d_parts d)]) w1).
Proof.
  intros Hs. eexists _, _. split; [apply pacedMessage_run|]. split; [done|].
  rewrite logMessage_close. erewrite closeMessage_without_file; [done|done|].
  unfold withDefaults. by case_decide.
Qed.

End Contract.

End Paced.
