(* ===== verification/PathLogger.v ===== *)
(** * PathLogger: the logger of src/unnamed/part_004

    The paced logger ([Paced]) with the line format: [saveToFile] makes the
    directory of the path and appends the compact JSON of the record and a
    line break, as [saveToFile] of main.go does for [log.json]. *)

From S2P Require Import Prelude GoTime GoJson GoOS World Sink LineSink Compose Paced.

Module PathLogger.

Import GoTime GoJson GoOS World Sink LineSink Compose Paced.

Local Open Scope io_scope.

(** ** The code *)

Definition saveToFile (jsoner : logToJSON) (filePath : string) : M OS error unit :=
  let dir := Dir filePath in
  MkdirAll dir 493 ;;;
  file <- OpenFile filePath [O_CREATE; O_WRONLY; O_APPEND] 420 ;;
  defer_ (close_deferred file) (
    jsonData <- jsonMarshal jsoner ;;
    File_WriteString file (jsonData +:+ String LF "") ;;;
    ret tt).

Definition logMessage : Logger -> string -> string -> list LogOptions -> IO unit :=
  Paced.logMessage saveToFile.

Definition Info : Logger -> string -> list LogOptions -> IO unit := Paced.Info saveToFile.

Definition Warn : Logger -> string -> list LogOptions -> IO unit := Paced.Warn saveToFile.

Definition Fatal : Logger -> string -> list LogOptions -> IO unit := Paced.Fatal saveToFile.

Definition Panic : Logger -> string -> list LogOptions -> IO unit := Paced.Panic saveToFile.

(** The example of the comment on [New]. *)
Definition example : IO unit :=
  let log := {| DefaultSaveToFile := DefaultSaveToFile New;
                DefaultLogPath := "logs/app.json" |} in
  startTime <- now ;;
  Info log "Information message"
    [{| LogOptions.StartTime := startTime; LogOptions.User := "Admin";
        LogOptions.Process := "MainProcess"; LogOptions.SaveToFile := true;
        LogOptions.LogFilePath := "./log.json" |}] ;;;
  Warn log "Warning message"
    [{| LogOptions.StartTime := zeroTime; LogOptions.Process := "WorkerProcess";
        LogOptions.User := "Guest"; LogOptions.SaveToFile := true;
        LogOptions.LogFilePath := "" |}] ;;;
  Info log "Message only" [].

(** ** Lemmas *)

Lemma saveToFile_appendTo (j : logToJSON) (p : string) :
  saveToFile j p = (MkdirAll (Dir p) 493 ;;; appendTo p j).
Proof. reflexivity. Qed.

(** What [saveToFile] does on a state where it cannot fail. *)
Lemma saveToFile_appended (o : OS) (p : string) (j : logToJSON) :
  savable o p ->
  exists m, mkdir_chain [] (resolve (os_cwd o) (Dir p)) (os_nodes o) = Ok m
    /\ saveToFile j p o
       = (Ok tt, appended (resolve (os_cwd o) p)
                   (default "" (content o p) +:+ lineText j)
                   (with_nodes (fun _ => m) o)).
Proof.
  intros Hs. destruct (MkdirAll_savable o p 493 Hs) as (m & Hm & Hmk & Hk & Hdir).
  destruct Hs as (Hnf & Hb & Hname & Hfree & Hnd).
  exists m. split; [done|]. rewrite saveToFile_appendTo, (bind_ok _ _ _ _ _ Hmk).
  rewrite appendTo_run.
  - do 3 f_equal. rewrite !content_node by apply Hname. simpl. by rewrite Hk.
  - split_and!; [done|done|apply Hname|done|]. simpl. by rewrite Hk.
Qed.

(** The law of the sink at [p]. *)
Lemma path_law (o : OS) (p : string) (js : list logToJSON) (j : logToJSON) :
  savable o p -> stored o p js ->
  exists o', saveToFile j p o = (Ok tt, o')
    /\ stored o' p (js ++ [j]) /\ savable o' p /\ os_fds o' = os_fds o.
Proof.
  intros Hs Hst. destruct (saveToFile_appended o p j Hs) as (m & Hm & ->).
  rewrite (stored_content _ _ _ Hst). eexists. split; [done|]. split_and!.
  - left. unfold content. simpl. rewrite node_at_ne by apply Hs. simpl.
    by rewrite lookup_insert_eq, linesText_snoc.
  - by apply (savable_insert o p _ m 1).
  - done.
Qed.

#[export] Instance path_sink (p : string) : FileSink :=
  {| save j := saveToFile j p; holds o js := stored o p js; ready o := savable o p;
     save_appends o js j := path_law o p js j |}.

(** C31: [saveToFile] of part_004 implements appending a record to the log of
    lines at its path: the missing directories are made, the file holds the
    lines it held followed by the line of the record, the path can be saved
    to again and no descriptor stays open. *)
Theorem saveToFile_appends (o : OS) (p : string) (js : list logToJSON) (j : logToJSON) :
  savable o p -> stored o p js ->
  exists o', saveToFile j p o = (Ok tt, o')
    /\ content o' p = Some (linesText js +:+ lineText j)
    /\ node_at o' (resolve (os_cwd o) (Dir p)) = Some NDir
    /\ stored o' p (js ++ [j]) /\ savable o' p /\ os_fds o' = os_fds o.
Proof.
  intros Hs Hst. destruct (saveToFile_appended o p j Hs) as (m & Hm & Hr).
  destruct (path_law o p js j Hs Hst) as (o' & Hr' & Hst' & Hs' & Hfd).
  exists o'. split_and!; try done.
  - rewrite <- linesText_snoc. destruct Hst' as [H|[H _]]; [done|by destruct js].
  - rewrite Hr in Hr'. injection Hr' as <-.
    by eapply (made_directory o _ p _ m); [apply Hs|exact Hm|].
Qed.

Lemma saveToFile_keeps (F : gmap nat FileDesc) (n0 : nat) (X : gset nat) (j : logToJSON)
    (p : string) :
  keeps F n0 X (saveToFile j p).
Proof.
  rewrite saveToFile_appendTo. apply keeps_bind; [apply MkdirAll_fds|].
  intros _. apply appendTo_fds.
Qed.

(** [saveToFile] of part_004 leaves open exactly the descriptors that
    were open, whatever call fails. *)
Theorem saveToFile_releases (j : logToJSON) (p : string) (o : OS) :
  fds_bounded o ->
  os_fds (saveToFile j p o).2 = os_fds o /\ fds_bounded (saveToFile j p o).2.
Proof.
  intros Hb. apply fd_inv_done; [done|].
  eapply post_same, saveToFile_keeps, fd_inv_init, Hb.
Qed.

(** ** The logger on this sink *)

(** A log call of part_004 that asks for the file appends the line of its
    record to the file at the path of the options, or at the default path of
    the logger when the options name none. *)
Lemma logMessage_path_saved (l : Logger) (level message : string)
    (options : list LogOptions) (w : World) (js : list logToJSON) :
  LogOptions.SaveToFile (firstOptions options) = true ->
  savable (w_os w) (LogOptions.LogFilePath (withDefaults l options)) ->
  stored (w_os w) (LogOptions.LogFilePath (withDefaults l options)) js ->
  exists d w1 o',
    pacedMessage level message (withDefaults l options) w = (Ok d, w1)
    /\ logMessage l level message options w
       = (Ok tt, with_out (w_out w ++ [finalLine (d_closing d) " ✓" (d_parts d)])
                   (with_os o' w1))
    /\ stored o' (LogOptions.LogFilePath (withDefaults l options)) (js ++ [d_json d])
    /\ os_fds o' = os_fds (w_os w).
Proof.
  intros Hs Hr Hh.
  destruct (logMessage_paced_saved saveToFile l level message options w
              (path_sink (LogOptions.LogFilePath (withDefaults l options))) js Hs
              (fun _ => eq_refl) Hr Hh) as (d & w1 & o' & Hd & Hl & Hh' & _ & Hfd).
  by exists d, w1, o'.
Qed.

(** When [saveToFile] fails, a log call of part_004 returns after one
    more second; the line carries the failure marker and the words
    [Failed to save log], and the error itself is not shown. *)
Lemma logMessage_path_failed (l : Logger) (level message : string)
    (options : list LogOptions) (w : World) (e : error) (o' : OS) :
  LogOptions.SaveToFile (firstOptions options) = true ->
  saveToFile (d_json (pacedDraft level message (withDefaults l options) (w_clock w)))
    (LogOptions.LogFilePath (withDefaults l options)) (w_os w) = (Err e, o') ->
  exists d w1,
    pacedMessage level message (withDefaults l options) w = (Ok d, w1)
    /\ logMessage l level message options w
       = (Ok tt, with_out (w_out w ++ [finalLine (d_closing d) " x"
                                         (d_parts d ++ ["Failed to save log"])])
                   (with_clock (pause (w_clock w1)) (with_os o' w1))).
Proof. apply logMessage_paced_failed. Qed.

(** C38: a log call of part_004 that asks for the file.  When the path can
    be saved to, the line of the record is appended at the path of the
    options, or at the default path of the logger when the options name
    none, and the line printed carries the success marker.  When
    [saveToFile] fails, the call returns after one more second, the line
    carries the failure marker and the words [Failed to save log], and the
    error itself is not shown. *)
Theorem logMessage_path (l : Logger) (level message : string)
    (options : list LogOptions) (w : World) :
  LogOptions.SaveToFile (firstOptions options) = true ->
  (forall js,
     savable (w_os w) (LogOptions.LogFilePath (withDefaults l options)) ->
     stored (w_os w) (LogOptions.LogFilePath (withDefaults l options)) js ->
     exists d w1 o',
       pacedMessage level message (withDefaults l options) w = (Ok d, w1)
       /\ logMessage l level message options w
          = (Ok tt, with_out (w_out w ++ [finalLine (d_closing d) " ✓" (d_parts d)])
                      (with_os o' w1))
       /\ stored o' (LogOptions.LogFilePath (withDefaults l options)) (js ++ [d_json d])
       /\ os_fds o' = os_fds (w_os w))
  /\ (forall e o',
       saveToFile (d_json (pacedDraft level message (withDefaults l options) (w_clock w)))
         (LogOptions.LogFilePath (withDefaults l options)) (w_os w) = (Err e, o') ->
       exists d w1,
         pacedMessage level message (withDefaults l options) w = (Ok d, w1)
         /\ logMessage l level message options w
            = (Ok tt, with_out (w_out w ++ [finalLine (d_closing d) " x"
                                              (d_parts d ++ ["Failed to save log"])])
                        (with_clock (pause (w_clock w1)) (with_os o' w1)))).
Proof.
  intros Hs. split; [intros js|intros e o'];
    [by apply logMessage_path_saved|by apply logMessage_path_failed].
Qed.

(** States for the statements at concrete inputs: the options of a call
    that saves to the default path. *)
Definition savingOptions : LogOptions :=
  {| LogOptions.StartTime := zeroTime; LogOptions.Process := "WorkerProcess";
     LogOptions.User := "Guest"; LogOptions.SaveToFile := true;
     LogOptions.LogFilePath := "" |}.

Lemma saveToFile_appends_witness :
  exists o', saveToFile sample "logs/app.json" empty_OS = (Ok tt, o')
    /\ content o' "logs/app.json" = Some (linesText [] +:+ lineText sample)
    /\ node_at o' (resolve (os_cwd empty_OS) (Dir "logs/app.json")) = Some NDir
    /\ stored o' "logs/app.json" ([] ++ [sample]) /\ savable o' "logs/app.json"
    /\ os_fds o' = os_fds empty_OS.
Proof.
  apply (saveToFile_appends empty_OS "logs/app.json" [] sample).
  - apply savableb_sound. vm_compute. reflexivity.
  - right. split; [reflexivity|]. vm_compute. reflexivity.
Defined.

Lemma saveToFile_releases_witness :
  os_fds (saveToFile sample "logs/app.json" (with_faults [None; None; Some EIO] empty_OS)).2
  = os_fds (with_faults [None; None; Some EIO] empty_OS)
  /\ fds_bounded
       (saveToFile sample "logs/app.json" (with_faults [None; None; Some EIO] empty_OS)).2.
Proof.
  apply (saveToFile_releases sample "logs/app.json"
           (with_faults [None; None; Some EIO] empty_OS)).
  intros fd f Hf. vm_compute in Hf. discriminate.
Defined.

Lemma logMessage_path_witness :
  exists d w1 o',
    pacedMessage WARN "Warning message" (withDefaults New [savingOptions]) slowWorld
    = (Ok d, w1)
    /\ logMessage New WARN "Warning message" [savingOptions] slowWorld
       = (Ok tt, with_out (w_out slowWorld ++ [finalLine (d_closing d) " ✓" (d_parts d)])
                   (with_os o' w1))
    /\ stored o' (LogOptions.LogFilePath (withDefaults New [savingOptions]))
         ([] ++ [d_json d])
    /\ os_fds o' = os_fds (w_os slowWorld).
Proof.
  apply (proj1 (logMessage_path New WARN "Warning message" [savingOptions] slowWorld
                  eq_refl) []).
  - apply savableb_sound. vm_compute. reflexivity.
  - right. split; [reflexivity|]. vm_compute. reflexivity.
Defined.

(** A world in which a regular file is where the directory of the default
    path should be. *)
Definition blockedOS : OS := with_nodes (insert ["home"; "app"; "logs"] (NFile "")) empty_OS.

Lemma logMessage_path_failed_at :
  exists d w1,
    pacedMessage WARN "Warning message"
      (withDefaults {| DefaultSaveToFile := false; DefaultLogPath := "logs/app.json" |}
         [savingOptions]) (with_os blockedOS slowWorld) = (Ok d, w1)
    /\ logMessage {| DefaultSaveToFile := false; DefaultLogPath := "logs/app.json" |}
         WARN "Warning message" [savingOptions] (with_os blockedOS slowWorld)
       = (Ok tt, with_out (w_out (with_os blockedOS slowWorld)
                           ++ [finalLine (d_closing d) " x"
                                 (d_parts d ++ ["Failed to save log"])])
                   (with_clock (pause (w_clock w1)) (with_os blockedOS w1))).
Proof.
  apply (logMessage_path_failed
           {| DefaultSaveToFile := false; DefaultLogPath := "logs/app.json" |}
           WARN "Warning message" [savingOptions] (with_os blockedOS slowWorld)
           (PathError "mkdir" "logs" ENOTDIR) blockedOS).
  - reflexivity.
  - vm_compute. reflexivity.
Defined.

(** The example of the documentation of part_004: three lines on the
    terminal, the first record in [./log.json], the second in the default
    file [logs/app.json], the third nowhere. *)
Example path_example_run :
  (example slowWorld).1 = Ok tt
  /\ w_out (example slowWorld).2
     = (fun s => s +:+ String LF "") <$>
       ["2024-02-29 01:00:03 ✓ [INFO] | MainProcess | 2100 ms | Admin | Information message";
        "2024-02-29 01:00:06 ✓ [WARN] | WorkerProcess | Guest | Warning message";
        "2024-02-29 01:00:09 ✓ [INFO] | Message only"]
  /\ content (w_os (example slowWorld).2) "./log.json"
     = Some (linesText [logToJSON.mk "2024-02-29 01:00:03" "INFO" "MainProcess" "2100 ms"
                          "Admin" "Information message"])
  /\ content (w_os (example slowWorld).2) "logs/app.json"
     = Some (linesText [logToJSON.mk "2024-02-29 01:00:06" "WARN" "WorkerProcess" "" "Guest"
                          "Warning message"]).
Proof. vm_compute. done. Qed.

End PathLogger.
