(* ===== verification/BracketLogger.v ===== *)
(** * BracketLogger: the logger of src/unnamed/part_002

    The paced logger ([Paced]) with the first array format: [saveToFile]
    writes the opening bracket when it creates the file, and later cuts the
    closing bracket with the line break before it, writes a comma, and
    appends the record and a new closing bracket. *)

From S2P Require Import Prelude GoTime GoJson GoOS World Sink ArraySink Compose Paced.

Module BracketLogger.

Import GoTime GoJson GoOS World Sink Compose Paced.

Local Open Scope io_scope.

(** ** The code *)

Definition fileExists (filename : string) : M OS error bool :=
  r <- try_ (Stat filename) ;;
  ret (match r with
       | Ok _ => true
       | Err err => negb (IsNotExist err)
       end).

(** [json.MarshalIndent(jsoner, "", "  ")] with its error result. *)
Definition jsonMarshalIndent (j : logToJSON) (prefix indent : string) : M OS error string :=
  ret (MarshalIndent (members j) prefix indent).

(** The file is created with the opening bracket when it is not there.  The
    [Close] is not deferred: an error before it returns with the file
    open. *)
Definition initFile (filePath : string) : M OS error unit :=
  there <- fileExists filePath ;;
  if negb there then
    file <- Create filePath ;;
    File_WriteString file ("[" +:+ String LF "") ;;;
    try_ (File_Close file) ;;;
    ret tt
  else ret tt.

(** The record is written at the end of the open file. *)
Definition writeEntry (jsoner : logToJSON) (file : nat) : M OS error unit :=
  stat <- File_Stat file ;;
  jsonData <- jsonMarshalIndent jsoner "" "  " ;;
  (if (2 <? fi_size stat)%Z then
     File_Truncate file (fi_size stat - 2) ;;;
     File_Seek file 0 SeekEnd ;;;
     File_WriteString file ("," +:+ String LF "") ;;;
     ret tt
   else ret tt) ;;;
  File_Seek file 0 SeekEnd ;;;
  File_WriteString file jsonData ;;;
  File_WriteString file (String LF "]") ;;;
  ret tt.

Definition saveToFile (jsoner : logToJSON) (filePath : string) : M OS error unit :=
  let dir := Dir filePath in
  MkdirAll dir 493 ;;;
  initFile filePath ;;;
  file <- OpenFile filePath [O_RDWR] 420 ;;
  defer_ (close_deferred file) (writeEntry jsoner file).

Definition logMessage : Logger -> string -> string -> list LogOptions -> IO unit :=
  Paced.logMessage saveToFile.

Definition Info : Logger -> string -> list LogOptions -> IO unit := Paced.Info saveToFile.

Definition Warn : Logger -> string -> list LogOptions -> IO unit := Paced.Warn saveToFile.

Definition Fatal : Logger -> string -> list LogOptions -> IO unit := Paced.Fatal saveToFile.

Definition Panic : Logger -> string -> list LogOptions -> IO unit := Paced.Panic saveToFile.

(** The example of the comment on [New]. *)
Definition example : IO unit :=
  let log := {| DefaultSaveToFile := DefaultSaveToFile New;
                DefaultLogPath := "logs/app.json" |} in
  startTime <- now ;;
  Info log "Information message"
    [{| LogOptions.StartTime := startTime; LogOptions.User := "Admin";
        LogOptions.Process := "MainProcess"; LogOptions.SaveToFile := true;
        LogOptions.LogFilePath := "./log.json" |}] ;;;
  Warn log "Warning message"
    [{| LogOptions.StartTime := zeroTime; LogOptions.Process := "WorkerProcess";
        LogOptions.User := "Guest"; LogOptions.SaveToFile := true;
        LogOptions.LogFilePath := "" |}] ;;;
  Info log "Message only" [].

(** ** The log a file holds *)

Definition entryText (j : logToJSON) : string := MarshalIndent (members j) "" "  ".

Definition opening : string := "[" +:+ String LF "".

Definition bracketText (js : list logToJSON) : string :=
  opening +:+ Join (entryText <$> js) ("," +:+ String LF "") +:+ String LF "]".

(** A log without records is a file that is not there, or one that holds
    the opening bracket alone. *)
Definition stored (o : OS) (p : string) (js : list logToJSON) : Prop :=
  match js with
  | [] => content o p = None \/ content o p = Some opening
  | _ => content o p = Some (bracketText js)
  end.

(** The text of a file after a record is entered in it. *)
Definition entered (d : string) (j : logToJSON) : string :=
  (if 2 <? String.length d then Str.drop_end 2 d +:+ "," +:+ String LF "" else d)
  +:+ entryText j +:+ String LF "]".

(** ** States and records for the statements at concrete inputs *)

Definition sample : logToJSON := ArraySink.sample1.

Definition savingOptions : LogOptions :=
  {| LogOptions.StartTime := zeroTime; LogOptions.Process := "WorkerProcess";
     LogOptions.User := "Guest"; LogOptions.SaveToFile := true;
     LogOptions.LogFilePath := "" |}.

(** A state in which the log file is there and empty. *)
Definition emptyFile : OS :=
  with_nodes (insert ["home"; "app"; "log.json"] (NFile "")) empty_OS.

(** ** Lemmas *)

Lemma fileExists_as (p : string) : fileExists p = ArraySink.fileExists p.
Proof. reflexivity. Qed.

Section Entry.
Context (cwd : list string) (M : gmap (list string) Node) (F : gmap nat FileDesc).
Context (name : string) (k : list string) (fd : nat) (j : logToJSON).
Context (Hk : k <> []) (Hfd : F !! fd = None).

Lemma writeEntry_short (nx : nat) (d : string) (off : nat) :
  String.length d <= 2 ->
  writeEntry j fd (st_open cwd M F name k fd nx d off)
  = (Ok tt, st_open cwd M F name k fd nx ((d +:+ entryText j) +:+ String LF "]")
              (String.length ((d +:+ entryText j) +:+ String LF "]"))).
Proof using Hk.
  intros Hd. unfold writeEntry, jsonMarshalIndent.
  rewrite stat_then, bind_ret_l by done. simpl.
  destruct (Z.ltb_spec 2 (Z.of_nat (String.length d))) as [|_]; [lia|].
  by file_run.
Qed.

Lemma writeEntry_long (nx : nat) (d : string) (off : nat) :
  2 < String.length d ->
  writeEntry j fd (st_open cwd M F name k fd nx d off)
  = (Ok tt, st_open cwd M F name k fd nx
              (((Str.drop_end 2 d +:+ "," +:+ String LF "") +:+ entryText j)
               +:+ String LF "]")
              (String.length (((Str.drop_end 2 d +:+ "," +:+ String LF "") +:+ entryText j)
                              +:+ String LF "]"))).
Proof using Hk.
  intros Hd. unfold writeEntry, jsonMarshalIndent.
  rewrite stat_then, bind_ret_l by done. simpl.
  destruct (Z.ltb_spec 2 (Z.of_nat (String.length d))) as [_|]; [|lia].
  file_run.
  replace (resize (Z.to_nat (Z.of_nat (String.length d) - 2)) d) with (Str.drop_end 2 d);
    [done|].
  unfold Str.drop_end. rewrite resize_le by lia. f_equal. lia.
Qed.

Lemma writeEntry_run (nx : nat) (d : string) (off : nat) :
  writeEntry j fd (st_open cwd M F name k fd nx d off)
  = (Ok tt, st_open cwd M F name k fd nx (entered d j) (String.length (entered d j))).
Proof using Hk.
  unfold entered. destruct (Nat.ltb_spec 2 (String.length d)).
  - by rewrite writeEntry_long, !Str.app_assoc.
  - by rewrite writeEntry_short, !Str.app_assoc.
Qed.

Context (Hname : resolve cwd name = k).

(** The file is opened, the record entered and the file closed. *)
Lemma enter_closed (d : string) :
  (file <- OpenFile name [O_RDWR] 420 ;;
   defer_ (close_deferred file) (writeEntry j file)) (st_closed cwd M F k fd d)
  = (Ok tt, st_closed cwd M F k (S fd) (entered d j)).
Proof using All.
  rewrite (bind_ok _ _ _ _ _ (open_existing cwd M F name k fd Hk Hname d [O_RDWR] 420 eq_refl eq_refl)).
  erewrite defer_run; [|by apply writeEntry_run].
  by rewrite close_deferred_open.
Qed.

End Entry.

(** A state without faults as a state of one file. *)
Lemma made_missing (o : OS) (m : gmap (list string) Node) :
  os_faults o = [] ->
  with_nodes (fun _ => m) o = st_missing (os_cwd o) m (os_fds o) (os_next o).
Proof. intros Hnf. destruct o; simpl in *. by subst. Qed.

Lemma made_closed (o : OS) (m : gmap (list string) Node) (k : list string) (d : string) :
  os_faults o = [] -> m !! k = Some (NFile d) ->
  with_nodes (fun _ => m) o = st_closed (os_cwd o) m (os_fds o) k (os_next o) d.
Proof.
  intros Hnf Hm. unfold st_closed. rewrite insert_id by done.
  destruct o; simpl in *. by subst.
Qed.

Section Init.
Context (o : OS) (p : string) (m : gmap (list string) Node).
Context (Hnf : os_faults o = []) (Hb : fds_bounded o) (Hname : names_entry (os_cwd o) p).

Let k := resolve (os_cwd o) p.
Let o1 : OS := with_nodes (fun _ => m) o.

Lemma initFile_creates :
  m !! k = None -> node_at o1 (parent k) = Some NDir ->
  initFile p o1 = (Ok tt, st_closed (os_cwd o) m (os_fds o) k (S (os_next o)) opening).
Proof using All.
  intros Hm Hdir. unfold initFile. rewrite fileExists_as.
  rewrite (bind_ok _ _ _ _ _ (ArraySink.fileExists_missing o p Hnf Hname m Hm Hdir)). simpl.
  fold o1. unfold o1 in *. rewrite made_missing in * by done.
  pose proof (fds_bounded_fresh o 0 Hb) as Hfd.
  rewrite (bind_ok _ _ _ _ _ (create_missing _ _ _ p k _ (proj2 Hname) eq_refl Hm Hdir)).
  rewrite (write_then _ _ _ p k _ (proj2 Hname) _ "" opening). unfold try_, bind.
  by rewrite close_open.
Qed.

Lemma initFile_there (n : Node) : m !! k = Some n -> initFile p o1 = (Ok tt, o1).
Proof using Hnf Hname.
  intros Hm. unfold initFile. rewrite fileExists_as.
  by rewrite (bind_ok _ _ _ _ _ (ArraySink.fileExists_found o p Hnf Hname m n Hm)).
Qed.

End Init.

(** What [saveToFile] does on a state where it cannot fail: a file that is
    not there is made with the opening bracket, and the record is entered
    in the text the file then holds. *)
Lemma saveToFile_entered (o : OS) (p : string) (j : logToJSON) :
  savable o p ->
  exists m, mkdir_chain [] (resolve (os_cwd o) (Dir p)) (os_nodes o) = Ok m
    /\ saveToFile j p o
       = (Ok tt, ArraySink.saved (resolve (os_cwd o) p) (entered (default opening (content o p)) j) m
                   (if content o p is None then 2 else 1) o).
Proof.
  intros Hs. destruct (MkdirAll_savable o p 493 Hs) as (m & Hm & Hmk & Hk & Hdir).
  destruct Hs as (Hnf & Hb & Hname & Hfree & Hnd).
  exists m. split; [done|]. unfold saveToFile. rewrite (bind_ok _ _ _ _ _ Hmk).
  rewrite content_node by apply Hname.
  assert (Hsv : forall fd d n, n + os_next o = S fd ->
            st_closed (os_cwd o) m (os_fds o) (resolve (os_cwd o) p) (S fd) d
            = ArraySink.saved (resolve (os_cwd o) p) d m n o).
  { intros fd d n <-. unfold st_closed, ArraySink.saved. by rewrite Hnf. }
  destruct (os_nodes o !! resolve (os_cwd o) p) as [[|d]|] eqn:Ho; [done| |]; simpl.
  - rewrite (bind_ok _ _ _ _ _ (initFile_there o p m Hnf Hname _ Hk)).
    rewrite (made_closed o m _ d Hnf Hk), enter_closed
      by first [done | apply Hname | apply (fds_bounded_fresh o 0 Hb)].
    f_equal. by apply Hsv.
  - rewrite (bind_ok _ _ _ _ _ (initFile_creates o p m Hnf Hb Hname Hk Hdir)).
    rewrite enter_closed by first [done | apply Hname | apply (fds_bounded_fresh o 1 Hb)].
    f_equal. by apply Hsv.
Qed.

Lemma length_bracketText (js : list logToJSON) :
  js <> [] -> 2 < String.length (bracketText js).
Proof.
  destruct js as [|j js]; [done|]. intros _. unfold bracketText, opening.
  rewrite !Str.length_app. simpl. lia.
Qed.

Lemma entered_opening (j : logToJSON) : entered opening j = bracketText [j].
Proof. reflexivity. Qed.

Lemma entered_bracketText (js : list logToJSON) (j : logToJSON) :
  js <> [] -> entered (bracketText js) j = bracketText (js ++ [j]).
Proof.
  intros Hjs. unfold entered.
  destruct (Nat.ltb_spec 2 (String.length (bracketText js))) as [_|Hl];
    [|pose proof (length_bracketText js Hjs); lia].
  unfold bracketText. rewrite fmap_app. change (entryText <$> [j]) with [entryText j].
  rewrite ArraySink.Join_snoc by by destruct js.
  rewrite <- (Str.app_assoc opening), (Str.drop_end_app _ (String LF "]")).
  by rewrite !Str.app_assoc.
Qed.

(** The text of the file of a log, where a missing file counts as the
    opening bracket. *)
Lemma stored_entered (o : OS) (p : string) (js : list logToJSON) (j : logToJSON) :
  stored o p js -> entered (default opening (content o p)) j = bracketText (js ++ [j]).
Proof.
  destruct js as [|j0 js]; simpl.
  - by intros [->| ->].
  - intros ->. by apply entered_bracketText.
Qed.

(** The law of the sink at [p]. *)
Lemma bracket_law (o : OS) (p : string) (js : list logToJSON) (j : logToJSON) :
  savable o p -> stored o p js ->
  exists o', saveToFile j p o = (Ok tt, o')
    /\ stored o' p (js ++ [j]) /\ savable o' p /\ os_fds o' = os_fds o.
Proof.
  intros Hs Hst. destruct (saveToFile_entered o p j Hs) as (m & Hm & ->).
  rewrite (stored_entered _ _ _ _ Hst). eexists. split; [done|]. split_and!.
  - unfold stored. rewrite ArraySink.content_saved by apply Hs. by destruct js.
  - by apply ArraySink.savable_saved.
  - done.
Qed.

(** C37: on a path that can be saved to, [saveToFile] of part_002 goes by the
    text the file holds: a file of more than two bytes loses its last two
    bytes to a comma and a line break, and the record and a closing bracket
    follow; a shorter file keeps its text, so an empty file that was there
    gets the record without the opening bracket. *)
Theorem saveToFile_enters (o : OS) (p d : string) (j : logToJSON) :
  savable o p -> content o p = Some d ->
  exists o', saveToFile j p o = (Ok tt, o')
    /\ content o' p
       = Some ((if 2 <? String.length d
                then Str.drop_end 2 d +:+ "," +:+ String LF ""
                else d) +:+ entryText j +:+ String LF "]")
    /\ os_fds o' = os_fds o.
Proof.
  intros Hs Hc. destruct (saveToFile_entered o p j Hs) as (m & Hm & ->). rewrite Hc.
  eexists. split; [done|]. by rewrite ArraySink.content_saved by apply Hs.
Qed.

#[export] Instance bracket_sink (p : string) : FileSink :=
  {| save j := saveToFile j p; holds o js := stored o p js; ready o := savable o p;
     save_appends o js j := bracket_law o p js j |}.

(** C29: [saveToFile] of part_002 implements appending a record to the log
    at its path: the missing directories are made, the file then holds the
    bracketed list of the records it held followed by the new one, the path
    can be saved to again and no descriptor stays open. *)
Theorem saveToFile_brackets (o : OS) (p : string) (js : list logToJSON) (j : logToJSON) :
  savable o p -> stored o p js ->
  exists o', saveToFile j p o = (Ok tt, o')
    /\ content o' p = Some (bracketText (js ++ [j]))
    /\ stored o' p (js ++ [j]) /\ savable o' p /\ os_fds o' = os_fds o.
Proof.
  intros Hs Hst. destruct (bracket_law o p js j Hs Hst) as (o' & Hr & Hst' & Hs' & Hfd).
  exists o'. split_and!; try done. by destruct js.
Qed.

(** ** Descriptors

    The [Close] of the file [initFile] creates is not deferred: when the
    write of the opening bracket fails, [saveToFile] returns with that file
    open.  On every other path the descriptors are those that were open. *)

Section Leak.
Context (F : gmap nat FileDesc) (n0 : nat) (j : logToJSON) (p : string).

(** At most one descriptor more than before is open. *)
Definition one_more (o : OS) : Prop :=
  fd_inv F n0 ∅ o \/ exists fd, fd_inv F n0 {[fd]} o.

Lemma writeEntry_fds (X : gset nat) (fd : nat) : fd ∈ X -> keeps F n0 X (writeEntry j fd).
Proof.
  intros Hfd. unfold writeEntry, jsonMarshalIndent.
  apply keeps_bind; [by apply File_Stat_fds|]. intros stat.
  apply keeps_bind; [apply keeps_ret|]. intros jsonData.
  apply keeps_bind; [destruct (2 <? fi_size stat)%Z|intros _];
    repeat (apply keeps_bind; [|intros _]);
    auto using keeps_ret, File_WriteString_fds, File_Truncate_fds, File_Seek_fds.
Qed.

Lemma fileExists_keeps (X : gset nat) : keeps F n0 X (fileExists p).
Proof. rewrite fileExists_as. apply ArraySink.fileExists_fds. Qed.

(** The file [initFile] created is closed when [initFile] returns without
    error. *)
Lemma created_fds (fd : nat) :
  fd ∉ (∅ : gset nat) ->
  hoare (fd_inv F n0 (∅ ∪ {[fd]}))
    (File_WriteString fd opening ;;; try_ (File_Close fd) ;;; ret tt)
    (post (fun _ => fd_inv F n0 ∅) one_more).
Proof.
  intros _. eapply hoare_bind; [apply File_WriteString_fds; set_solver| |].
  - intros n o Ho. unfold bind, try_, ret.
    assert (fd ∈ (∅ ∪ {[fd]} : gset nat)) as Hin by set_solver.
    pose proof (close_deferred_fds F n0 _ fd o Hin Ho) as Hc.
    unfold close_deferred in Hc. destruct (File_Close fd o) as [r o']. simpl in *.
    by replace ((∅ ∪ {[fd]}) ∖ {[fd]}) with (∅ : gset nat) in Hc by set_solver.
  - intros e o Ho. right. exists fd. by replace ({[fd]} : gset nat) with (∅ ∪ {[fd]} : gset nat)
      by set_solver.
Qed.

Lemma initFile_fds :
  hoare (fd_inv F n0 ∅) (initFile p) (post (fun _ => fd_inv F n0 ∅) one_more).
Proof.
  unfold initFile. eapply hoare_bind; [apply fileExists_keeps| |by left].
  intros there. destruct there; simpl; [by intros o Ho|].
  eapply hoare_bind; [apply opens_OpenFile| |by left].
  intros fd o [Hfd Ho]. by apply created_fds.
Qed.

Lemma saveToFile_one_more :
  hoare (fd_inv F n0 ∅) (saveToFile j p) (post (fun _ => fd_inv F n0 ∅) one_more).
Proof.
  unfold saveToFile. cbv zeta.
  eapply hoare_bind; [apply MkdirAll_fds| |by left].
  intros []. eapply hoare_bind; [apply initFile_fds| |done].
  intros []. eapply hoare_conseq; [|done|].
  - apply keeps_open; [apply opens_OpenFile|]. intros fd _. apply writeEntry_fds. set_solver.
  - intros [a|e] o Ho; [done|by left].
Qed.

End Leak.

(** When [saveToFile] of part_002 returns without error, the descriptors
    that are open are those that were open before the call, under every
    plan of faults. *)
Theorem saveToFile_returns_closed (j : logToJSON) (p : string) (o o' : OS) :
  fds_bounded o -> saveToFile j p o = (Ok tt, o') ->
  os_fds o' = os_fds o /\ fds_bounded o'.
Proof.
  intros Hb Hs. apply fd_inv_done; [done|].
  pose proof (saveToFile_one_more _ _ j p o (fd_inv_init o Hb)) as H. by rewrite Hs in H.
Qed.

(** [saveToFile] of part_002 can return with a file open: when the path
    is new and the write of the opening bracket fails, the call returns the
    error of the write and the descriptor of the created file stays open. *)
Theorem saveToFile_leaks (j : logToJSON) :
  let o := with_faults [None; None; None; Some ENOSPC] empty_OS in
  (saveToFile j "log.json" o).1
  = Err (PathError "write" "log.json" ENOSPC)
  /\ os_fds (saveToFile j "log.json" o).2 !! os_next o
     = Some {| of_name := "log.json"; of_key := ["home"; "app"; "log.json"]; of_off := 0;
               of_append := false |}
  /\ os_fds o !! os_next o = None.
Proof. vm_compute. done. Qed.

(** ** The logger on this sink *)

(** A log call of part_002 that asks for the file enters its record in
    the bracketed list at the path of the options, or at the default path
    of the logger when the options name none. *)
Theorem logMessage_bracket_saved (l : Logger) (level message : string)
    (options : list LogOptions) (w : World) (js : list logToJSON) :
  LogOptions.SaveToFile (firstOptions options) = true ->
  savable (w_os w) (LogOptions.LogFilePath (withDefaults l options)) ->
  stored (w_os w) (LogOptions.LogFilePath (withDefaults l options)) js ->
  exists d w1 o',
    pacedMessage level message (withDefaults l options) w = (Ok d, w1)
    /\ logMessage l level message options w
       = (Ok tt, with_out (w_out w ++ [finalLine (d_closing d) " ✓" (d_parts d)])
                   (with_os o' w1))
    /\ stored o' (LogOptions.LogFilePath (withDefaults l options)) (js ++ [d_json d])
    /\ os_fds o' = os_fds (w_os w).
Proof.
  intros Hs Hr Hh.
  destruct (logMessage_paced_saved saveToFile l level message options w
              (bracket_sink (LogOptions.LogFilePath (withDefaults l options))) js Hs
              (fun _ => eq_refl) Hr Hh) as (d & w1 & o' & Hd & Hl & Hh' & _ & Hfd).
  by exists d, w1, o'.
Qed.

(** ** Statements at concrete inputs *)

Lemma saveToFile_brackets_witness :
  exists o', saveToFile sample "logs/app.json" empty_OS = (Ok tt, o')
    /\ content o' "logs/app.json" = Some (bracketText ([] ++ [sample]))
    /\ stored o' "logs/app.json" ([] ++ [sample]) /\ savable o' "logs/app.json"
    /\ os_fds o' = os_fds empty_OS.
Proof.
  apply (saveToFile_brackets empty_OS "logs/app.json" [] sample).
  - apply savableb_sound. vm_compute. reflexivity.
  - left. vm_compute. reflexivity.
Defined.

Lemma saveToFile_enters_witness :
  exists o', saveToFile sample "log.json" emptyFile = (Ok tt, o')
    /\ content o' "log.json"
       = Some ((if 2 <? String.length ""
                then Str.drop_end 2 "" +:+ "," +:+ String LF ""
                else "") +:+ entryText sample +:+ String LF "]")
    /\ os_fds o' = os_fds emptyFile.
Proof.
  apply (saveToFile_enters emptyFile "log.json" "" sample).
  - apply savableb_sound. vm_compute. reflexivity.
  - vm_compute. reflexivity.
Defined.

Lemma saveToFile_returns_closed_witness :
  os_fds (saveToFile sample "log.json" empty_OS).2 = os_fds empty_OS
  /\ fds_bounded (saveToFile sample "log.json" empty_OS).2.
Proof.
  apply (saveToFile_returns_closed sample "log.json" empty_OS).
  - intros fd f Hf. vm_compute in Hf. discriminate.
  - vm_compute. reflexivity.
Defined.

Lemma logMessage_bracket_saved_witness :
  exists d w1 o',
    pacedMessage WARN "Warning message" (withDefaults New [savingOptions]) slowWorld
    = (Ok d, w1)
    /\ logMessage New WARN "Warning message" [savingOptions] slowWorld
       = (Ok tt, with_out (w_out slowWorld ++ [finalLine (d_closing d) " ✓" (d_parts d)])
                   (with_os o' w1))
    /\ stored o' (LogOptions.LogFilePath (withDefaults New [savingOptions]))
         ([] ++ [d_json d])
    /\ os_fds o' = os_fds (w_os slowWorld).
Proof.
  apply (logMessage_bracket_saved New WARN "Warning message" [savingOptions] slowWorld []).
  - reflexivity.
  - apply savableb_sound. vm_compute. reflexivity.
  - left. vm_compute. reflexivity.
Defined.

(** The record a call enters in an empty file that was there is not
    preceded by the opening bracket: the file is not a JSON array. *)
Example empty_file_entered :
  content (saveToFile sample "log.json" emptyFile).2 "log.json"
  = Some (entryText sample +:+ String LF "]").
Proof. vm_compute. reflexivity. Qed.

(** The example of the documentation of part_002: three lines on the
    terminal, the first record in [./log.json], the second in the default
    file [logs/app.json], each between brackets, the third nowhere. *)
Example bracket_example_run :
  (example slowWorld).1 = Ok tt
  /\ w_out (example slowWorld).2
     = (fun s => s +:+ String LF "") <$>
       ["2024-02-29 01:00:03 ✓ [INFO] | MainProcess | 2100 ms | Admin | Information message";
        "2024-02-29 01:00:06 ✓ [WARN] | WorkerProcess | Guest | Warning message";
        "2024-02-29 01:00:09 ✓ [INFO] | Message only"]
  /\ content (w_os (example slowWorld).2) "./log.json"
     = Some (bracketText [logToJSON.mk "2024-02-29 01:00:03" "INFO" "MainProcess" "2100 ms"
                            "Admin" "Information message"])
  /\ content (w_os (example slowWorld).2) "logs/app.json"
     = Some (bracketText [logToJSON.mk "2024-02-29 01:00:06" "WARN" "WorkerProcess" "" "Guest"
                            "Warning message"]).
Proof. vm_compute. done. Qed.

End BracketLogger.
