(* ===== verification/Ready.v ===== *)
(** * Ready: the paths the sinks can save to

    The theorems on the sinks of part_001, part_004 and part_002 ask for a
    path that can be saved to.  Every path that ends in a name is one, on
    every state in which no regular file stands where a directory of the
    path is to be and the path is no directory; the first save at such a
    path makes the directories and the file. *)

From S2P Require Import Prelude GoTime GoJson GoOS Paths World Sink ArraySink LineSink.
From S2P Require Import Compose Paced PathLogger BracketLogger.

Module Ready.

Import GoOS Paths Sink.

Section Path.
Context (o : OS) (d n : string).
Context (Hn : plain n) (Hnf : os_faults o = []) (Hb : fds_bounded o).
Context (Hway : forall k x, on_way [] (resolve (os_cwd o) (d +:+ "/")) k ->
                            os_nodes o !! k <> Some (NFile x)).

(** A name behind a path can be saved to. *)
Lemma savable_at :
  os_nodes o !! (resolve (os_cwd o) (d +:+ "/") ++ [n]) <> Some NDir ->
  savable o (d +:+ "/" +:+ n).
Proof using All.
  intros Hd. unfold savable. rewrite resolve_Dir_app, resolve_app by (done || apply Hn).
  split_and!; try done. by apply names_entry_app.
Qed.

(** Nothing is stored where nothing is. *)
Lemma nothing_at :
  os_nodes o !! (resolve (os_cwd o) (d +:+ "/") ++ [n]) = None ->
  content o (d +:+ "/" +:+ n) = None.
Proof using Hn.
  intros Hd. rewrite content_node, resolve_app, Hd by (done || by apply names_entry_app). done.
Qed.

End Path.

(** C27: the first save at a path that ends in a name.  On a state without
    planned faults in which no regular file stands on the way to the
    directory and nothing is at the path, [saveToFile] of part_001, of
    part_004 and of part_002 each returns nil, the file holds the record in
    the format of the variant, the path can be saved to again, and no
    descriptor stays open. *)
Theorem first_save (o : OS) (d n : string) (j : logToJSON) :
  plain n -> os_faults o = [] -> fds_bounded o ->
  (forall k x, on_way [] (resolve (os_cwd o) (d +:+ "/")) k ->
               os_nodes o !! k <> Some (NFile x)) ->
  os_nodes o !! (resolve (os_cwd o) (d +:+ "/") ++ [n]) = None ->
  (exists o', ArraySink.saveToFile j (d +:+ "/" +:+ n) o = (Ok tt, o')
     /\ content o' (d +:+ "/" +:+ n) = Some (ArraySink.arrayText [j])
     /\ savable o' (d +:+ "/" +:+ n) /\ os_fds o' = os_fds o)
  /\ (exists o', PathLogger.saveToFile j (d +:+ "/" +:+ n) o = (Ok tt, o')
        /\ content o' (d +:+ "/" +:+ n) = Some (LineSink.lineText j)
        /\ savable o' (d +:+ "/" +:+ n) /\ os_fds o' = os_fds o)
  /\ (exists o', BracketLogger.saveToFile j (d +:+ "/" +:+ n) o = (Ok tt, o')
        /\ content o' (d +:+ "/" +:+ n) = Some (BracketLogger.bracketText [j])
        /\ savable o' (d +:+ "/" +:+ n) /\ os_fds o' = os_fds o).
Proof.
  intros Hn Hnf Hb Hway Hd.
  assert (savable o (d +:+ "/" +:+ n)) as Hs by (apply savable_at; by rewrite ?Hd).
  pose proof (nothing_at o d n Hn Hd) as Hc.
  split_and!.
  - destruct (ArraySink.array_law o _ [] j Hs) as (o' & ? & ? & ? & ?); [by left|by exists o'].
  - destruct (PathLogger.path_law o _ [] j Hs) as (o' & ? & [Hst|[? _]] & ? & ?);
      [by right|exists o'|done]. simpl in Hst. by rewrite Str.app_nil_r in Hst.
  - destruct (BracketLogger.bracket_law o _ [] j Hs) as (o' & ? & ? & ? & ?);
      [by left|by exists o'].
Qed.

Lemma first_save_witness :
  (exists o', ArraySink.saveToFile LineSink.sample ("./logs" +:+ "/" +:+ "app.json") empty_OS
              = (Ok tt, o')
     /\ content o' ("./logs" +:+ "/" +:+ "app.json")
        = Some (ArraySink.arrayText [LineSink.sample])
     /\ savable o' ("./logs" +:+ "/" +:+ "app.json") /\ os_fds o' = os_fds empty_OS)
  /\ (exists o', PathLogger.saveToFile LineSink.sample ("./logs" +:+ "/" +:+ "app.json") empty_OS
                 = (Ok tt, o')
        /\ content o' ("./logs" +:+ "/" +:+ "app.json")
           = Some (LineSink.lineText LineSink.sample)
        /\ savable o' ("./logs" +:+ "/" +:+ "app.json") /\ os_fds o' = os_fds empty_OS)
  /\ (exists o', BracketLogger.saveToFile LineSink.sample ("./logs" +:+ "/" +:+ "app.json")
                   empty_OS = (Ok tt, o')
        /\ content o' ("./logs" +:+ "/" +:+ "app.json")
           = Some (BracketLogger.bracketText [LineSink.sample])
        /\ savable o' ("./logs" +:+ "/" +:+ "app.json") /\ os_fds o' = os_fds empty_OS).
Proof.
  apply (first_save empty_OS "./logs" "app.json" LineSink.sample).
  - by repeat split.
  - reflexivity.
  - by intros fd f.
  - apply way_free_spec. vm_compute. reflexivity.
  - vm_compute. reflexivity.
Defined.

End Ready.
