(* ===== verification/Inv.v ===== *)
(** * Inv: what every call keeps: a well-formed file system, and history

    [wf] of [GoOS] says what a state of the operating system looks like:
    every node hangs in a directory, descriptors are numbered below the next
    one, and an open descriptor names a regular file.  Every library call
    of [GoOS] keeps it, on its error paths and under every plan of faults;
    code built from these calls keeps it by the rules of [stable].

    [Kept Q] collects what the library calls keep, [Steady P Q] what the
    calls of the world keep; [wf] and the history relation [grows] are
    instances of the first, [winv] and [later] of the second.  A sink
    calls the library on one path and on the descriptors it has opened:
    [KeptOpen Q] is the part of [Kept Q] on descriptors and [KeptAt p Q]
    adds the calls that name the path [p], so that a predicate on the
    other files is kept too.  The theorems
    on the sinks and the loggers are proved once, for every instance, by
    [stable_auto], which follows the structure of the code. *)

From S2P Require Import Prelude GoTime GoJson GoOS World Sink ArraySink LineSink Compose.
From S2P Require Import Logger MainLogger SpinLogger PlainLogger Paced PathLogger BracketLogger.

Module Inv.

Import GoTime GoOS World Sink Compose.

Local Open Scope io_scope.

(** ** The tree *)

(** The node at [k] after the node at [p] is set. *)
Lemma node_at_insert (o : OS) (p k : list string) (n : Node) :
  p <> [] ->
  node_at (with_nodes (insert p n) o) k = if decide (k = p) then Some n else node_at o k.
Proof.
  intros Hp. unfold node_at. simpl. case_decide as Hk.
  - subst. destruct p; [done|]. apply lookup_insert_eq.
  - destruct k; [done|]. by rewrite lookup_insert_ne.
Qed.

Section Tree.
Context (o : OS) (Ho : wf o).

(** The node at [p] is set, in a way that leaves a directory where one is
    needed: the parent of [p] is a directory, and [p] stays a directory if
    it was one. *)
Lemma wf_set (p : list string) (n : Node) :
  p <> [] -> node_at o (parent p) = Some NDir ->
  (os_nodes o !! p = Some NDir -> n = NDir) ->
  (forall fd f, os_fds o !! fd = Some f -> of_key f = p -> exists d, n = NFile d) ->
  wf (with_nodes (insert p n) o).
Proof using Ho.
  destruct Ho as (Ht & Hb & Hf). intros Hp Hpar Hdir Hfds. split_and!; [|done|].
  - intros k n' Hk. simpl in Hk.
    assert (k <> [] /\ node_at o (parent k) = Some NDir) as [Hk0 Hkp].
    { destruct (decide (k = p)) as [->|Hne]; [done|].
      rewrite lookup_insert_ne in Hk by done. by apply (Ht k n'). }
    split; [done|]. rewrite node_at_insert by done. case_decide as Hpk; [|done].
    rewrite Hpk in Hkp. rewrite node_at_ne in Hkp by done. by rewrite (Hdir Hkp).
  - intros fd f Hfd. destruct (Hf fd f Hfd) as [d Hd]. simpl.
    destruct (decide (of_key f = p)) as [Heq|].
    + destruct (Hfds fd f Hfd Heq) as [d' ->]. exists d'. rewrite Heq. apply lookup_insert_eq.
    + exists d. by rewrite lookup_insert_ne.
Qed.

(** A directory is made where nothing was. *)
Lemma wf_mkdir (p : list string) :
  p <> [] -> node_at o (parent p) = Some NDir -> os_nodes o !! p = None ->
  wf (with_nodes (insert p NDir) o).
Proof using Ho.
  intros Hp Hpar Hnew. apply wf_set; [done|done|done|].
  intros fd f Hfd Heq. destruct Ho as (_ & _ & Hf).
  destruct (Hf fd f Hfd) as [d Hd]. congruence.
Qed.

(** A node becomes a regular file where it was one, or where nothing was
    and the parent is a directory. *)
Lemma wf_file (k : list string) (data : string) :
  k <> [] ->
  ((exists d, os_nodes o !! k = Some (NFile d))
   \/ (os_nodes o !! k = None /\ node_at o (parent k) = Some NDir)) ->
  wf (with_nodes (insert k (NFile data)) o).
Proof using Ho.
  intros Hk0 Hk. apply wf_set; [done| | |by eexists].
  - destruct Hk as [[d Hd]|[_ ?]]; [|done]. destruct Ho as (Ht & _). by apply (Ht k _ Hd).
  - destruct Hk as [[d Hd]|[Hd _]]; congruence.
Qed.

(** A descriptor is handed out for a regular file. *)
Lemma wf_new_fd (name : string) (k : list string) (flags : list Flag) (d : string) :
  os_nodes o !! k = Some (NFile d) -> wf (new_fd name k flags o).2.
Proof using Ho.
  destruct Ho as (Ht & Hb & Hf). intros Hk. split_and!; [done| |].
  - intros fd f Hfd. simpl in *.
    destruct (decide (fd = os_next o)) as [->|]; [lia|].
    rewrite lookup_insert_ne in Hfd by done. apply Hb in Hfd. lia.
  - intros fd f Hfd. simpl in *.
    destruct (decide (fd = os_next o)) as [->|].
    + rewrite lookup_insert_eq in Hfd. injection Hfd as <-. by exists d.
    + rewrite lookup_insert_ne in Hfd by done. by apply (Hf fd).
Qed.

(** The offset of an open descriptor moves. *)
Lemma wf_move (fd : nat) (f : FileDesc) (off : nat) :
  os_fds o !! fd = Some f ->
  wf (with_fds (insert fd {| of_name := of_name f; of_key := of_key f; of_off := off;
                             of_append := of_append f |}) o).
Proof using Ho.
  destruct Ho as (Ht & Hb & Hf). intros Hfd. split_and!; [done| |].
  - intros fd' f' Hfd'. simpl in *.
    destruct (decide (fd' = fd)) as [->|]; [by apply (Hb fd f)|].
    rewrite lookup_insert_ne in Hfd' by done. by apply (Hb fd' f').
  - intros fd' f' Hfd'. simpl in *.
    destruct (decide (fd' = fd)) as [->|].
    + rewrite lookup_insert_eq in Hfd'. injection Hfd' as <-. by apply (Hf fd f).
    + rewrite lookup_insert_ne in Hfd' by done. by apply (Hf fd' f').
Qed.

(** A descriptor is released. *)
Lemma wf_release (fd : nat) : wf (with_fds (delete fd) o).
Proof using Ho.
  destruct Ho as (Ht & Hb & Hf). split_and!; [done| |].
  - intros fd' f' Hfd'. simpl in Hfd'. apply lookup_delete_Some in Hfd' as [_ Hfd'].
    by apply (Hb fd' f').
  - intros fd' f' Hfd'. simpl in Hfd'. apply lookup_delete_Some in Hfd' as [_ Hfd'].
    by apply (Hf fd' f').
Qed.

End Tree.

(** ** The library calls *)

(** The properties of this section do not depend on the plan of faults. *)
Section Blind.
Context (P : OS -> Prop) `{!Proper ((≡) ==> iff) P}.

(** A system call keeps what its body keeps, whatever the plan says. *)
Lemma syscall_keeps {A} (op name : string) (body : OS -> result Errno A * OS) (o : OS) :
  P o -> (forall l, P (body (with_faults l o)).2) -> P (syscall op name body o).2.
Proof.
  intros Ho Hb. unfold syscall.
  destruct (os_faults o) as [|[e|] rest] eqn:Hl; simpl.
  - specialize (Hb (os_faults o)). rewrite with_faults_id in Hb.
    by destruct (body o) as [[a|e] o'].
  - by rewrite with_faults_equiv.
  - specialize (Hb rest). by destruct (body _) as [[a|e] o'].
Qed.

Lemma stable_syscall {A} (op name : string) (body : OS -> result Errno A * OS) :
  (forall o, P o -> P (body o).2) -> stable P (syscall op name body).
Proof.
  intros Hb o Ho. apply syscall_keeps; [done|]. intros l. apply Hb.
  by rewrite with_faults_equiv.
Qed.

(** A call on an open file keeps what its body keeps on a state in which
    the descriptor is open on a regular file. *)
Lemma on_file_keeps {A} (op : string) (fd : nat)
    (body : FileDesc -> string -> OS -> result Errno A * OS) (o : OS) :
  P o ->
  (forall l f d, os_fds o !! fd = Some f -> os_nodes o !! of_key f = Some (NFile d) ->
                 of_key f <> [] -> P (body f d (with_faults l o)).2) ->
  P (on_file op fd body o).2.
Proof.
  intros Ho Hb. unfold on_file. destruct (os_fds o !! fd) as [f|] eqn:Hfd; [|done].
  apply syscall_keeps; [done|]. intros l.
  destruct (node_at (with_faults l o) (of_key f)) as [[|d]|] eqn:Hn;
    [by rewrite with_faults_equiv| |by rewrite with_faults_equiv].
  destruct (of_key f) as [|c k] eqn:Hk; [done|].
  rewrite <- Hk in *. apply Hb; [done| |by rewrite Hk]. by rewrite Hk in *.
Qed.

Lemma stable_on_file {A} (op : string) (fd : nat)
    (body : FileDesc -> string -> OS -> result Errno A * OS) :
  (forall f d o, P o -> os_fds o !! fd = Some f ->
                 os_nodes o !! of_key f = Some (NFile d) -> of_key f <> [] ->
                 P (body f d o).2) ->
  stable P (on_file op fd body).
Proof.
  intros Hb o Ho. apply on_file_keeps; [done|]. intros l f d ???. apply Hb; auto.
  by rewrite with_faults_equiv.
Qed.

End Blind.

(** What [MkdirAll] leaves is a tree. *)
Lemma mkdir_chain_wf (todo pre : list string) (o : OS) (m : gmap (list string) Node) :
  wf o -> node_at o pre = Some NDir ->
  mkdir_chain pre todo (os_nodes o) = Ok m -> wf (with_nodes (fun _ => m) o).
Proof.
  revert pre o. induction todo as [|c rest IH]; intros pre o Ho Hpre Hm; simpl in Hm.
  - simplify_eq. by destruct o.
  - assert (parent (pre ++ [c]) = pre) as Hpar by apply removelast_last.
    assert (pre ++ [c] <> []) as Hne by (by destruct pre).
    destruct (os_nodes o !! (pre ++ [c])) as [[|d]|] eqn:Hp; [|done|].
    + apply (IH (pre ++ [c])); [done| |done]. by rewrite node_at_ne.
    + apply (IH (pre ++ [c]) (with_nodes (insert (pre ++ [c]) NDir) o)) in Hm.
      * by destruct o.
      * apply wf_mkdir; [done|done|by rewrite Hpar|done].
      * rewrite node_at_insert by done. by case_decide.
Qed.

Lemma MkdirAll_wf (name : string) (perm : N) : stable wf (MkdirAll name perm).
Proof.
  apply (stable_syscall wf). intros o Ho.
  destruct (mkdir_chain _ _ _) as [m|e] eqn:Hm; [|done].
  by apply (mkdir_chain_wf (resolve (os_cwd o) name) [] o).
Qed.

Lemma Stat_wf (name : string) : stable wf (Stat name).
Proof. apply (stable_syscall wf). intros o Ho. cbv zeta. by case_match. Qed.

Lemma OpenFile_wf (name : string) (flags : list Flag) (perm : N) :
  stable wf (OpenFile name flags perm).
Proof.
  apply (stable_syscall wf). intros o Ho. cbv zeta.
  set (k := resolve (os_cwd o) name).
  destruct (node_at o k) as [[|d]|] eqn:Hn; [done| |].
  - assert (k <> []) as Hk by (by intros Hk; rewrite Hk in Hn).
    rewrite node_at_ne in Hn by done.
    destruct (has O_TRUNC flags).
    + apply (wf_new_fd _ (wf_file o Ho k "" Hk (or_introl (ex_intro _ d Hn))) name k flags "").
      simpl. apply lookup_insert_eq.
    + by apply (wf_new_fd o Ho name k flags d).
  - assert (k <> []) as Hk by (by intros Hk; rewrite Hk in Hn).
    rewrite node_at_ne in Hn by done.
    destruct (has O_CREATE flags); [|done].
    destruct (node_at o (parent k)) as [[|d]|] eqn:Hp; [|done|done].
    apply (wf_new_fd _ (wf_file o Ho k "" Hk (or_intror (conj Hn Hp))) name k flags "").
    simpl. apply lookup_insert_eq.
Qed.

Lemma Create_wf (name : string) : stable wf (Create name).
Proof. apply OpenFile_wf. Qed.

Lemma File_Stat_wf (fd : nat) : stable wf (File_Stat fd).
Proof. by apply (stable_on_file wf). Qed.

Lemma File_Truncate_wf (fd : nat) (size : Z) : stable wf (File_Truncate fd size).
Proof.
  apply (stable_on_file wf). intros f d o Ho Hfd Hd Hk. case_match; [done|].
  apply wf_file; [done|done|]. left. by exists d.
Qed.

Lemma File_Seek_wf (fd : nat) (offset : Z) (whence : Whence) :
  stable wf (File_Seek fd offset whence).
Proof.
  apply (stable_on_file wf). intros f d o Ho Hfd Hd Hk. cbv zeta. case_match; [done|].
  by apply wf_move.
Qed.

Lemma File_WriteString_wf (fd : nat) (s : string) : stable wf (File_WriteString fd s).
Proof.
  apply (stable_on_file wf). intros f d o Ho Hfd Hd Hk. cbv zeta. simpl.
  apply (wf_move (with_nodes _ o)); [|done].
  apply wf_file; [done|done|]. left. by exists d.
Qed.

Lemma File_Close_wf (fd : nat) : stable wf (File_Close fd).
Proof.
  intros o Ho. unfold File_Close. destruct (os_fds o !! fd) as [f|]; [|done].
  apply (syscall_keeps wf); [|intros l; simpl; rewrite with_faults_equiv]; by apply wf_release.
Qed.

Lemma close_deferred_wf (fd : nat) (o : OS) : wf o -> wf (close_deferred fd o).
Proof. apply File_Close_wf. Qed.

(** ** Invariants of the operating system

    What the library promises about a property of the state: every call
    keeps it. *)
Class Kept (Q : OS -> Prop) : Prop := {
  kept_MkdirAll name perm : stable Q (MkdirAll name perm);
  kept_Stat name : stable Q (Stat name);
  kept_OpenFile name flags perm : stable Q (OpenFile name flags perm);
  kept_File_Stat fd : stable Q (File_Stat fd);
  kept_File_Truncate fd size : stable Q (File_Truncate fd size);
  kept_File_Seek fd offset whence : stable Q (File_Seek fd offset whence);
  kept_File_WriteString fd s : stable Q (File_WriteString fd s);
  kept_File_Close fd : stable Q (File_Close fd)
}.

Lemma kept_Create `{!Kept Q} (name : string) : stable Q (Create name).
Proof. apply kept_OpenFile. Qed.

Lemma kept_close_deferred `{!Kept Q} (fd : nat) (o : OS) : Q o -> Q (close_deferred fd o).
Proof. apply kept_File_Close. Qed.

#[export] Instance wf_kept : Kept wf.
Proof.
  split; auto using MkdirAll_wf, Stat_wf, OpenFile_wf, File_Stat_wf, File_Truncate_wf,
    File_Seek_wf, File_WriteString_wf, File_Close_wf.
Qed.

(** What the calls of a caller at a path keep.  [saveToFile] names the
    path [p] and its directory and no other path: it makes the directory,
    looks for the file and opens it; every other call is made on a
    descriptor. *)
Class KeptOpen (Q : OS -> Prop) : Prop := {
  open_File_Stat fd : stable Q (File_Stat fd);
  open_File_Truncate fd size : stable Q (File_Truncate fd size);
  open_File_Seek fd offset whence : stable Q (File_Seek fd offset whence);
  open_File_WriteString fd s : stable Q (File_WriteString fd s);
  open_File_Close fd : stable Q (File_Close fd)
}.

Class KeptAt (p : string) (Q : OS -> Prop) : Prop := {
  at_open :: KeptOpen Q;
  at_MkdirAll perm : stable Q (MkdirAll (Dir p) perm);
  at_Stat : stable Q (Stat p);
  at_OpenFile flags perm : stable Q (OpenFile p flags perm)
}.

#[export] Instance kept_open `{!Kept Q} : KeptOpen Q | 0.
Proof.
  split; auto using kept_File_Stat, kept_File_Truncate, kept_File_Seek,
    kept_File_WriteString, kept_File_Close.
Qed.

#[export] Instance kept_at `{!Kept Q} (p : string) : KeptAt p Q.
Proof. split; auto using kept_MkdirAll, kept_Stat, kept_OpenFile, kept_open. Qed.

Lemma at_Create `{!KeptAt p Q} : stable Q (Create p).
Proof. apply at_OpenFile. Qed.

Lemma open_close_deferred `{!KeptOpen Q} (fd : nat) (o : OS) : Q o -> Q (close_deferred fd o).
Proof. apply open_File_Close. Qed.

Create HintDb stable discriminated.

#[export] Hint Resolve kept_MkdirAll kept_Stat kept_OpenFile kept_Create at_MkdirAll at_Stat
  at_OpenFile at_Create open_File_Stat open_File_Truncate open_File_Seek
  open_File_WriteString open_File_Close : stable.

#[export] Hint Extern 1 (Kept _) => typeclasses eauto : stable.
#[export] Hint Extern 1 (KeptAt _ _) => typeclasses eauto : stable.
#[export] Hint Extern 1 (KeptOpen _) => typeclasses eauto : stable.

(** Proves that a computation built from calls with [bind], [wrapErr],
    [try_], [defer_] and tests keeps an invariant the calls keep. *)
Ltac stable_step :=
  lazymatch goal with
  | |- stable _ (ret _) => apply stable_ret
  | |- stable _ (fail _) => apply stable_fail
  | |- stable _ (wrapErr _ _) => apply stable_wrapErr
  | |- stable _ (try_ _) => apply stable_try
  | |- stable _ (defer_ _ _) => apply stable_defer; [|intros ? ?]
  | |- stable _ (bind _ _) => apply stable_bind; [|intros ?]
  | |- stable _ (if ?b then _ else _) => destruct b
  | |- stable _ (match ?x with _ => _ end) => destruct x
  | |- stable _ (let _ := _ in _) => cbv zeta
  | |- stable _ _ => solve [eauto with stable]
  | |- _ (close_deferred _ _) => solve [apply open_close_deferred; eauto with stable]
  | |- _ (match ?x with _ => _ end) => destruct x
  | |- _ => assumption
  end.

Ltac stable_auto := repeat stable_step.

(** ** The history of a file system

    What was there stays: a directory stays a directory, a regular file a
    regular file, the working directory is the same and the numbers of the
    descriptors grow. *)

Definition kind_le (a b : option Node) : Prop :=
  match a with
  | None => True
  | Some NDir => b = Some NDir
  | Some (NFile _) => exists d, b = Some (NFile d)
  end.

Definition grows (o o' : OS) : Prop :=
  os_cwd o' = os_cwd o /\ os_next o <= os_next o'
  /\ forall k, kind_le (os_nodes o !! k) (os_nodes o' !! k).

Lemma kind_le_refl (a : option Node) : kind_le a a.
Proof. destruct a as [[|d]|]; simpl; eauto. Qed.

Lemma kind_le_trans (a b c : option Node) : kind_le a b -> kind_le b c -> kind_le a c.
Proof. destruct a as [[|d]|]; simpl; [by intros ->|by intros [d' ->]|done]. Qed.

#[export] Instance grows_refl : Reflexive grows.
Proof. intros o. split_and!; [done|done|]. intros k. apply kind_le_refl. Qed.

#[export] Instance grows_trans : Transitive grows.
Proof.
  intros a b c (Hc1 & Hn1 & Hk1) (Hc2 & Hn2 & Hk2). split_and!; [congruence|lia|].
  intros k. by eapply kind_le_trans.
Qed.

(** Descriptors and faults are not part of the history. *)
Lemma grows_same (o o' : OS) :
  os_cwd o' = os_cwd o -> os_next o' = os_next o -> os_nodes o' = os_nodes o -> grows o o'.
Proof. intros Hc Hn Hm. split_and!; [done|lia|]. intros k. rewrite Hm. apply kind_le_refl. Qed.

#[export] Instance grows_proper : Proper ((≡) ==> (≡) ==> iff) grows.
Proof. intros o1 o1' H1 o2 o2' H2. unfold grows. by setoid_rewrite H1; setoid_rewrite H2. Qed.

Lemma grows_fds (f : gmap nat FileDesc -> gmap nat FileDesc) (o o' : OS) :
  grows o o' -> grows o (with_fds f o').
Proof. done. Qed.

(** A regular file is written where one was, or where nothing was. *)
Lemma grows_file (o : OS) (k : list string) (data : string) :
  os_nodes o !! k <> Some NDir -> grows o (with_nodes (insert k (NFile data)) o).
Proof.
  intros Hk. split_and!; [done|done|]. intros k'. simpl.
  destruct (decide (k' = k)) as [->|]; [|rewrite lookup_insert_ne by done; apply kind_le_refl].
  rewrite lookup_insert_eq. destruct (os_nodes o !! k) as [[|d]|]; simpl; eauto. done.
Qed.

Lemma grows_new_fd (name : string) (k : list string) (flags : list Flag) (o : OS) :
  grows o (new_fd name k flags o).2.
Proof. split_and!; [done|simpl; lia|]. intros k'. apply kind_le_refl. Qed.

Section Grows.
Context (o0 : OS).

Lemma syscall_grows {A} (op name : string) (body : OS -> result Errno A * OS) :
  (forall o, grows o (body o).2) -> stable (grows o0) (syscall op name body).
Proof.
  intros Hb. apply stable_later; [apply _|]. intros o.
  apply (syscall_keeps (grows o)); [done|]. intros l.
  rewrite <- (with_faults_equiv l o) at 1. apply Hb.
Qed.

Lemma on_file_grows {A} (op : string) (fd : nat)
    (body : FileDesc -> string -> OS -> result Errno A * OS) :
  (forall f d o, os_nodes o !! of_key f = Some (NFile d) -> grows o (body f d o).2) ->
  stable (grows o0) (on_file op fd body).
Proof.
  intros Hb. apply stable_later; [apply _|]. intros o.
  apply (on_file_keeps (grows o)); [done|]. intros l f d Hfd Hd Hk.
  rewrite <- (with_faults_equiv l o) at 1. by apply Hb.
Qed.

Lemma MkdirAll_grows (name : string) (perm : N) : stable (grows o0) (MkdirAll name perm).
Proof.
  apply syscall_grows. intros o.
  destruct (mkdir_chain _ _ _) as [m|e] eqn:Hm; [|done].
  split_and!; [done|done|]. intros k. simpl.
  destruct (os_nodes o !! k) as [n|] eqn:Hk; [|done].
  rewrite (mkdir_chain_keeps _ _ _ _ _ _ Hm Hk). apply kind_le_refl.
Qed.

Lemma Stat_grows (name : string) : stable (grows o0) (Stat name).
Proof. apply syscall_grows. intros o. cbv zeta. by case_match. Qed.

Lemma OpenFile_grows (name : string) (flags : list Flag) (perm : N) :
  stable (grows o0) (OpenFile name flags perm).
Proof.
  apply syscall_grows. intros o. cbv zeta. set (k := resolve (os_cwd o) name).
  destruct (node_at o k) as [[|d]|] eqn:Hn; [done| |].
  - assert (os_nodes o !! k = Some (NFile d)) as Hk by (by destruct k).
    destruct (has O_TRUNC flags); [|apply grows_new_fd].
    etrans; [apply (grows_file o k "")|apply grows_new_fd]. congruence.
  - assert (os_nodes o !! k = None) as Hk by (by destruct k).
    destruct (has O_CREATE flags); [|done].
    destruct (node_at o (parent k)) as [[|d]|]; [|done|done].
    etrans; [apply (grows_file o k "")|apply grows_new_fd]. congruence.
Qed.

Lemma Create_grows (name : string) : stable (grows o0) (Create name).
Proof. apply OpenFile_grows. Qed.

Lemma File_Stat_grows (fd : nat) : stable (grows o0) (File_Stat fd).
Proof. by apply on_file_grows. Qed.

Lemma File_Truncate_grows (fd : nat) (size : Z) : stable (grows o0) (File_Truncate fd size).
Proof.
  apply on_file_grows. intros f d o Hd. case_match; [done|]. apply grows_file. congruence.
Qed.

Lemma File_Seek_grows (fd : nat) (offset : Z) (whence : Whence) :
  stable (grows o0) (File_Seek fd offset whence).
Proof.
  apply on_file_grows. intros f d o Hd. cbv zeta. case_match; [done|]. by apply grows_fds.
Qed.

Lemma File_WriteString_grows (fd : nat) (s : string) :
  stable (grows o0) (File_WriteString fd s).
Proof.
  apply on_file_grows. intros f d o Hd. cbv zeta. simpl.
  apply grows_fds, grows_file. congruence.
Qed.

Lemma File_Close_grows (fd : nat) : stable (grows o0) (File_Close fd).
Proof.
  apply stable_later; [apply _|]. intros o. unfold File_Close.
  destruct (os_fds o !! fd) as [f|]; [|done].
  apply (syscall_keeps (grows o)); [|intros l]; by apply grows_same.
Qed.

Lemma close_deferred_grows (fd : nat) (o : OS) : grows o0 o -> grows o0 (close_deferred fd o).
Proof. apply File_Close_grows. Qed.

End Grows.

#[export] Instance grows_kept (o0 : OS) : Kept (grows o0).
Proof.
  split; auto using MkdirAll_grows, Stat_grows, OpenFile_grows, File_Stat_grows,
    File_Truncate_grows, File_Seek_grows, File_WriteString_grows, File_Close_grows.
Qed.

(** ** The file sinks

    Each [saveToFile] keeps every invariant the library calls keep. *)

Section Sinks.
Context (Q : OS -> Prop) (p : string) `{!KeptAt p Q}.

Lemma ArraySink_stable (j : logToJSON) : stable Q (ArraySink.saveToFile j p).
Proof.
  unfold ArraySink.saveToFile, ArraySink.ensureFile, ArraySink.writeRecord,
    ArraySink.fileExists, ArraySink.jsonMarshalIndent, ArraySink.close_created.
  stable_auto.
Qed.

Lemma appendTo_stable (j : logToJSON) : stable Q (LineSink.appendTo p j).
Proof. unfold LineSink.appendTo, LineSink.jsonMarshal. stable_auto. Qed.

Lemma PathLogger_stable (j : logToJSON) : stable Q (PathLogger.saveToFile j p).
Proof. unfold PathLogger.saveToFile, LineSink.jsonMarshal. stable_auto. Qed.

Lemma BracketLogger_stable (j : logToJSON) :
  stable Q (BracketLogger.saveToFile j p).
Proof.
  unfold BracketLogger.saveToFile, BracketLogger.initFile, BracketLogger.writeEntry,
    BracketLogger.fileExists, BracketLogger.jsonMarshalIndent.
  stable_auto.
Qed.

End Sinks.

Lemma LineSink_stable (Q : OS -> Prop) `{!KeptAt "log.json" Q} (j : logToJSON) :
  stable Q (LineSink.saveToFile j).
Proof. by apply appendTo_stable. Qed.

#[export] Hint Resolve ArraySink_stable LineSink_stable PathLogger_stable
  BracketLogger_stable : stable.

(** ** Worlds

    An invariant of the world that rests on one of the operating system:
    it does not mind the clock moving forward or lines being printed. *)
Class Steady (P : World -> Prop) (Q : OS -> Prop) : Prop := {
  steady_kept :: Kept Q;
  steady_os w : P w -> Q (w_os w);
  steady_with_os w o : P w -> Q o -> P (with_os o w);
  steady_clock w c : P w -> clock_le (w_clock w) c -> P (with_clock c w);
  steady_out w l : P w -> P (with_out (w_out w ++ l) w)
}.

(** The file system of the world is well formed. *)
Definition winv (w : World) : Prop := wf (w_os w).

#[export] Instance winv_steady : Steady winv wf.
Proof. by split; [apply _|..]. Qed.

(** The world [w'] is a later state of [w]: the clock has not gone back,
    the lines printed are still there, and so is the file system. *)
Definition later (w w' : World) : Prop :=
  clock_le (w_clock w) (w_clock w') /\ w_out w `prefix_of` w_out w'
  /\ grows (w_os w) (w_os w').

#[export] Instance later_refl : Reflexive later.
Proof. by intros w. Qed.

#[export] Instance later_trans : Transitive later.
Proof. intros a b c (? & ? & ?) (? & ? & ?). split_and!; by etrans. Qed.

#[export] Instance later_steady (w0 : World) : Steady (later w0) (grows (w_os w0)).
Proof.
  split; [apply _|..].
  - by intros w (_ & _ & ?).
  - by intros w o (? & ? & ?) ?.
  - intros w c (? & ? & ?) ?. split_and!; [by etrans|done|done].
  - intros w l (? & ? & ?). split_and!; [done| |done]. by apply prefix_app_r.
Qed.

Section Steady.
Context (P : World -> Prop) (Q : OS -> Prop) `{!Steady P Q}.

Lemma now_stable : stable P now.
Proof. intros w Hw. apply steady_clock; [done|]. apply tick_le. Qed.

Lemma sleep_stable (d : Duration) : stable P (sleep d).
Proof. intros w Hw. apply steady_clock; [done|]. apply advance_le. lia. Qed.

Lemma print_stable (s : string) : stable P (print s).
Proof. intros w Hw. by apply steady_out. Qed.

Lemma Println_stable (operands : list string) : stable P (Println operands).
Proof. apply stable_bind; [apply now_stable|intros t; apply print_stable]. Qed.

Lemma Stop_stable (s : Spinner) : stable P (Stop s).
Proof.
  unfold Stop. destruct (active s); [|apply stable_ret].
  apply stable_bind; [|intros; apply stable_ret].
  case_decide; [apply stable_ret|apply print_stable].
Qed.

Lemma os_call_stable {A} (m : M OS error A) : stable Q m -> stable P (os_call m).
Proof.
  intros Hm w Hw. rewrite os_call_run. apply steady_with_os; [done|].
  by apply Hm, steady_os.
Qed.

Lemma exit_stable {A} (code : Z) : stable P (exit code : IO A).
Proof. apply stable_fail. Qed.

Lemma panic_stable {A} (v : string) : stable P (panic v : IO A).
Proof. apply stable_fail. Qed.

Lemma recover_stable (h : string -> IO unit) (body : IO unit) :
  stable P body -> (forall v, stable P (h v)) -> stable P (recover_ h body).
Proof.
  intros Hb Hh w Hw. specialize (Hb w Hw). unfold recover_.
  destruct (body w) as [[[]|[c|v]] w']; [done|done|by apply Hh].
Qed.

End Steady.

#[export] Hint Extern 1 (Steady _ _) => typeclasses eauto : stable.

#[export] Hint Resolve now_stable sleep_stable print_stable Println_stable Stop_stable
  os_call_stable exit_stable panic_stable recover_stable : stable.

(** ** The loggers *)

Section Loggers.
Context (P : World -> Prop) (Q : OS -> Prop) `{!Steady P Q}.

Lemma formatMessage_stable {Opts} `{!LogFields Opts} (level message : string) (opts : Opts) :
  stable P (formatMessage level message opts).
Proof. unfold formatMessage. stable_auto. Qed.

Local Hint Resolve formatMessage_stable : stable.

Lemma Logger_stable (l : Logger.Logger) (level message : string)
    (options : list Logger.LogOptions) :
  stable P (Logger.logMessage l level message options).
Proof. unfold Logger.logMessage, Logger.finishMessage. stable_auto. Qed.

Lemma MainLogger_stable (l : MainLogger.Logger) (level message : string)
    (options : list LogOptions) :
  stable P (MainLogger.logMessage l level message options).
Proof. unfold MainLogger.logMessage. stable_auto. Qed.

Lemma SpinLogger_stable (l : SpinLogger.Logger) (level message : string)
    (options : list LogOptions) :
  stable P (SpinLogger.logMessage l level message options).
Proof. unfold SpinLogger.logMessage. stable_auto. Qed.

Lemma PlainLogger_stable (l : PlainLogger.Logger) (level message : string)
    (options : list LogOptions) :
  stable P (PlainLogger.logMessage l level message options).
Proof. unfold PlainLogger.logMessage. stable_auto. Qed.

Lemma Paced_stable (saveToFile : logToJSON -> string -> M OS error unit)
    (l : Paced.Logger) (level message : string) (options : list Paced.LogOptions) :
  (forall j p, stable Q (saveToFile j p)) ->
  stable P (Paced.logMessage saveToFile l level message options).
Proof.
  intros Hs. unfold Paced.logMessage, Paced.pacedMessage, Paced.closeMessage. stable_auto.
Qed.

Local Hint Resolve Logger_stable MainLogger_stable SpinLogger_stable PlainLogger_stable
  Paced_stable : stable.

(** The levels: a call that exits or panics stops in a state of [P]. *)
Lemma Logger_levels (l : Logger.Logger) (message : string)
    (options : list Logger.LogOptions) :
  stable P (Logger.Info l message options) /\ stable P (Logger.Warn l message options)
  /\ stable P (Logger.Fatal l message options) /\ stable P (Logger.Panic l message options).
Proof.
  unfold Logger.Info, Logger.Warn, Logger.Fatal, Logger.Panic. split_and!; stable_auto.
Qed.

Lemma cases_stable (l : Logger.Logger) : stable P (Logger.cases l).
Proof. unfold Logger.cases, Logger.Info. stable_auto. Qed.

Lemma drivers_stable (l : Logger.Logger) :
  stable P (Logger.Test l) /\ stable P (Logger.TestWithPanic l)
  /\ stable P (Logger.TestWithFatal l).
Proof.
  pose proof cases_stable.
  unfold Logger.Test, Logger.TestWithPanic, Logger.TestWithFatal, Logger.Info, Logger.Panic,
    Logger.Fatal.
  split_and!; [done| |stable_auto].
  apply stable_bind; [done|intros l']. apply stable_bind; [|intros; apply stable_ret].
  apply (recover_stable P); [|intros v]; stable_auto.
Qed.

End Loggers.

(** ** The invariants of the program *)

(** The empty machine is well formed, and so is every world on it. *)
Lemma wf_empty : wf empty_OS.
Proof.
  split_and!; [|by intros fd f; simpl; rewrite lookup_empty..].
  intros k n. unfold empty_OS, node_at. simpl.
  by intros [[<- _]|[_ [<- _]%lookup_singleton_Some]]%lookup_insert_Some.
Qed.

Lemma winv_initial (wall_ns : Z) (delays : list N) : winv (initial wall_ns delays).
Proof. apply wf_empty. Qed.

(** Every [saveToFile] of the program keeps the file system well formed,
    on its error paths and under every plan of faults: nodes hang in
    directories, descriptors are numbered below the next one and name
    regular files. *)
Theorem saveToFile_wf (j : logToJSON) (p : string) (o : OS) :
  wf o ->
  wf (ArraySink.saveToFile j p o).2 /\ wf (LineSink.saveToFile j o).2
  /\ wf (PathLogger.saveToFile j p o).2 /\ wf (BracketLogger.saveToFile j p o).2.
Proof.
  intros Ho.
  split_and!; [apply ArraySink_stable|apply LineSink_stable|apply PathLogger_stable
              |apply BracketLogger_stable]; done || apply _.
Qed.

Lemma saveToFile_wf_witness :
  wf (ArraySink.saveToFile ArraySink.sample1 "logs/app.json" empty_OS).2
  /\ wf (LineSink.saveToFile ArraySink.sample1 empty_OS).2
  /\ wf (PathLogger.saveToFile ArraySink.sample1 "logs/app.json" empty_OS).2
  /\ wf (BracketLogger.saveToFile ArraySink.sample1 "logs/app.json" empty_OS).2.
Proof. exact (saveToFile_wf ArraySink.sample1 "logs/app.json" empty_OS wf_empty). Defined.




End Inv.
