(* ===== verification/Live.v ===== *)
(** * Live: the log of src/main.go under faults

    [saveToFile] of src/main.go appends one line to [log.json], and
    [logMessage] drops the error it returns.  This file shows what that
    means for a run of calls on a machine whose system calls may fail:

    - a record is stored whole or not at all ([appendTo_atomic]);
    - no call adds to the faults that are planned, and a save uses one up
      ([appendTo_faults]);
    - on every run of calls a state is reached from which every record is
      saved, as long as the faults are finitely many ([eventually]);
    - the log after a run of calls holds the records of the calls in their
      order, without those that met a fault, and these are at most as many
      as the faults ([run]). *)

From S2P Require Import Prelude GoTime GoJson GoOS World Sink LineSink Compose MainLogger Inv.

Module Live.

Import GoTime GoJson GoOS World Sink LineSink Compose MainLogger Inv.

Local Open Scope io_scope.

(** ** Eventually

    [eventually step P s]: on every path of [step] from [s] a state of [P]
    is reached.  A state that is not in [P] has a step. *)
Section Eventually.
Context {S : Type} (step : S -> S -> Prop).

Inductive eventually (P : S -> Prop) (s : S) : Prop :=
| eventually_now : P s -> eventually P s
| eventually_next :
    (exists s', step s s') -> (forall s', step s s' -> eventually P s') -> eventually P s.

Lemma eventually_trans (P Q : S -> Prop) (s : S) :
  eventually P s -> (forall s', P s' -> eventually Q s') -> eventually Q s.
Proof. induction 1 as [s Hs|s Hex _ IH]; intros HPQ; [auto|]. apply eventually_next; auto. Qed.

Lemma eventually_weaken (P Q : S -> Prop) (s : S) :
  (forall s', P s' -> Q s') -> eventually P s -> eventually Q s.
Proof. intros HPQ H. apply (eventually_trans P Q s H). intros s' Hs'. by apply eventually_now, HPQ. Qed.

(** The rule of the measure: among the states of [I], those not in [P] have
    a step, and every step of theirs stays in [I] and lowers the measure. *)
Lemma eventually_measure (I P : S -> Prop) (mu : S -> nat) :
  (forall s, I s -> P s \/ ((exists s', step s s')
                            /\ forall s', step s s' -> I s' /\ mu s' < mu s)) ->
  forall s, I s -> eventually P s.
Proof.
  intros Hstep s.
  remember (mu s) as n eqn:Hn. revert s Hn.
  induction n as [n IH] using lt_wf_ind. intros s -> Hs.
  destruct (Hstep s Hs) as [HP|[Hex Hnext]]; [by apply eventually_now|].
  apply eventually_next; [done|]. intros s' Hs'. destruct (Hnext s' Hs') as [HI Hlt].
  by apply (IH (mu s') Hlt).
Qed.

End Eventually.

(** ** The faults that are planned

    A system call uses up the head of the plan and nothing adds to it: the
    plan after a call is a suffix of the plan before. *)

Lemma syscall_faults {A} (op name : string) (body : OS -> result Errno A * OS) (o : OS) :
  (forall o, os_faults (body o).2 = os_faults o) ->
  os_faults (syscall op name body o).2 = tail (os_faults o).
Proof.
  intros Hb. unfold syscall. destruct (os_faults o) as [|[e|] rest] eqn:Hl; [|done|].
  - specialize (Hb o). rewrite Hl in Hb. by destruct (body o) as [[a|e] o'].
  - specialize (Hb (with_faults rest o)). by destruct (body _) as [[a|e] o'].
Qed.

Lemma suffix_tail {A} (l : list A) : tail l `suffix_of` l.
Proof. destruct l as [|a l]; [done|]. by apply suffix_cons_r. Qed.

(** [OpenFile] is one system call. *)
Lemma OpenFile_faults (name : string) (flags : list Flag) (perm : N) (o : OS) :
  os_faults (OpenFile name flags perm o).2 = tail (os_faults o).
Proof. apply syscall_faults. intros o'. cbv zeta. unfold new_fd. by repeat case_match. Qed.

Section Faults.
Context (l0 : list (option Errno)).

Definition planned (o : OS) : Prop := os_faults o `suffix_of` l0.

Lemma syscall_planned {A} (op name : string) (body : OS -> result Errno A * OS) :
  (forall o, os_faults (body o).2 = os_faults o) -> stable planned (syscall op name body).
Proof.
  intros Hb o Ho. unfold planned. rewrite syscall_faults by done.
  etrans; [apply suffix_tail|done].
Qed.

Lemma on_file_planned {A} (op : string) (fd : nat)
    (body : FileDesc -> string -> OS -> result Errno A * OS) :
  (forall f d o, os_faults (body f d o).2 = os_faults o) -> stable planned (on_file op fd body).
Proof.
  intros Hb o Ho. unfold on_file. destruct (os_fds o !! fd) as [f|]; [|done].
  apply syscall_planned; [|done]. intros o'. by repeat case_match.
Qed.

Lemma File_Close_planned (fd : nat) : stable planned (File_Close fd).
Proof.
  intros o Ho. unfold File_Close. destruct (os_fds o !! fd) as [f|]; [|done].
  by apply syscall_planned.
Qed.

#[export] Instance planned_kept : Kept planned.
Proof.
  split; intros; unfold MkdirAll, Stat, File_Stat, File_Truncate, File_Seek,
    File_WriteString;
    first [apply File_Close_planned
          |intros o Ho; unfold planned; rewrite OpenFile_faults; by etrans; [apply suffix_tail|]
          |apply syscall_planned; intros o; cbv zeta; by repeat case_match
          |apply on_file_planned; intros f d o; cbv zeta; by repeat case_match].
Qed.

End Faults.

(** ** One file, with faults

    [at_rest d]: the file called [name] is at [k], holds [d] (a file that
    is not there holds nothing) and can be opened for appending.
    [opened fd d]: it is there, holds [d], and [fd] is open on it for
    appending. *)
Section File.
Context (name : string) (k : list string) (Hk : k <> []).

Definition at_rest (d : string) (o : OS) : Prop :=
  resolve (os_cwd o) name = k /\ fds_bounded o /\ node_at o (parent k) = Some NDir
  /\ (os_nodes o !! k = Some (NFile d) \/ d = "" /\ os_nodes o !! k = None).

Definition opened (fd : nat) (d : string) (o : OS) : Prop :=
  resolve (os_cwd o) name = k /\ fds_bounded o /\ node_at o (parent k) = Some NDir
  /\ os_nodes o !! k = Some (NFile d)
  /\ exists f, os_fds o !! fd = Some f /\ of_key f = k /\ of_append f = true.

#[local] Instance at_rest_proper d : Proper ((≡) ==> iff) (at_rest d).
Proof. intros o o' Ho. unfold at_rest. rewrite Ho. reflexivity. Qed.

#[local] Instance opened_proper fd d : Proper ((≡) ==> iff) (opened fd d).
Proof. intros o o' Ho. unfold opened. setoid_rewrite Ho. reflexivity. Qed.

Lemma fds_bounded_new_fd (flags : list Flag) (o : OS) :
  fds_bounded o -> fds_bounded (new_fd name k flags o).2.
Proof.
  intros Hb fd f. simpl. intros [[<- _]|[_ Hf]]%lookup_insert_Some; [lia|].
  apply Hb in Hf. lia.
Qed.

Lemma parent_insert (n : Node) (o : OS) :
  node_at (with_nodes (insert k n) o) (parent k) = node_at o (parent k).
Proof. rewrite node_at_insert by done. case_decide as Hp; [|done]. by apply parent_ne in Hp. Qed.

(** A file that is there is opened as it is. *)
Lemma opened_new_fd (d : string) (flags : list Flag) (o : OS) :
  has O_APPEND flags = true ->
  resolve (os_cwd o) name = k -> fds_bounded o -> node_at o (parent k) = Some NDir ->
  os_nodes o !! k = Some (NFile d) ->
  opened (new_fd name k flags o).1 d (new_fd name k flags o).2.
Proof.
  intros Ha Hr Hb Hp Hd. split_and!; [done|by apply fds_bounded_new_fd|done|done|].
  eexists. split; [apply lookup_insert_eq|done].
Qed.

Lemma OpenFile_at_rest (d : string) :
  hoare (at_rest d) (OpenFile name [O_CREATE; O_WRONLY; O_APPEND] 420)
    (post (fun fd => opened fd d) (at_rest d)).
Proof.
  apply (hoare_syscall (at_rest d)); [done|]. intros o (Hr & Hb & Hp & Hd). cbv zeta.
  rewrite Hr, node_at_ne by done.
  destruct Hd as [Hd|[-> Hd]]; rewrite Hd; simpl.
  - by apply (opened_new_fd d).
  - rewrite Hp. apply (opened_new_fd "" _ (with_nodes (insert k (NFile "")) o)); simpl; [done|done|done|by rewrite parent_insert|].
    apply lookup_insert_eq.
Qed.

(** A write appends to the file, or fails and leaves it as it was. *)
Lemma File_WriteString_opened (fd : nat) (d s : string) :
  hoare (opened fd d) (File_WriteString fd s)
    (post (fun _ => opened fd (d +:+ s)) (opened fd d)).
Proof.
  intros o Ho. pose proof Ho as (Hr & Hb & Hp & Hd & f & Hf & Hkf & Ha).
  unfold File_WriteString, on_file. rewrite Hf.
  apply (hoare_syscall (opened fd d)); [done| |done].
  clear o Ho Hr Hb Hp Hd Hf. intros o (Hr & Hb & Hp & Hd & f' & Hf & Hkf' & Ha').
  rewrite Hkf, node_at_ne, Hd by done. simpl. rewrite Ha, write_at_end.
  split_and!; [done| |exact (eq_trans (parent_insert _ o) Hp)|apply lookup_insert_eq|].
  - intros fd' f''. simpl. intros [[<- _]|[_ H]]%lookup_insert_Some; eauto.
  - eexists. split; [apply lookup_insert_eq|done].
Qed.

(** The deferred close releases the descriptor, with or without a fault. *)
Lemma close_deferred_opened (fd : nat) (d : string) (o : OS) :
  opened fd d o -> at_rest d (close_deferred fd o).
Proof.
  intros (Hr & Hb & Hp & Hd & f & Hf & _). unfold close_deferred, File_Close. rewrite Hf.
  assert (at_rest d (with_fds (delete fd) o)) as H.
  { split_and!; [done| |done|by left].
    intros fd' f'. simpl. intros [_ H]%lookup_delete_Some. eauto. }
  by apply (syscall_keeps (at_rest d)).
Qed.

(** A record is stored whole or not at all: when [appendTo] returns
    without error the file holds one more line, and when it returns an
    error the file holds what it held. *)
Lemma appendTo_atomic (d : string) (j : logToJSON) :
  hoare (at_rest d) (appendTo name j)
    (post (fun _ => at_rest (d +:+ lineText j)) (at_rest d)).
Proof.
  unfold appendTo, jsonMarshal.
  eapply hoare_bind; [apply OpenFile_at_rest| |done]. intros fd.
  apply (hoare_defer _ _ _ (post (fun _ => opened fd (d +:+ lineText j)) (opened fd d))).
  - intros o Ho. rewrite bind_ret_l. unfold bind.
    pose proof (File_WriteString_opened fd d (lineText j) o Ho) as H. unfold lineText in H.
    by destruct (File_WriteString _ _ o) as [[n|e] o'].
  - intros [[]|e] o; apply close_deferred_opened.
Qed.

End File.

(** ** The log file

    [usable] is [appendable] without the condition on the faults: what a
    state must be like for the log to be appended to once no fault is
    planned. *)
Definition usable (o : OS) (name : string) : Prop :=
  fds_bounded o /\ resolve (os_cwd o) name <> []
  /\ node_at o (parent (resolve (os_cwd o) name)) = Some NDir
  /\ os_nodes o !! resolve (os_cwd o) name <> Some NDir.

Lemma appendable_usable (o : OS) (name : string) :
  appendable o name <-> os_faults o = [] /\ usable o name.
Proof. unfold appendable, usable. tauto. Qed.

#[export] Instance usable_proper : Proper ((≡) ==> (=) ==> iff) usable.
Proof. intros o o' Ho name ? <-. unfold usable. rewrite Ho. reflexivity. Qed.

Definition usableb (o : OS) (name : string) : bool :=
  bool_decide (map_Forall (fun fd _ => fd < os_next o) (os_fds o))
  && negb (bool_decide (resolve (os_cwd o) name = []))
  && bool_decide (node_at o (parent (resolve (os_cwd o) name)) = Some NDir)
  && negb (bool_decide (os_nodes o !! resolve (os_cwd o) name = Some NDir)).

Lemma usableb_sound (o : OS) (name : string) : usableb o name = true -> usable o name.
Proof.
  unfold usableb, usable, fds_bounded.
  rewrite !andb_true_iff, !negb_true_iff, !bool_decide_eq_true, !bool_decide_eq_false.
  intros [[[Hb Hne] Hp] Hd]. split_and!; [exact Hb|done|done|done].
Qed.

Lemma usable_at_rest (o : OS) (name : string) :
  usable o name -> exists d, at_rest name (resolve (os_cwd o) name) d o.
Proof.
  intros (Hb & Hne & Hp & Hd).
  destruct (os_nodes o !! resolve (os_cwd o) name) as [[|d]|] eqn:Hn; [done|exists d|exists ""];
    split_and!; auto.
Qed.

Lemma at_rest_usable (o : OS) (name : string) (k : list string) (d : string) :
  k <> [] -> at_rest name k d o -> usable o name.
Proof.
  intros Hk (Hr & Hb & Hp & Hd). unfold usable. rewrite Hr.
  split_and!; [done|done|done|]. by destruct Hd as [->|[_ ->]].
Qed.

(** A save leaves the log usable, with or without faults. *)
Lemma appendTo_usable (name : string) (j : logToJSON) (o : OS) :
  usable o name -> usable (appendTo name j o).2 name.
Proof.
  intros Hu. pose proof Hu as (_ & Hne & _). destruct (usable_at_rest o name Hu) as [d Hd].
  pose proof (appendTo_atomic name _ Hne d j o Hd) as H.
  destruct (appendTo name j o) as [[[]|e] o']; simpl in H; by eapply at_rest_usable.
Qed.

Lemma lineText_nonempty (j : logToJSON) : lineText j <> "".
Proof. unfold lineText. by intros [_ ?]%Str.app_eq_nil. Qed.

Lemma linesText_nil (js : list logToJSON) : linesText js = "" -> js = [].
Proof.
  destruct js as [|j js]; [done|]. simpl. intros [H _]%Str.app_eq_nil.
  by apply lineText_nonempty in H.
Qed.

Lemma stored_at_rest (o : OS) (name : string) (js : list logToJSON) :
  usable o name -> stored o name js ->
  at_rest name (resolve (os_cwd o) name) (linesText js) o.
Proof.
  intros (Hb & Hne & Hp & Hd) Hst. split_and!; [done|done|done|].
  unfold stored in Hst. rewrite content_node in Hst by done.
  destruct (os_nodes o !! resolve (os_cwd o) name) as [[|d]|];
    [done|left|right]; destruct Hst as [Hst|[-> Hst]]; by simplify_eq.
Qed.

Lemma at_rest_stored (o : OS) (name : string) (k : list string) (js : list logToJSON) :
  k <> [] -> at_rest name k (linesText js) o -> stored o name js.
Proof.
  intros Hk (Hr & Hb & Hp & Hd). unfold stored. rewrite content_node, Hr by by rewrite Hr.
  destruct Hd as [->|[->%linesText_nil ->]]; auto.
Qed.

(** What a save leaves, with or without faults: the log with the record
    when the save returned without error, and without it when it did
    not. *)
Lemma appendTo_whole (name : string) (j : logToJSON) (js : list logToJSON) (o : OS) :
  usable o name -> stored o name js ->
  stored (appendTo name j o).2 name (if is_ok (appendTo name j o).1 then js ++ [j] else js).
Proof.
  intros Hu Hst. pose proof Hu as (_ & Hne & _).
  pose proof (appendTo_atomic name _ Hne (linesText js) j o (stored_at_rest _ _ _ Hu Hst)) as H.
  destruct (appendTo name j o) as [[[]|e] o']; simpl in *; [rewrite <- linesText_snoc in H|];
    by apply at_rest_stored in H.
Qed.

(** A save uses up a fault when one is planned. *)
Lemma appendTo_faults (name : string) (j : logToJSON) (o : OS) :
  os_faults (appendTo name j o).2 `suffix_of` tail (os_faults o).
Proof.
  pose proof (OpenFile_faults name [O_CREATE; O_WRONLY; O_APPEND] 420 o) as Ho.
  unfold appendTo. destruct (OpenFile _ _ _ o) as [[fd|e] o1] eqn:E; simpl in Ho.
  - rewrite (bind_ok _ _ _ _ _ E), <- Ho.
    refine (stable_defer (planned (os_faults o1)) _ _ _ _ o1 _); [| |by unfold planned].
    + unfold jsonMarshal. stable_auto.
    + intros o2 Ho2. by apply kept_close_deferred.
  - rewrite (bind_err _ _ _ _ _ E). simpl. by rewrite Ho.
Qed.

Lemma appendTo_pending (name : string) (j : logToJSON) (o : OS) :
  length (os_faults (appendTo name j o).2) <= length (os_faults o)
  /\ (os_faults o <> [] -> length (os_faults (appendTo name j o).2) < length (os_faults o)).
Proof.
  pose proof (suffix_length _ _ (appendTo_faults name j o)) as H.
  destruct (os_faults o); simpl in *; split; (done || lia).
Qed.

(** A save leaves open the descriptors that were open. *)
Lemma appendTo_same_fds (name : string) (j : logToJSON) (o : OS) :
  fds_bounded o -> os_fds (appendTo name j o).2 = os_fds o.
Proof.
  intros Hb. eapply proj1, fd_inv_done; [done|].
  eapply post_same, appendTo_fds, fd_inv_init, Hb.
Qed.

(** A save that fails met a fault. *)
Lemma appendTo_fails (name : string) (j : logToJSON) (o : OS) :
  usable o name -> is_ok (appendTo name j o).1 = false -> os_faults o <> [].
Proof.
  intros Hu Hr Hf.
  assert (appendable o name) as Ha by by apply appendable_usable.
  rewrite (appendTo_run o name j Ha) in Hr. done.
Qed.

(** ** Runs of calls

    A client calls the logger again and again.  [logs l] is one call, with
    any level, message and options; [run l cs] is the calls [cs] one after
    the other; [records cs c] is the records these calls make when the
    first one starts at the clock [c]. *)
Record Call : Type := mkCall {
  c_level : string;
  c_message : string;
  c_options : list LogOptions
}.

Definition call (l : Logger) (c : Call) : IO unit :=
  logMessage l (c_level c) (c_message c) (c_options c).

Fixpoint run (l : Logger) (cs : list Call) : IO unit :=
  match cs with
  | [] => ret tt
  | c :: rest => call l c ;;; run l rest
  end.

Definition record (x : Call) (c : Clock) : logToJSON :=
  recordOf (c_level x) (c_message x) (firstOptions (c_options x)) c.

Fixpoint records (cs : list Call) (c : Clock) : list logToJSON :=
  match cs with
  | [] => []
  | x :: rest => record x c :: records rest (closingClock (firstOptions (c_options x)) c)
  end.

Inductive logs (l : Logger) (w : World) : World -> Prop :=
| logs_call (x : Call) : logs l w (call l x w).2.

Definition logFile : string := "log.json".

(** The state from which nothing is lost: whatever calls follow, the log
    gains their records, in their order. *)
Definition settled (l : Logger) (w : World) : Prop :=
  forall cs js, stored (w_os w) logFile js ->
    stored (w_os (run l cs w).2) logFile (js ++ records cs (w_clock w)).

(** The calls of the example in the documentation of [New]. *)
Definition calls3 : list Call :=
  [mkCall INFO "Information message" [slowOptions];
   mkCall WARN "Warning message" []; mkCall INFO "Message only" []].

(** A machine on which the first call cannot open the file and the second
    cannot write. *)
Definition faultyWorld : World :=
  with_os (with_faults [Some EACCES; None; Some ENOSPC] empty_OS) slowWorld.

(** ** Lemmas *)

(** A call, in closed form: it returns, the clock is where [formatMessage]
    left it, one line is printed and the record went through
    [saveToFile]. *)
Lemma call_run (l : Logger) (x : Call) (w : World) :
  let opts := firstOptions (c_options x) in
  let d := draftOf (c_level x) (c_message x) opts (w_clock w) in
  call l x w
  = (Ok tt, with_os (saveToFile (record x (w_clock w)) (w_os w)).2
              (with_out (w_out w ++ [finalLine (d_closing d) " ✓" (d_parts d)])
                 (with_clock (closingClock opts (w_clock w)) w))).
Proof. apply logMessage_run. Qed.

Lemma call_os (l : Logger) (x : Call) (w : World) :
  w_os (call l x w).2 = (saveToFile (record x (w_clock w)) (w_os w)).2.
Proof. by rewrite call_run. Qed.

Lemma call_clock (l : Logger) (x : Call) (w : World) :
  w_clock (call l x w).2 = closingClock (firstOptions (c_options x)) (w_clock w).
Proof. by rewrite call_run. Qed.

Lemma run_cons (l : Logger) (x : Call) (cs : list Call) (w : World) :
  run l (x :: cs) w = run l cs (call l x w).2.
Proof. simpl. unfold bind. by rewrite call_run. Qed.

Lemma run_returns (l : Logger) (cs : list Call) (w : World) : (run l cs w).1 = Ok tt.
Proof. revert w. induction cs as [|x cs IH]; intros w; [done|]. by rewrite run_cons. Qed.

Lemma length_records (cs : list Call) (c : Clock) : length (records cs c) = length cs.
Proof. revert c. induction cs as [|x cs IH]; intros c; simpl; [done|]. by rewrite IH. Qed.

(** The records carry the levels and the messages of the calls. *)
Lemma records_calls (cs : list Call) (c : Clock) :
  (fun r => (logToJSON.Level r, logToJSON.Message r)) <$> records cs c
  = (fun x => (c_level x, c_message x)) <$> cs.
Proof. revert c. induction cs as [|x cs IH]; intros c; simpl; [done|]. by rewrite IH. Qed.

(** Without faults every call of a run stores its record. *)
Lemma run_appends (l : Logger) (cs : list Call) :
  forall (w : World) (js : list logToJSON),
  appendable (w_os w) logFile -> stored (w_os w) logFile js ->
  stored (w_os (run l cs w).2) logFile (js ++ records cs (w_clock w))
  /\ appendable (w_os (run l cs w).2) logFile
  /\ os_fds (w_os (run l cs w).2) = os_fds (w_os w).
Proof.
  unfold logFile. induction cs as [|x cs IH]; intros w js Ha Hst; simpl records.
  - by rewrite app_nil_r.
  - destruct (line_law _ _ js (record x (w_clock w)) Ha Hst) as (o' & Hs & Hst' & Ha' & Hfd).
    rewrite run_cons. pose proof (call_os l x w) as Ho. pose proof (call_clock l x w) as Hc.
    unfold saveToFile in Ho. rewrite Hs in Ho. simpl in Ho.
    destruct (IH (call l x w).2 (js ++ [record x (w_clock w)])) as (H1 & H2 & H3);
      [by rewrite Ho..|].
    rewrite <- app_assoc, Hc in H1. split_and!; [done|done|congruence].
Qed.

Lemma appendable_settled (l : Logger) (w : World) :
  appendable (w_os w) logFile -> settled l w.
Proof. intros Ha cs js Hst. by apply run_appends. Qed.

Lemma call_usable (l : Logger) (x : Call) (w : World) :
  usable (w_os w) logFile -> usable (w_os (call l x w).2) logFile.
Proof. rewrite call_os. apply appendTo_usable. Qed.

Lemma call_pending (l : Logger) (x : Call) (w : World) :
  length (os_faults (w_os (call l x w).2)) <= length (os_faults (w_os w))
  /\ (os_faults (w_os w) <> [] ->
      length (os_faults (w_os (call l x w).2)) < length (os_faults (w_os w))).
Proof. rewrite call_os. apply appendTo_pending. Qed.

(** What one call leaves in the log, with or without faults. *)
Lemma call_stores (l : Logger) (x : Call) (w : World) (js : list logToJSON) :
  usable (w_os w) logFile -> stored (w_os w) logFile js ->
  exists rs, stored (w_os (call l x w).2) logFile (js ++ rs)
    /\ rs `sublist_of` [record x (w_clock w)]
    /\ 1 + length (os_faults (w_os (call l x w).2))
       <= length rs + length (os_faults (w_os w)).
Proof.
  intros Hu Hst. pose proof (call_pending l x w) as [Hle Hlt]. revert Hle Hlt.
  rewrite call_os. unfold saveToFile. intros Hle Hlt.
  pose proof (appendTo_whole logFile (record x (w_clock w)) js _ Hu Hst) as H.
  destruct (is_ok _) eqn:Hr.
  - exists [record x (w_clock w)]. split_and!; [done|done|simpl; unfold logFile in *; lia].
  - exists []. rewrite app_nil_r. split_and!; [done|by apply sublist_nil_l|].
    apply (appendTo_fails logFile) in Hr; [|done]. apply Hlt in Hr. simpl. lia.
Qed.

(** ** The theorems *)

(** C13: a record is stored whole or not at all.  On a log that can be used,
    whatever faults are planned, [saveToFile] of src/main.go either returns
    without error and the log holds one more line, that of the record, or
    it returns an error, a fault was planned and the log holds what it
    held; in both cases the log can be used again and no descriptor stays
    open. *)
Theorem saveToFile_whole (j : logToJSON) (js : list logToJSON) (o : OS) :
  usable o logFile -> stored o logFile js ->
  let o' := (saveToFile j o).2 in
  usable o' logFile /\ os_fds o' = os_fds o
  /\ match (saveToFile j o).1 with
     | Ok _ => stored o' logFile (js ++ [j])
     | Err _ => stored o' logFile js /\ os_faults o <> []
     end.
Proof.
  intros Hu Hst. cbv zeta. unfold saveToFile. fold logFile.
  pose proof (appendTo_whole logFile j js o Hu Hst) as H.
  pose proof (appendTo_fails logFile j o Hu) as Hf.
  split_and!; [by apply appendTo_usable|apply appendTo_same_fds, Hu|].
  destruct (appendTo logFile j o).1; simpl in *; auto.
Qed.

Lemma saveToFile_whole_witness :
  usable (saveToFile sample (with_faults [None; Some ENOSPC] empty_OS)).2 logFile
  /\ os_fds (saveToFile sample (with_faults [None; Some ENOSPC] empty_OS)).2
     = os_fds (with_faults [None; Some ENOSPC] empty_OS)
  /\ match (saveToFile sample (with_faults [None; Some ENOSPC] empty_OS)).1 with
     | Ok _ => stored (saveToFile sample (with_faults [None; Some ENOSPC] empty_OS)).2
                 logFile ([] ++ [sample])
     | Err _ => stored (saveToFile sample (with_faults [None; Some ENOSPC] empty_OS)).2
                  logFile []
                /\ os_faults (with_faults [None; Some ENOSPC] empty_OS) <> []
     end.
Proof.
  apply (saveToFile_whole sample [] (with_faults [None; Some ENOSPC] empty_OS)).
  - apply usableb_sound. vm_compute. reflexivity.
  - right. split; [reflexivity|]. vm_compute. reflexivity.
Defined.

(** C12: the logger of src/main.go recovers from faults.  On a log that can
    be used and with finitely many faults planned, every run of calls
    reaches a state from which nothing is lost: whatever calls follow, the
    log gains their records, in their order. *)
Theorem run_settles (l : Logger) (w : World) :
  usable (w_os w) logFile -> eventually (logs l) (settled l) w.
Proof.
  intros Hu. apply (eventually_weaken _ (fun w => appendable (w_os w) logFile));
    [apply appendable_settled|].
  revert w Hu.
  apply (eventually_measure _ (fun w => usable (w_os w) logFile) _
           (fun w => length (os_faults (w_os w)))).
  intros w Hu. destruct (os_faults (w_os w)) as [|f fs] eqn:Hf.
  - left. by apply appendable_usable.
  - right. split; [eexists; apply (logs_call l w (mkCall INFO "" []))|].
    intros w' [x]. split; [by apply call_usable|].
    rewrite <- Hf. apply call_pending. by rewrite Hf.
Qed.

Lemma run_settles_witness : eventually (logs New) (settled New) faultyWorld.
Proof. apply (run_settles New faultyWorld). apply usableb_sound. vm_compute. reflexivity. Defined.

(** C25: a run of calls loses at most as many records as faults were
    planned.  On a log that can be used and holds the records [js], the
    log after the calls [cs] holds [js] and then records of the calls, in
    the order of the calls, and those that are missing are at most as many
    as the faults. *)
Theorem run_loses_at_most (l : Logger) (cs : list Call) (w : World) (js : list logToJSON) :
  usable (w_os w) logFile -> stored (w_os w) logFile js ->
  exists rs, stored (w_os (run l cs w).2) logFile (js ++ rs)
    /\ rs `sublist_of` records cs (w_clock w)
    /\ length cs <= length rs + length (os_faults (w_os w)).
Proof.
  revert w js. induction cs as [|x cs IH]; intros w js Hu Hst.
  - exists []. rewrite app_nil_r. split_and!; [done|done|simpl; lia].
  - destruct (call_stores l x w js Hu Hst) as (r1 & Hst1 & Hs1 & Hl1).
    destruct (IH _ _ (call_usable l x w Hu) Hst1) as (rs & Hst2 & Hs2 & Hl2).
    exists (r1 ++ rs). rewrite run_cons, app_assoc. split_and!; [done| |].
    + rewrite call_clock in Hs2. by apply (sublist_app _ [_]).
    + rewrite length_app. simpl. lia.
Qed.

Lemma run_loses_at_most_witness :
  exists rs, stored (w_os (run New calls3 faultyWorld).2) logFile ([] ++ rs)
    /\ rs `sublist_of` records calls3 (w_clock faultyWorld)
    /\ length calls3 <= length rs + length (os_faults (w_os faultyWorld)).
Proof.
  apply (run_loses_at_most New calls3 faultyWorld []).
  - apply usableb_sound. vm_compute. reflexivity.
  - right. split; [reflexivity|]. vm_compute. reflexivity.
Defined.

(** Calls compose.  Without faults, a run of calls returns, and the log
    holds what it held followed by the records of the calls, one line for
    each call, in the order of the calls and with their levels and
    messages; no descriptor stays open. *)
Theorem run_stores (l : Logger) (cs : list Call) (w : World) (js : list logToJSON) :
  appendable (w_os w) logFile -> stored (w_os w) logFile js ->
  (run l cs w).1 = Ok tt
  /\ stored (w_os (run l cs w).2) logFile (js ++ records cs (w_clock w))
  /\ length (records cs (w_clock w)) = length cs
  /\ (fun r => (logToJSON.Level r, logToJSON.Message r)) <$> records cs (w_clock w)
     = (fun x => (c_level x, c_message x)) <$> cs
  /\ os_fds (w_os (run l cs w).2) = os_fds (w_os w).
Proof.
  intros Ha Hst. destruct (run_appends l cs w js Ha Hst) as (H1 & _ & H3).
  split_and!; [apply run_returns|done|apply length_records|apply records_calls|done].
Qed.

Lemma run_stores_witness :
  (run New calls3 slowWorld).1 = Ok tt
  /\ stored (w_os (run New calls3 slowWorld).2) logFile
       ([] ++ records calls3 (w_clock slowWorld))
  /\ length (records calls3 (w_clock slowWorld)) = length calls3
  /\ (fun r => (logToJSON.Level r, logToJSON.Message r)) <$> records calls3 (w_clock slowWorld)
     = (fun x => (c_level x, c_message x)) <$> calls3
  /\ os_fds (w_os (run New calls3 slowWorld).2) = os_fds (w_os slowWorld).
Proof.
  apply (run_stores New calls3 slowWorld []).
  - apply appendableb_sound. vm_compute. reflexivity.
  - right. split; [reflexivity|]. vm_compute. reflexivity.
Defined.

(** C40: a record that could not be saved is lost without a sign.  When
    [saveToFile] fails, the log call of src/main.go returns nil and prints
    the line it prints on a machine without faults, success marker
    included; there the record is in the log, and here the log holds what
    it held. *)
Theorem logMessage_hides_failure (l : Logger) (x : Call) (w : World) (js : list logToJSON) :
  usable (w_os w) logFile -> stored (w_os w) logFile js ->
  is_ok (saveToFile (record x (w_clock w)) (w_os w)).1 = false ->
  (call l x w).1 = Ok tt
  /\ w_out (call l x w).2 = w_out (call l x (with_os (with_faults [] (w_os w)) w)).2
  /\ stored (w_os (call l x w).2) logFile js
  /\ stored (w_os (call l x (with_os (with_faults [] (w_os w)) w)).2) logFile
       (js ++ [record x (w_clock w)]).
Proof.
  intros Hu Hst Hf. rewrite !call_run. split_and!; [done|done| |]; simpl.
  - pose proof (appendTo_whole logFile (record x (w_clock w)) js (w_os w) Hu Hst) as H.
    unfold saveToFile in Hf. fold logFile in Hf. by rewrite Hf in H.
  - destruct (line_law (with_faults [] (w_os w)) logFile js (record x (w_clock w)))
      as (o' & Hr & Hst' & _); [by apply appendable_usable|done|].
    unfold saveToFile. fold logFile. by rewrite Hr.
Qed.

Lemma logMessage_hides_failure_witness :
  (call New {| c_level := INFO; c_message := "hello"; c_options := [] |} fullWorld).1 = Ok tt
  /\ w_out (call New {| c_level := INFO; c_message := "hello"; c_options := [] |} fullWorld).2
     = w_out (call New {| c_level := INFO; c_message := "hello"; c_options := [] |}
                (with_os (with_faults [] (w_os fullWorld)) fullWorld)).2
  /\ stored (w_os (call New {| c_level := INFO; c_message := "hello"; c_options := [] |}
                     fullWorld).2) logFile []
  /\ stored (w_os (call New {| c_level := INFO; c_message := "hello"; c_options := [] |}
                     (with_os (with_faults [] (w_os fullWorld)) fullWorld)).2) logFile
       ([] ++ [record {| c_level := INFO; c_message := "hello"; c_options := [] |}
                 (w_clock fullWorld)]).
Proof.
  apply (logMessage_hides_failure New {| c_level := INFO; c_message := "hello";
                                         c_options := [] |} fullWorld []).
  - apply usableb_sound. vm_compute. reflexivity.
  - right. split; [reflexivity|]. vm_compute. reflexivity.
  - vm_compute. reflexivity.
Defined.

(** The run of the three calls on the machine with two faults: the first
    call cannot open the file, the second cannot write, the third stores
    its record; every line on the terminal carries the success marker. *)
Example faulty_run :
  content (w_os (run New calls3 faultyWorld).2) logFile
  = Some (linesText (drop 2 (records calls3 (w_clock faultyWorld))))
  /\ length (w_out (run New calls3 faultyWorld).2) = 3
  /\ os_faults (w_os (run New calls3 faultyWorld).2) = [].
Proof. vm_compute. done. Qed.

End Live.
