(* ===== verification/JsonRead.v ===== *)
(** * JsonRead: reading back what the encoder wrote

    The program writes JSON and never reads it; whoever reads the log does.
    This file is the reader's side, as RFC 8259 defines it, for the texts
    the program writes: strings with their escapes, objects whose members
    are strings, and sequences of items between brackets or braces, with
    white space where the grammar allows it.

    The theorems are round trips: the reader gives back the string the
    encoder was given, byte for byte when it was well-formed UTF-8, and
    with U+FFFD in the place of each ill-formed byte otherwise
    ([toValid]). *)

From S2P Require Import Prelude GoJson.

Module JsonRead.

Import GoJson.

Local Open Scope N_scope.

(** ** Strings *)

(** The value of a hexadecimal digit. *)
Definition unhex (c : ascii) : option N :=
  let b := N_of_ascii c in
  if byte_in c 0x30 0x39 then Some (b - 0x30)
  else if byte_in c 0x61 0x66 then Some (b - 0x61 + 10)
  else if byte_in c 0x41 0x46 then Some (b - 0x41 + 10)
  else None.

Definition hex4 (a b c d : ascii) : option N :=
  match unhex a, unhex b, unhex c, unhex d with
  | Some x, Some y, Some z, Some w => Some (((x * 16 + y) * 16 + z) * 16 + w)
  | _, _, _, _ => None
  end.

(** The UTF-8 bytes of a code point of the basic plane; the halves of a
    surrogate pair are not code points. *)
Definition encodeRune (r : N) : option string :=
  if r <? 0x80 then Some (String (ascii_of_N r) "")
  else if r <? 0x800 then
    Some (String (ascii_of_N (N.lor 0xC0 (N.shiftr r 6)))
            (String (ascii_of_N (N.lor 0x80 (N.land r 0x3F))) ""))
  else if (0xD800 <=? r) && (r <=? 0xDFFF) then None
  else
    Some (String (ascii_of_N (N.lor 0xE0 (N.shiftr r 12)))
            (String (ascii_of_N (N.lor 0x80 (N.land (N.shiftr r 6) 0x3F)))
               (String (ascii_of_N (N.lor 0x80 (N.land r 0x3F))) ""))).

(** The byte a two-character escape stands for. *)
Definition unescape (e : ascii) : option ascii :=
  let b := N_of_ascii e in
  if (b =? 0x22) || (b =? 0x5C) || (b =? 0x2F) then Some e
  else if b =? 0x62 then Some "008"%char
  else if b =? 0x66 then Some "012"%char
  else if b =? 0x6E then Some "010"%char
  else if b =? 0x72 then Some "013"%char
  else if b =? 0x74 then Some "009"%char
  else None.

(** A result with more bytes in front. *)
Definition more (p : string) (r : option (string * string)) : option (string * string) :=
  match r with
  | Some (v, rest) => Some (p +:+ v, rest)
  | None => None
  end.

(** The characters of a string after its opening quote, up to the closing
    quote: the value and what follows the string.  Control characters must
    be escaped. *)
Fixpoint readChars (s : string) : option (string * string) :=
  match s with
  | EmptyString => None
  | String c rest =>
      if N_of_ascii c =? 0x22 then Some ("", rest)
      else if N_of_ascii c =? 0x5C then
        match rest with
        | EmptyString => None
        | String e rest1 =>
            match unescape e with
            | Some b => more (String b "") (readChars rest1)
            | None =>
                if N_of_ascii e =? 0x75 then
                  match rest1 with
                  | String h1 (String h2 (String h3 (String h4 rest2))) =>
                      match hex4 h1 h2 h3 h4 with
                      | Some r =>
                          match encodeRune r with
                          | Some p => more p (readChars rest2)
                          | None => None
                          end
                      | None => None
                      end
                  | _ => None
                  end
                else None
            end
        end
      else if N_of_ascii c <? 0x20 then None
      else more (String c "") (readChars rest)
  end.

Definition readString (s : string) : option (string * string) :=
  match s with
  | String c rest => if N_of_ascii c =? 0x22 then readChars rest else None
  | EmptyString => None
  end.

(** What a string stands for as UTF-8: its bytes, with U+FFFD for each byte
    that is not part of a well-formed sequence.  [pending] bytes of a
    sequence that was recognised are still to come. *)
Fixpoint toValid_from (pending : nat) (s : string) : string :=
  match s with
  | EmptyString => EmptyString
  | String c rest =>
      match pending with
      | S n => String c (toValid_from n rest)
      | O =>
          match utf8_width s with
          | O => "�" +:+ toValid_from 0 rest
          | S n => String c (toValid_from n rest)
          end
      end
  end.

Definition toValid (s : string) : string := toValid_from 0 s.

(** The next [n] bytes, as far as there are any, are continuation bytes. *)
Fixpoint conts (n : nat) (s : string) : Prop :=
  match n, s with
  | S n, String c rest => 0x80 <= N_of_ascii c /\ conts n rest
  | _, _ => True
  end.

(** What the reader makes of the encoder's output in each mode. *)
Definition stands (m : mode) (s : string) : string :=
  match m with
  | Scan => toValid s
  | Copy n => toValid_from n s
  | Skip n => toValid (Str.drop n s)
  end.

Definition fits (m : mode) (s : string) : Prop :=
  match m with
  | Copy n => conts n s
  | _ => True
  end.

(** ** White space, members and sequences *)

Definition is_ws (c : ascii) : bool :=
  let b := N_of_ascii c in (b =? 0x20) || (b =? 0x0A) || (b =? 0x0D) || (b =? 0x09).

Fixpoint skip_ws (s : string) : string :=
  match s with
  | String c rest => if is_ws c then skip_ws rest else s
  | EmptyString => EmptyString
  end.

Fixpoint all_ws (s : string) : bool :=
  match s with
  | String c rest => is_ws c && all_ws rest
  | EmptyString => true
  end.

(** A member of an object whose values are strings: a string, a colon, a
    string. *)
Definition readMember (s : string) : option ((string * string) * string) :=
  match readString s with
  | Some (k, s1) =>
      match skip_ws s1 with
      | String c s2 =>
          if N_of_ascii c =? 0x3A then
            match readString (skip_ws s2) with
            | Some (v, s3) => Some ((k, v), s3)
            | None => None
            end
          else None
      | EmptyString => None
      end
  | None => None
  end.

(** Items between an opening and a closing mark, with commas between
    them.  [readSeq] starts after the opening mark; [readRest] after an
    item.  Every round of [readRest] reads at least one byte, so the length
    of the text is fuel enough. *)
Section Seq.
Context {A : Type} (item : string -> option (A * string)) (close : ascii).

Fixpoint readRest (fuel : nat) (s : string) : option (list A * string) :=
  match fuel with
  | O => None
  | S fuel =>
      match skip_ws s with
      | String c rest =>
          if Ascii.eqb c close then Some ([], rest)
          else if Ascii.eqb c "," then
            match item (skip_ws rest) with
            | Some (a, s1) =>
                match readRest fuel s1 with
                | Some (l, s2) => Some (a :: l, s2)
                | None => None
                end
            | None => None
            end
          else None
      | EmptyString => None
      end
  end.

Definition readSeq (s : string) : option (list A * string) :=
  match skip_ws s with
  | String c rest =>
      if Ascii.eqb c close then Some ([], rest)
      else
        match item (skip_ws s) with
        | Some (a, s1) =>
            match readRest (String.length s1) s1 with
            | Some (l, s2) => Some (a :: l, s2)
            | None => None
            end
        | None => None
        end
  | EmptyString => None
  end.

End Seq.

(** An object whose values are strings. *)
Definition readObject (s : string) : option (list (string * string) * string) :=
  match s with
  | String c rest => if N_of_ascii c =? 0x7B then readSeq readMember "}" rest else None
  | EmptyString => None
  end.

(** The text after the first of the items [xs], each with [sep] before
    it. *)
Fixpoint seps (sep : string) (xs : list string) : string :=
  match xs with
  | [] => ""
  | x :: rest => sep +:+ x +:+ seps sep rest
  end.

(** ** Lemmas on strings *)

#[local] Arguments utf8_width : simpl never.
#[local] Arguments line_separator : simpl never.

Ltac bytes c := destruct c as [[] [] [] [] [] [] [] []].

(** A byte the encoder copies is read as it is. *)
Lemma readChars_safe (c : ascii) (t : string) :
  htmlSafe c = true -> readChars (String c t) = more (String c "") (readChars t).
Proof. intros H. bytes c; try discriminate H; reflexivity. Qed.

Lemma readChars_high (c : ascii) (t : string) :
  0x80 <= N_of_ascii c -> readChars (String c t) = more (String c "") (readChars t).
Proof. intros H. bytes c; try (by vm_compute in H); reflexivity. Qed.

(** The escape of a byte is read as the byte. *)
Lemma readChars_escape (c : ascii) (t : string) :
  (N_of_ascii c <? 0x80) = true -> htmlSafe c = false ->
  readChars (escapeByte c +:+ t) = more (String c "") (readChars t).
Proof. intros H1 H2. bytes c; try discriminate H1; try discriminate H2; reflexivity. Qed.

Lemma readChars_replacement (t : string) :
  readChars ("\ufffd" +:+ t) = more "�" (readChars t).
Proof. reflexivity. Qed.

Lemma more_ok (p v t : string) (r : option (string * string)) :
  r = Some (v, t) -> more p r = Some (p +:+ v, t).
Proof. by intros ->. Qed.

Lemma byte_in_ge (c : ascii) (lo hi : N) : byte_in c lo hi = true -> lo <= N_of_ascii c.
Proof. unfold byte_in. intros [H _]%andb_true_iff. by apply N.leb_le. Qed.

(** A sequence that is recognised is one ASCII byte, or a leading byte and
    the continuation bytes it announces. *)
Lemma utf8_width_conts (c : ascii) (rest : string) (n : nat) :
  utf8_width (String c rest) = S n ->
  (N_of_ascii c <? 0x80) = false -> conts n rest.
Proof.
  unfold utf8_width. intros H Hc. rewrite Hc in H.
  repeat case_match; simplify_eq; simpl;
    repeat match goal with
    | H : _ && _ = true |- _ => apply andb_true_iff in H as [? ?]
    | H : byte_in _ ?lo _ = true |- _ => apply byte_in_ge in H
    end; repeat split; try done; lia.
Qed.

Lemma utf8_width_ascii (c : ascii) (rest : string) :
  (N_of_ascii c <? 0x80) = true -> utf8_width (String c rest) = 1%nat.
Proof. unfold utf8_width. by intros ->. Qed.

(** The two line separators, as the encoder finds them. *)
Lemma line_separator_inv (s : string) (d : ascii) :
  line_separator s = Some d ->
  exists x rest, s = String "226" (String "128" (String x rest))
    /\ ((d = "8"%char /\ x = "168"%char) \/ (d = "9"%char /\ x = "169"%char)).
Proof.
  destruct s as [|c0 [|c1 [|c2 rest]]]; try done. unfold line_separator.
  destruct (_ && _) eqn:H; [|done]. apply andb_true_iff in H as [H0%N.eqb_eq H1%N.eqb_eq].
  apply (f_equal ascii_of_N) in H0, H1. rewrite ascii_N_embedding in H0, H1. subst.
  intros H. exists c2, rest. split; [done|].
  destruct (_ =? 0xA8) eqn:H2; [|destruct (_ =? 0xA9) eqn:H3; [|done]]; injection H as <-;
    [left|right]; (split; [done|]);
    match goal with H : (_ =? _) = true |- _ =>
      apply N.eqb_eq, (f_equal ascii_of_N) in H; by rewrite ascii_N_embedding in H end.
Qed.

Lemma readChars_separator (d x : ascii) (t : string) :
  (d = "8"%char /\ x = "168"%char) \/ (d = "9"%char /\ x = "169"%char) ->
  readChars ("\u202" +:+ String d t)
  = more (String "226" (String "128" (String x ""))) (readChars t).
Proof. by intros [[-> ->]|[-> ->]]. Qed.

Lemma stands_nil (m : mode) : stands m "" = "".
Proof. destruct m as [|n|n]; [done|by destruct n..]. Qed.

(** The rest of the text is read as the induction hypothesis [IH] says in
    mode [m]. *)
Ltac read_on IH m := erewrite more_ok by (apply (IH m); done || eauto); reflexivity.

(** At a boundary: the step of the encoder on one byte, read back. *)
Lemma readChars_scan (c : ascii) (rest t : string) :
  (forall m, fits m rest ->
     readChars (appendString_go m rest +:+ String DQ t) = Some (stands m rest, t)) ->
  readChars (appendString_go Scan (String c rest) +:+ String DQ t)
  = Some (toValid (String c rest), t).
Proof.
  intros IH. unfold toValid. simpl.
  destruct (N_of_ascii c <? 0x80) eqn:Hc.
  - rewrite (utf8_width_ascii _ _ Hc), Str.app_assoc.
    destruct (htmlSafe c) eqn:Hs;
      [rewrite Str.app_cons, Str.app_nil_l, (readChars_safe _ _ Hs)
      |rewrite (readChars_escape _ _ Hc Hs)]; read_on IH Scan.
  - destruct (utf8_width (String c rest)) as [|n] eqn:Hw.
    + rewrite Str.app_assoc, readChars_replacement. read_on IH Scan.
    + destruct (line_separator (String c rest)) as [d|] eqn:Hl.
      * destruct (line_separator_inv _ _ Hl) as (x & rest' & [= -> ->] & Hd).
        assert (n = 2%nat) as -> by (destruct Hd as [[_ ->]|[_ ->]]; by injection Hw).
        rewrite Str.app_assoc, (Str.app_cons d).
        rewrite (readChars_separator d x) by done. read_on IH (Skip 2).
      * rewrite Str.app_cons, readChars_high by (by apply N.ltb_ge).
        pose proof (utf8_width_conts _ _ _ Hw Hc). read_on IH (Copy n).
Qed.

(** The reader gives back what the encoder was given, in every mode. *)
Lemma readChars_appendString (s : string) :
  forall (m : mode) (t : string), fits m s ->
  readChars (appendString_go m s +:+ String DQ t) = Some (stands m s, t).
Proof.
  induction s as [|c rest IH]; intros m t Hm; [by rewrite stands_nil|].
  assert (readChars (appendString_go Scan (String c rest) +:+ String DQ t)
          = Some (toValid (String c rest), t)) as Hscan.
  { apply readChars_scan. intros m' Hm'. by apply IH. }
  destruct m as [|[|n]|[|n]]; try exact Hscan.
  - destruct Hm as [Hc Hn].
    change (appendString_go (Copy (S n)) (String c rest))
      with (String c (appendString_go (Copy n) rest)).
    rewrite Str.app_cons, readChars_high by done. read_on IH (Copy n).
  - by apply (IH (Skip n)).
Qed.

(** Well-formed strings stand for themselves. *)
Lemma toValid_from_valid (s : string) :
  forall n, valid_from n s = true -> toValid_from n s = s.
Proof.
  induction s as [|c rest IH]; intros n H; [done|]. simpl in *.
  destruct n as [|n]; [destruct (utf8_width _); [done|]|]; by rewrite IH.
Qed.

(** A string is read back as what it stands for, whatever follows it. *)
Lemma readString_encodeString (s t : string) :
  readString (encodeString s +:+ t) = Some (toValid s, t).
Proof.
  unfold encodeString. rewrite Str.app_cons, Str.app_assoc.
  apply (readChars_appendString s Scan t). done.
Qed.

Lemma toValid_valid (s : string) : ValidString s = true -> toValid s = s.
Proof. apply toValid_from_valid. Qed.

Lemma toValid_nil (s : string) : toValid s = "" <-> s = "".
Proof.
  split; [|by intros ->]. destruct s as [|c rest]; [done|]. unfold toValid. simpl.
  by destruct (utf8_width _).
Qed.

(** ** Lemmas on sequences *)

Local Open Scope nat_scope.

Lemma skip_ws_app (w s : string) : all_ws w = true -> skip_ws (w +:+ s) = skip_ws s.
Proof.
  induction w as [|c w IH]; [done|]. simpl. intros [Hc Hw]%andb_true_iff.
  rewrite Hc. by apply IH.
Qed.

Lemma skip_ws_encodeString (s t : string) :
  skip_ws (encodeString s +:+ t) = encodeString s +:+ t.
Proof. done. Qed.

Lemma Join_cons (x : string) (xs : list string) (sep : string) :
  Join (x :: xs) sep = x +:+ seps sep xs.
Proof.
  unfold Join. revert x. induction xs as [|y xs IH]; intros x; simpl.
  - by rewrite Str.app_nil_r.
  - by rewrite <- IH.
Qed.

Lemma length_seps (sep : string) (xs : list string) :
  length xs * String.length sep <= String.length (seps sep xs).
Proof. induction xs as [|x xs IH]; simpl; [lia|]. rewrite !Str.length_app. lia. Qed.

(** A member is read back, with white space after the colon or without. *)
Lemma readMember_member (w : string) (kv : string * string) (t : string) :
  all_ws w = true ->
  readMember (member (":" +:+ w) kv +:+ t) = Some ((toValid kv.1, toValid kv.2), t).
Proof.
  intros Hw. unfold readMember, member.
  rewrite !Str.app_assoc, readString_encodeString. simpl.
  by rewrite Str.app_nil_l, skip_ws_app, skip_ws_encodeString, readString_encodeString.
Qed.

Section SeqLemmas.
Context {A B : Type} (item : string -> option (A * string)) (close : ascii).
Context (text : B -> string) (value : B -> A).
Context (w0 w1 w2 : string).
Context (Hitem : forall b t, item (text b +:+ t) = Some (value b, t)).
Context (Htext : forall b t, exists c u, text b +:+ t = String c u /\ is_ws c = false
                                         /\ Ascii.eqb c close = false).
Context (Hclose : is_ws close = false /\ Ascii.eqb "," close = false).
Context (Hw0 : all_ws w0 = true) (Hw1 : all_ws w1 = true) (Hw2 : all_ws w2 = true).

Lemma readRest_S (fuel : nat) (s : string) :
  readRest item close (S fuel) s
  = match skip_ws s with
    | String c rest =>
        if Ascii.eqb c close then Some ([], rest)
        else if Ascii.eqb c "," then
          match item (skip_ws rest) with
          | Some (a, s1) =>
              match readRest item close fuel s1 with
              | Some (l, s2) => Some (a :: l, s2)
              | None => None
              end
          | None => None
          end
        else None
    | EmptyString => None
    end.
Proof. done. Qed.

Lemma skip_ws_text (b : B) (t : string) : skip_ws (text b +:+ t) = text b +:+ t.
Proof using Htext. destruct (Htext b t) as (c & u & -> & Hc & _). simpl. by rewrite Hc. Qed.

Lemma skip_ws_close (t : string) : skip_ws (w2 +:+ String close t) = String close t.
Proof using Hclose Hw2. rewrite skip_ws_app by done. simpl. by rewrite (proj1 Hclose). Qed.

Lemma readRest_close (fuel : nat) (t : string) :
  readRest item close (S fuel) (w2 +:+ String close t) = Some ([], t).
Proof using Hclose Hw2.
  rewrite readRest_S.
  by rewrite skip_ws_close, Ascii.eqb_refl.
Qed.

Lemma readRest_comma (fuel : nat) (b : B) (t : string) :
  readRest item close (S fuel) (("," +:+ w1) +:+ text b +:+ t)
  = match readRest item close fuel t with
    | Some (l, s2) => Some (value b :: l, s2)
    | None => None
    end.
Proof using Hitem Htext Hclose Hw1.
  rewrite readRest_S.
  change (skip_ws (("," +:+ w1) +:+ text b +:+ t)) with (String "," (w1 +:+ text b +:+ t)).
  cbv beta iota. rewrite (proj2 Hclose). change (Ascii.eqb "," ",") with true. cbv iota.
  by rewrite skip_ws_app, skip_ws_text, Hitem.
Qed.

(** The items after the first, read with fuel for one round more than
    there are items. *)
Lemma readRest_text (bs : list B) :
  forall (fuel : nat) (t : string), length bs < fuel ->
  readRest item close fuel (seps ("," +:+ w1) (text <$> bs) +:+ w2 +:+ String close t)
  = Some (value <$> bs, t).
Proof using Hitem Htext Hclose Hw1 Hw2.
  induction bs as [|b bs IH]; intros [|fuel] t Hf; try (simpl in Hf; lia).
  - apply readRest_close.
  - simpl seps. rewrite !Str.app_assoc, <- (Str.app_assoc "," w1), readRest_comma.
    by rewrite IH by (simpl in Hf; lia).
Qed.

Lemma readSeq_text (bs : list B) (t : string) :
  readSeq item close (w0 +:+ Join (text <$> bs) ("," +:+ w1) +:+ w2 +:+ String close t)
  = Some (value <$> bs, t).
Proof using All.
  unfold readSeq. rewrite skip_ws_app by done. destruct bs as [|b bs].
  - change (Join _ _) with "". rewrite Str.app_nil_l, skip_ws_close.
    by rewrite Ascii.eqb_refl.
  - rewrite fmap_cons, Join_cons, !Str.app_assoc, skip_ws_text.
    destruct (Htext b (seps ("," +:+ w1) (text <$> bs) +:+ w2 +:+ String close t))
      as (c & u & Hcu & _ & Hc).
    rewrite Hcu, Hc, <- Hcu, Hitem, readRest_text; [done|].
    pose proof (length_seps ("," +:+ w1) (text <$> bs)) as Hl.
    rewrite length_fmap in Hl. rewrite !Str.length_app. simpl in *. lia.
Qed.

(** *** Texts that are not read

    A reader that is stuck at [t] is stuck at [t] behind any items. *)
Lemma readRest_stuck (bs : list B) (t : string) :
  (forall fuel, readRest item close fuel t = None) ->
  forall fuel, readRest item close fuel (seps ("," +:+ w1) (text <$> bs) +:+ t) = None.
Proof using Hitem Htext Hclose Hw1.
  intros Ht. induction bs as [|b bs IH]; intros fuel; [by rewrite Str.app_nil_l|].
  destruct fuel; [done|]. simpl seps.
  rewrite !Str.app_assoc, <- (Str.app_assoc "," w1), readRest_comma. by rewrite IH.
Qed.

Lemma readSeq_stuck (b : B) (bs : list B) (t : string) :
  (forall fuel, readRest item close fuel t = None) ->
  readSeq item close (w0 +:+ Join (text <$> b :: bs) ("," +:+ w1) +:+ t) = None.
Proof using Hitem Htext Hclose Hw0 Hw1.
  intros Ht. unfold readSeq. rewrite skip_ws_app by done.
  rewrite fmap_cons, Join_cons, !Str.app_assoc, skip_ws_text.
  destruct (Htext b (seps ("," +:+ w1) (text <$> bs) +:+ t)) as (c & u & Hcu & _ & Hc).
  by rewrite Hcu, Hc, <- Hcu, Hitem, readRest_stuck.
Qed.

(** A comma before a text that is no item. *)
Lemma readRest_no_item (fuel : nat) (s : string) :
  item (skip_ws s) = None -> readRest item close fuel (("," +:+ w1) +:+ s) = None.
Proof using Hclose Hw1.
  intros Hs. destruct fuel; [done|]. rewrite readRest_S.
  change (skip_ws (("," +:+ w1) +:+ s)) with (String "," (w1 +:+ s)).
  cbv beta iota. rewrite (proj2 Hclose). change (Ascii.eqb "," ",") with true. cbv iota.
  by rewrite skip_ws_app, Hs.
Qed.

Lemma readSeq_no_item (s : string) (c : ascii) (u : string) :
  skip_ws s = String c u -> Ascii.eqb c close = false -> item (String c u) = None ->
  readSeq item close s = None.
Proof. intros Hs Hc Hi. unfold readSeq. by rewrite Hs, Hc, Hi. Qed.

End SeqLemmas.

(** ** Objects *)

Definition pairValid (kv : string * string) : string * string :=
  (toValid kv.1, toValid kv.2).

Lemma member_starts (colon : string) (kv : string * string) (t : string) :
  exists c u, member colon kv +:+ t = String c u /\ is_ws c = false
              /\ Ascii.eqb c "}" = false.
Proof.
  unfold member, encodeString. eexists DQ, _. split; [|done].
  by rewrite !Str.app_cons.
Qed.

(** An object with white space [w0] after the brace, [w1] after each comma,
    [w2] before the closing brace and [w] after each colon. *)
Lemma readObject_text (w0 w1 w2 w : string) (ms : list (string * string)) (t : string) :
  all_ws w0 = true -> all_ws w1 = true -> all_ws w2 = true -> all_ws w = true ->
  readObject ("{" +:+ w0 +:+ Join (member (":" +:+ w) <$> ms) ("," +:+ w1) +:+ w2
              +:+ "}" +:+ t)
  = Some (pairValid <$> ms, t).
Proof.
  intros H0 H1 H2 Hw. unfold readObject. rewrite Str.app_cons, Str.app_nil_l.
  change (N_of_ascii "{" =? 123)%N with true. cbv iota.
  apply (readSeq_text readMember "}" (member (":" +:+ w)) pairValid w0 w1 w2); try done.
  - intros kv t'. by apply readMember_member.
  - intros kv t'. apply member_starts.
Qed.

(** What [json.Marshal] writes is read back. *)
Lemma readObject_Marshal (ms : list (string * string)) (t : string) :
  readObject (Marshal ms +:+ t) = Some (pairValid <$> ms, t).
Proof.
  unfold Marshal. rewrite !Str.app_assoc.
  by apply (readObject_text "" "" "" "" ms t).
Qed.

(** What [json.MarshalIndent] writes is read back, when prefix and indent
    are white space. *)
Lemma readObject_MarshalIndent (ms : list (string * string)) (prefix indent t : string) :
  all_ws prefix = true -> all_ws indent = true ->
  readObject (MarshalIndent ms prefix indent +:+ t) = Some (pairValid <$> ms, t).
Proof.
  intros Hp Hi. unfold MarshalIndent. destruct ms as [|m ms]; [done|].
  assert (all_ws (String LF prefix +:+ indent) = true) as Hw.
  { simpl. clear -Hp Hi. induction prefix as [|c p IH]; simpl in *; [done|].
    apply andb_true_iff in Hp as [-> Hp]. by apply IH. }
  rewrite !Str.app_assoc.
  rewrite <- (Str.app_assoc (String LF prefix) indent).
  rewrite <- (Str.app_assoc "," (String LF prefix) indent).
  by apply (readObject_text _ _ (String LF prefix) " " (m :: ms) t).
Qed.

(** An object that is not closed: after the members comes a comma and an
    opening brace. *)
Lemma readObject_open (w0 w1 w2 w3 w : string) (m : string * string)
    (ms : list (string * string)) (t : string) :
  all_ws w0 = true -> all_ws w1 = true -> all_ws w2 = true -> all_ws w3 = true ->
  all_ws w = true ->
  readObject ("{" +:+ w0 +:+ Join (member (":" +:+ w) <$> m :: ms) ("," +:+ w1)
              +:+ w2 +:+ ("," +:+ w3) +:+ "{" +:+ t)
  = None.
Proof.
  intros H0 H1 H2 H3 Hw. unfold readObject. rewrite Str.app_cons, Str.app_nil_l.
  change (N_of_ascii "{" =? 123)%N with true. cbv iota.
  apply (readSeq_stuck readMember "}" (member (":" +:+ w)) pairValid w0 w1); try done.
  - intros kv t'. by apply readMember_member.
  - intros kv t'. apply member_starts.
  - intros [|fuel]; [done|]. rewrite readRest_S, skip_ws_app by done.
    change (skip_ws (("," +:+ w3) +:+ "{" +:+ t)) with (String "," (w3 +:+ "{" +:+ t)).
    cbv beta iota. change (Ascii.eqb "," "}") with false. change (Ascii.eqb "," ",") with true.
    cbv iota. by rewrite skip_ws_app.
Qed.

End JsonRead.
