(* ===== verification/LogRead.v ===== *)
(** * LogRead: the logs on disk, read back

    The three layouts the program writes: one object per line (src/main.go
    and part_004), an array with indented objects (part_001) and the
    bracketed list of part_002.  Each is read with the reader of
    [JsonRead], and reading gives back the records that were saved, in
    their order, with U+FFFD for each ill-formed byte of a field. *)

From S2P Require Import Prelude GoTime GoJson GoOS World Sink ArraySink LineSink Compose.
From S2P Require Import MainLogger Paced PathLogger BracketLogger Inv Live JsonRead.

Module LogRead.

Import GoJson GoOS World Sink JsonRead.

(** ** Records *)

(** The value of the member [key], empty when there is none. *)
Fixpoint field (key : string) (ms : list (string * string)) : string :=
  match ms with
  | [] => ""
  | (k, v) :: rest => if String.eqb k key then v else field key rest
  end.

(** The record of an object: what [json.Unmarshal] into a [logToJSON]
    leaves, a field without a member being empty. *)
Definition toRecord (ms : list (string * string)) : logToJSON :=
  {| logToJSON.ClosingTime := field "time" ms; logToJSON.Level := field "level" ms;
     logToJSON.Process := field "process" ms; logToJSON.Duration := field "duration" ms;
     logToJSON.User := field "user" ms; logToJSON.Message := field "message" ms |}.

Definition readRecord (s : string) : option (logToJSON * string) :=
  match readObject s with
  | Some (ms, rest) => Some (toRecord ms, rest)
  | None => None
  end.

(** The record with each field as the UTF-8 it stands for. *)
Definition validRecord (j : logToJSON) : logToJSON :=
  {| logToJSON.ClosingTime := toValid (logToJSON.ClosingTime j);
     logToJSON.Level := toValid (logToJSON.Level j);
     logToJSON.Process := toValid (logToJSON.Process j);
     logToJSON.Duration := toValid (logToJSON.Duration j);
     logToJSON.User := toValid (logToJSON.User j);
     logToJSON.Message := toValid (logToJSON.Message j) |}.

(** Every field is well-formed UTF-8. *)
Definition wellFormed (j : logToJSON) : bool :=
  ValidString (logToJSON.ClosingTime j) && ValidString (logToJSON.Level j)
  && ValidString (logToJSON.Process j) && ValidString (logToJSON.Duration j)
  && ValidString (logToJSON.User j) && ValidString (logToJSON.Message j).

(** ** Logs *)

(** One object per line. *)
Fixpoint readLines (fuel : nat) (s : string) : option (list logToJSON) :=
  match s with
  | EmptyString => Some []
  | _ =>
      match fuel with
      | O => None
      | S fuel =>
          match readRecord s with
          | Some (j, String c rest) =>
              if Ascii.eqb c LF then
                match readLines fuel rest with
                | Some js => Some (j :: js)
                | None => None
                end
              else None
          | _ => None
          end
      end
  end.

Definition readLog (s : string) : option (list logToJSON) := readLines (String.length s) s.

(** An array of objects, and nothing but white space after it. *)
Definition readArray (s : string) : option (list logToJSON) :=
  match s with
  | String c rest =>
      if Ascii.eqb c "[" then
        match readSeq readRecord "]" rest with
        | Some (js, rest') => if all_ws rest' then Some js else None
        | None => None
        end
      else None
  | EmptyString => None
  end.

(** ** Sinks whose files can be read

    A sink is readable when the log it holds, once it holds a record, is a
    file at [at_path] whose text [reader] reads as the records. *)
Class Readable (sink : FileSink) : Type := {
  at_path : string;
  reader : string -> option (list logToJSON);
  reads_back (o : OS) (js : list logToJSON) :
    js <> [] -> holds o js ->
    exists text, content o at_path = Some text /\ reader text = Some (validRecord <$> js)
}.

(** ** Lemmas *)

Lemma validRecord_wellFormed (j : logToJSON) : wellFormed j = true -> validRecord j = j.
Proof.
  unfold wellFormed. rewrite !andb_true_iff. intros [[[[[H1 H2] H3] H4] H5] H6].
  destruct j. unfold validRecord. simpl in *. by rewrite !toValid_valid.
Qed.

(** The members of a record give the record back. *)
Lemma toRecord_members (j : logToJSON) : toRecord (pairValid <$> members j) = validRecord j.
Proof.
  destruct j as [ct lv pr du us ms]. unfold members, omitempty, validRecord. simpl.
  repeat case_decide; subst; reflexivity.
Qed.

Lemma readRecord_Marshal (j : logToJSON) (t : string) :
  readRecord (Marshal (members j) +:+ t) = Some (validRecord j, t).
Proof. unfold readRecord. by rewrite readObject_Marshal, toRecord_members. Qed.

Lemma readRecord_MarshalIndent (j : logToJSON) (prefix indent t : string) :
  all_ws prefix = true -> all_ws indent = true ->
  readRecord (MarshalIndent (members j) prefix indent +:+ t) = Some (validRecord j, t).
Proof.
  intros Hp Hi. unfold readRecord. by rewrite readObject_MarshalIndent, toRecord_members.
Qed.

(** An object starts with a brace. *)
Lemma Marshal_starts (ms : list (string * string)) (t : string) :
  exists u, Marshal ms +:+ t = String "{" u.
Proof. unfold Marshal. eexists. by rewrite Str.app_cons. Qed.

Lemma MarshalIndent_starts (ms : list (string * string)) (prefix indent t : string) :
  exists u, MarshalIndent ms prefix indent +:+ t = String "{" u.
Proof. unfold MarshalIndent. destruct ms; eexists; by rewrite Str.app_cons. Qed.

(** *** Lines *)

Lemma readLines_linesText (js : list logToJSON) :
  forall fuel, length js <= fuel ->
  readLines fuel (LineSink.linesText js) = Some (validRecord <$> js).
Proof.
  induction js as [|j js IH]; intros fuel Hf; [by destruct fuel|].
  destruct fuel as [|fuel]; [simpl in Hf; lia|].
  simpl LineSink.linesText. unfold LineSink.lineText. rewrite !Str.app_assoc.
  destruct (Marshal_starts (members j) (String LF "" +:+ LineSink.linesText js)) as [u Hu].
  simpl readLines. rewrite Hu, <- Hu, readRecord_Marshal. simpl.
  by rewrite IH by (simpl in Hf; lia).
Qed.

Lemma length_linesText (js : list logToJSON) :
  length js <= String.length (LineSink.linesText js).
Proof.
  induction js as [|j js IH]; simpl; [lia|].
  unfold LineSink.lineText. rewrite !Str.length_app. simpl. lia.
Qed.

(** *** Arrays *)

(** An array with white space [w0] after the bracket, [w1] after each
    comma and [w2] before the closing bracket, of objects written with
    [prefix] and [indent]. *)
Lemma readArray_after (w0 w1 w2 prefix indent : string) (js : list logToJSON) (t : string) :
  all_ws w0 = true -> all_ws w1 = true -> all_ws w2 = true ->
  all_ws prefix = true -> all_ws indent = true ->
  readArray ("[" +:+ w0
             +:+ Join ((fun j => MarshalIndent (members j) prefix indent) <$> js) ("," +:+ w1)
             +:+ w2 +:+ String "]" t)
  = if all_ws t then Some (validRecord <$> js) else None.
Proof.
  intros H0 H1 H2 Hp Hi. unfold readArray. rewrite Str.app_cons, Str.app_nil_l.
  change (Ascii.eqb "[" "[") with true. cbv iota.
  rewrite (readSeq_text readRecord "]" (fun j => MarshalIndent (members j) prefix indent)
             validRecord w0 w1 w2); try done.
  - intros j u. by apply readRecord_MarshalIndent.
  - intros j u. destruct (MarshalIndent_starts (members j) prefix indent u) as [v ->].
    by eexists _, _.
Qed.

Lemma readArray_text (w0 w1 w2 prefix indent : string) (js : list logToJSON) :
  all_ws w0 = true -> all_ws w1 = true -> all_ws w2 = true ->
  all_ws prefix = true -> all_ws indent = true ->
  readArray ("[" +:+ w0
             +:+ Join ((fun j => MarshalIndent (members j) prefix indent) <$> js) ("," +:+ w1)
             +:+ w2 +:+ "]")
  = Some (validRecord <$> js).
Proof. intros H0 H1 H2 Hp Hi. by rewrite (readArray_after w0 w1 w2 prefix indent js ""). Qed.

(** *** The three layouts *)

Lemma readLog_linesText (js : list logToJSON) :
  readLog (LineSink.linesText js) = Some (validRecord <$> js).
Proof. apply readLines_linesText, length_linesText. Qed.

Lemma readArray_arrayText (js : list logToJSON) :
  readArray (ArraySink.arrayText js) = Some (validRecord <$> js).
Proof.
  unfold ArraySink.arrayText, ArraySink.entrySep, ArraySink.recordText.
  by apply (readArray_text (String LF "  ") (String LF "  ") (String LF "") "  " "  ").
Qed.

Lemma readArray_bracketText (js : list logToJSON) :
  readArray (BracketLogger.bracketText js) = Some (validRecord <$> js).
Proof.
  unfold BracketLogger.bracketText, BracketLogger.opening, BracketLogger.entryText.
  rewrite !Str.app_assoc.
  by apply (readArray_text (String LF "") (String LF "") (String LF "") "" "  ").
Qed.

(** Text after the closing bracket of the array of part_002 that is more
    than white space: the file is no array. *)
Lemma readArray_bracketText_more (js : list logToJSON) (t : string) :
  all_ws t = false -> readArray (BracketLogger.bracketText js +:+ t) = None.
Proof.
  intros Ht. unfold BracketLogger.bracketText, BracketLogger.opening, BracketLogger.entryText.
  rewrite !Str.app_assoc. change (String LF "]" +:+ t) with (String LF "" +:+ String "]" t).
  by rewrite (readArray_after (String LF "") (String LF "") (String LF "") "" "  "), Ht.
Qed.

(** *** The sinks *)

Lemma lines_read_back (o : OS) (name : string) (js : list logToJSON) :
  js <> [] -> LineSink.stored o name js ->
  exists text, content o name = Some text /\ readLog text = Some (validRecord <$> js).
Proof.
  intros Hjs [H|[? _]]; [|done]. exists (LineSink.linesText js).
  split; [done|apply readLog_linesText].
Qed.

#[export] Instance array_readable (p : string) : Readable (ArraySink.array_sink p).
Proof.
  refine {| at_path := p; reader := readArray |}. intros o js Hjs Hst.
  exists (ArraySink.arrayText js). split; [by destruct js|apply readArray_arrayText].
Defined.

#[export] Instance bracket_readable (p : string) : Readable (BracketLogger.bracket_sink p).
Proof.
  refine {| at_path := p; reader := readArray |}. intros o js Hjs Hst.
  exists (BracketLogger.bracketText js). split; [by destruct js|apply readArray_bracketText].
Defined.

#[export] Instance line_readable (name : string) : Readable (LineSink.line_sink name).
Proof.
  refine {| at_path := name; reader := readLog |}. intros o js. apply lines_read_back.
Defined.

#[export] Instance path_readable (p : string) : Readable (PathLogger.path_sink p).
Proof.
  refine {| at_path := p; reader := readLog |}. intros o js. apply lines_read_back.
Defined.

(** Records saved one after the other to a readable sink are read back, in
    the order of the calls, after those the log held. *)
Lemma saved_read_back (sink : FileSink) `{!Readable sink} (js0 js : list logToJSON) (o : OS) :
  ready o -> holds o js0 -> js <> [] ->
  exists o' text, save_all js o = (Ok tt, o')
    /\ content o' at_path = Some text
    /\ reader text = Some (validRecord <$> (js0 ++ js)).
Proof.
  intros Hr Hh Hjs. destruct (save_all_appends js o js0 Hr Hh) as (o' & Hs & Hh' & _).
  destruct (reads_back o' (js0 ++ js)) as (text & Hc & Hrd); [by destruct js0, js|done|].
  by exists o', text.
Qed.

(** ** The theorems *)

(** C24: what the program marshals is read back as the record.  The text
    [json.Marshal] gives in src/main.go and part_004, and the texts
    [json.MarshalIndent] gives in part_001 and part_002, are objects that
    the reader reads as the record that was marshalled, whatever follows
    them, with U+FFFD for each ill-formed byte of a field; a record whose
    fields are well-formed UTF-8 is read back as it is. *)
Theorem jsonMarshal_reads_back (j : logToJSON) (o : OS) (t : string) :
  (exists text, LineSink.jsonMarshal j o = (Ok text, o)
                /\ readRecord (text +:+ t) = Some (validRecord j, t))
  /\ (exists text, ArraySink.jsonMarshalIndent j "  " "  " o = (Ok text, o)
                   /\ readRecord (text +:+ t) = Some (validRecord j, t))
  /\ (exists text, BracketLogger.jsonMarshalIndent j "" "  " o = (Ok text, o)
                   /\ readRecord (text +:+ t) = Some (validRecord j, t))
  /\ (wellFormed j = false \/ validRecord j = j).
Proof.
  split_and!; [eexists; split; [done|]..|].
  - apply readRecord_Marshal.
  - by apply readRecord_MarshalIndent.
  - by apply readRecord_MarshalIndent.
  - destruct (wellFormed j) eqn:Hj; [right|by left]. by apply validRecord_wellFormed.
Qed.

(** C21: appending records and then reading the file yields the records, in
    call order.  On a path that can be saved to, whose log holds the
    records [js0], saving the records [js] one after the other with
    [saveToFile] of part_001 returns without error, and the file is there
    and reads as an array of [js0] followed by [js]. *)
Theorem saveToFile_reads_back (p : string) (o : OS) (js0 js : list logToJSON) :
  savable o p -> ArraySink.stored o p js0 -> js <> [] ->
  exists o' text, save_all (H:=ArraySink.array_sink p) js o = (Ok tt, o')
    /\ content o' p = Some text
    /\ readArray text = Some (validRecord <$> (js0 ++ js))
    /\ os_fds o' = os_fds o.
Proof.
  intros Hs Hst Hjs.
  destruct (save_all_appends (H:=ArraySink.array_sink p) js o js0 Hs Hst)
    as (o' & Hsv & Hh & _ & Hfd).
  destruct (reads_back (Readable:=array_readable p) o' (js0 ++ js))
    as (text & Hc & Hrd); [by destruct js0, js|done|].
  by exists o', text.
Qed.

Lemma saveToFile_reads_back_witness :
  exists o' text,
    save_all (H:=ArraySink.array_sink "./logs/app.json")
      [ArraySink.sample1; ArraySink.sample1] empty_OS = (Ok tt, o')
    /\ content o' "./logs/app.json" = Some text
    /\ readArray text = Some (validRecord <$> ([] ++ [ArraySink.sample1; ArraySink.sample1]))
    /\ os_fds o' = os_fds empty_OS.
Proof.
  apply (saveToFile_reads_back "./logs/app.json" empty_OS []
           [ArraySink.sample1; ArraySink.sample1]).
  - apply savableb_sound. vm_compute. reflexivity.
  - left. vm_compute. reflexivity.
  - done.
Defined.

(** The log of part_002 on a path that can be saved to is read back in the
    same way. *)
Theorem saveToFile_bracket_reads_back (p : string) (o : OS) (js0 js : list logToJSON) :
  savable o p -> BracketLogger.stored o p js0 -> js <> [] ->
  exists o' text, save_all (H:=BracketLogger.bracket_sink p) js o = (Ok tt, o')
    /\ content o' p = Some text
    /\ readArray text = Some (validRecord <$> (js0 ++ js)).
Proof. intros. by apply (@saved_read_back _ (bracket_readable p)). Qed.

(** So is the log of part_004, line by line. *)
Theorem saveToFile_path_reads_back (p : string) (o : OS) (js0 js : list logToJSON) :
  savable o p -> LineSink.stored o p js0 -> js <> [] ->
  exists o' text, save_all (H:=PathLogger.path_sink p) js o = (Ok tt, o')
    /\ content o' p = Some text
    /\ readLog text = Some (validRecord <$> (js0 ++ js)).
Proof. intros. by apply (@saved_read_back _ (path_readable p)). Qed.

(** But the text part_002 leaves in a file that was there and empty is not
    an array: the reader refuses it. *)
Example empty_file_unreadable :
  exists text,
    content (BracketLogger.saveToFile BracketLogger.sample "log.json"
               BracketLogger.emptyFile).2 "log.json" = Some text
    /\ readArray text = None.
Proof. eexists. split; [vm_compute; reflexivity|]. vm_compute. reflexivity. Qed.

(** The log of src/main.go after a run of calls reads back as the
    records of the calls.  Without faults, on a log that holds the records
    [js], after the calls [cs] the file is there and reads, line by line,
    as [js] followed by the records of the calls in their order. *)
Theorem run_reads_back (l : MainLogger.Logger) (cs : list Live.Call) (w : World)
    (js : list logToJSON) :
  LineSink.appendable (w_os w) Live.logFile -> LineSink.stored (w_os w) Live.logFile js ->
  cs <> [] ->
  exists text, content (w_os (Live.run l cs w).2) Live.logFile = Some text
    /\ readLog text = Some (validRecord <$> (js ++ Live.records cs (w_clock w))).
Proof.
  intros Ha Hst Hcs. destruct (Live.run_appends l cs w js Ha Hst) as (H & _).
  apply lines_read_back; [|done]. by destruct js, cs.
Qed.

Lemma run_reads_back_witness :
  exists text, content (w_os (Live.run MainLogger.New Live.calls3 Compose.slowWorld).2)
                 Live.logFile = Some text
    /\ readLog text
       = Some (validRecord <$> ([] ++ Live.records Live.calls3 (w_clock Compose.slowWorld))).
Proof.
  apply (run_reads_back MainLogger.New Live.calls3 Compose.slowWorld []).
  - apply LineSink.appendableb_sound. vm_compute. reflexivity.
  - right. split; [reflexivity|]. vm_compute. reflexivity.
  - done.
Defined.

End LogRead.
