(* ===== verification/Race.v ===== *)
(** * Race: callers that share a log file

    The package takes no lock: callers in several goroutines run
    [saveToFile] on the same path at the same time, and their library
    calls interleave.  A caller is a machine here, with a program counter
    and one library call for each counter; a system is the operating
    system and the callers, and a step is one call of one caller.  The
    machines are the code: the calls of a caller alone, in a row, are
    [saveToFile] ([alone_appendTo], [alone_saveToFile]).  The callers of
    the other two sinks are in [Steps].

    For the sink of src/main.go every schedule ends with the record of
    every caller that returned nil in the log, whole and once, whatever
    faults are planned: the file is opened for appending, and one write
    puts the line at the end.  Without faults every caller returns nil.  For the sink of part_001 there is a
    schedule after which a record is gone although both callers returned
    nil: the size a caller measured is stale by the time it cuts the
    closing bracket.  Another schedule leaves a file that is no array. *)

From S2P Require Import Prelude GoTime GoJson GoOS World Sink ArraySink LineSink Compose.
From S2P Require Import MainLogger Paced PathLogger BracketLogger Inv Live JsonRead LogRead.

Module Race.

Import GoJson GoOS Sink LineSink Live.

(** ** Callers and systems *)

(** [next pc] is the call a caller makes at [pc], as a function from the
    state to the counter after the call and the state it leaves; a caller
    that has returned makes none.  [left pc] bounds the calls still to
    come. *)
Class Caller (PC : Type) : Type := {
  next : PC -> option (OS -> PC * OS);
  left : PC -> nat;
  left_next (pc : PC) (c : OS -> PC * OS) (o : OS) :
    next pc = Some c -> left (c o).1 < left pc
}.

Section System.
Context {PC : Type} `{!Caller PC}.

(** A caller alone: its calls one after the other. *)
Fixpoint alone (fuel : nat) (pc : PC) (o : OS) : PC * OS :=
  match fuel with
  | O => (pc, o)
  | S fuel =>
      match next pc with
      | Some c => alone fuel (c o).1 (c o).2
      | None => (pc, o)
      end
  end.

(** One step of a system: one caller makes its call. *)
Inductive step : OS * list PC -> OS * list PC -> Prop :=
| step_at (l1 : list PC) (pc : PC) (l2 : list PC) (c : OS -> PC * OS) (o : OS) :
    next pc = Some c ->
    step (o, l1 ++ pc :: l2) ((c o).2, l1 ++ (c o).1 :: l2).

Definition returned (s : OS * list PC) : Prop := Forall (fun pc => next pc = None) s.2.

Definition calls_left (s : OS * list PC) : nat := sum_list_with left s.2.

(** The callers of a schedule: a run of steps. *)
Definition runs : relation (OS * list PC) := rtc step.

(** A schedule names the caller of each step; the turn of a caller that
    has returned, or that is not there, is no step. *)
Definition turn (i : nat) (s : OS * list PC) : OS * list PC :=
  match s.2 !! i with
  | Some pc =>
      match next pc with
      | Some c => ((c s.1).2, <[i := (c s.1).1]> s.2)
      | None => s
      end
  | None => s
  end.

Definition schedule (l : list nat) (s : OS * list PC) : OS * list PC :=
  foldl (fun s i => turn i s) s l.

End System.

(** ** The caller of src/main.go

    [saveToFile] of src/main.go in its three calls: the file is opened, the
    line is written, the file is closed. *)
Inductive LinePC : Type :=
| LStart (j : logToJSON)
| LOpened (j : logToJSON) (file : nat)
| LWritten (j : logToJSON) (file : nat) (r : result error nat)
| LDone (j : logToJSON) (r : result error unit).

Definition line_next (name : string) (pc : LinePC) : option (OS -> LinePC * OS) :=
  match pc with
  | LStart j =>
      Some (fun o =>
        match OpenFile name [O_CREATE; O_WRONLY; O_APPEND] 420 o with
        | (Ok file, o') => (LOpened j file, o')
        | (Err e, o') => (LDone j (Err e), o')
        end)
  | LOpened j file =>
      Some (fun o =>
        let '(r, o') := File_WriteString file (Marshal (members j) +:+ String LF "") o in
        (LWritten j file r, o'))
  | LWritten j file r =>
      Some (fun o =>
        (LDone j (match r with Ok _ => Ok tt | Err e => Err e end), close_deferred file o))
  | LDone _ _ => None
  end.

Definition line_left (pc : LinePC) : nat :=
  match pc with
  | LStart _ => 3
  | LOpened _ _ => 2
  | LWritten _ _ _ => 1
  | LDone _ _ => 0
  end.

#[export] Program Instance line_caller (name : string) : Caller LinePC :=
  {| next := line_next name; left := line_left |}.
Next Obligation.
  intros name [j|j fd|j fd r|j r] c o [= <-]; simpl; [|destruct (File_WriteString _ _ _)|];
    [destruct (OpenFile _ _ _ _) as [[]]|..]; simpl; lia.
Qed.

(** What the callers hold and what they have written. *)
Definition held (pc : LinePC) : list nat :=
  match pc with
  | LOpened _ file | LWritten _ file _ => [file]
  | _ => []
  end.

Definition wrote (pc : LinePC) : list logToJSON :=
  match pc with
  | LWritten j _ (Ok _) | LDone j (Ok _) => [j]
  | _ => []
  end.

Definition record_of (pc : LinePC) : logToJSON :=
  match pc with
  | LStart j | LOpened j _ | LWritten j _ _ | LDone j _ => j
  end.

(** No call of the caller has failed. *)
Definition fine (pc : LinePC) : Prop :=
  match pc with
  | LWritten _ _ (Err _) | LDone _ (Err _) => False
  | _ => True
  end.

(** The invariant of a system of such callers on the log [name], which is
    at [k], from a state with the descriptors [F] below [n0] and the
    records [js0] in the log: the descriptors in use beyond those of the
    start are the ones the callers hold, each held by one caller and open
    on the log for appending; and the log holds [js0] and then the records
    of the callers that have written, in some order.  It does not look at
    the plan of faults. *)
Record line_inv (name : string) (k : list string) (F : gmap nat FileDesc) (n0 : nat)
    (js0 : list logToJSON) (o : OS) (pcs : list LinePC) : Prop := {
  inv_key : resolve (os_cwd o) name = k;
  inv_parent : node_at o (parent k) = Some NDir;
  inv_fds : fd_inv F n0 (list_to_set (pcs ≫= held)) o;
  inv_nodup : NoDup (pcs ≫= held);
  inv_open (fd : nat) :
    fd ∈ pcs ≫= held ->
    exists f d, os_fds o !! fd = Some f /\ of_key f = k /\ of_append f = true
                /\ os_nodes o !! k = Some (NFile d);
  inv_text :
    exists ws, ws ≡ₚ pcs ≫= wrote
      /\ (os_nodes o !! k = Some (NFile (linesText (js0 ++ ws)))
          \/ (js0 ++ ws = [] /\ os_nodes o !! k = None))
}.

(** ** The caller of part_001

    [saveToFile] of src/unnamed/part_001 in its library calls: the
    directory is made, the file is looked for and created when it is not
    there, it is opened and measured; an empty file takes the whole array
    in one write, another is cut by its last byte, sought and written.  The
    deferred closes are calls as well, the last deferred first. *)
Inductive ArrayPC : Type :=
| AStart (j : logToJSON)
| AMade (j : logToJSON)
| AMissing (j : logToJSON)
| AEnsured (j : logToJSON) (created : option nat)
| AOpened (j : logToJSON) (created : option nat) (file : nat)
| AMeasured (j : logToJSON) (created : option nat) (file : nat) (size : Z)
| ATruncated (j : logToJSON) (created : option nat) (file : nat)
| ASought (j : logToJSON) (created : option nat) (file : nat)
| AExit (j : logToJSON) (deferred : list nat) (r : result error unit).

(** The handles whose [Close] is deferred once the file is open. *)
Definition deferred_of (created : option nat) (file : nat) : list nat :=
  file :: from_option (fun fd => [fd]) [] created.

(** A call that goes on to [pc] or returns its error, wrapped. *)
Definition or_exit {A} (j : logToJSON) (deferred : list nat) (prefix : string)
    (pc : A -> ArrayPC) (m : M OS error A) (o : OS) : ArrayPC * OS :=
  match wrapErr (Errorf prefix) m o with
  | (Ok a, o') => (pc a, o')
  | (Err e, o') => (AExit j deferred (Err e), o')
  end.

Definition array_next (filePath : string) (pc : ArrayPC) : option (OS -> ArrayPC * OS) :=
  match pc with
  | AStart j =>
      Some (or_exit j [] "directory creation failed, " (fun _ => AMade j)
              (MkdirAll (Dir filePath) 493))
  | AMade j =>
      Some (fun o =>
        match ArraySink.fileExists filePath o with
        | (Ok there, o') => (if negb there then AMissing j else AEnsured j None, o')
        | (Err e, o') => (AExit j [] (Err e), o')
        end)
  | AMissing j =>
      Some (or_exit j [] "file creation failed, " (fun file => AEnsured j (Some file))
              (Create filePath))
  | AEnsured j created =>
      Some (or_exit j (from_option (fun fd => [fd]) [] created) "file open failed, "
              (AOpened j created) (OpenFile filePath [O_RDWR] 420))
  | AOpened j created file =>
      Some (or_exit j (deferred_of created file) "file stat failed, "
              (fun stat => AMeasured j created file (fi_size stat)) (File_Stat file))
  | AMeasured j created file size =>
      let jsonData := MarshalIndent (members j) "  " "  " in
      if (size =? 0)%Z then
        Some (or_exit j (deferred_of created file) "initial write failed, "
                (fun _ => AExit j (deferred_of created file) (Ok tt))
                (File_WriteString file ("[" +:+ String LF "  " +:+ jsonData +:+ String LF "]")))
      else
        Some (or_exit j (deferred_of created file) "truncate failed, "
                (fun _ => ATruncated j created file) (File_Truncate file (size - 1)))
  | ATruncated j created file =>
      Some (or_exit j (deferred_of created file) "seek failed, "
              (fun _ => ASought j created file) (File_Seek file (-1) SeekEnd))
  | ASought j created file =>
      let jsonData := MarshalIndent (members j) "  " "  " in
      Some (or_exit j (deferred_of created file) "append failed, "
              (fun _ => AExit j (deferred_of created file) (Ok tt))
              (File_WriteString file ("," +:+ String LF "  " +:+ jsonData +:+ String LF "]")))
  | AExit j (fd :: deferred) r => Some (fun o => (AExit j deferred r, close_deferred fd o))
  | AExit _ [] _ => None
  end.

Definition array_left (pc : ArrayPC) : nat :=
  match pc with
  | AStart _ => 10
  | AMade _ => 9
  | AMissing _ => 8
  | AEnsured _ _ => 7
  | AOpened _ _ _ => 6
  | AMeasured _ _ _ _ => 5
  | ATruncated _ _ _ => 4
  | ASought _ _ _ => 3
  | AExit _ deferred _ => length deferred
  end.

Lemma or_exit_left {A} (j : logToJSON) (deferred : list nat) (prefix : string)
    (pc : A -> ArrayPC) (m : M OS error A) (o : OS) (n : nat) :
  length deferred < n -> (forall a, array_left (pc a) < n) ->
  array_left (or_exit j deferred prefix pc m o).1 < n.
Proof. intros Hd Hpc. unfold or_exit, wrapErr. destruct (m o) as [[a|e] o']; simpl; auto. Qed.

Lemma length_deferred_of (created : option nat) (file : nat) :
  length (deferred_of created file) <= 2.
Proof. destruct created; simpl; lia. Qed.

#[export] Program Instance array_caller (filePath : string) : Caller ArrayPC :=
  {| next := array_next filePath; left := array_left |}.
Next Obligation.
  intros p pc c o Hc.
  assert (forall cr f, length (deferred_of cr f) < 3)
    by (intros cr f; pose proof (length_deferred_of cr f); lia).
  destruct pc as [j|j|j|j cr|j cr f|j cr f sz|j cr f|j cr f|j [|fd ds] r]; simpl in Hc;
    try case_match; simplify_eq; simpl; try lia;
    try (apply or_exit_left; [|intros; simpl]; try destruct cr; simpl; by (lia || eauto with lia)).
  destruct (ArraySink.fileExists p o) as [[[]|e] o']; simpl; lia.
Qed.

(** A log of one record and two callers of part_001 with a record each. *)
Definition shared : OS * list ArrayPC :=
  ((ArraySink.saveToFile sample "log.json" empty_OS).2,
   [AStart ArraySink.sample1; AStart sample]).

(** The first caller cuts the bracket, the second measures the file, the
    first writes and returns, the second goes on. *)
Definition stale_cut : list nat := [0; 0; 0; 0; 0; 1; 1; 1; 1; 0; 0; 0; 1; 1; 1; 1].

(** ** Every schedule ends *)

Section Termination.
Context {PC : Type} `{!Caller PC}.

Lemma calls_left_step (s s' : OS * list PC) : step s s' -> calls_left s' < calls_left s.
Proof.
  intros [l1 pc l2 c o Hc]. unfold calls_left. simpl.
  rewrite !sum_list_with_app. simpl.
  pose proof (left_next pc c o Hc). lia.
Qed.

Lemma not_returned (s : OS * list PC) : returned s \/ exists s', step s s'.
Proof.
  destruct s as [o pcs]. unfold returned. simpl.
  induction pcs as [|pc pcs IH]; [by left|].
  destruct (next pc) as [c|] eqn:Hc.
  - right. eexists. by apply (step_at [] pc pcs c o).
  - destruct IH as [IH|[s' Hs']]; [left; by constructor|right].
    inversion Hs' as [l1 pc' l2 c o' Hc' Heq]; subst.
    eexists. by apply (step_at (pc :: l1) pc' l2 c o).
Qed.

(** On every schedule, all callers return. *)
Lemma returns (s : OS * list PC) : eventually step returned s.
Proof.
  apply (eventually_measure step (fun _ => True) returned calls_left); [|done].
  intros s' _. destruct (not_returned s') as [?|?]; [by left|right]. split; [done|].
  intros s'' Hs. split; [done|by apply calls_left_step].
Qed.

End Termination.

(** ** The caller of src/main.go, alone *)

(** The three calls in a row are [appendTo]. *)
Lemma alone_appendTo (name : string) (j : logToJSON) (o : OS) :
  alone (Caller0:=line_caller name) 3 (LStart j) o
  = (LDone j (appendTo name j o).1, (appendTo name j o).2).
Proof.
  unfold appendTo, jsonMarshal, bind, defer_, ret. simpl.
  destruct (OpenFile _ _ _ o) as [[file|e] o1]; [|done]. simpl.
  by destruct (File_WriteString _ _ o1) as [[n|e] o2].
Qed.

Lemma alone_S {PC} `{!Caller PC} (fuel : nat) (pc : PC) (o : OS) :
  alone (S fuel) pc o
  = match next pc with
    | Some c => alone fuel (c o).1 (c o).2
    | None => (pc, o)
    end.
Proof. done. Qed.

(** Fuel beyond the calls left changes nothing. *)
Lemma alone_add {PC} `{!Caller PC} (n m : nat) (pc : PC) (o : OS) :
  left pc <= n -> alone (n + m) pc o = alone n pc o.
Proof.
  revert pc o. induction n as [|n IH]; intros pc o Hn; simpl.
  - destruct m; [done|]. simpl. destruct (next pc) as [c|] eqn:Hc; [|done].
    pose proof (left_next pc c o Hc). lia.
  - destruct (next pc) as [c|] eqn:Hc; [|done]. apply IH.
    pose proof (left_next pc c o Hc). lia.
Qed.

#[local] Arguments alone : simpl never.

(** Calls one after the other. *)
Lemma alone_app {PC} `{!Caller PC} (n k : nat) (pc : PC) (o : OS) :
  alone (n + k) pc o = alone k (alone n pc o).1 (alone n pc o).2.
Proof.
  revert pc o. induction n as [|n IH]; intros pc o; [done|].
  change (S n + k) with (S (n + k)). rewrite !alone_S.
  destruct (next pc) as [c|] eqn:Hc; [apply IH|]. cbn [fst snd].
  destruct k; [done|]. by rewrite alone_S, Hc.
Qed.

(** One call of a caller alone. *)
Ltac call := rewrite alone_S; simpl; unfold or_exit, wrapErr.

(** The calls from the opening of the file on are [writeRecord] and the
    deferred close of the created file. *)
Lemma alone_writeRecord (filePath : string) (j : logToJSON) (created : option nat) (o : OS) :
  alone (Caller0:=array_caller filePath) 7 (AEnsured j created) o
  = (AExit j [] (defer_ (ArraySink.close_created created)
                   (ArraySink.writeRecord j filePath) o).1,
     (defer_ (ArraySink.close_created created) (ArraySink.writeRecord j filePath) o).2).
Proof.
  unfold ArraySink.writeRecord, ArraySink.jsonMarshalIndent, ArraySink.close_created,
    bind, defer_, ret, wrapErr.
  call. destruct (OpenFile _ _ _ o) as [[file|e] o1]; simpl; [|by destruct created; repeat call].
  call. destruct (File_Stat file o1) as [[st|e] o2]; simpl; [|by destruct created; repeat call].
  call. destruct (fi_size st =? 0)%Z; unfold or_exit, wrapErr.
  - destruct (File_WriteString file _ o2) as [[n|e] o3]; simpl; by destruct created; repeat call.
  - destruct (File_Truncate file _ o2) as [[[]|e] o3]; simpl; [|by destruct created; repeat call].
    call. destruct (File_Seek file _ _ o3) as [[n|e] o4]; simpl;
      [|by destruct created; repeat call].
    call. destruct (File_WriteString file _ o4) as [[n'|e] o5]; simpl;
      by destruct created; repeat call.
Qed.

(** The calls of the caller of part_001 in a row are [saveToFile]. *)
Lemma alone_saveToFile (filePath : string) (j : logToJSON) (o : OS) :
  alone (Caller0:=array_caller filePath) 10 (AStart j) o
  = (AExit j [] (ArraySink.saveToFile j filePath o).1, (ArraySink.saveToFile j filePath o).2).
Proof.
  unfold ArraySink.saveToFile, ArraySink.ensureFile, bind, ret, wrapErr.
  call. destruct (MkdirAll _ _ o) as [[[]|e] o1]; simpl; [|done].
  call. destruct (ArraySink.fileExists _ o1) as [[[]|e] o2]; simpl; [| |done].
  - rewrite (alone_add 7 1) by done. apply alone_writeRecord.
  - call. destruct (Create _ o2) as [[file|e] o3]; simpl; [|done]. apply alone_writeRecord.
Qed.

(** ** Calls under a plan of faults

    A call either meets a fault, and then does nothing but use it up, or
    does what it does on a machine without faults and uses up one entry of
    the plan, if there is one. *)

(** A body that does not look at the plan. *)
Definition oblivious {A} (body : OS -> result Errno A * OS) : Prop :=
  forall fs o, body (with_faults fs o) = ((body o).1, with_faults fs (body o).2).

Lemma syscall_plan {A} (op name : string) (body : OS -> result Errno A * OS) (o : OS) :
  oblivious body ->
  match os_faults o with
  | Some e :: rest => syscall op name body o = (Err (PathError op name e), with_faults rest o)
  | _ => syscall op name body o
         = ((syscall op name body (with_faults [] o)).1,
            with_faults (tail (os_faults o)) (syscall op name body (with_faults [] o)).2)
  end.
Proof.
  intros Hb. unfold syscall. destruct (os_faults o) as [|[e|] rest] eqn:E; [|done|]; simpl.
  - rewrite <- (with_faults_id o) at 1. rewrite E, Hb. by destruct (body o) as [[a|e] o'].
  - rewrite !Hb. by destruct (body o) as [[a|e] o'].
Qed.

Lemma OpenFile_oblivious (name : string) (flags : list Flag) :
  oblivious (fun o =>
    let k := resolve (os_cwd o) name in
    match node_at o k with
    | Some NDir => (Err EISDIR, o)
    | Some (NFile d) =>
        let o1 := if has O_TRUNC flags
                  then with_nodes (insert k (NFile "")) o else o in
        let '(fd, o2) := new_fd name k flags o1 in (Ok fd, o2)
    | None =>
        if has O_CREATE flags then
          match node_at o (parent k) with
          | Some NDir =>
              let '(fd, o2) := new_fd name k flags (with_nodes (insert k (NFile "")) o) in
              (Ok fd, o2)
          | Some (NFile _) => (Err ENOTDIR, o)
          | None => (Err ENOENT, o)
          end
        else (Err (missing o k), o)
    end).
Proof.
  intros fs o. cbv zeta. unfold new_fd, missing.
  replace (node_at (with_faults fs o) (resolve (os_cwd (with_faults fs o)) name))
    with (node_at o (resolve (os_cwd o) name)) by done.
  replace (node_at (with_faults fs o) (parent (resolve (os_cwd (with_faults fs o)) name)))
    with (node_at o (parent (resolve (os_cwd o) name))) by done.
  by repeat case_match.
Qed.

Lemma OpenFile_plan (name : string) (flags : list Flag) (perm : N) (o : OS) :
  match os_faults o with
  | Some e :: rest =>
      OpenFile name flags perm o = (Err (PathError "open" name e), with_faults rest o)
  | _ => OpenFile name flags perm o
         = ((OpenFile name flags perm (with_faults [] o)).1,
            with_faults (tail (os_faults o)) (OpenFile name flags perm (with_faults [] o)).2)
  end.
Proof. apply syscall_plan, OpenFile_oblivious. Qed.

Lemma File_WriteString_plan (fd : nat) (f : FileDesc) (s : string) (o : OS) :
  os_fds o !! fd = Some f ->
  match os_faults o with
  | Some e :: rest =>
      File_WriteString fd s o = (Err (PathError "write" (of_name f) e), with_faults rest o)
  | _ => File_WriteString fd s o
         = ((File_WriteString fd s (with_faults [] o)).1,
            with_faults (tail (os_faults o)) (File_WriteString fd s (with_faults [] o)).2)
  end.
Proof.
  intros Hf. unfold File_WriteString, on_file. simpl. rewrite Hf. apply syscall_plan.
  intros fs o'. replace (node_at (with_faults fs o') (of_key f)) with (node_at o' (of_key f))
    by done. by repeat case_match.
Qed.

(** The descriptor is released whatever the plan. *)
Lemma close_deferred_plan (fd : nat) (f : FileDesc) (o : OS) :
  os_fds o !! fd = Some f ->
  close_deferred fd o = with_faults (tail (os_faults o)) (with_fds (delete fd) o).
Proof.
  intros Hf. unfold close_deferred, File_Close, syscall. rewrite Hf. simpl.
  destruct (os_faults o) as [|[e|] rest] eqn:E; simpl; [|done..].
  destruct o; simpl in *. by subst.
Qed.

(** ** The callers of src/main.go together *)

Lemma bind_middle {A B} (f : A -> list B) (l1 : list A) (x : A) (l2 : list A) :
  (l1 ++ x :: l2) ≫= f = (l1 ≫= f) ++ f x ++ (l2 ≫= f).
Proof. by rewrite bind_app, bind_cons. Qed.

(** Callers that hold and have written the same. *)
Definition same_work (pcs pcs' : list LinePC) : Prop :=
  pcs ≫= held = pcs' ≫= held /\ pcs ≫= wrote = pcs' ≫= wrote.

#[export] Instance same_work_equivalence : Equivalence same_work.
Proof.
  split; [by intros pcs|by intros pcs pcs' [??]|].
  intros a b c [??] [??]. split; congruence.
Qed.

Lemma same_work_middle (l1 l2 : list LinePC) (pc pc' : LinePC) :
  held pc = held pc' -> wrote pc = wrote pc' -> same_work (l1 ++ pc :: l2) (l1 ++ pc' :: l2).
Proof. intros Hh Hw. split; rewrite !bind_middle; congruence. Qed.

Section Lines.
Context (name : string) (k : list string) (Hk : k <> []).
Context (F : gmap nat FileDesc) (n0 : nat) (js0 : list logToJSON).

Local Abbreviation inv := (line_inv name k F n0 js0).

Lemma list_to_set_middle (a b : list nat) (x : nat) :
  list_to_set (a ++ x :: b) = list_to_set (a ++ b) ∪ ({[x]} : gset nat).
Proof. rewrite !list_to_set_app_L, list_to_set_cons. set_solver. Qed.

Lemma elem_of_middle (a b : list nat) (x y : nat) :
  y ∈ a ++ x :: b -> y <> x -> y ∈ a ++ b.
Proof. rewrite !elem_of_app, elem_of_cons. naive_solver. Qed.

Lemma list_to_set_without (a b : list nat) (x : nat) :
  NoDup (a ++ x :: b) -> list_to_set (a ++ b) = list_to_set (a ++ x :: b) ∖ ({[x]} : gset nat).
Proof.
  intros H. rewrite <- Permutation_middle in H. apply NoDup_cons in H as [Hx _].
  rewrite list_to_set_middle. apply (not_elem_of_list_to_set (C:=gset nat)) in Hx. set_solver.
Qed.

(** The invariant does not look at the plan, nor at the callers beyond
    what they hold and what they have written. *)
#[local] Instance inv_proper : Proper ((≡) ==> same_work ==> iff) inv.
Proof.
  assert (forall o o' pcs pcs', o ≡ o' -> same_work pcs pcs' -> inv o pcs -> inv o' pcs') as H.
  { intros o o' pcs pcs' Ho [Hh Hw] [Hr Hp Hfd Hnd Hop Htx].
    split; try setoid_rewrite <- Ho; rewrite <- ?Hh, <- ?Hw; done. }
  intros o o' Ho pcs pcs' Hpcs. split; apply H; done.
Qed.

(** The file is there once a caller holds it. *)
Lemma inv_file (o : OS) (pcs : list LinePC) (fd : nat) :
  inv o pcs -> fd ∈ pcs ≫= held ->
  exists f ws, os_fds o !! fd = Some f /\ of_key f = k /\ of_append f = true
    /\ ws ≡ₚ pcs ≫= wrote /\ os_nodes o !! k = Some (NFile (linesText (js0 ++ ws))).
Proof.
  intros H Hfd. destruct (inv_open _ _ _ _ _ _ _ H fd Hfd) as (f & d & Hf & Hkf & Ha & Hd).
  destruct (inv_text _ _ _ _ _ _ _ H) as (ws & Hws & [Hn|[_ Hn]]); [|congruence].
  by exists f, ws.
Qed.

(** A caller opens the log. *)
Lemma inv_opened (o : OS) (l1 l2 : list LinePC) (j : logToJSON) :
  os_faults o = [] -> inv o (l1 ++ LStart j :: l2) ->
  exists o', OpenFile name [O_CREATE; O_WRONLY; O_APPEND] 420 o = (Ok (os_next o), o')
    /\ inv o' (l1 ++ LOpened j (os_next o) :: l2).
Proof.
  intros Hnf [Hr Hp Hfd Hnd Hop (ws & Hws & Htx)].
  rewrite (bind_middle held) in Hfd, Hnd, Hop. rewrite (bind_middle wrote) in Hws.
  simpl in *. pose proof (fd_inv_fresh _ _ _ _ Hfd) as Hfresh.
  set (o1 := match os_nodes o !! k with
             | None => with_nodes (insert k (NFile "")) o
             | _ => o
             end).
  assert (OpenFile name [O_CREATE; O_WRONLY; O_APPEND] 420 o
          = (Ok (os_next o), (new_fd name k [O_CREATE; O_WRONLY; O_APPEND] o1).2)
          /\ os_nodes o1 !! k = Some (NFile (linesText (js0 ++ ws)))) as [Hopen Hthere].
  { subst o1. destruct Htx as [Hd|[Hnil Hd]]; rewrite Hd.
    - split; [|done]. rewrite <- Hr. eapply OpenFile_existing; [done| |done].
      by rewrite Hr, node_at_ne.
    - rewrite Hnil. split; [|simpl; apply lookup_insert_eq].
      rewrite <- Hr. apply OpenFile_creates; [done| | |done]; rewrite Hr; [|done].
      by rewrite node_at_ne. }
  assert (os_fds o1 = os_fds o /\ os_next o1 = os_next o /\ os_faults o1 = []
          /\ os_cwd o1 = os_cwd o /\ node_at o1 (parent k) = Some NDir
          /\ fd_inv F n0 (list_to_set ((l1 ≫= held) ++ l2 ≫= held)) o1) as (E1 & E2 & E3 & E4 & E5 & E6).
  { subst o1. destruct (os_nodes o !! k); [done|].
    split_and!; [done..| |by apply fd_inv_nodes]. by rewrite parent_insert. }
  exists (new_fd name k [O_CREATE; O_WRONLY; O_APPEND] o1).2. split; [done|].
  rewrite <- E2. split; rewrite ?bind_middle; simpl; try done.
  - by rewrite E4.
  - rewrite list_to_set_middle. by apply fd_inv_new.
  - rewrite <- Permutation_middle. apply NoDup_cons. split; [|done].
    intros Hx. apply Hfresh. rewrite <- E2. by apply elem_of_list_to_set.
  - intros fd Hfd'. rewrite E1.
    destruct (decide (fd = os_next o1)) as [->|Hne].
    + rewrite lookup_insert_eq. by eexists _, _.
    + rewrite lookup_insert_ne by done.
      destruct (Hop fd) as (f & d & Hf & Hkf & Ha & Hd); [by eapply elem_of_middle|].
      exists f, (linesText (js0 ++ ws)). by rewrite Hthere.
  - exists ws. split; [done|by left].
Qed.

(** A caller writes its line. *)
Lemma inv_written (o : OS) (l1 l2 : list LinePC) (j : logToJSON) (fd : nat) :
  os_faults o = [] -> inv o (l1 ++ LOpened j fd :: l2) ->
  exists o', File_WriteString fd (lineText j) o = (Ok (String.length (lineText j)), o')
    /\ inv o' (l1 ++ LWritten j fd (Ok (String.length (lineText j))) :: l2).
Proof.
  intros Hnf H. pose proof H as [Hr Hp Hfd Hnd Hop _].
  destruct (inv_file o _ fd H) as (f & ws & Hf & Hkf & Ha & Hws & Hd).
  { rewrite bind_middle. set_solver. }
  rewrite (bind_middle held) in Hfd, Hnd, Hop. rewrite (bind_middle wrote) in Hws.
  simpl in *. eexists. split.
  { rewrite (File_WriteString_run o Hnf fd f (linesText (js0 ++ ws)))
      by (by rewrite ?Hkf, ?node_at_ne).
    cbv zeta. by rewrite Ha, Hkf, write_at_end. }
  split; rewrite ?bind_middle; simpl; try done.
  - exact (eq_trans (parent_insert k Hk _ o) Hp).
  - apply fd_inv_update; [apply elem_of_list_to_set; set_solver|by apply fd_inv_nodes].
  - intros fd' Hfd'. rewrite lookup_insert_eq.
    destruct (decide (fd' = fd)) as [->|Hne].
    + rewrite lookup_insert_eq. by eexists _, _.
    + rewrite lookup_insert_ne by done.
      destruct (Hop fd' Hfd') as (f' & d' & Hf' & ? & ? & _). by eexists _, _.
  - exists (ws ++ [j]). split.
    + rewrite Hws. etrans; [symmetry; apply Permutation_cons_append|apply Permutation_middle].
    + left. by rewrite lookup_insert_eq, app_assoc, linesText_snoc.
Qed.

(** A caller closes the log, whatever it wrote and whatever the plan. *)
Lemma inv_closed (o : OS) (l1 l2 : list LinePC) (j : logToJSON) (fd : nat)
    (r : result error nat) :
  inv o (l1 ++ LWritten j fd r :: l2) ->
  inv (close_deferred fd o)
    (l1 ++ LDone j (match r with Ok _ => Ok tt | Err e => Err e end) :: l2).
Proof.
  intros [Hr Hp Hfd Hnd Hop (ws & Hws & Htx)].
  rewrite (bind_middle held) in Hfd, Hnd, Hop. rewrite (bind_middle wrote) in Hws.
  simpl in *. destruct (Hop fd) as (f & d & Hf & _); [set_solver|].
  rewrite (close_deferred_plan fd f o Hf), with_faults_equiv.
  split; rewrite ?bind_middle; simpl; try done.
  - rewrite (list_to_set_without _ _ fd Hnd).
    apply fd_inv_delete; [apply elem_of_list_to_set; set_solver|done].
  - rewrite <- Permutation_middle in Hnd. by apply NoDup_cons in Hnd as [_ ?].
  - intros fd' Hfd'. rewrite <- Permutation_middle in Hnd. apply NoDup_cons in Hnd as [Hx _].
    assert (fd' <> fd) as Hne by (by intros ->).
    rewrite lookup_delete_ne by done. apply Hop. rewrite !elem_of_app, elem_of_cons in *.
    naive_solver.
  - exists ws. split; [|done]. by destruct r.
Qed.

(** Every step keeps the invariant, whatever the plan: a call that meets
    a fault changes nothing but the plan, and a call that meets none does
    what it does on a machine without faults. *)
Lemma inv_step (s s' : OS * list LinePC) :
  step (Caller0:=line_caller name) s s' -> inv s.1 s.2 -> inv s'.1 s'.2.
Proof.
  intros [l1 pc l2 c o Hc] H. simpl in *.
  destruct pc as [j|j fd|j fd r|j r]; simplify_eq/=; [| |by apply inv_closed].
  - pose proof (OpenFile_plan name [O_CREATE; O_WRONLY; O_APPEND] 420 o) as Hp.
    destruct (inv_opened (with_faults [] o) l1 l2 j eq_refl) as (o' & Ho & H');
      [by rewrite with_faults_equiv|].
    destruct (os_faults o) as [|[e|] rest]; rewrite Hp, ?Ho; simpl; rewrite with_faults_equiv;
      [done|by rewrite (same_work_middle _ _ _ (LStart j))|done].
  - destruct (inv_file o _ fd H) as (f & _ & Hf & _); [rewrite bind_middle; set_solver|].
    pose proof (File_WriteString_plan fd f (Marshal (members j) +:+ String LF "") o Hf) as Hp.
    destruct (inv_written (with_faults [] o) l1 l2 j fd eq_refl) as (o' & Ho & H');
      [by rewrite with_faults_equiv|]. unfold lineText in Ho.
    destruct (os_faults o) as [|[e|] rest]; rewrite Hp, ?Ho; simpl; rewrite with_faults_equiv;
      [done|by rewrite (same_work_middle _ _ _ (LOpened j fd))|done].
Qed.

Lemma inv_runs (s s' : OS * list LinePC) :
  runs (Caller0:=line_caller name) s s' -> inv s.1 s.2 -> inv s'.1 s'.2.
Proof. induction 1; eauto using inv_step. Qed.

(** Without faults no call fails. *)
Lemma fine_step (s s' : OS * list LinePC) :
  step (Caller0:=line_caller name) s s' -> inv s.1 s.2 ->
  os_faults s.1 = [] /\ Forall fine s.2 -> os_faults s'.1 = [] /\ Forall fine s'.2.
Proof.
  intros [l1 pc l2 c o Hc] H [Hnf Hfine]. simpl in *.
  apply Forall_app in Hfine as [H1 H2]. apply Forall_cons in H2 as [Hpc H2].
  rewrite Forall_app, Forall_cons.
  destruct pc as [j|j fd|j fd [n|e]|j r]; simplify_eq/=; try done.
  - destruct (inv_opened o l1 l2 j Hnf H) as (o' & Ho & _). rewrite Ho. simpl.
    pose proof (OpenFile_faults name [O_CREATE; O_WRONLY; O_APPEND] 420 o) as Hf.
    rewrite Ho, Hnf in Hf. done.
  - destruct (inv_file o _ fd H) as (f & _ & Hf & _); [rewrite bind_middle; set_solver|].
    destruct (inv_written o l1 l2 j fd Hnf H) as (o' & Ho & _). unfold lineText in Ho.
    pose proof (File_WriteString_plan fd f (Marshal (members j) +:+ String LF "") o Hf) as Hp.
    rewrite Hnf in Hp. apply (f_equal (fun x => os_faults x.2)) in Hp.
    rewrite Ho in Hp |- *. done.
  - destruct (inv_file o _ fd H) as (f & _ & Hf & _); [rewrite bind_middle; set_solver|].
    by rewrite (close_deferred_plan fd f o Hf), Hnf.
Qed.

Lemma fine_runs (s s' : OS * list LinePC) :
  runs (Caller0:=line_caller name) s s' -> inv s.1 s.2 ->
  os_faults s.1 = [] /\ Forall fine s.2 -> os_faults s'.1 = [] /\ Forall fine s'.2.
Proof. induction 1; eauto using inv_step, fine_step. Qed.

(** The callers keep their records. *)
Lemma records_step (s s' : OS * list LinePC) :
  step (Caller0:=line_caller name) s s' -> record_of <$> s'.2 = record_of <$> s.2.
Proof.
  intros [l1 pc l2 c o Hc]. simpl. rewrite !fmap_app, !fmap_cons. do 2 f_equal.
  destruct pc as [j|j fd|j fd r|j r]; simplify_eq/=; [|by destruct (File_WriteString _ _ _)|done].
  by destruct (OpenFile _ _ _ _) as [[]].
Qed.

Lemma records_runs (s s' : OS * list LinePC) :
  runs (Caller0:=line_caller name) s s' -> record_of <$> s'.2 = record_of <$> s.2.
Proof. induction 1 as [|s1 s2 s3 H12 _ IH]; [done|]. by rewrite IH, (records_step _ _ H12). Qed.

(** Callers that have returned hold nothing; those without a failed call
    have written their records. *)
Lemma returned_held (pcs : list LinePC) :
  Forall (fun pc => line_next name pc = None) pcs -> pcs ≫= held = [].
Proof.
  induction 1 as [|pc pcs Hpc _ IH]; [done|]. rewrite bind_cons, IH.
  by destruct pc.
Qed.

Lemma returned_wrote (pcs : list LinePC) :
  Forall fine pcs -> Forall (fun pc => line_next name pc = None) pcs ->
  pcs ≫= wrote = record_of <$> pcs
  /\ pcs = (fun j => LDone j (Ok tt)) <$> (record_of <$> pcs).
Proof.
  induction 1 as [|pc pcs Hpc _ IH]; intros Hr; [done|].
  apply Forall_cons in Hr as [Hpc' Hr]. destruct (IH Hr) as (IH1 & IH2).
  destruct pc as [j|j fd|j fd r|j [[]|e]]; try done.
  rewrite !bind_cons, !fmap_cons, IH1, <- IH2. done.
Qed.

End Lines.

Lemma held_start (js : list logToJSON) : (LStart <$> js) ≫= held = [].
Proof. induction js as [|j js IH]; [done|]. by rewrite fmap_cons, bind_cons, IH. Qed.

Lemma wrote_start (js : list logToJSON) : (LStart <$> js) ≫= wrote = [].
Proof. induction js as [|j js IH]; [done|]. by rewrite fmap_cons, bind_cons, IH. Qed.

Lemma records_start (js : list logToJSON) : record_of <$> (LStart <$> js) = js.
Proof. rewrite <- list_fmap_compose. apply list_fmap_id. Qed.

(** The invariant holds when no caller has started. *)
Lemma inv_start (name : string) (o : OS) (js0 js : list logToJSON) :
  usable o name -> stored o name js0 ->
  line_inv name (resolve (os_cwd o) name) (os_fds o) (os_next o) js0 o (LStart <$> js).
Proof.
  intros Hu Hst. pose proof Hu as (Hb & Hne & Hp & Hd).
  destruct (stored_at_rest o name js0 Hu Hst) as (_ & _ & _ & Htx).
  split; rewrite ?held_start, ?wrote_start; try done.
  - by apply fd_inv_init.
  - constructor.
  - by intros fd ?%elem_of_nil.
  - exists []. rewrite app_nil_r. split; [done|].
    destruct Htx as [?|[->%linesText_nil ?]]; [by left|by right].
Qed.

(** What the invariant says when all callers have returned. *)
Lemma inv_returned (name : string) (o o' : OS) (js0 : list logToJSON) (pcs : list LinePC) :
  fds_bounded o -> resolve (os_cwd o) name <> [] ->
  line_inv name (resolve (os_cwd o) name) (os_fds o) (os_next o) js0 o' pcs ->
  Forall (fun pc => line_next name pc = None) pcs ->
  (exists ws, ws ≡ₚ pcs ≫= wrote /\ stored o' name (js0 ++ ws))
  /\ usable o' name /\ os_fds o' = os_fds o.
Proof.
  intros Hb Hne [Hr Hp Hfd Hnd Hop (ws & Hws & Htx)] Hret.
  rewrite (returned_held name pcs Hret) in Hfd.
  destruct (fd_inv_done o o' Hb Hfd) as [Hfds Hb'].
  split; [exists ws; split; [done|]|split; [|done]].
  - unfold stored. rewrite content_node, Hr by (by rewrite Hr).
    destruct Htx as [->|[-> ->]]; auto.
  - unfold usable. rewrite Hr. split_and!; [done..|]. by destruct Htx as [->|[_ ->]].
Qed.

(** A schedule is a run. *)
Lemma turn_runs {PC : Type} `{!Caller PC} (i : nat) (s : OS * list PC) : runs s (turn i s).
Proof.
  unfold turn. destruct s as [o pcs]. simpl.
  destruct (pcs !! i) as [pc|] eqn:Hi; [|done]. destruct (next pc) as [c|] eqn:Hc; [|done].
  apply rtc_once. destruct (list_elem_of_split_length pcs i pc Hi) as (l1 & l2 & -> & ->).
  rewrite insert_app_r_alt, Nat.sub_diag by done. by apply step_at.
Qed.

Lemma schedule_runs {PC : Type} `{!Caller PC} (l : list nat) (s : OS * list PC) :
  runs s (schedule l s).
Proof.
  revert s. induction l as [|i l IH]; intros s; [done|].
  etrans; [apply (turn_runs i)|apply IH].
Qed.

(** A step is the turn of the caller that makes it. *)
Lemma step_turn {PC : Type} `{!Caller PC} (s s' : OS * list PC) :
  step s s' -> exists i, turn i s = s'.
Proof.
  intros [l1 pc l2 c o Hc]. exists (length l1). unfold turn. simpl.
  rewrite list_lookup_middle by done. rewrite Hc.
  by rewrite insert_app_r_alt, Nat.sub_diag by done.
Qed.

(** A run is a schedule, of no more turns than the callers have calls left:
    what holds of every schedule holds of every run, and the other way
    round. *)
Lemma runs_schedule {PC : Type} `{!Caller PC} (s s' : OS * list PC) :
  runs s s' <-> exists l, schedule l s = s' /\ length l + calls_left s' <= calls_left s.
Proof.
  split; [|intros (l & <- & _); apply schedule_runs].
  induction 1 as [s|s s1 s' Hs _ (l & <- & Hl)]; [by exists []; split; [|simpl; lia]|].
  pose proof (calls_left_step _ _ Hs). destruct (step_turn _ _ Hs) as [i <-].
  exists (i :: l). split; [done|simpl; lia].
Qed.

(** Whatever the schedule and the plan, when the callers of src/main.go
    have returned the log holds what it held and then the records of the
    callers that returned nil, each whole and once; without faults these
    are all callers. *)
Lemma runs_returned (name : string) (o : OS) (js0 js : list logToJSON)
    (s : OS * list LinePC) :
  usable o name -> stored o name js0 ->
  runs (Caller0:=line_caller name) (o, LStart <$> js) s ->
  returned (Caller0:=line_caller name) s ->
  record_of <$> s.2 = js
  /\ (exists ws, ws ≡ₚ s.2 ≫= wrote /\ stored s.1 name (js0 ++ ws))
  /\ usable s.1 name /\ os_fds s.1 = os_fds o
  /\ (os_faults o = [] -> s.2 = (fun j => LDone j (Ok tt)) <$> js).
Proof.
  intros Hu Hst Hruns Hret. pose proof Hu as (_ & Hne & _).
  pose proof (inv_start name o js0 js Hu Hst) as H0.
  pose proof (inv_runs name _ Hne _ _ _ _ _ Hruns H0) as Hinv.
  pose proof (records_runs name _ Hne _ _ Hruns) as Hr. simpl in Hr. rewrite records_start in Hr.
  destruct (inv_returned name o s.1 js0 s.2 (proj1 Hu) Hne Hinv Hret) as (Hws & Hu' & Hfd).
  split_and!; try done. intros Hnf.
  destruct (fine_runs name _ Hne _ _ _ _ _ Hruns H0) as [_ Hfine].
  { split; [done|]. by apply Forall_fmap, Forall_true. }
  destruct (returned_wrote name s.2 Hfine Hret) as [_ Hall]. by rewrite Hr in Hall.
Qed.

(** ** The callers of part_001 together *)

(** A caller alone is a run of the system. *)
Lemma alone_runs {PC} `{!Caller PC} (fuel : nat) (l1 : list PC) (pc : PC) (l2 : list PC)
    (o : OS) :
  runs (o, l1 ++ pc :: l2) ((alone fuel pc o).2, l1 ++ (alone fuel pc o).1 :: l2).
Proof.
  revert pc o. induction fuel as [|fuel IH]; intros pc o; [apply rtc_refl|].
  rewrite alone_S. destruct (next pc) as [c|] eqn:Hc; [|apply rtc_refl].
  eapply rtc_l; [by apply step_at|apply IH].
Qed.

(** A caller makes some of its calls, another makes some of its own, and
    the first goes on. *)
Lemma alone_between {PC} `{!Caller PC} (n1 n2 n3 : nat) (a b a1 b2 a3 : PC)
    (o o1 o2 o3 : OS) :
  alone n1 a o = (a1, o1) -> alone n2 b o1 = (b2, o2) -> alone n3 a1 o2 = (a3, o3) ->
  runs (o, [a; b]) (o3, [a3; b2]).
Proof.
  intros H1 H2 H3.
  etrans; [apply (alone_runs n1 [] a [b])|]. rewrite H1. cbn [fst snd app].
  etrans; [apply (alone_runs n2 [a1] b [])|]. rewrite H2. cbn [fst snd app].
  pose proof (alone_runs n3 [] a1 [b2] o2) as Hr. by rewrite H3 in Hr.
Qed.

(** The calls up to the measure, on a file that is there: the directory
    is made, the file found, opened and measured, and the path can still
    be saved to. *)
Lemma opens_measured (o : OS) (p d : string) :
  savable o p -> content o p = Some d ->
  exists o1 oA f,
    MkdirAll (Dir p) 493 o = (Ok tt, o1)
    /\ ArraySink.fileExists p o1 = (Ok true, o1)
    /\ OpenFile p [O_RDWR] 420 o1 = (Ok (os_next o), oA)
    /\ File_Stat (os_next o) oA
       = (Ok {| fi_size := Z.of_nat (String.length d); fi_isDir := false |}, oA)
    /\ os_fds oA = <[os_next o := f]> (os_fds o)
    /\ of_key f = resolve (os_cwd o) p /\ of_append f = false
    /\ savable oA p /\ content oA p = Some d /\ os_cwd oA = os_cwd o.
Proof.
  intros (Hnf & Hb & Hname & Hfree & Hnd) Hd. rewrite content_node in Hd by apply Hname.
  destruct (os_nodes o !! resolve (os_cwd o) p) as [[|d']|] eqn:Hk; simplify_eq.
  destruct (ArraySink.ensure_mkdir o p Hnf Hname Hfree) as (m & Hm & Hmk & Hdir).
  rewrite Hk in Hmk. set (o1 := with_nodes (fun _ => m) o).
  assert (Hn1 : node_at o1 (resolve (os_cwd o1) p) = Some (NFile d))
    by (by rewrite node_at_ne by apply Hname).
  exists o1. eexists _, _. split_and!.
  - by apply MkdirAll_run.
  - by apply (ArraySink.fileExists_found o p Hnf Hname m _ Hmk).
  - exact (OpenFile_existing o1 Hnf p [O_RDWR] 420 d Hn1 eq_refl).
  - erewrite File_Stat_run; [done|done|apply lookup_insert_eq|done].
  - done.
  - done.
  - done.
  - split_and!; simpl; [done| |done| |by rewrite Hmk].
    + intros fd f. simpl. rewrite lookup_insert_Some. intros [[<- _]|[_ Hf]]; [lia|].
      apply Hb in Hf. lia.
    + intros k d' Hw. by rewrite (mkdir_chain_on_way _ _ _ _ _ Hm Hw).
  - rewrite content_node by apply Hname. simpl. by rewrite Hmk.
  - done.
Qed.

Section Stale.
Context (p : string) (a : logToJSON).

(** The first four calls on a file that is there: the caller holds the
    file open and has its size. *)
Lemma alone_measures (o : OS) (d : string) :
  savable o p -> content o p = Some d ->
  exists oA f,
    alone (Caller0:=array_caller p) 4 (AStart a) o
    = (AMeasured a None (os_next o) (Z.of_nat (String.length d)), oA)
    /\ os_fds oA = <[os_next o := f]> (os_fds o)
    /\ of_key f = resolve (os_cwd o) p /\ of_append f = false
    /\ savable oA p /\ content oA p = Some d /\ os_cwd oA = os_cwd o.
Proof.
  intros Hs Hd.
  destruct (opens_measured o p d Hs Hd) as (o1 & oA & f & Hmk & Hex & Hop & Hst & Hrest).
  exists oA, f. split; [|done].
  call. rewrite Hmk. simpl. call. rewrite Hex. simpl. call. rewrite Hop. simpl.
  call. by rewrite Hst.
Qed.

(** The last four calls with the size [n] the caller measured, on a file
    that may have changed since: the file is cut to [n - 1] bytes and the
    entry is written from byte [n - 2] on. *)
Lemma alone_truncates (o : OS) (fd : nat) (f : FileDesc) (d : string) (n : nat) :
  os_fds o !! fd = Some f -> of_key f <> [] -> os_nodes o !! of_key f = Some (NFile d) ->
  os_faults o = [] -> 1 <= n ->
  alone (Caller0:=array_caller p) 1 (AMeasured a None fd (Z.of_nat n)) o
  = (ATruncated a None fd, with_nodes (insert (of_key f) (NFile (resize (n - 1) d))) o).
Proof.
  intros Hfd Hne Hd Hnf Hn. call.
  destruct (Z.eqb_spec (Z.of_nat n) 0) as [|_]; [lia|]. unfold or_exit, wrapErr.
  erewrite File_Truncate_run; [|done|done|by rewrite node_at_ne|lia]. simpl.
  by replace (Z.to_nat (Z.of_nat n - 1)) with (n - 1) by lia.
Qed.

(** The calls after the cut: the record goes over the last byte of what
    the file holds then, and the file is closed. *)
Lemma alone_enters (o : OS) (fd : nat) (f : FileDesc) (d : string) :
  os_fds o !! fd = Some f -> of_key f <> [] -> os_nodes o !! of_key f = Some (NFile d) ->
  os_faults o = [] -> of_append f = false -> 1 <= String.length d ->
  exists o',
    alone (Caller0:=array_caller p) 3 (ATruncated a None fd) o = (AExit a [] (Ok tt), o')
    /\ os_nodes o'
       = <[of_key f := NFile (write_at (String.length d - 1) (ArraySink.nextEntry a) d)]>
           (os_nodes o)
    /\ os_fds o' = delete fd (os_fds o)
    /\ os_cwd o' = os_cwd o /\ os_next o' = os_next o /\ os_faults o' = [].
Proof.
  intros Hfd Hne Hd Hnf Hap Hn. eexists. split.
  - call. erewrite File_Seek_end; [|done|done|by rewrite node_at_ne|lia]. simpl.
    replace (Z.to_nat (Z.of_nat (String.length d) + -1)) with (String.length d - 1) by lia.
    call. erewrite File_WriteString_run;
      [|done|apply lookup_insert_eq|by simpl; rewrite node_at_ne].
    simpl. call. erewrite close_deferred_run; [|done|apply lookup_insert_eq]. done.
  - simpl. rewrite Hap, !insert_insert_eq, !delete_insert_eq. done.
Qed.

(** The cut and what follows it. *)
Lemma alone_cuts (o : OS) (fd : nat) (f : FileDesc) (d : string) (n : nat) :
  os_faults o = [] -> os_fds o !! fd = Some f -> of_append f = false ->
  of_key f <> [] -> os_nodes o !! of_key f = Some (NFile d) -> 2 <= n ->
  exists o',
    alone (Caller0:=array_caller p) 4 (AMeasured a None fd (Z.of_nat n)) o
    = (AExit a [] (Ok tt), o')
    /\ os_nodes o'
       = <[of_key f := NFile (write_at (n - 2) (ArraySink.nextEntry a) (resize (n - 1) d))]>
           (os_nodes o)
    /\ os_fds o' = delete fd (os_fds o)
    /\ os_cwd o' = os_cwd o /\ os_next o' = os_next o /\ os_faults o' = [].
Proof.
  intros Hnf Hfd Hap Hne Hd Hn.
  rewrite (alone_app 1 3), (alone_truncates o fd f d) by (done || lia). cbn [fst snd].
  destruct (alone_enters (with_nodes (insert (of_key f) (NFile (resize (n - 1) d))) o) fd f
              (resize (n - 1) d)) as (o' & -> & Hnodes & Hrest);
    [done|done|apply lookup_insert_eq|done|done|rewrite length_resize; lia|].
  exists o'. split; [done|]. split; [|done].
  rewrite Hnodes, length_resize. simpl. rewrite insert_insert_eq. do 3 f_equal. lia.
Qed.

(** A stale size on a file that has grown by an entry: the cut keeps one
    byte of the entry, and the write goes over it. *)
Lemma write_over_stale (s x y : string) :
  1 <= String.length y -> 1 <= String.length s ->
  write_at (String.length x) s (resize (String.length x + 1) (x +:+ y)) = x +:+ s.
Proof.
  intros Hy Hs. rewrite resize_le by (rewrite Str.length_app; lia).
  rewrite <- (Str.take_drop (String.length x) (Str.take _ (x +:+ y))).
  rewrite Str.take_take, Nat.min_l, Str.take_app_length by lia.
  apply write_at_tail. rewrite Str.length_drop, Str.length_take, Str.length_app. lia.
Qed.

Lemma stored_text (o : OS) (js : list logToJSON) :
  js <> [] -> ArraySink.stored o p js -> content o p = Some (ArraySink.arrayText js).
Proof. by destruct js. Qed.

Lemma content_file (o : OS) (d : string) :
  resolve (os_cwd o) p <> [] -> content o p = Some d ->
  os_nodes o !! resolve (os_cwd o) p = Some (NFile d).
Proof.
  intros Hne. rewrite content_node by done.
  destruct (os_nodes o !! _) as [[|d']|]; by intros [= ->].
Qed.

(** The first caller measures the file, the second saves its record, the
    first goes on with the size it has: the record of the second is cut
    off the file. *)
Lemma stale_size_run (o : OS) (js : list logToJSON) (b : logToJSON) :
  savable o p -> ArraySink.stored o p js -> js <> [] ->
  exists s, runs (Caller0:=array_caller p) (o, [AStart a; AStart b]) s
    /\ s.2 = [AExit a [] (Ok tt); AExit b [] (Ok tt)]
    /\ content s.1 p = Some (ArraySink.arrayText (js ++ [a]))
    /\ os_fds s.1 = os_fds o.
Proof.
  intros Hs Hst Hjs. pose proof Hs as (Hnf & Hb & Hname & _).
  pose proof (stored_text o js Hjs Hst) as Hc.
  destruct (alone_measures o _ Hs Hc) as (oA & f & HA & HfdA & Hkey & Hap & HsA & HcA & HcwdA).
  destruct (ArraySink.array_law oA p js b HsA) as (oB & HB & HstB & HsB & HfdB);
    [by destruct js|].
  pose proof (@Inv.ArraySink_stable _ p (@Inv.kept_at _ (Inv.grows_kept oA) p) b oA (Inv.grows_refl oA))
    as (HcwdB & _).
  rewrite HB in HcwdB. simpl in HcwdB.
  assert (HcB : os_nodes oB !! of_key f = Some (NFile (ArraySink.arrayText (js ++ [b])))).
  { rewrite Hkey, <- HcwdA, <- HcwdB. apply content_file; [apply HsB|].
    apply stored_text; [by destruct js|done]. }
  destruct (alone_cuts oB (os_next o) f (ArraySink.arrayText (js ++ [b]))
              (String.length (ArraySink.arrayText js)))
    as (o' & HC & Hnodes & Hfds & Hcwd & _); [apply HsB|by rewrite HfdB, HfdA, lookup_insert_eq
    |done|rewrite Hkey; apply Hname|exact HcB|apply ArraySink.length_arrayText|].
  exists (o', [AExit a [] (Ok tt); AExit b [] (Ok tt)]). split_and!; simpl.
  - eapply (alone_between (Caller0:=array_caller p) 4 10 4);
      [exact HA|by rewrite alone_saveToFile, HB|exact HC].
  - done.
  - rewrite content_node by (rewrite Hcwd, HcwdB, HcwdA; apply Hname).
    rewrite Hcwd, HcwdB, HcwdA, <- Hkey, Hnodes, lookup_insert_eq.
    rewrite <- (ArraySink.arrayText_snoc js b), <- (ArraySink.arrayText_snoc js a) by done.
    pose proof (ArraySink.length_arrayText js) as Hl. do 2 f_equal.
    assert (Hx : String.length (Str.drop_end 2 (ArraySink.arrayText js))
                 = String.length (ArraySink.arrayText js) - 2)
      by (unfold Str.drop_end; rewrite Str.length_take; lia).
    replace (String.length (ArraySink.arrayText js) - 1)
      with (String.length (Str.drop_end 2 (ArraySink.arrayText js)) + 1) by lia.
    rewrite <- Hx.
    apply write_over_stale; unfold ArraySink.nextEntry; rewrite Str.length_app; simpl; lia.
  - rewrite Hfds, HfdB, HfdA, delete_insert_eq. apply delete_id, (fds_bounded_fresh o 0 Hb).
Qed.

End Stale.

(** ** The theorems *)

(** C14: callers of src/main.go that share the log lose nothing but what a
    fault takes.  However the library calls of the callers interleave,
    and whatever faults are planned, every schedule ends with all callers
    returned; the log then holds what it held followed by the records of
    the callers that returned nil, each record whole and once, in one
    of their orders; the log can be used again and no descriptor is
    open.  Without faults every caller returns nil. *)
Theorem appends_interleave (name : string) (o : OS) (js0 js : list logToJSON) :
  usable o name -> stored o name js0 ->
  eventually (step (Caller0:=line_caller name))
    (fun s => returned (Caller0:=line_caller name) s
              /\ record_of <$> s.2 = js
              /\ (exists ws, ws ≡ₚ s.2 ≫= wrote /\ stored s.1 name (js0 ++ ws))
              /\ usable s.1 name /\ os_fds s.1 = os_fds o
              /\ (os_faults o = [] -> s.2 = (fun j => LDone j (Ok tt)) <$> js))
    (o, LStart <$> js).
Proof.
  intros Hu Hst.
  apply (eventually_measure _ (fun s => runs (Caller0:=line_caller name) (o, LStart <$> js) s)
           _ (calls_left (Caller0:=line_caller name))); [|done].
  intros s Hs.
  destruct (not_returned (Caller0:=line_caller name) s) as [Hret|Hstep]; [left|right].
  - split; [done|]. by apply (runs_returned name o js0 js).
  - split; [done|]. intros s' Hs'. split; [by eapply rtc_r|by apply calls_left_step].
Qed.

Lemma appends_interleave_witness :
  eventually (step (Caller0:=line_caller "log.json"))
    (fun s => returned (Caller0:=line_caller "log.json") s
              /\ record_of <$> s.2 = [sample; ArraySink.sample1]
              /\ (exists ws, ws ≡ₚ s.2 ≫= wrote /\ stored s.1 "log.json" ([] ++ ws))
              /\ usable s.1 "log.json"
              /\ os_fds s.1 = os_fds (with_faults [None; Some ENOSPC] empty_OS)
              /\ (os_faults (with_faults [None; Some ENOSPC] empty_OS) = []
                  -> s.2 = (fun j => LDone j (Ok tt)) <$> [sample; ArraySink.sample1]))
    (with_faults [None; Some ENOSPC] empty_OS, LStart <$> [sample; ArraySink.sample1]).
Proof.
  apply (appends_interleave "log.json" (with_faults [None; Some ENOSPC] empty_OS) []
           [sample; ArraySink.sample1]).
  - apply usableb_sound. vm_compute. reflexivity.
  - right. split; [reflexivity|]. vm_compute. reflexivity.
Defined.

(** C15: callers of part_001 that share the log lose records.  On a log
    that holds a record, two callers have a schedule after which both have
    returned nil, no descriptor is left open, and the log is the array of
    the records it held and the record of the first caller: the first
    measures the file, the second saves its record, and the first cuts the
    file at the size it measured, which takes the record of the second
    away. *)
Theorem saveToFile_races (p : string) (o : OS) (js : list logToJSON) (a b : logToJSON) :
  savable o p -> ArraySink.stored o p js -> js <> [] ->
  exists s, runs (Caller0:=array_caller p) (o, [AStart a; AStart b]) s
    /\ s.2 = [AExit a [] (Ok tt); AExit b [] (Ok tt)]
    /\ ArraySink.stored s.1 p (js ++ [a])
    /\ LogRead.readArray (default "" (content s.1 p))
       = Some (LogRead.validRecord <$> js ++ [a])
    /\ os_fds s.1 = os_fds o.
Proof.
  intros Hs Hst Hjs. destruct (stale_size_run p a o js b Hs Hst Hjs) as (s & Hr & Hpc & Hc & Hfd).
  exists s. split_and!; [done|done| |by rewrite Hc; apply LogRead.readArray_arrayText|done].
  unfold ArraySink.stored. by destruct (js ++ [a]) eqn:E; [destruct js|].
Qed.

Lemma saveToFile_races_witness :
  exists s,
    runs (Caller0:=array_caller "log.json")
      ((ArraySink.saveToFile sample "log.json" empty_OS).2,
       [AStart ArraySink.sample1; AStart sample]) s
    /\ s.2 = [AExit ArraySink.sample1 [] (Ok tt); AExit sample [] (Ok tt)]
    /\ ArraySink.stored s.1 "log.json" ([sample] ++ [ArraySink.sample1])
    /\ LogRead.readArray (default "" (content s.1 "log.json"))
       = Some (LogRead.validRecord <$> [sample] ++ [ArraySink.sample1])
    /\ os_fds s.1 = os_fds (ArraySink.saveToFile sample "log.json" empty_OS).2.
Proof.
  apply (saveToFile_races "log.json" (ArraySink.saveToFile sample "log.json" empty_OS).2
           [sample] ArraySink.sample1 sample).
  - apply savableb_sound. vm_compute. reflexivity.
  - vm_compute. reflexivity.
  - discriminate.
Defined.

(** Another schedule leaves a file that is no array, with both callers
    returned nil: the second caller measures the file while the bracket is
    cut, and its own cut takes the closing brace of the record before. *)
Example race_corrupts :
  runs (Caller0:=array_caller "log.json") shared
    (schedule (Caller0:=array_caller "log.json") stale_cut shared)
  /\ (schedule (Caller0:=array_caller "log.json") stale_cut shared).2
     = [AExit ArraySink.sample1 [] (Ok tt); AExit sample [] (Ok tt)]
  /\ LogRead.readArray (default "" (content
        (schedule (Caller0:=array_caller "log.json") stale_cut shared).1 "log.json"))
     = None.
Proof. split; [apply schedule_runs|]. vm_compute. done. Qed.

End Race.
