(* ===== verification/Steps.v ===== *)
(** * Steps: the callers of part_004 and part_002, one library call at a time

    [saveToFile] of src/unnamed/part_004 and of src/unnamed/part_002 as
    machines of the kind [Race] has for src/main.go and part_001: a program
    counter for every point between two library calls, and the call made
    there.  The caller of part_004 makes the directory and goes on as the
    caller of src/main.go; the caller of part_002 creates the file with its
    opening bracket when it is not there, opens it, measures it, cuts the
    closing bracket, and writes the record in three writes.

    The machines are the code: the calls of a caller alone, in a row, are
    [saveToFile] ([alone_path], [alone_bracket], [callers_alone]).  The
    calls of every caller are library calls, so that a system of callers
    keeps what the library calls on its path keep (the class [Library],
    [callers_keep]).  The callers of src/main.go, of part_001 and of
    part_004 release what they open (the class [Closer]): on every
    schedule the descriptors open beyond those of the start are owned by a
    caller that has not returned ([callers_release]).  The caller of
    part_002 has no such instance: it returns with the file it created
    open when the write of the opening bracket fails.

    Callers of part_004 that share a path lose nothing, also when the
    directory of the path is not there at the start: [MkdirAll] is one
    call, and the invariant of the callers of src/main.go holds from the
    first [MkdirAll] that succeeds on ([paths_interleave]).  Two callers of
    part_001, or of part_002, that save the first record of a log can lose
    one: the file is looked for and then created, and the second
    [os.Create] empties it ([first_saves_race]). *)

From S2P Require Import Prelude GoTime GoJson GoOS Paths World Sink ArraySink LineSink Compose.
From S2P Require Import MainLogger Paced PathLogger BracketLogger Inv Live JsonRead LogRead Race.

Module Steps.

Import GoJson GoOS Sink LineSink Inv Live Race.

(** ** The caller of part_004

    The directory is made; the rest is the caller of src/main.go on the
    path. *)
Inductive PathPC : Type :=
| PStart (j : logToJSON)
| PLine (pc : LinePC).

Definition path_next (filePath : string) (pc : PathPC) : option (OS -> PathPC * OS) :=
  match pc with
  | PStart j =>
      Some (fun o =>
        match MkdirAll (Dir filePath) 493 o with
        | (Ok _, o') => (PLine (LStart j), o')
        | (Err e, o') => (PLine (LDone j (Err e)), o')
        end)
  | PLine pc => (fun c o => (PLine (c o).1, (c o).2)) <$> line_next filePath pc
  end.

Definition path_left (pc : PathPC) : nat :=
  match pc with
  | PStart _ => 4
  | PLine pc => line_left pc
  end.

#[export] Program Instance path_caller (filePath : string) : Caller PathPC :=
  {| next := path_next filePath; left := path_left |}.
Next Obligation.
  intros p [j|pc] c o Hc; simpl in Hc.
  - simplify_eq. simpl. destruct (MkdirAll _ _ o) as [[]]; simpl; lia.
  - destruct (line_next p pc) as [c'|] eqn:Hc'; simplify_eq/=.
    apply (left_next (Caller:=line_caller p) pc c' o Hc').
Qed.

(** The callers of src/main.go that the callers of part_004 have become. *)
Definition lines (pc : PathPC) : list LinePC :=
  match pc with
  | PStart _ => []
  | PLine pc => [pc]
  end.

Definition path_record (pc : PathPC) : logToJSON :=
  match pc with
  | PStart j => j
  | PLine pc => record_of pc
  end.

(** ** The caller of part_002 *)
Inductive BracketPC : Type :=
| BStart (j : logToJSON)
| BMade (j : logToJSON)
| BMissing (j : logToJSON)
| BCreated (j : logToJSON) (file : nat)
| BBegun (j : logToJSON) (file : nat)
| BEnsured (j : logToJSON)
| BOpened (j : logToJSON) (file : nat)
| BMeasured (j : logToJSON) (file : nat) (size : Z)
| BTruncated (j : logToJSON) (file : nat)
| BSought (j : logToJSON) (file : nat)
| BReady (j : logToJSON) (file : nat)
| BAtEnd (j : logToJSON) (file : nat)
| BEntered (j : logToJSON) (file : nat)
| BExit (j : logToJSON) (deferred : list nat) (r : result error unit).

(** A call that goes on to [pc] or returns its error as it is. *)
Definition or_return {A} (j : logToJSON) (deferred : list nat) (pc : A -> BracketPC)
    (m : M OS error A) (o : OS) : BracketPC * OS :=
  match m o with
  | (Ok a, o') => (pc a, o')
  | (Err e, o') => (BExit j deferred (Err e), o')
  end.

Definition bracket_next (filePath : string) (pc : BracketPC)
  : option (OS -> BracketPC * OS) :=
  match pc with
  | BStart j => Some (or_return j [] (fun _ => BMade j) (MkdirAll (Dir filePath) 493))
  | BMade j =>
      Some (or_return j [] (fun there : bool => if negb there then BMissing j else BEnsured j)
              (BracketLogger.fileExists filePath))
  | BMissing j => Some (or_return j [] (BCreated j) (Create filePath))
  | BCreated j file =>
      Some (or_return j [] (fun _ => BBegun j file)
              (File_WriteString file ("[" +:+ String LF "")))
  | BBegun j file => Some (fun o => (BEnsured j, (File_Close file o).2))
  | BEnsured j => Some (or_return j [] (BOpened j) (OpenFile filePath [O_RDWR] 420))
  | BOpened j file =>
      Some (or_return j [file] (fun stat => BMeasured j file (fi_size stat)) (File_Stat file))
  | BMeasured j file size =>
      if (2 <? size)%Z then
        Some (or_return j [file] (fun _ => BTruncated j file) (File_Truncate file (size - 2)))
      else
        Some (or_return j [file] (fun _ => BAtEnd j file) (File_Seek file 0 SeekEnd))
  | BTruncated j file =>
      Some (or_return j [file] (fun _ => BSought j file) (File_Seek file 0 SeekEnd))
  | BSought j file =>
      Some (or_return j [file] (fun _ => BReady j file)
              (File_WriteString file ("," +:+ String LF "")))
  | BReady j file =>
      Some (or_return j [file] (fun _ => BAtEnd j file) (File_Seek file 0 SeekEnd))
  | BAtEnd j file =>
      Some (or_return j [file] (fun _ => BEntered j file)
              (File_WriteString file (MarshalIndent (members j) "" "  ")))
  | BEntered j file =>
      Some (or_return j [file] (fun _ => BExit j [file] (Ok tt))
              (File_WriteString file (String LF "]")))
  | BExit j (fd :: deferred) r => Some (fun o => (BExit j deferred r, close_deferred fd o))
  | BExit _ [] _ => None
  end.

Definition bracket_left (pc : BracketPC) : nat :=
  match pc with
  | BStart _ => 14
  | BMade _ => 13
  | BMissing _ => 12
  | BCreated _ _ => 11
  | BBegun _ _ => 10
  | BEnsured _ => 9
  | BOpened _ _ => 8
  | BMeasured _ _ _ => 7
  | BTruncated _ _ => 6
  | BSought _ _ => 5
  | BReady _ _ => 4
  | BAtEnd _ _ => 3
  | BEntered _ _ => 2
  | BExit _ deferred _ => length deferred
  end.

Lemma or_return_left {A} (j : logToJSON) (deferred : list nat) (pc : A -> BracketPC)
    (m : M OS error A) (o : OS) (n : nat) :
  length deferred < n -> (forall a, bracket_left (pc a) < n) ->
  bracket_left (or_return j deferred pc m o).1 < n.
Proof. intros Hd Hpc. unfold or_return. destruct (m o) as [[a|e] o']; simpl; auto. Qed.

#[export] Program Instance bracket_caller (filePath : string) : Caller BracketPC :=
  {| next := bracket_next filePath; left := bracket_left |}.
Next Obligation.
  intros p pc c o Hc.
  destruct pc as [j|j|j|j f|j f|j|j f|j f sz|j f|j f|j f|j f|j f|j [|fd ds] r]; simpl in Hc;
    try case_match; simplify_eq; simpl; try lia;
    apply or_return_left; simpl; try lia; intros; try case_match; simpl; lia.
Qed.

(** ** The machines are the code *)

#[local] Arguments alone : simpl never.

Ltac call := rewrite alone_S; simpl; unfold or_return.

(** A caller of part_004 past [MkdirAll] runs as the caller of
    src/main.go. *)
Lemma alone_lines (filePath : string) (n : nat) (pc : LinePC) (o : OS) :
  alone (Caller0:=path_caller filePath) n (PLine pc) o
  = (PLine (alone (Caller0:=line_caller filePath) n pc o).1,
     (alone (Caller0:=line_caller filePath) n pc o).2).
Proof.
  revert pc o. induction n as [|n IH]; intros pc o; [done|].
  rewrite !alone_S. simpl. destruct (line_next filePath pc) as [c|]; [apply IH|done].
Qed.

Lemma alone_path (filePath : string) (j : logToJSON) (o : OS) :
  alone (Caller0:=path_caller filePath) 4 (PStart j) o
  = (PLine (LDone j (PathLogger.saveToFile j filePath o).1),
     (PathLogger.saveToFile j filePath o).2).
Proof.
  rewrite PathLogger.saveToFile_appendTo. unfold bind. call.
  destruct (MkdirAll _ _ o) as [[[]|e] o1]; simpl; [|done].
  by rewrite alone_lines, alone_appendTo.
Qed.

(** The calls on the open file are [writeEntry] and the deferred close. *)
Lemma alone_writeEntry (filePath : string) (j : logToJSON) (file : nat) (o : OS) :
  alone (Caller0:=bracket_caller filePath) 8 (BOpened j file) o
  = (BExit j [] (defer_ (close_deferred file) (BracketLogger.writeEntry j file) o).1,
     (defer_ (close_deferred file) (BracketLogger.writeEntry j file) o).2).
Proof.
  unfold BracketLogger.writeEntry, BracketLogger.jsonMarshalIndent, bind, defer_, ret.
  call. destruct (File_Stat file o) as [[st|e] o1]; simpl; [|by call].
  call. destruct (2 <? fi_size st)%Z; unfold or_return.
  - destruct (File_Truncate file _ o1) as [[[]|e] o2]; simpl; [|by call].
    call. destruct (File_Seek file _ _ o2) as [[n|e] o3]; simpl; [|by call].
    call. destruct (File_WriteString file _ o3) as [[n'|e] o4]; simpl; [|by call].
    call. destruct (File_Seek file _ _ o4) as [[n''|e] o5]; simpl; [|by call].
    call. destruct (File_WriteString file _ o5) as [[m|e] o6]; simpl; [|by call].
    call. destruct (File_WriteString file _ o6) as [[m'|e] o7]; simpl; by call.
  - destruct (File_Seek file _ _ o1) as [[n''|e] o5]; simpl; [|by call].
    call. destruct (File_WriteString file _ o5) as [[m|e] o6]; simpl; [|by call].
    call. destruct (File_WriteString file _ o6) as [[m'|e] o7]; simpl; by call.
Qed.

(** The calls of the caller of part_002 in a row are [saveToFile]. *)
Lemma alone_bracket (filePath : string) (j : logToJSON) (o : OS) :
  alone (Caller0:=bracket_caller filePath) 14 (BStart j) o
  = (BExit j [] (BracketLogger.saveToFile j filePath o).1,
     (BracketLogger.saveToFile j filePath o).2).
Proof.
  unfold BracketLogger.saveToFile, BracketLogger.initFile, bind, ret, try_.
  call. destruct (MkdirAll _ _ o) as [[[]|e] o1]; simpl; [|done].
  call. destruct (BracketLogger.fileExists _ o1) as [[[]|e] o2]; simpl; [| |done].
  - call. destruct (OpenFile _ _ _ o2) as [[file|e] o3]; simpl; [|done].
    rewrite (alone_add 8 3) by done. apply alone_writeEntry.
  - call. destruct (Create _ o2) as [[file|e] o3]; simpl; [|done].
    call. destruct (File_WriteString file _ o3) as [[n|e] o4]; simpl; [|done].
    call. destruct (File_Close file o4) as [r o5]; simpl.
    call. destruct (OpenFile _ _ _ o5) as [[file'|e] o6]; simpl; [|done].
    apply alone_writeEntry.
Qed.

(** ** What every call of a caller keeps *)

Lemma line_next_kept (Q : OS -> Prop) (name : string) `{!KeptAt name Q} (pc : LinePC)
    (c : OS -> LinePC * OS) (o : OS) :
  line_next name pc = Some c -> Q o -> Q (c o).2.
Proof.
  intros Hc HQ. destruct pc as [j|j fd|j fd r|j r]; simplify_eq/=.
  - pose proof (at_OpenFile [O_CREATE; O_WRONLY; O_APPEND] 420 o HQ).
    by destruct (OpenFile _ _ _ o) as [[]].
  - pose proof (open_File_WriteString fd (Marshal (members j) +:+ String LF "") o HQ).
    by destruct (File_WriteString _ _ o).
  - by apply open_close_deferred.
Qed.

Lemma path_next_kept (Q : OS -> Prop) (filePath : string) `{!KeptAt filePath Q} (pc : PathPC)
    (c : OS -> PathPC * OS) (o : OS) :
  path_next filePath pc = Some c -> Q o -> Q (c o).2.
Proof.
  intros Hc HQ. destruct pc as [j|pc]; simpl in Hc.
  - simplify_eq. pose proof (at_MkdirAll 493 o HQ).
    by destruct (MkdirAll _ _ o) as [[]].
  - destruct (line_next filePath pc) as [c'|] eqn:Hc'; simplify_eq/=.
    by apply (line_next_kept Q filePath pc).
Qed.

Lemma or_exit_kept {A} (Q : OS -> Prop) (j : logToJSON) (deferred : list nat)
    (prefix : string) (pc : A -> ArrayPC) (m : M OS error A) :
  stable Q m -> forall o, Q o -> Q (or_exit j deferred prefix pc m o).2.
Proof. intros Hm o HQ. specialize (Hm o HQ). unfold or_exit, wrapErr. by destruct (m o) as [[]]. Qed.

Lemma or_return_kept {A} (Q : OS -> Prop) (j : logToJSON) (deferred : list nat)
    (pc : A -> BracketPC) (m : M OS error A) :
  stable Q m -> forall o, Q o -> Q (or_return j deferred pc m o).2.
Proof. intros Hm o HQ. specialize (Hm o HQ). unfold or_return. by destruct (m o) as [[]]. Qed.

Lemma fileExists_kept (Q : OS -> Prop) (name : string) `{!KeptAt name Q} :
  stable Q (ArraySink.fileExists name).
Proof.
  intros o HQ. pose proof (at_Stat o HQ). unfold ArraySink.fileExists, try_, bind, ret.
  by destruct (Stat name o) as [[]].
Qed.

Lemma array_next_kept (Q : OS -> Prop) (filePath : string) `{!KeptAt filePath Q}
    (pc : ArrayPC) (c : OS -> ArrayPC * OS) (o : OS) :
  array_next filePath pc = Some c -> Q o -> Q (c o).2.
Proof.
  intros Hc HQ.
  destruct pc as [j|j|j|j cr|j cr f|j cr f sz|j cr f|j cr f|j [|fd ds] r]; simpl in Hc;
    try case_match; simplify_eq; try (apply or_exit_kept; [|done]; eauto with stable).
  - pose proof (fileExists_kept Q filePath o HQ).
    by destruct (ArraySink.fileExists filePath o) as [[[]|]].
  - by apply open_close_deferred.
Qed.

Lemma bracket_next_kept (Q : OS -> Prop) (filePath : string) `{!KeptAt filePath Q}
    (pc : BracketPC) (c : OS -> BracketPC * OS) (o : OS) :
  bracket_next filePath pc = Some c -> Q o -> Q (c o).2.
Proof.
  intros Hc HQ.
  destruct pc as [j|j|j|j f|j f|j|j f|j f sz|j f|j f|j f|j f|j f|j [|fd ds] r]; simpl in Hc;
    try case_match; simplify_eq;
    try (apply or_return_kept; [|done]; first [apply fileExists_kept; done|eauto with stable]).
  - by apply open_File_Close.
  - by apply open_close_deferred.
Qed.

(** Callers at a path whose calls are library calls on that path: whatever
    the library calls on the path keep, every call of the caller keeps. *)
Class Library (PC : Type) `{!Caller PC} (p : string) : Prop :=
  next_kept (Q : OS -> Prop) `{!KeptAt p Q} (pc : PC) (c : OS -> PC * OS) (o : OS) :
    next pc = Some c -> Q o -> Q (c o).2.

#[export] Instance line_library (name : string)
  : Library LinePC (Caller0:=line_caller name) name.
Proof. intros Q ? pc c o. by apply line_next_kept. Qed.

#[export] Instance array_library (p : string) : Library ArrayPC (Caller0:=array_caller p) p.
Proof. intros Q ? pc c o. by apply array_next_kept. Qed.

#[export] Instance path_library (p : string) : Library PathPC (Caller0:=path_caller p) p.
Proof. intros Q ? pc c o. by apply path_next_kept. Qed.

#[export] Instance bracket_library (p : string)
  : Library BracketPC (Caller0:=bracket_caller p) p.
Proof. intros Q ? pc c o. by apply bracket_next_kept. Qed.

(** ** Callers that release what they open

    [owned pc] are the descriptors a caller at [pc] has opened and not yet
    closed.  A caller releases what it opens when each of its calls keeps
    the descriptors in use between those it owns and those of the others,
    and it owns nothing once it has returned. *)
Class Closer (PC : Type) `{!Caller PC} : Type := {
  owned : PC -> list nat;
  next_owned (F : gmap nat FileDesc) (n0 : nat) (X : gset nat) (pc : PC)
      (c : OS -> PC * OS) (o : OS) :
    next pc = Some c ->
    fd_inv F n0 (X ∪ list_to_set (owned pc)) o ->
    fd_inv F n0 (X ∪ list_to_set (owned (c o).1)) (c o).2;
  returned_owned (pc : PC) : next pc = None -> owned pc = []
}.

(** The descriptors in use, when more are counted as in use. *)
Lemma fd_inv_weaken (F : gmap nat FileDesc) (n0 : nat) (X X' : gset nat) (o : OS) :
  X ⊆ X' -> (forall fd, fd ∈ X' -> n0 <= fd < os_next o) ->
  fd_inv F n0 X o -> fd_inv F n0 X' o.
Proof.
  intros HX Hr (Hn & Hlo & Hhi & _). split_and!; [done|done| |done].
  intros fd Hfd Hx. apply Hhi; [done|set_solver].
Qed.

Section Owned.
Context (F : gmap nat FileDesc) (n0 : nat) (X : gset nat).

(** A call that opens a file, one that works on an owned file, and the
    deferred close, between the descriptors of the others. *)
Lemma opened_owned (m : M OS error nat) (l : list nat) (o : OS) :
  opens F n0 (X ∪ list_to_set l) m -> fd_inv F n0 (X ∪ list_to_set l) o ->
  match m o with
  | (Ok fd, o') => fd_inv F n0 (X ∪ list_to_set (fd :: l)) o'
  | (Err _, o') => fd_inv F n0 (X ∪ list_to_set l) o'
  end.
Proof.
  intros Hm Ho. specialize (Hm o Ho). destruct (m o) as [[fd|e] o']; [|done].
  destruct Hm as [_ Hm]. rewrite list_to_set_cons.
  by replace (X ∪ ({[fd]} ∪ list_to_set l)) with (X ∪ list_to_set l ∪ ({[fd]} : gset nat))
    by set_solver.
Qed.

Lemma closed_owned (fd : nat) (l : list nat) (o : OS) :
  fd_inv F n0 (X ∪ list_to_set (fd :: l)) o ->
  fd_inv F n0 (X ∪ list_to_set l) (close_deferred fd o).
Proof.
  intros Ho. pose proof Ho as (_ & _ & _ & Hr).
  apply (close_deferred_fds _ _ _ fd) in Ho; [|set_solver].
  eapply fd_inv_weaken, Ho; [set_solver|].
  intros fd' Hfd'. replace (os_next (close_deferred fd o)) with (os_next o).
  - apply Hr. set_solver.
  - unfold close_deferred, File_Close, syscall. by repeat case_match.
Qed.

End Owned.

(** The callers of src/main.go, of part_001 and of part_004 release what
    they open.  The caller of part_002 does not: it owns the file it has
    created when the write of the opening bracket fails, and returns. *)
#[export] Program Instance line_closer (name : string)
  : Closer LinePC (Caller0:=line_caller name) := {| owned := held |}.
Next Obligation.
  intros name F n0 X pc c o Hc Ho. destruct pc as [j|j fd|j fd r|j r]; simpl in Hc; simplify_eq.
  - pose proof (opened_owned F n0 X _ [] o
                  (opens_OpenFile F n0 _ name [O_CREATE; O_WRONLY; O_APPEND] 420) Ho).
    by destruct (OpenFile _ _ _ o) as [[fd|e] o'].
  - assert (fd ∈ X ∪ list_to_set (held (LOpened j fd))) as Hfd by set_solver.
    pose proof (keeps_run F n0 _ _ o
                  (File_WriteString_fds F n0 _ fd Hfd (Marshal (members j) +:+ String LF "")) Ho).
    by destruct (File_WriteString _ _ o).
  - exact (closed_owned F n0 X fd [] o Ho).
Qed.
Next Obligation. by intros name [j|j fd|j fd r|j r]. Qed.

Definition array_owned (pc : ArrayPC) : list nat :=
  match pc with
  | AStart _ | AMade _ | AMissing _ => []
  | AEnsured _ created => from_option (fun fd => [fd]) [] created
  | AOpened _ created file | AMeasured _ created file _ | ATruncated _ created file
  | ASought _ created file => deferred_of created file
  | AExit _ deferred _ => deferred
  end.

(** A call that goes on or returns with the same descriptors owned, and
    one that opens a file. *)
Lemma or_exit_owned {A} (F : gmap nat FileDesc) (n0 : nat) (X : gset nat) (j : logToJSON)
    (l : list nat) (prefix : string) (pc : A -> ArrayPC) (m : M OS error A) (o : OS) :
  keeps F n0 (X ∪ list_to_set l) m -> (forall a, array_owned (pc a) = l) ->
  fd_inv F n0 (X ∪ list_to_set l) o ->
  fd_inv F n0 (X ∪ list_to_set (array_owned (or_exit j l prefix pc m o).1))
    (or_exit j l prefix pc m o).2.
Proof.
  intros Hm Hpc Ho. pose proof (keeps_run F n0 _ m o Hm Ho). unfold or_exit, wrapErr.
  destruct (m o) as [[a|e] o']; simpl; [by rewrite Hpc|done].
Qed.

Lemma or_exit_opens (F : gmap nat FileDesc) (n0 : nat) (X : gset nat) (j : logToJSON)
    (l : list nat) (prefix : string) (pc : nat -> ArrayPC) (m : M OS error nat) (o : OS) :
  opens F n0 (X ∪ list_to_set l) m -> (forall fd, array_owned (pc fd) = fd :: l) ->
  fd_inv F n0 (X ∪ list_to_set l) o ->
  fd_inv F n0 (X ∪ list_to_set (array_owned (or_exit j l prefix pc m o).1))
    (or_exit j l prefix pc m o).2.
Proof.
  intros Hm Hpc Ho. pose proof (opened_owned F n0 X m l o Hm Ho). unfold or_exit, wrapErr.
  destruct (m o) as [[fd|e] o']; simpl; [by rewrite Hpc|done].
Qed.

(** The calls on the file a caller of part_001 has opened. *)
Ltac on_owned :=
  apply or_exit_owned; [|done|done];
  first [apply File_Stat_fds|apply File_Truncate_fds
        |apply File_Seek_fds|apply File_WriteString_fds];
  unfold deferred_of; set_solver.

#[export] Program Instance array_closer (p : string)
  : Closer ArrayPC (Caller0:=array_caller p) := {| owned := array_owned |}.
Next Obligation.
  intros p F n0 X pc c o Hc Ho.
  destruct pc as [j|j|j|j cr|j cr f|j cr f sz|j cr f|j cr f|j [|fd ds] r]; simpl in Hc;
    try case_match; simplify_eq; try on_owned.
  - apply or_exit_owned; [apply MkdirAll_fds|done|done].
  - pose proof (keeps_run F n0 _ _ o (ArraySink.fileExists_fds F n0 p _) Ho).
    by destruct (ArraySink.fileExists p o) as [[[]|e] o'].
  - by apply or_exit_opens; [apply opens_OpenFile|..].
  - by apply or_exit_opens; [apply opens_OpenFile|..].
  - exact (closed_owned F n0 X fd ds o Ho).
Qed.
Next Obligation.
  by intros p [j|j|j|j cr|j cr f|j cr f sz|j cr f|j cr f|j [|fd ds] r]; simpl; try case_match.
Qed.

#[export] Program Instance path_closer (p : string)
  : Closer PathPC (Caller0:=path_caller p) := {| owned pc := lines pc ≫= held |}.
Next Obligation.
  intros p F n0 X [j|pc] c o Hc Ho; simpl in Hc.
  - simplify_eq. pose proof (keeps_run F n0 _ _ o (MkdirAll_fds F n0 _ (Dir p) 493) Ho).
    by destruct (MkdirAll _ _ o) as [[]].
  - destruct (line_next p pc) as [c'|] eqn:Hc'; simpl in Hc; simplify_eq.
    simpl in Ho |- *. rewrite app_nil_r in Ho |- *.
    by apply (next_owned (Closer:=line_closer p) F n0 X pc).
Qed.
Next Obligation.
  intros p [j|pc] Hc; [done|]. simpl in Hc.
  destruct (line_next p pc) eqn:E; [done|]. simpl. rewrite app_nil_r.
  by apply (returned_owned (Closer:=line_closer p)).
Qed.

(** [MkdirAll] under a plan: it fails with the planned fault, or does
    what it does without a plan. *)
Lemma MkdirAll_plan (name : string) (perm : N) (o : OS) :
  match os_faults o with
  | Some e :: rest =>
      MkdirAll name perm o = (Err (PathError "mkdir" name e), with_faults rest o)
  | _ => MkdirAll name perm o
         = ((MkdirAll name perm (with_faults [] o)).1,
            with_faults (tail (os_faults o)) (MkdirAll name perm (with_faults [] o)).2)
  end.
Proof. apply syscall_plan. intros fs o'. simpl. by case_match. Qed.

(** Directories that are there are not made again. *)
Lemma mkdir_chain_made (todo pre : list string) (m : gmap (list string) Node) :
  (forall k, on_way pre todo k -> m !! k = Some NDir) -> mkdir_chain pre todo m = Ok m.
Proof.
  revert pre. induction todo as [|c rest IH]; intros pre Hm; [done|]. simpl.
  rewrite (Hm (pre ++ [c])) by (apply on_way_cons; by left).
  apply IH. intros k Hk. apply Hm, on_way_cons. by right.
Qed.

(** ** The callers of part_004 together *)

Lemma lines_middle (l1 l2 : list PathPC) (pc : PathPC) :
  (l1 ++ pc :: l2) ≫= lines = (l1 ≫= lines) ++ lines pc ++ (l2 ≫= lines).
Proof. apply bind_middle. Qed.

Lemma lines_work (l1 l2 : list PathPC) (pc pc' : PathPC) :
  lines pc ≫= held = lines pc' ≫= held -> lines pc ≫= wrote = lines pc' ≫= wrote ->
  same_work ((l1 ++ pc :: l2) ≫= lines) ((l1 ++ pc' :: l2) ≫= lines).
Proof. intros Hh Hw. split; rewrite !lines_middle, !bind_app; congruence. Qed.

Section Shared.
Context (p : string) (o0 : OS) (js0 : list logToJSON).
Context (Hs : savable (with_faults [] o0) p) (Hst : stored o0 p js0).

#[local] Existing Instance inv_proper.

Local Abbreviation inv := (line_inv p (resolve (os_cwd o0) p) (os_fds o0) (os_next o0) js0).

(** The directories on the way to the log are there. *)
Definition made (o : OS) : Prop :=
  os_cwd o = os_cwd o0
  /\ forall k, on_way [] (resolve (os_cwd o0) (Dir p)) k -> os_nodes o !! k = Some NDir.

(** A caller that has not made the directory, or has failed to. *)
Definition idle (pc : PathPC) : Prop :=
  match pc with
  | PStart _ | PLine (LDone _ (Err _)) => True
  | _ => False
  end.

(** The invariant of the callers of part_004 on [p]: nothing has happened
    but faults, or the directories are there and the callers that have made
    them are callers of src/main.go on [p]. *)
Definition path_inv (o : OS) (pcs : list PathPC) : Prop :=
  (o ≡ o0 /\ Forall idle pcs) \/ (made o /\ inv o (pcs ≫= lines)).

#[local] Instance made_proper : Proper ((≡) ==> iff) made.
Proof. intros o o' (Hc & Hn & _). unfold made. by rewrite Hc, Hn. Qed.

Lemma made_grows (o o' : OS) : grows o o' -> made o -> made o'.
Proof.
  intros (Hc & _ & Hk) [Hcwd Hm]. split; [congruence|]. intros k Hw.
  specialize (Hk k). by rewrite (Hm k Hw) in Hk.
Qed.

Lemma idle_work (pcs : list PathPC) : Forall idle pcs -> same_work (pcs ≫= lines) [].
Proof.
  induction 1 as [|pc pcs Hpc _ [IH1 IH2]]; [done|].
  destruct pc as [j|[j|j fd|j fd r|j [[]|e]]]; try done; split; by rewrite bind_cons.
Qed.

Lemma key_ne : resolve (os_cwd o0) p <> [].
Proof. by destruct Hs as (_ & _ & [_ Hne] & _). Qed.

(** The first [MkdirAll] that succeeds makes the directories and leaves
    the log as it was. *)
Lemma mkdir_first (o : OS) (pcs : list LinePC) :
  o ≡ o0 -> same_work pcs [] ->
  exists o', MkdirAll (Dir p) 493 (with_faults [] o) = (Ok tt, o')
    /\ os_faults o' = [] /\ made o' /\ inv o' pcs.
Proof.
  intros Ho Hw.
  assert (with_faults [] o = with_faults [] o0) as ->
    by (apply equiv_same_plan; [by rewrite !with_faults_equiv|done]).
  destruct (MkdirAll_savable _ p 493 Hs) as (m & Hm & Hr & Hk & Hp). simpl in *.
  destruct Hs as (_ & Hb & [Hn Hne] & _ & Hd).
  eexists. split; [exact Hr|]. split_and!; [done| |].
  - split; [done|]. intros k Hk'. simpl. by apply (mkdir_chain_on_way _ _ _ _ _ Hm).
  - rewrite Hw. apply (inv_start p (with_nodes (fun _ => m) (with_faults [] o0)) js0 []).
    + split_and!; simpl; [done|done|done|]. by rewrite Hk.
    + unfold stored in *. rewrite !content_node in * by done. simpl. by rewrite Hk.
Qed.

(** A later one changes nothing. *)
Lemma mkdir_again (o : OS) (pcs : list LinePC) :
  made o -> inv o pcs ->
  exists o', MkdirAll (Dir p) 493 (with_faults [] o) = (Ok tt, o')
    /\ os_faults o' = [] /\ made o' /\ inv o' pcs.
Proof.
  intros [Hc Hm] H. eexists. split; [apply MkdirAll_run; [done|]|].
  - simpl. rewrite Hc. by apply mkdir_chain_made.
  - assert (with_nodes (fun _ => os_nodes o) (with_faults [] o) ≡ o) as Ho by done.
    split; [done|]. by rewrite Ho.
Qed.

Lemma mkdir_step (o : OS) (l1 l2 : list PathPC) (j : logToJSON) :
  path_inv o (l1 ++ PStart j :: l2) ->
  exists o', MkdirAll (Dir p) 493 (with_faults [] o) = (Ok tt, o')
    /\ os_faults o' = [] /\ made o' /\ inv o' ((l1 ++ PLine (LStart j) :: l2) ≫= lines).
Proof.
  intros [[Ho Hi]|[Hm H]].
  - apply mkdir_first; [done|]. rewrite <- (idle_work _ Hi). by apply lines_work.
  - apply mkdir_again; [done|]. by rewrite (lines_work _ _ _ (PStart j)).
Qed.

(** A caller whose [MkdirAll] meets a fault returns. *)
Lemma mkdir_fault (o : OS) (l1 l2 : list PathPC) (j : logToJSON) (e : error)
    (rest : list (option Errno)) :
  path_inv o (l1 ++ PStart j :: l2) ->
  path_inv (with_faults rest o) (l1 ++ PLine (LDone j (Err e)) :: l2).
Proof.
  intros [[Ho Hi]|[Hm H]]; [left|right]; rewrite with_faults_equiv.
  - split; [done|]. rewrite Forall_app, Forall_cons in Hi |- *. tauto.
  - split; [done|]. by rewrite (lines_work _ _ _ (PStart j)).
Qed.

(** A caller past [MkdirAll] that has a call to make is a caller of
    src/main.go, in a system of such callers. *)
Lemma path_inv_line (o : OS) (l1 l2 : list PathPC) (pc : LinePC) (c : OS -> LinePC * OS) :
  path_inv o (l1 ++ PLine pc :: l2) -> line_next p pc = Some c ->
  made o /\ inv o ((l1 ≫= lines) ++ pc :: (l2 ≫= lines))
  /\ step (Caller0:=line_caller p) (o, (l1 ≫= lines) ++ pc :: (l2 ≫= lines))
       ((c o).2, (l1 ≫= lines) ++ (c o).1 :: (l2 ≫= lines)).
Proof.
  intros [[_ Hi]|[Hm H]] Hc.
  { apply Forall_app in Hi as [_ [Hi _]%Forall_cons]. by destruct pc as [| | |j [|]]. }
  rewrite lines_middle in H. split_and!; [done..|]. by apply (step_at (Caller0:=line_caller p)).
Qed.

Lemma path_inv_step (s s' : OS * list PathPC) :
  step (Caller0:=path_caller p) s s' -> path_inv s.1 s.2 -> path_inv s'.1 s'.2.
Proof.
  intros [l1 pc l2 c o Hc] H. simpl in *. destruct pc as [j|pc]; simpl in Hc.
  - simplify_eq. pose proof (MkdirAll_plan (Dir p) 493 o) as Hp.
    destruct (mkdir_step o l1 l2 j H) as (o' & Ho' & _ & Hm & H').
    destruct (os_faults o) as [|[e|] rest]; rewrite Hp, ?Ho'; simpl;
      [right|by apply mkdir_fault|right]; by rewrite with_faults_equiv.
  - destruct (line_next p pc) as [c'|] eqn:Hc'; simplify_eq/=.
    destruct (path_inv_line o l1 l2 pc c' H Hc') as (Hm & H' & Hstep).
    right. split; [eapply made_grows, Hm; by apply (line_next_kept (grows o) p pc)|].
    rewrite lines_middle. apply (inv_step p _ key_ne _ _ _ _ _ Hstep H').
Qed.

(** Without faults no call fails. *)
Lemma path_fine_step (s s' : OS * list PathPC) :
  step (Caller0:=path_caller p) s s' -> path_inv s.1 s.2 ->
  os_faults s.1 = [] /\ Forall fine (s.2 ≫= lines) ->
  os_faults s'.1 = [] /\ Forall fine (s'.2 ≫= lines).
Proof.
  intros [l1 pc l2 c o Hc] H [Hnf Hf]. simpl in *. rewrite lines_middle in *.
  destruct pc as [j|pc]; simpl in Hc.
  - simplify_eq. pose proof (MkdirAll_plan (Dir p) 493 o) as Hp. rewrite Hnf in Hp.
    destruct (mkdir_step o l1 l2 j H) as (o' & Ho' & Hnf' & _). rewrite Hp, Ho'. simpl.
    rewrite !Forall_app in *. destruct Hf as (? & _ & ?).
    split_and!; try done. by repeat constructor.
  - destruct (line_next p pc) as [c'|] eqn:Hc'; simplify_eq/=.
    destruct (path_inv_line o l1 l2 pc c' H Hc') as (_ & H' & Hstep).
    apply (fine_step p _ key_ne _ _ _ _ _ Hstep H'). by split.
Qed.

(** The callers keep their records. *)
Lemma path_records_step (s s' : OS * list PathPC) :
  step (Caller0:=path_caller p) s s' -> path_record <$> s'.2 = path_record <$> s.2.
Proof.
  intros [l1 pc l2 c o Hc]. simpl. rewrite !fmap_app, !fmap_cons. do 2 f_equal.
  destruct pc as [j|[j|j fd|j fd r|j r]]; simplify_eq/=;
    [by destruct (MkdirAll _ _ _) as [[]]|by destruct (OpenFile _ _ _ _) as [[]]
    |by destruct (File_WriteString _ _ _)|done].
Qed.

(** Callers that have returned are callers of src/main.go that have. *)
Lemma returned_lines (pcs : list PathPC) :
  Forall (fun pc => path_next p pc = None) pcs ->
  pcs = PLine <$> (pcs ≫= lines)
  /\ Forall (fun pc => line_next p pc = None) (pcs ≫= lines)
  /\ path_record <$> pcs = record_of <$> (pcs ≫= lines).
Proof.
  induction 1 as [|pc pcs Hpc _ (IH1 & IH2 & IH3)]; [done|].
  destruct pc as [j|pc]; [done|]. simpl in Hpc. rewrite bind_cons. cbn [lines app].
  rewrite !fmap_cons, <- IH1, <- IH3. split_and!; [done| |done]. constructor; [|done].
  by destruct (line_next p pc).
Qed.

(** What the invariant says when all callers have returned. *)
Lemma path_returned (s : OS * list PathPC) :
  path_inv s.1 s.2 -> returned (Caller0:=path_caller p) s ->
  (exists ws, ws ≡ₚ (s.2 ≫= lines) ≫= wrote /\ stored s.1 p (js0 ++ ws))
  /\ savable (with_faults [] s.1) p /\ os_fds s.1 = os_fds o0.
Proof.
  intros [[Ho Hi]|[[Hc Hm] H]] Hret.
  - split_and!; [exists []|..].
    + rewrite (proj2 (idle_work _ Hi)), app_nil_r. unfold stored. by rewrite Ho.
    + by rewrite (equiv_same_plan (with_faults [] s.1) (with_faults [] o0)).
    + by rewrite Ho.
  - destruct Hs as (_ & Hb & [Hn Hne] & _). simpl in *.
    destruct (returned_lines _ Hret) as (_ & Hret' & _).
    destruct (inv_returned p o0 s.1 js0 _ Hb Hne H Hret') as (Hws & (Hb' & _ & _ & Hd) & Hfd).
    split_and!; [done| |done]. unfold savable, names_entry. simpl. rewrite Hc in Hd |- *.
    split_and!; [done|exact Hb'|done|done| |done]. intros k d Hk. by rewrite (Hm k Hk).
Qed.

End Shared.

(** Steps keep what each step keeps. *)
Lemma runs_keep {PC} `{!Caller PC} (P : OS * list PC -> Prop) :
  (forall s s', step s s' -> P s -> P s') -> forall s s', runs s s' -> P s -> P s'.
Proof. intros HP s s'. induction 1; eauto. Qed.

(** Whatever the library calls keep, a system of callers keeps on every
    schedule. *)
Lemma runs_kept {PC} `{Library PC p} (Q : OS -> Prop) `{!KeptAt p Q} (s s' : OS * list PC) :
  runs s s' -> Q s.1 -> Q s'.1.
Proof.
  apply (runs_keep (fun s => Q s.1)). intros s1 s2 [l1 pc l2 c o Hc]. by apply (next_kept Q pc).
Qed.

(** On every schedule the descriptors open beyond those of the start are
    owned by a caller, and callers that have returned own none: once all
    have returned, the descriptors are those of the start. *)
Section Release.
Context {PC : Type} `{Closer PC}.

Definition in_use (pcs : list PC) : gset nat := list_to_set (pcs ≫= owned).

Lemma owned_step (F : gmap nat FileDesc) (n0 : nat) (s s' : OS * list PC) :
  step s s' -> fd_inv F n0 (in_use s.2) s.1 -> fd_inv F n0 (in_use s'.2) s'.1.
Proof.
  intros [l1 pc l2 c o Hc]. unfold in_use. cbn [fst snd].
  rewrite !bind_app, !bind_cons, !list_to_set_app_L.
  set (A := list_to_set (l1 ≫= owned) : gset nat). set (B := list_to_set (l2 ≫= owned) : gset nat).
  replace (A ∪ (list_to_set (owned pc) ∪ B))
    with (A ∪ B ∪ list_to_set (owned pc)) by set_solver.
  intros Ho. apply (next_owned F n0 (A ∪ B) pc c o Hc) in Ho.
  by replace (A ∪ (list_to_set (owned (c o).1) ∪ B))
    with (A ∪ B ∪ list_to_set (owned (c o).1)) by set_solver.
Qed.

Lemma returned_release (pcs : list PC) :
  Forall (fun pc => next pc = None) pcs -> pcs ≫= owned = [].
Proof.
  induction 1 as [|pc pcs Hpc _ IH]; [done|]. by rewrite bind_cons, IH, (returned_owned pc Hpc).
Qed.

Lemma callers_release (s s' : OS * list PC) :
  runs s s' -> fds_bounded s.1 -> s.2 ≫= owned = [] ->
  fd_inv (os_fds s.1) (os_next s.1) (in_use s'.2) s'.1
  /\ (returned s' -> os_fds s'.1 = os_fds s.1).
Proof.
  intros Hruns Hb Hs.
  assert (fd_inv (os_fds s.1) (os_next s.1) (in_use s'.2) s'.1) as Ho.
  { apply (runs_keep _ (owned_step _ _) s s' Hruns). unfold in_use. rewrite Hs.
    by apply fd_inv_init. }
  split; [done|]. intros Hr. unfold in_use in Ho. rewrite (returned_release _ Hr) in Ho.
  by apply fd_inv_done.
Qed.

End Release.

Lemma lines_start (js : list logToJSON) : (PStart <$> js) ≫= lines = [].
Proof. induction js as [|j js IH]; [done|]. by rewrite fmap_cons, bind_cons. Qed.

(** ** First saves that race

    [saveToFile] of part_001 and of part_002 look whether the file is
    there and create it when it is not; [os.Create] empties a file that is
    there.  Two callers on a path without a file can both find it
    missing; the one that creates it second empties what the first has
    saved. *)
(** The first two calls on a path without a file: the directories are
    made and the file is found missing. *)
Section Looks.
Context (p : string) (o : OS) (m : gmap (list string) Node) (j : logToJSON).
Context (Hnf : os_faults o = []) (Hname : names_entry (os_cwd o) p).
Context (Hm : mkdir_chain [] (resolve (os_cwd o) (Dir p)) (os_nodes o) = Ok m).
Context (Hk : m !! resolve (os_cwd o) p = None).
Context (Hp : node_at (with_nodes (fun _ => m) o) (parent (resolve (os_cwd o) p)) = Some NDir).

Lemma bracket_looks :
  alone (Caller0:=bracket_caller p) 2 (BStart j) o = (BMissing j, with_nodes (fun _ => m) o).
Proof using All.
  call. rewrite (MkdirAll_run o Hnf _ _ m Hm). simpl.
  call. rewrite BracketLogger.fileExists_as.
  by rewrite (ArraySink.fileExists_missing o p Hnf Hname m Hk Hp).
Qed.

Lemma array_looks :
  alone (Caller0:=array_caller p) 2 (AStart j) o = (AMissing j, with_nodes (fun _ => m) o).
Proof using All.
  rewrite alone_S. simpl. unfold or_exit, wrapErr. rewrite (MkdirAll_run o Hnf _ _ m Hm). simpl.
  rewrite alone_S. simpl.
  by rewrite (ArraySink.fileExists_missing o p Hnf Hname m Hk Hp).
Qed.

End Looks.

Section First.
Context (p : string) (o : OS) (m : gmap (list string) Node).
Context (Hs : savable o p) (Hc : content o p = None).
Context (Hm : mkdir_chain [] (resolve (os_cwd o) (Dir p)) (os_nodes o) = Ok m).

Local Abbreviation k := (resolve (os_cwd o) p).

(** The directories are made and the file is not there; the file holds
    [d]: with [n] descriptor numbers used up. *)
Definition base (n : nat) : OS := st_missing (os_cwd o) m (os_fds o) (n + os_next o).

Definition full (n : nat) (d : string) : OS :=
  st_closed (os_cwd o) m (os_fds o) k (n + os_next o) d.

Lemma base_key : m !! k = None.
Proof using Hs Hc Hm.
  destruct Hs as (_ & _ & Hname & _). rewrite content_node in Hc by apply Hname.
  rewrite (mkdir_chain_off_way _ _ _ _ k Hm) by (by apply names_entry_off_way).
  destruct (os_nodes o !! k) as [[|d]|] eqn:E; [|done..]. by destruct Hs as (_ & _ & _ & _ & []).
Qed.

Lemma base_made (n : nat) :
  mkdir_chain [] (resolve (os_cwd (base n)) (Dir p)) (os_nodes (base n)) = Ok m.
Proof using Hm.
  apply mkdir_chain_made. intros k' Hk'. by apply (mkdir_chain_on_way _ _ _ _ _ Hm).
Qed.

Lemma base_parent (n : nat) : node_at (base n) (parent k) = Some NDir.
Proof using Hs Hm.
  destruct Hs as (_ & _ & [Hp _] & _). rewrite Hp.
  apply (mkdir_chain_target _ _ _ (base n) Hm).
Qed.

Lemma base_savable (n : nat) : savable (base n) p.
Proof using Hs Hc Hm.
  pose proof base_key as Hk. destruct Hs as (_ & Hb & Hname & _).
  unfold savable. simpl. split_and!; [done| |done| |by rewrite Hk].
  - intros fd f Hf. apply Hb in Hf. simpl. lia.
  - intros k' d Hk'. by rewrite (mkdir_chain_on_way _ _ _ _ _ Hm Hk').
Qed.

(** [os.Create] on the file that is there does what it does when the file
    is not there. *)
Lemma Create_full (n : nat) (d : string) : Create p (full n d) = Create p (base n).
Proof using Hs Hc Hm.
  pose proof (base_parent n) as Hp. pose proof base_key as Hk.
  destruct Hs as (_ & _ & [_ Hne] & _).
  unfold base. rewrite (create_missing _ _ _ p k _ Hne eq_refl Hk Hp).
  unfold Create, OpenFile, syscall, full. simpl. rewrite node_at_ne by done. simpl.
  rewrite lookup_insert_eq. unfold new_fd, with_nodes, st_open. simpl.
  by rewrite insert_insert_eq.
Qed.

(** Two callers whose first two calls find the file missing, and whose
    calls from there on create the file and leave it with the text of
    their record: the second to create it leaves its record alone. *)
Section Lost.
Context {PC : Type} `{!Caller PC} (start missing exit : logToJSON -> PC).
Context (text : logToJSON -> string) (calls : nat).
Context (Hlooks : forall o' j, os_faults o' = [] -> names_entry (os_cwd o') p ->
           mkdir_chain [] (resolve (os_cwd o') (Dir p)) (os_nodes o') = Ok m ->
           m !! resolve (os_cwd o') p = None ->
           node_at (with_nodes (fun _ => m) o') (parent (resolve (os_cwd o') p)) = Some NDir ->
           alone 2 (start j) o' = (missing j, with_nodes (fun _ => m) o')).
Context (Hsaves : forall n j, alone (2 + calls) (start j) (base n)
                              = (exit j, full (2 + n) (text j))).
Context (Hcreates : forall n d j, alone calls (missing j) (full n d)
                                  = alone calls (missing j) (base n)).

Lemma looks_again (n : nat) (j : logToJSON) : alone 2 (start j) (base n) = (missing j, base n).
Proof using Hs Hc Hm Hlooks.
  apply (Hlooks (base n)); [done|apply Hs|apply base_made|apply base_key|apply (base_parent n)].
Qed.

Lemma creates_again (n : nat) (d : string) (j : logToJSON) :
  alone calls (missing j) (full n d) = (exit j, full (2 + n) (text j)).
Proof using Hs Hc Hm Hlooks Hsaves Hcreates.
  by rewrite Hcreates, <- (Hsaves n j), alone_app, looks_again.
Qed.

Lemma first_lost (a b : logToJSON) :
  exists s, runs (o, [start a; start b]) s /\ s.2 = [exit a; exit b]
    /\ content s.1 p = Some (text b) /\ os_fds s.1 = os_fds o.
Proof using All.
  destruct Hs as (Hnf & _ & Hname & _).
  exists (full 4 (text b), [exit a; exit b]). split_and!; [|done| |done].
  - assert (Hp : node_at (with_nodes (fun _ => m) o) (parent k) = Some NDir)
      by (rewrite (BracketLogger.made_missing o m Hnf); apply (base_parent 0)).
    etrans; [apply (alone_runs 2 [start a] (start b) [])|].
    rewrite (Hlooks o b Hnf Hname Hm base_key Hp), (BracketLogger.made_missing o m Hnf).
    change (st_missing _ _ _ _) with (base 0). cbn [fst snd app].
    etrans; [apply (alone_runs (2 + calls) [] (start a) [missing b])|].
    rewrite (Hsaves 0 a). cbn [fst snd app].
    etrans; [apply (alone_runs calls [exit a] (missing b) [])|].
    by rewrite creates_again.
  - unfold content. simpl. rewrite node_at_ne by apply Hname. simpl.
    by rewrite lookup_insert_eq.
Qed.

End Lost.

Lemma bracket_saves (n : nat) (j : logToJSON) :
  alone (Caller0:=bracket_caller p) (2 + 12) (BStart j) (base n)
  = (BExit j [] (Ok tt), full (2 + n) (BracketLogger.bracketText [j])).
Proof using Hs Hc Hm.
  rewrite alone_bracket.
  destruct (BracketLogger.saveToFile_entered (base n) p j (base_savable n)) as (m' & Hm' & ->).
  rewrite base_made in Hm'. injection Hm' as <-.
  replace (content (base n) p) with (@None string); [done|].
  unfold content. simpl. rewrite node_at_ne by apply Hs. simpl. by rewrite base_key.
Qed.

Lemma array_saves (n : nat) (j : logToJSON) :
  alone (Caller0:=array_caller p) (2 + 8) (AStart j) (base n)
  = (AExit j [] (Ok tt), full (2 + n) (ArraySink.arrayText [j])).
Proof using Hs Hc Hm.
  rewrite alone_saveToFile. pose proof (base_savable n) as (Hnf & Hb & Hname & Hfree & _).
  destruct (ArraySink.saveToFile_fresh_run (base n) p j Hnf Hb Hname Hfree base_key)
    as (m' & Hm' & ->).
  rewrite base_made in Hm'. by injection Hm' as <-.
Qed.

Lemma bracket_first (a b : logToJSON) :
  exists s, runs (Caller0:=bracket_caller p) (o, [BStart a; BStart b]) s
    /\ s.2 = [BExit a [] (Ok tt); BExit b [] (Ok tt)]
    /\ content s.1 p = Some (BracketLogger.bracketText [b]) /\ os_fds s.1 = os_fds o.
Proof using All.
  apply (first_lost BStart BMissing (fun j => BExit j [] (Ok tt))
           (fun j => BracketLogger.bracketText [j]) 12).
  - intros o' j. apply bracket_looks.
  - apply bracket_saves.
  - intros n d j. rewrite !(alone_S 11). simpl. unfold or_return. by rewrite Create_full.
Qed.

Lemma array_first (a b : logToJSON) :
  exists s, runs (Caller0:=array_caller p) (o, [AStart a; AStart b]) s
    /\ s.2 = [AExit a [] (Ok tt); AExit b [] (Ok tt)]
    /\ content s.1 p = Some (ArraySink.arrayText [b]) /\ os_fds s.1 = os_fds o.
Proof using All.
  apply (first_lost AStart AMissing (fun j => AExit j [] (Ok tt))
           (fun j => ArraySink.arrayText [j]) 8).
  - intros o' j. apply array_looks.
  - apply array_saves.
  - intros n d j. rewrite !(alone_S 7). simpl. unfold or_exit, wrapErr. by rewrite Create_full.
Qed.

End First.

Lemma callers_keep {PC : Type} {C : Caller PC} {p : string} {L : Library PC p}
    (s s' : OS * list PC) :
  runs s s' -> (wf s.1 -> wf s'.1) /\ grows s.1 s'.1.
Proof.
  intros Hruns. split; [by apply (runs_kept wf)|].
  by apply (runs_kept (grows s.1) s s').
Qed.

Lemma callers_close {PC : Type} {C : Caller PC} {p : string} {L : Library PC p}
    {R : Closer PC}
    (s s' : OS * list PC) :
  runs s s' ->
  (wf s.1 -> wf s'.1) /\ grows s.1 s'.1
  /\ (fds_bounded s.1 -> s.2 ≫= owned = [] -> returned s' -> os_fds s'.1 = os_fds s.1).
Proof.
  intros Hruns. destruct (callers_keep s s' Hruns). split_and!; [done|done|].
  intros Hb Hs. by apply callers_release.
Qed.


(** C16: callers of part_004 that share a path lose nothing but what a fault
    takes.  The directory of the path need not be there: however the calls
    of the callers interleave, and whatever faults are planned, every
    schedule ends with all callers returned; the log then holds what it
    held followed by the records of the callers that returned nil, each
    whole and once; the path can be saved to again and no descriptor is
    open.  Without faults every caller returns nil. *)
Theorem paths_interleave (p : string) (o : OS) (js0 js : list logToJSON) :
  savable (with_faults [] o) p -> stored o p js0 ->
  eventually (step (Caller0:=path_caller p))
    (fun s => returned (Caller0:=path_caller p) s
              /\ path_record <$> s.2 = js
              /\ (exists ws, ws ≡ₚ (s.2 ≫= lines) ≫= wrote /\ stored s.1 p (js0 ++ ws))
              /\ savable (with_faults [] s.1) p /\ os_fds s.1 = os_fds o
              /\ (os_faults o = [] -> s.2 = (fun j => PLine (LDone j (Ok tt))) <$> js))
    (o, PStart <$> js).
Proof.
  intros Hs Hst.
  apply (eventually_measure _ (fun s => runs (Caller0:=path_caller p) (o, PStart <$> js) s)
           _ (calls_left (Caller0:=path_caller p))); [|done].
  intros s Hruns.
  destruct (not_returned (Caller0:=path_caller p) s) as [Hret|Hstep]; [left|right];
    (split; [done|]); [|intros s' Hs'; split; [by eapply rtc_r|by apply calls_left_step]].
  assert (path_inv p o js0 (o, PStart <$> js).1 (o, PStart <$> js).2) as H0.
  { left. split; [done|]. by apply Forall_fmap, Forall_true. }
  pose proof (runs_keep _ (path_inv_step p o js0 Hs Hst) _ _ Hruns H0) as H.
  pose proof (runs_keep (fun s => path_record <$> s.2 = js) (fun s s' Hss E =>
                eq_trans (path_records_step p s s' Hss) E) _ _ Hruns) as Hr.
  simpl in Hr. rewrite <- list_fmap_compose, list_fmap_id in Hr. specialize (Hr eq_refl).
  destruct (path_returned p o js0 Hs Hst s H Hret) as (Hws & Hs' & Hfd).
  split_and!; try done. intros Hnf.
  destruct (returned_lines p _ Hret) as (Hl & Hret' & Hrec).
  destruct (runs_keep (fun s => path_inv p o js0 s.1 s.2
                         /\ os_faults s.1 = [] /\ Forall fine (s.2 ≫= lines))
              (fun s s' Hss HP => conj (path_inv_step p o js0 Hs Hst s s' Hss (proj1 HP))
                 (path_fine_step p o js0 Hs Hst s s' Hss (proj1 HP) (proj2 HP)))
              _ _ Hruns) as (_ & _ & Hfine).
  { split_and!; [done..|]. simpl. by rewrite lines_start. }
  destruct (returned_wrote p _ Hfine Hret') as [_ Hall].
  rewrite Hl, Hall, <- Hrec, Hr. by rewrite <- list_fmap_compose.
Qed.

(** C17: callers that save the first record of a log at the same time lose
    one.  On a path where no file is, two callers of part_001 have a
    schedule after which both have returned nil, no descriptor is left
    open, and the file is the array of the record of the second caller
    alone; and so have two callers of part_002.  Both callers find the
    file missing; the first creates it and saves its record; the second
    creates it again, which empties it, and saves its own. *)
Theorem first_saves_race (p : string) (o : OS) (a b : logToJSON) :
  savable o p -> content o p = None ->
  (exists s, runs (Caller0:=array_caller p) (o, [AStart a; AStart b]) s
     /\ s.2 = [AExit a [] (Ok tt); AExit b [] (Ok tt)]
     /\ content s.1 p = Some (ArraySink.arrayText [b]) /\ os_fds s.1 = os_fds o)
  /\ (exists s, runs (Caller0:=bracket_caller p) (o, [BStart a; BStart b]) s
     /\ s.2 = [BExit a [] (Ok tt); BExit b [] (Ok tt)]
     /\ content s.1 p = Some (BracketLogger.bracketText [b]) /\ os_fds s.1 = os_fds o).
Proof.
  intros Hs Hc. destruct (MkdirAll_savable o p 493 Hs) as (m & Hm & _).
  split; [by apply (array_first p o m)|by apply (bracket_first p o m)].
Qed.

Lemma paths_interleave_witness :
  eventually (step (Caller0:=path_caller "logs/app.json"))
    (fun s => returned (Caller0:=path_caller "logs/app.json") s
              /\ path_record <$> s.2 = [sample; ArraySink.sample1]
              /\ (exists ws, ws ≡ₚ (s.2 ≫= lines) ≫= wrote
                              /\ stored s.1 "logs/app.json" ([] ++ ws))
              /\ savable (with_faults [] s.1) "logs/app.json"
              /\ os_fds s.1 = os_fds (with_faults [None; Some ENOSPC] empty_OS)
              /\ (os_faults (with_faults [None; Some ENOSPC] empty_OS) = []
                  -> s.2 = (fun j => PLine (LDone j (Ok tt))) <$> [sample; ArraySink.sample1]))
    (with_faults [None; Some ENOSPC] empty_OS, PStart <$> [sample; ArraySink.sample1]).
Proof.
  apply (paths_interleave "logs/app.json" (with_faults [None; Some ENOSPC] empty_OS) []
           [sample; ArraySink.sample1]).
  - apply savableb_sound. vm_compute. reflexivity.
  - right. split; [reflexivity|]. vm_compute. reflexivity.
Defined.

Lemma first_saves_race_witness :
  (exists s, runs (Caller0:=array_caller "logs/app.json")
               (empty_OS, [AStart sample; AStart ArraySink.sample1]) s
     /\ s.2 = [AExit sample [] (Ok tt); AExit ArraySink.sample1 [] (Ok tt)]
     /\ content s.1 "logs/app.json" = Some (ArraySink.arrayText [ArraySink.sample1])
     /\ os_fds s.1 = os_fds empty_OS)
  /\ (exists s, runs (Caller0:=bracket_caller "logs/app.json")
               (empty_OS, [BStart sample; BStart ArraySink.sample1]) s
     /\ s.2 = [BExit sample [] (Ok tt); BExit ArraySink.sample1 [] (Ok tt)]
     /\ content s.1 "logs/app.json" = Some (BracketLogger.bracketText [ArraySink.sample1])
     /\ os_fds s.1 = os_fds empty_OS).
Proof.
  apply (first_saves_race "logs/app.json" empty_OS sample ArraySink.sample1).
  - apply savableb_sound. vm_compute. reflexivity.
  - vm_compute. reflexivity.
Defined.

End Steps.
