(* ===== verification/Frame.v ===== *)
(** * Frame: what the callers at a path leave alone

    [saveToFile] names one path: it makes the directory of the path, looks
    for the file, opens it, and works on the descriptors it has opened.
    Whatever it does to its log, and whatever callers that share the log
    do to it together, every other file keeps its bytes.

    [apart cwd k c]: the file at the key [k] holds [c] (nothing, when no
    regular file is there) and no descriptor is open on it.  Every call on
    a descriptor keeps it, and so does every call on a path that is not at
    [k] ([apart_open], [apart_at]); the sinks and the callers of [Race] and
    [Steps] keep what the calls on their path keep
    ([saves_confined], [runs_confined], [schedules_keep]). *)

From S2P Require Import Prelude GoTime GoJson GoOS Paths World Sink ArraySink LineSink Compose.
From S2P Require Import MainLogger Paced PathLogger BracketLogger Inv Live JsonRead LogRead Race.
From S2P Require Import Steps.

Module Frame.

Import GoJson GoOS Sink Inv Live Race Steps.

(** The bytes of the regular file at a key. *)
Definition file_at (o : OS) (k : list string) : option string :=
  match node_at o k with
  | Some (NFile d) => Some d
  | _ => None
  end.

Definition apart (cwd k : list string) (c : option string) (o : OS) : Prop :=
  os_cwd o = cwd /\ file_at o k = c
  /\ forall fd f, os_fds o !! fd = Some f -> of_key f <> k.

(** No descriptor is open on the file at the path. *)
Definition closed_at (o : OS) (q : string) : Prop :=
  forall fd f, os_fds o !! fd = Some f -> of_key f <> resolve (os_cwd o) q.

(** The files at the other paths are what they were. *)
Definition others_kept (p : string) (o o' : OS) : Prop :=
  forall q, resolve (os_cwd o) q <> resolve (os_cwd o) p -> closed_at o q ->
            content o' q = content o q /\ closed_at o' q.

Lemma content_file_at (o : OS) (q : string) : content o q = file_at o (resolve (os_cwd o) q).
Proof. done. Qed.

#[export] Instance file_at_proper : Proper ((≡) ==> (=) ==> (=)) file_at.
Proof. intros o o' Ho k ? <-. unfold file_at. by rewrite Ho. Qed.

#[export] Instance apart_proper (cwd k : list string) (c : option string)
  : Proper ((≡) ==> iff) (apart cwd k c).
Proof. intros o o' Ho. unfold apart. by setoid_rewrite Ho. Qed.

Lemma file_at_insert (o : OS) (p k : list string) (n : Node) :
  p <> [] -> p <> k -> file_at (with_nodes (insert p n) o) k = file_at o k.
Proof. intros Hp Hk. unfold file_at. rewrite node_at_insert by done. by case_decide. Qed.

(** [MkdirAll] makes directories where nothing was. *)
Lemma file_at_mkdir (o : OS) (todo k : list string) (m : gmap (list string) Node) :
  mkdir_chain [] todo (os_nodes o) = Ok m -> file_at (with_nodes (fun _ => m) o) k = file_at o k.
Proof.
  intros Hm. unfold file_at. destruct k as [|x k]; [done|]. rewrite !node_at_ne by done. simpl.
  destruct (os_nodes o !! (x :: k)) as [n|] eqn:Hk.
  - by rewrite (mkdir_chain_keeps _ _ _ _ _ _ Hm Hk).
  - destruct (m !! (x :: k)) as [n|] eqn:Hk'; [|done].
    by destruct (mkdir_chain_new _ _ _ _ _ _ Hm Hk') as [?|(_ & -> & _)]; [congruence|].
Qed.

Section Apart.
Context (cwd k : list string) (c : option string).

Local Abbreviation P := (apart cwd k c).

Lemma apart_insert (p : list string) (n : Node) (o : OS) :
  p <> [] -> p <> k -> P o -> P (with_nodes (insert p n) o).
Proof. intros Hp Hk (Hc & Hf & Hd). split_and!; [done| |done]. by rewrite file_at_insert. Qed.

Lemma apart_move (fd : nat) (f : FileDesc) (o : OS) :
  of_key f <> k -> P o -> P (with_fds (insert fd f) o).
Proof.
  intros Hk (Hc & Hf & Hd). split_and!; [done|done|]. intros fd' f'. simpl.
  intros [[_ <-]|[_ ?]]%lookup_insert_Some; eauto.
Qed.

Lemma apart_new_fd (name : string) (p : list string) (flags : list Flag) (o : OS) :
  p <> k -> P o -> P (new_fd name p flags o).2.
Proof. intros Hk Ho. by apply (apart_move _ _ o). Qed.

Lemma apart_release (fd : nat) (o : OS) : P o -> P (with_fds (delete fd) o).
Proof.
  intros (Hc & Hf & Hd). split_and!; [done|done|]. intros fd' f'. simpl.
  intros [_ ?]%lookup_delete_Some. eauto.
Qed.

Lemma MkdirAll_apart (name : string) (perm : N) : stable P (MkdirAll name perm).
Proof.
  apply (stable_syscall P). intros o (Hc & Hf & Hd).
  destruct (mkdir_chain _ _ _) as [m|e] eqn:Hm; [|done].
  split_and!; [done| |done]. by rewrite (file_at_mkdir _ _ _ _ Hm).
Qed.

Lemma Stat_apart (name : string) : stable P (Stat name).
Proof. apply (stable_syscall P). intros o Ho. cbv zeta. by case_match. Qed.

Lemma OpenFile_apart (name : string) (flags : list Flag) (perm : N) :
  resolve cwd name <> k -> stable P (OpenFile name flags perm).
Proof.
  intros Hne. apply (stable_syscall P). intros o Ho. cbv zeta.
  pose proof Ho as (Hc & _). rewrite Hc. set (p := resolve cwd name) in *.
  assert (node_at o p <> Some NDir -> p <> []) as Hp by (by intros Hn ->).
  destruct (node_at o p) as [[|d]|] eqn:Hn; [done| |].
  - destruct (has O_TRUNC flags); [|by apply apart_new_fd].
    apply (apart_new_fd _ _ _ (with_nodes _ o)); [done|]. by apply apart_insert; [apply Hp|..].
  - destruct (has O_CREATE flags); [|done].
    destruct (node_at o (parent p)) as [[|d]|]; [|done|done].
    apply (apart_new_fd _ _ _ (with_nodes _ o)); [done|]. by apply apart_insert; [apply Hp|..].
Qed.

Lemma apart_key (fd : nat) (f : FileDesc) (o : OS) :
  P o -> os_fds o !! fd = Some f -> of_key f <> k.
Proof. intros (_ & _ & Hd). apply Hd. Qed.

#[export] Instance apart_open : KeptOpen P.
Proof.
  split; intros fd; intros; try apply (stable_on_file P); try done.
  - intros f d o Ho Hfd%(apart_key _ _ _ Ho) Hd Hk. case_match; [done|].
    by apply apart_insert.
  - intros f d o Ho Hfd%(apart_key _ _ _ Ho) Hd Hk. cbv zeta. case_match; [done|].
    by apply apart_move.
  - intros f d o Ho Hfd%(apart_key _ _ _ Ho) Hd Hk. cbv zeta. simpl.
    apply (apart_move _ _ (with_nodes _ o)); [done|]. by apply apart_insert.
  - intros o Ho. unfold File_Close. destruct (os_fds o !! fd) as [f|]; [|done].
    apply (syscall_keeps P); [|intros l; simpl; rewrite with_faults_equiv]; by apply apart_release.
Qed.

Lemma apart_at (p : string) : resolve cwd p <> k -> KeptAt p P.
Proof.
  intros Hne. split; [apply _|intros; apply MkdirAll_apart|apply Stat_apart|].
  intros. by apply OpenFile_apart.
Qed.

End Apart.

(** What keeps [apart] at every other path keeps the other files. *)
Lemma others_kept_apart (p : string) (o o' : OS) :
  (forall q, resolve (os_cwd o) q <> resolve (os_cwd o) p ->
             apart (os_cwd o) (resolve (os_cwd o) q) (content o q) o ->
             apart (os_cwd o) (resolve (os_cwd o) q) (content o q) o') ->
  others_kept p o o'.
Proof.
  intros H q Hq Hcl. destruct (H q Hq) as (Hc & Hf & Hd); [done|].
  unfold closed_at. rewrite content_file_at, Hc. eauto.
Qed.

(** ** The sinks *)

Lemma saves_confined (j : logToJSON) (p : string) (o : OS) :
  others_kept "log.json" o (LineSink.saveToFile j o).2
  /\ others_kept p o (ArraySink.saveToFile j p o).2
  /\ others_kept p o (BracketLogger.saveToFile j p o).2
  /\ others_kept p o (PathLogger.saveToFile j p o).2.
Proof.
  split_and!; apply others_kept_apart; intros q Hq;
    [apply (LineSink_stable _ (KeptAt0:=apart_at _ _ _ _ (not_eq_sym Hq)))
    |apply (ArraySink_stable _ _ (KeptAt0:=apart_at _ _ _ _ (not_eq_sym Hq)))
    |apply (BracketLogger_stable _ _ (KeptAt0:=apart_at _ _ _ _ (not_eq_sym Hq)))
    |apply (PathLogger_stable _ _ (KeptAt0:=apart_at _ _ _ _ (not_eq_sym Hq)))].
Qed.

(** ** The callers *)

Lemma runs_confined {PC : Type} {C : Caller PC} {p : string} {L : Library PC p}
    (s s' : OS * list PC) :
  runs s s' -> others_kept p s.1 s'.1.
Proof.
  intros Hruns. apply others_kept_apart. intros q Hq.
  apply (runs_kept _ (KeptAt0:=apart_at _ _ _ _ (not_eq_sym Hq)) s s' Hruns).
Qed.

Lemma callers_frame {PC : Type} {C : Caller PC} {p : string} {L : Library PC p}
    (s s' : OS * list PC) :
  runs s s' -> (wf s.1 -> wf s'.1) /\ grows s.1 s'.1 /\ others_kept p s.1 s'.1.
Proof.
  intros Hruns. destruct (callers_keep s s' Hruns). split_and!; [done|done|].
  by apply runs_confined.
Qed.

Lemma callers_frame_close {PC : Type} {C : Caller PC} {p : string} {L : Library PC p}
    {R : Closer PC} (s s' : OS * list PC) :
  runs s s' ->
  (wf s.1 -> wf s'.1) /\ grows s.1 s'.1 /\ others_kept p s.1 s'.1
  /\ (fds_bounded s.1 -> s.2 ≫= owned = [] -> returned s' -> os_fds s'.1 = os_fds s.1).
Proof.
  intros Hruns. destruct (callers_frame s s' Hruns) as (? & ? & ?).
  split_and!; [done..|]. intros Hb Hs. by apply callers_release.
Qed.

(** The log of two callers of part_001 beside a file of notes that a save
    of src/main.go has written. *)
Definition noted : OS * list ArrayPC :=
  ((LineSink.appendTo "notes.txt" LineSink.sample shared.1).2, shared.2).

(** C26: callers keep the file system well formed, damage no file but
    their log and release what they open.  On every schedule of callers of
    src/main.go, of part_001, of part_002 or of part_004 that share a path,
    under every plan of faults, a well-formed file system stays well
    formed (every node hangs in a directory, descriptors are numbered
    below the next one and name regular files); no directory and no file
    goes away; and every file at another path on which no descriptor was
    open holds the bytes it held, with no descriptor open on it: what the
    callers of part_001 and part_002 lose or break when they race is in
    their own log.  Once the callers of main.go, of part_001 or of
    part_004 have all returned, the open descriptors are those of the
    start, whatever the schedule and whichever calls failed. *)
Theorem schedules_keep (name p : string) :
  (forall s s', runs (Caller0:=line_caller name) s s' ->
                (wf s.1 -> wf s'.1) /\ grows s.1 s'.1 /\ others_kept name s.1 s'.1
                /\ (fds_bounded s.1 -> s.2 ≫= held = [] ->
                    returned (Caller0:=line_caller name) s' -> os_fds s'.1 = os_fds s.1))
  /\ (forall s s', runs (Caller0:=array_caller p) s s' ->
                   (wf s.1 -> wf s'.1) /\ grows s.1 s'.1 /\ others_kept p s.1 s'.1
                   /\ (fds_bounded s.1 -> s.2 ≫= array_owned = [] ->
                       returned (Caller0:=array_caller p) s' -> os_fds s'.1 = os_fds s.1))
  /\ (forall s s', runs (Caller0:=bracket_caller p) s s' ->
                   (wf s.1 -> wf s'.1) /\ grows s.1 s'.1 /\ others_kept p s.1 s'.1)
  /\ (forall s s', runs (Caller0:=path_caller p) s s' ->
                   (wf s.1 -> wf s'.1) /\ grows s.1 s'.1 /\ others_kept p s.1 s'.1
                   /\ (fds_bounded s.1 -> s.2 ≫= (fun pc => lines pc ≫= held) = [] ->
                       returned (Caller0:=path_caller p) s' -> os_fds s'.1 = os_fds s.1)).
Proof.
  split_and!; intros s s'.
  - apply (callers_frame_close (L:=line_library name) (R:=line_closer name)).
  - apply (callers_frame_close (L:=array_library p) (R:=array_closer p)).
  - apply (callers_frame (L:=bracket_library p)).
  - apply (callers_frame_close (L:=path_library p) (R:=path_closer p)).
Qed.

Lemma schedules_keep_witness :
  (wf noted.1 -> wf (schedule (Caller0:=array_caller "log.json") stale_cut noted).1)
  /\ grows noted.1 (schedule (Caller0:=array_caller "log.json") stale_cut noted).1
  /\ content (schedule (Caller0:=array_caller "log.json") stale_cut noted).1 "notes.txt"
     = Some (LineSink.lineText LineSink.sample)
  /\ os_fds (schedule (Caller0:=array_caller "log.json") stale_cut noted).1 = os_fds noted.1.
Proof.
  assert (os_fds noted.1 = ∅) as Hfds by (vm_compute; reflexivity).
  destruct (proj1 (proj2 (schedules_keep "log.json" "log.json")) noted _
              (schedule_runs stale_cut noted)) as (Hwf & Hg & Hk & Hfd).
  split_and!; [done|done| |].
  - destruct (Hk "notes.txt") as [-> _]; [by vm_compute| |by vm_compute].
    intros fd f Hf. by rewrite Hfds, lookup_empty in Hf.
  - apply Hfd; [|reflexivity|].
    + intros fd f Hf. by rewrite Hfds, lookup_empty in Hf.
    + assert ((schedule (Caller0:=array_caller "log.json") stale_cut noted).2
              = [AExit ArraySink.sample1 [] (Ok tt); AExit LineSink.sample [] (Ok tt)]) as Hs
        by (vm_compute; reflexivity).
      unfold returned. rewrite Hs. by repeat constructor.
Defined.

End Frame.
