(* ===== verification/Damage.v ===== *)
(** * Damage: what a failed write leaves

    [saveToFile] of part_001 cuts the closing bracket of the array before
    it writes the record.  When the write fails the bracket is gone; the
    calls that follow cut one byte more each time they start, the closing
    brace of the last record first, and write their record behind what is
    left.  The file is no array from then on, whatever is saved later.

    The same cut destroys the log without any fault when two callers
    share it: one has cut the bracket when the other saves.

    [saveToFile] of part_002 closes the file it created without [defer]:
    when the write of the opening bracket fails, the file stays open.

    Both are statements on runs in which the plan of faults spares the
    calls before the write; the lemmas of the section [Spared] say what a
    spared call does. *)

From S2P Require Import Prelude GoTime GoJson GoOS World Sink ArraySink LineSink Compose.
From S2P Require Import BracketLogger Inv Live JsonRead LogRead Race.

Module Damage.

Import GoJson GoOS Sink ArraySink JsonRead LogRead Race.

(** ** The texts *)

(** A record without its closing brace. *)
Definition unclosed (j : logToJSON) : string := Str.drop_end 1 (recordText j).

(** The records before the last, each with the separator after it. *)
Definition before (js : list logToJSON) : string :=
  match js with
  | [] => ""
  | _ => Join (recordText <$> js) entrySep +:+ entrySep
  end.

(** The array without its closing bracket: what a failed write leaves. *)
Definition cutText (js : list logToJSON) : string := Str.drop_end 1 (arrayText js).

(** The text every later file starts with: the array up to the last
    record, that record without its closing brace, and the start of the
    entry of the first save after the failure. *)
Definition scar (js : list logToJSON) (j : logToJSON) : string :=
  "[" +:+ String LF "  " +:+ before js +:+ unclosed j +:+ entrySep +:+ "{".

(** The file starts with the scar and has two bytes or more behind it. *)
Definition damaged (js : list logToJSON) (j : logToJSON) (o : OS) (p : string) : Prop :=
  exists u, content o p = Some (scar js j +:+ u) /\ 2 <= String.length u.

(** ** Lemmas on the texts *)

Lemma drop_end_app_le (n : nat) (s t : string) :
  n <= String.length t -> Str.drop_end n (s +:+ t) = s +:+ Str.drop_end n t.
Proof.
  intros Hn. unfold Str.drop_end.
  rewrite <- (Str.take_drop (String.length t - n) t) at 1 2.
  rewrite <- Str.app_assoc, !Str.length_app, Str.length_take, Str.length_drop.
  replace (_ + _ - n) with (String.length (s +:+ Str.take (String.length t - n) t))
    by (rewrite Str.length_app, Str.length_take; lia).
  apply Str.take_app_length.
Qed.

Lemma recordText_unclosed (j : logToJSON) : recordText j = unclosed j +:+ "}".
Proof.
  unfold unclosed, recordText, MarshalIndent. destruct (members_first j) as [rest ->].
  rewrite <- !Str.app_assoc. by rewrite (Str.drop_end_app _ "}").
Qed.

Lemma recordText_starts (j : logToJSON) (t : string) :
  exists u, recordText j +:+ t = String "{" u /\ 2 <= String.length u.
Proof.
  unfold recordText, MarshalIndent. destruct (members_first j) as [rest ->].
  eexists. rewrite !Str.app_assoc, Str.app_cons, Str.app_nil_l. split; [done|].
  rewrite Str.length_app. simpl. lia.
Qed.

Lemma arrayText_last (js : list logToJSON) (j : logToJSON) :
  arrayText (js ++ [j]) = "[" +:+ String LF "  " +:+ before js +:+ recordText j +:+ String LF "]".
Proof.
  unfold arrayText, before. destruct js as [|j0 js]; [done|].
  rewrite fmap_app. change (recordText <$> [j]) with [recordText j].
  rewrite Join_snoc by done. by rewrite !Str.app_assoc.
Qed.

Lemma cutText_last (js : list logToJSON) (j : logToJSON) :
  cutText (js ++ [j])
  = ("[" +:+ String LF "  " +:+ before js +:+ unclosed j) +:+ "}" +:+ String LF "".
Proof.
  unfold cutText. rewrite arrayText_last, recordText_unclosed.
  change (String LF "]") with (String LF "" +:+ "]"). rewrite <- !Str.app_assoc.
  by rewrite (Str.drop_end_app _ "]").
Qed.

(** ** The reader on these texts *)

Lemma unclosed_text (j : logToJSON) :
  exists m ms, members j = m :: ms
    /\ unclosed j
       = "{" +:+ (String LF "  " +:+ "  ")
         +:+ Join (member (":" +:+ " ") <$> m :: ms) ("," +:+ String LF "  " +:+ "  ")
         +:+ String LF "  ".
Proof.
  unfold unclosed, recordText, MarshalIndent. destruct (members_first j) as [rest ->].
  eexists _, _. split; [done|]. rewrite <- !Str.app_assoc. by rewrite (Str.drop_end_app _ "}").
Qed.

(** A record without its closing brace, and an entry after it, is no
    object: the reader meets a brace where a member starts. *)
Lemma readRecord_unclosed (j : logToJSON) (t : string) :
  readRecord (unclosed j +:+ entrySep +:+ "{" +:+ t) = None.
Proof.
  destruct (unclosed_text j) as (m & ms & _ & ->). unfold readRecord, entrySep.
  pose proof (readObject_open (String LF "  " +:+ "  ") (String LF "  " +:+ "  ")
                (String LF "  ") (String LF "  ") " " m ms t
                eq_refl eq_refl eq_refl eq_refl eq_refl) as H.
  erewrite (f_equal readObject); [by rewrite H|]. by rewrite !Str.app_assoc.
Qed.

Lemma recordText_read (j : logToJSON) (t : string) :
  readRecord (recordText j +:+ t) = Some (validRecord j, t).
Proof. by apply readRecord_MarshalIndent. Qed.

Lemma recordText_item (j : logToJSON) (t : string) :
  exists c u, recordText j +:+ t = String c u /\ is_ws c = false /\ Ascii.eqb c "]" = false.
Proof. destruct (recordText_starts j t) as (u & -> & _). by eexists _, _. Qed.

Section Reader.
Context (js : list logToJSON) (j : logToJSON).

(** A file that starts with the scar is no array, whatever follows. *)
Lemma readArray_scar (t : string) : readArray (scar js j +:+ t) = None.
Proof.
  pose proof (readRecord_unclosed j t) as Hj. unfold entrySep in Hj.
  destruct (unclosed_text j) as (m & ms & _ & Hu).
  unfold readArray, scar, before, entrySep.
  destruct js as [|j0 js0]; rewrite ?Str.app_nil_l, !Str.app_assoc, Str.app_cons, Str.app_nil_l;
    change (Ascii.eqb "[" "[") with true; cbv iota; rewrite Hu in Hj |- *.
  - by erewrite (readSeq_no_item readRecord "]"); [|reflexivity|reflexivity|exact Hj].
  - rewrite <- (Str.app_assoc "," (String LF "  ")).
    rewrite (readSeq_stuck readRecord "]" recordText validRecord (String LF "  ")
               (String LF "  ") recordText_read recordText_item); try done.
    intros fuel.
    by apply (readRest_no_item readRecord "]" (String LF "  ")); [| |exact Hj].
Qed.

End Reader.

(** An array without its closing bracket is no array. *)
Lemma readArray_cutText (js : list logToJSON) : js <> [] -> readArray (cutText js) = None.
Proof.
  intros Hjs. unfold cutText, arrayText. change (String LF "]") with (String LF "" +:+ "]").
  rewrite <- !Str.app_assoc, (Str.drop_end_app _ "]"), !Str.app_assoc.
  unfold readArray. rewrite Str.app_cons, Str.app_nil_l.
  change (Ascii.eqb "[" "[") with true. cbv iota.
  destruct js as [|j js]; [done|].
  rewrite (readSeq_stuck readRecord "]" recordText validRecord (String LF "  ")
             (String LF "  ") recordText_read recordText_item); try done.
  by intros [|fuel].
Qed.

(** ** Saves on a damaged file *)

Section Later.
Context (p : string) (js : list logToJSON) (j : logToJSON).

(** What [saveToFile] does with a text of two bytes or more, on a state
    where it can save. *)
Lemma saveToFile_over (o : OS) (d : string) (j' : logToJSON) :
  savable o p -> content o p = Some d -> 2 <= String.length d ->
  exists o', saveToFile j' p o = (Ok tt, o')
    /\ content o' p = Some (Str.drop_end 2 d +:+ nextEntry j')
    /\ savable o' p /\ os_fds o' = os_fds o.
Proof.
  intros Hs Hd Hl. pose proof Hs as (Hnf & Hb & Hname & Hfree & _).
  apply content_file in Hd; [|apply Hname].
  destruct (saveToFile_existing_run o p j' Hnf Hb Hname Hfree d Hd) as (m & Hm & ->).
  destruct (String.length d) as [|[|n]]; [lia|lia|]. eexists. split; [done|].
  split; [by apply content_saved, Hname|]. split; [by apply savable_saved|done].
Qed.

(** The first save after the failure: the closing brace goes. *)
Lemma cut_save (o : OS) (j' : logToJSON) :
  savable o p -> content o p = Some (cutText (js ++ [j])) ->
  exists o', saveToFile j' p o = (Ok tt, o') /\ damaged js j o' p
    /\ savable o' p /\ os_fds o' = os_fds o.
Proof.
  intros Hs Hd.
  destruct (saveToFile_over o _ j' Hs Hd) as (o' & Hr & Hc & Hs' & Hfd).
  { rewrite cutText_last, !Str.length_app. simpl. lia. }
  exists o'. split_and!; try done.
  destruct (recordText_starts j' (String LF "]")) as (u & Hu & Hl). exists u. split; [|done].
  rewrite Hc, cutText_last, (Str.drop_end_app _ ("}" +:+ String LF "")).
  unfold scar, nextEntry, entrySep. by rewrite !Str.app_assoc, Hu.
Qed.

(** Every later save: the scar stays. *)
Lemma damaged_save (o : OS) (j' : logToJSON) :
  savable o p -> damaged js j o p ->
  exists o', saveToFile j' p o = (Ok tt, o') /\ damaged js j o' p
    /\ savable o' p /\ os_fds o' = os_fds o.
Proof.
  intros Hs (u & Hd & Hl).
  destruct (saveToFile_over o _ j' Hs Hd) as (o' & Hr & Hc & Hs' & Hfd).
  { rewrite Str.length_app. lia. }
  exists o'. split_and!; try done. exists (Str.drop_end 2 u +:+ nextEntry j').
  split; [by rewrite Hc, drop_end_app_le, Str.app_assoc|].
  unfold nextEntry. rewrite !Str.length_app. simpl. lia.
Qed.

Lemma damaged_save_all (later : list logToJSON) :
  forall o, savable o p -> damaged js j o p ->
  exists o', save_all (H:=array_sink p) later o = (Ok tt, o') /\ damaged js j o' p
    /\ savable o' p /\ os_fds o' = os_fds o.
Proof.
  induction later as [|j' later IH]; intros o Hs Hd; [by exists o|].
  destruct (damaged_save o j' Hs Hd) as (o1 & Hr & Hd1 & Hs1 & Hfd1).
  destruct (IH o1 Hs1 Hd1) as (o2 & Hr2 & Hd2 & Hs2 & Hfd2).
  exists o2. split_and!; [|done|done|congruence].
  simpl. by rewrite (bind_ok _ _ _ _ _ Hr).
Qed.

(** From the failure on: the file is no array after any saves. *)
Lemma cut_save_all (later : list logToJSON) (o : OS) :
  savable o p -> content o p = Some (cutText (js ++ [j])) ->
  exists o', save_all (H:=array_sink p) later o = (Ok tt, o')
    /\ readArray (default "" (content o' p)) = None /\ os_fds o' = os_fds o.
Proof.
  intros Hs Hd. destruct later as [|j' later].
  - exists o. split; [done|]. split; [|done]. rewrite Hd. apply readArray_cutText.
    by destruct js.
  - destruct (cut_save o j' Hs Hd) as (o1 & Hr & Hd1 & Hs1 & Hfd1).
    destruct (damaged_save_all later o1 Hs1 Hd1) as (o2 & Hr2 & (u & Hc & _) & _ & Hfd2).
    exists o2. split_and!; [|by rewrite Hc; apply readArray_scar|congruence].
    simpl. by rewrite (bind_ok _ _ _ _ _ Hr).
Qed.

End Later.

(** ** Calls under a plan of faults *)

(** A call that the plan spares does what it does on a machine without
    faults, and the plan is one entry shorter. *)
Section Spared.
Context (o : OS) (rest : list (option Errno)) (Hsp : os_faults o = None :: rest).

Lemma syscall_spared {A} (op name : string) (body : OS -> result Errno A * OS) :
  syscall op name body o = lift_errno op name (body (with_faults rest o)).
Proof. unfold syscall. by rewrite Hsp. Qed.

Lemma on_file_spared {A} (op : string) (fd : nat) (f : FileDesc) (d : string)
    (body : FileDesc -> string -> OS -> result Errno A * OS) :
  os_fds o !! fd = Some f -> node_at o (of_key f) = Some (NFile d) ->
  on_file op fd body o = lift_errno op (of_name f) (body f d (with_faults rest o)).
Proof.
  intros Hf Hn. unfold on_file. rewrite Hf, syscall_spared.
  by replace (node_at (with_faults rest o) (of_key f)) with (Some (NFile d)).
Qed.

Lemma MkdirAll_spared (name : string) (perm : N) (m : gmap (list string) Node) :
  mkdir_chain [] (resolve (os_cwd o) name) (os_nodes o) = Ok m ->
  MkdirAll name perm o = (Ok tt, with_nodes (fun _ => m) (with_faults rest o)).
Proof. intros Hm. unfold MkdirAll. rewrite syscall_spared. simpl. by rewrite Hm. Qed.

Lemma fileExists_spared (name : string) (n : Node) :
  node_at o (resolve (os_cwd o) name) = Some n ->
  fileExists name o = (Ok true, with_faults rest o).
Proof.
  intros Hn. unfold fileExists, try_, bind, Stat. rewrite syscall_spared.
  by replace (node_at (with_faults rest o) _) with (Some n).
Qed.

Lemma OpenFile_spared (name : string) (flags : list Flag) (perm : N) (d : string) :
  node_at o (resolve (os_cwd o) name) = Some (NFile d) -> has O_TRUNC flags = false ->
  OpenFile name flags perm o
  = (Ok (os_next o), (new_fd name (resolve (os_cwd o) name) flags (with_faults rest o)).2).
Proof.
  intros Hn Ht. unfold OpenFile. rewrite syscall_spared.
  replace (node_at (with_faults rest o) _) with (Some (NFile d)). by rewrite Ht.
Qed.

Lemma Stat_spared_missing (name : string) :
  node_at o (resolve (os_cwd o) name) = None ->
  Stat name o
  = (Err (PathError "stat" name (missing o (resolve (os_cwd o) name))), with_faults rest o).
Proof.
  intros Hn. unfold Stat. rewrite syscall_spared.
  by replace (node_at (with_faults rest o) _) with (@None Node).
Qed.

Lemma Create_spared (name : string) :
  node_at o (resolve (os_cwd o) name) = None ->
  node_at o (parent (resolve (os_cwd o) name)) = Some NDir ->
  Create name o
  = (Ok (os_next o),
     (new_fd name (resolve (os_cwd o) name) [O_RDWR; O_CREATE; O_TRUNC]
        (with_nodes (insert (resolve (os_cwd o) name) (NFile "")) (with_faults rest o))).2).
Proof.
  intros Hn Hp. unfold Create, OpenFile. rewrite syscall_spared.
  replace (node_at (with_faults rest o) (resolve (os_cwd (with_faults rest o)) name))
    with (@None Node).
  by replace (node_at (with_faults rest o) (parent _)) with (Some NDir).
Qed.

End Spared.

(** A planned fault at a write: nothing is written. *)
Lemma File_WriteString_fault (o : OS) (fd : nat) (f : FileDesc) (s : string) (e : Errno)
    (rest : list (option Errno)) :
  os_faults o = Some e :: rest -> os_fds o !! fd = Some f ->
  File_WriteString fd s o = (Err (PathError "write" (of_name f) e), with_faults rest o).
Proof. intros Hf Hfd. unfold File_WriteString, on_file. by rewrite Hfd, (syscall_fault _ _ _ _ e rest). Qed.

#[local] Arguments alone : simpl never.

(** One call of a caller of part_001. *)
Ltac array_call p :=
  rewrite (alone_S (Caller0:=array_caller p)); simpl; unfold or_exit, wrapErr.

(** ** The write that fails

    On a file that is there the write is the seventh call of [saveToFile]:
    the directory, the look at the file, the open, the measure, the cut
    and the seek come before it. *)
Section Fails.
Context (p : string) (o : OS) (d : string) (j : logToJSON) (e : Errno).
Context (m : gmap (list string) Node).
Context (Hnf : os_faults o = []) (Hb : fds_bounded o) (Hname : names_entry (os_cwd o) p).
Context (Hm : mkdir_chain [] (resolve (os_cwd o) (Dir p)) (os_nodes o) = Ok m).
Context (Hmk : m !! resolve (os_cwd o) p = Some (NFile d)) (Hl : 2 <= String.length d).

Let here (x : Node) (M : gmap (list string) Node) (o' : OS) :
  M !! resolve (os_cwd o) p = Some x -> os_cwd o' = os_cwd o ->
  node_at (with_nodes (fun _ => M) o') (resolve (os_cwd o) p) = Some x.
Proof. intros HM Hc. by rewrite node_at_ne by apply Hname. Qed.

(** The descriptor the caller holds, at offset [off]. *)
Definition held_at (off : nat) : FileDesc :=
  {| of_name := p; of_key := resolve (os_cwd o) p; of_off := off; of_append := false |}.

(** The calls up to the cut, spared by the plan. *)
Lemma alone_spared_cut (fs : list (option Errno)) :
  alone (Caller0:=array_caller p) 5 (AStart j) (with_faults (replicate 5 None ++ fs) o)
  = (ATruncated j None (os_next o),
     with_faults fs (with_fds (insert (os_next o) (held_at 0))
       (saved (resolve (os_cwd o) p) (resize (String.length d - 1) d) m 1 o))).
Proof using All.
  simpl replicate.
  array_call p. erewrite MkdirAll_spared; [|done|exact Hm]. simpl.
  array_call p. erewrite fileExists_spared; [|done|by apply here]. simpl.
  array_call p. erewrite OpenFile_spared; [|done|by apply here|done]. simpl.
  array_call p. unfold File_Stat.
  erewrite on_file_spared with (d:=d); [|reflexivity|apply lookup_insert_eq|by apply here].
  simpl. array_call p. destruct (Z.eqb_spec (Z.of_nat (String.length d)) 0) as [|_]; [lia|].
  unfold or_exit, wrapErr, File_Truncate.
  erewrite on_file_spared with (d:=d); [|reflexivity|apply lookup_insert_eq|by apply here].
  simpl. destruct (Z.ltb_spec (Z.of_nat (String.length d) - 1) 0) as [|_]; [lia|]. simpl.
  replace (Z.to_nat (Z.of_nat (String.length d) - 1)) with (String.length d - 1) by lia.
  reflexivity.
Qed.

(** The seek, the write that fails, and the deferred close. *)
Lemma alone_seek_fails :
  alone (Caller0:=array_caller p) 3 (ATruncated j None (os_next o))
    (with_faults [None; Some e] (with_fds (insert (os_next o) (held_at 0))
       (saved (resolve (os_cwd o) p) (resize (String.length d - 1) d) m 1 o)))
  = (AExit j [] (Err (Errorf "append failed, " (PathError "write" p e))),
     saved (resolve (os_cwd o) p) (resize (String.length d - 1) d) m 1 o).
Proof using All.
  array_call p. unfold File_Seek.
  erewrite on_file_spared; [|reflexivity|apply lookup_insert_eq
                            |simpl; rewrite node_at_ne by apply Hname; apply lookup_insert_eq].
  simpl. rewrite length_resize.
  destruct (Z.ltb_spec (Z.of_nat (String.length d - 1) + -1) 0) as [|_]; [lia|]. simpl.
  array_call p. erewrite File_WriteString_fault; [|reflexivity|apply lookup_insert_eq]. simpl.
  array_call p. erewrite close_deferred_run; [|done|apply lookup_insert_eq]. simpl.
  unfold saved, with_fds. simpl. rewrite Hnf, insert_insert_eq, delete_insert_eq.
  by rewrite (delete_id _ _ (fds_bounded_fresh o 0 Hb)).
Qed.

(** The call as a whole. *)
Lemma alone_write_fails :
  alone (Caller0:=array_caller p) 10 (AStart j) (with_faults (replicate 6 None ++ [Some e]) o)
  = (AExit j [] (Err (Errorf "append failed, " (PathError "write" p e))),
     saved (resolve (os_cwd o) p) (resize (String.length d - 1) d) m 1 o).
Proof using All.
  change 10 with (5 + (3 + 2)).
  change (replicate 6 None ++ [Some e]) with (replicate 5 None ++ [None; Some e]).
  rewrite alone_app, alone_spared_cut. cbn [fst snd].
  by rewrite alone_app, alone_seek_fails.
Qed.

End Fails.

(** [saveToFile] on a file of two bytes or more, when the write fails:
    the error of the write is returned, wrapped, and the file has lost its
    last byte. *)
Lemma saveToFile_write_fails (p : string) (o : OS) (d : string) (j : logToJSON) (e : Errno) :
  savable o p -> content o p = Some d -> 2 <= String.length d ->
  exists o1,
    saveToFile j p (with_faults (replicate 6 None ++ [Some e]) o)
    = (Err (Errorf "append failed, " (PathError "write" p e)), o1)
    /\ content o1 p = Some (Str.drop_end 1 d) /\ savable o1 p /\ os_fds o1 = os_fds o.
Proof.
  intros Hs Hd Hl. pose proof Hs as (Hnf & Hb & Hname & Hfree & Hnd).
  apply content_file in Hd; [|apply Hname].
  destruct (ensure_mkdir o p Hnf Hname Hfree) as (m & Hm & Hmk & _). rewrite Hd in Hmk.
  pose proof (alone_saveToFile p j (with_faults (replicate 6 None ++ [Some e]) o)) as Hrun.
  rewrite (alone_write_fails p o d j e m Hnf Hb Hname Hm Hmk Hl) in Hrun.
  injection Hrun as Hr Ho. eexists. split; [by apply injective_projections|].
  split; [|split; [by apply savable_saved|done]].
  rewrite content_saved by apply Hname. by rewrite resize_le by lia.
Qed.

(** ** The file that stays open

    [saveToFile] of part_002 on a path that is not there, when the write
    of the opening bracket fails: the call returns at line 215 and the
    file it created stays open. *)
Lemma bracket_write_fails (p : string) (o : OS) (j : logToJSON) (e : Errno) :
  savable o p -> content o p = None ->
  exists o',
    BracketLogger.saveToFile j p (with_faults (replicate 3 None ++ [Some e]) o)
    = (Err (PathError "write" p e), o')
    /\ os_fds o'
       = <[os_next o := {| of_name := p; of_key := resolve (os_cwd o) p; of_off := 0;
                           of_append := false |}]> (os_fds o)
    /\ os_faults o' = [] /\ content o' p = Some "".
Proof.
  intros (Hnf & Hb & Hname & Hfree & Hnd) Hd. rewrite content_node in Hd by apply Hname.
  destruct (ensure_mkdir o p Hnf Hname Hfree) as (m & Hm & Hmk & Hdir).
  assert (Hk : m !! resolve (os_cwd o) p = None).
  { rewrite Hmk. destruct (os_nodes o !! _) as [[]|]; done. }
  eexists. split.
  - unfold BracketLogger.saveToFile, BracketLogger.initFile, BracketLogger.fileExists,
      try_, bind. simpl replicate.
    erewrite MkdirAll_spared; [|done|exact Hm].
    erewrite Stat_spared_missing; [|done|by simpl; rewrite node_at_ne by apply Hname].
    unfold missing. simpl.
    replace (node_at _ (parent (resolve (os_cwd o) p))) with (Some NDir)
      by (symmetry; exact Hdir). simpl.
    erewrite Create_spared; [|done|by simpl; rewrite node_at_ne by apply Hname|done].
    erewrite File_WriteString_fault; [|reflexivity|apply lookup_insert_eq]. reflexivity.
  - simpl. split_and!; [done|done|].
    rewrite content_node by apply Hname. simpl. by rewrite lookup_insert_eq.
Qed.

(** ** A save between the cut and the write

    Without any fault: a caller has cut the bracket when another saves its
    record; that save cuts the closing brace of the last record, and the
    first caller writes behind it. *)
Section Racing.
Context (p : string) (js : list logToJSON) (j a b : logToJSON).

(** The five calls up to the cut. *)
Lemma alone_cut (o : OS) :
  savable o p -> stored o p (js ++ [j]) ->
  exists oA f,
    alone (Caller0:=array_caller p) 5 (AStart a) o = (ATruncated a None (os_next o), oA)
    /\ os_fds oA = <[os_next o := f]> (os_fds o)
    /\ of_key f = resolve (os_cwd o) p /\ of_append f = false
    /\ savable oA p /\ content oA p = Some (cutText (js ++ [j])) /\ os_cwd oA = os_cwd o.
Proof.
  intros Hs Hst. pose proof Hs as (_ & _ & Hname & _).
  assert (Hne : js ++ [j] <> []) by (by destruct js).
  pose proof (stored_text p o _ Hne Hst) as Hc.
  destruct (alone_measures p a o _ Hs Hc) as (o1 & f & H1 & Hfd & Hkey & Hap & Hs1 & Hc1 & Hcwd).
  pose proof Hs1 as (Hnf1 & _ & Hname1 & _).
  pose proof (content_file p o1 _ (proj2 Hname1) Hc1) as Hn1.
  rewrite Hcwd, <- Hkey in Hn1.
  exists (with_nodes (insert (of_key f) (NFile (cutText (js ++ [j])))) o1), f.
  split_and!; try done.
  - rewrite (alone_app 4 1), H1. cbn [fst snd].
    rewrite (alone_truncates p a o1 _ f (arrayText (js ++ [j]))
               (String.length (arrayText (js ++ [j]))));
      [|by rewrite Hfd, lookup_insert_eq|rewrite Hkey; apply Hname|done|done
       |pose proof (length_arrayText (js ++ [j])); lia].
    by rewrite resize_le by lia.
  - apply (savable_file o1 _ p (cutText (js ++ [j]))); try done.
    simpl. by rewrite Hcwd, Hkey.
  - unfold content. simpl. rewrite Hcwd, <- Hkey, node_at_ne by (rewrite Hkey; apply Hname).
    simpl. by rewrite lookup_insert_eq.
Qed.

(** The second caller saves between the cut and the write of the first:
    both return nil and the file has the scar. *)
Lemma raced (o : OS) :
  savable o p -> stored o p (js ++ [j]) ->
  exists s, runs (Caller0:=array_caller p) (o, [AStart a; AStart b]) s
    /\ s.2 = [AExit a [] (Ok tt); AExit b [] (Ok tt)]
    /\ damaged js j s.1 p /\ savable s.1 p /\ os_fds s.1 = os_fds o.
Proof.
  intros Hs Hst. pose proof Hs as (_ & Hb & Hname & _).
  destruct (alone_cut o Hs Hst) as (oA & f & HA & HfdA & Hkey & Hap & HsA & HcA & HcwdA).
  destruct (cut_save p js j oA b HsA HcA) as (oB & HB & (u & HcB & Hu) & HsB & HfdB).
  pose proof (@Inv.ArraySink_stable _ p (@Inv.kept_at _ (Inv.grows_kept oA) p) b oA (Inv.grows_refl oA))
    as (HcwdB & _).
  rewrite HB in HcwdB. simpl in HcwdB.
  pose proof HsB as (HnfB & _ & HnameB & _).
  pose proof (content_file p oB _ (proj2 HnameB) HcB) as HnB.
  rewrite HcwdB, HcwdA, <- Hkey in HnB.
  destruct (alone_enters p a oB (os_next o) f (scar js j +:+ u))
    as (o' & HC & Hnodes & Hfds & Hcwd & Hnext & Hnf);
    [by rewrite HfdB, HfdA, lookup_insert_eq|rewrite Hkey; apply Hname|exact HnB|done|done
    |rewrite Str.length_app; lia|].
  exists (o', [AExit a [] (Ok tt); AExit b [] (Ok tt)]). split_and!; simpl.
  - eapply (alone_between (Caller0:=array_caller p) 5 10 3);
      [exact HA|by rewrite alone_saveToFile, HB|exact HC].
  - done.
  - exists (Str.drop_end 1 u +:+ nextEntry a). split.
    + unfold content.
      rewrite Hcwd, HcwdB, HcwdA, <- Hkey, node_at_ne, Hnodes, lookup_insert_eq
        by (rewrite Hkey; apply Hname).
      rewrite write_at_last, drop_end_app_le, Str.app_assoc; [done|lia| |];
        unfold nextEntry; rewrite !Str.length_app; simpl; lia.
    + unfold nextEntry. rewrite !Str.length_app. simpl. lia.
  - eapply (savable_file oB o' p); [done|by rewrite Hcwd| |by rewrite Hfds; apply delete_subseteq
                                   |done|done].
    by rewrite Hnodes, HcwdB, HcwdA, Hkey.
  - rewrite Hfds, HfdB, HfdA, delete_insert_eq. apply delete_id, (fds_bounded_fresh o 0 Hb).
Qed.

End Racing.

(** ** The theorems *)

(** C22: a save of part_001 whose write fails destroys the log for good.  On
    a log that holds records, when the write fails, the call returns the
    error of the write and the file is left without its closing bracket;
    every save after that, on a machine without faults, returns nil, and
    after any number of them the file is not an array: the first of them
    wrote over the closing brace of the last record. *)
Theorem failed_append_corrupts (p : string) (o : OS) (js later : list logToJSON)
    (j : logToJSON) (e : Errno) :
  savable o p -> ArraySink.stored o p js -> js <> [] ->
  exists o1 o2,
    saveToFile j p (with_faults (replicate 6 None ++ [Some e]) o)
    = (Err (errorString ("append failed, write " +:+ p +:+ ": " +:+ errno_string e)), o1)
    /\ os_faults o1 = [] /\ readArray (default "" (content o1 p)) = None
    /\ save_all (H:=array_sink p) later o1 = (Ok tt, o2)
    /\ readArray (default "" (content o2 p)) = None
    /\ os_fds o2 = os_fds o.
Proof.
  intros Hs Hst Hjs. pose proof (stored_text p o js Hjs Hst) as Hd.
  destruct (saveToFile_write_fails p o _ j e Hs Hd (length_arrayText js))
    as (o1 & Hr & Hc & Hs1 & Hfd).
  destruct (exists_last Hjs) as (js' & jn & ->).
  destruct (cut_save_all p js' jn later o1 Hs1 Hc) as (o2 & Hr2 & Hu & Hfd2).
  exists o1, o2. split_and!; [done|apply Hs1| |done|done|congruence].
  rewrite Hc. by apply readArray_cutText.
Qed.

Lemma failed_append_corrupts_witness :
  exists o1 o2,
    saveToFile LineSink.sample "./logs/app.json"
      (with_faults (replicate 6 None ++ [Some ENOSPC])
         (saveToFile sample1 "./logs/app.json" empty_OS).2)
    = (Err (errorString ("append failed, write " +:+ "./logs/app.json" +:+ ": "
                         +:+ errno_string ENOSPC)), o1)
    /\ os_faults o1 = [] /\ readArray (default "" (content o1 "./logs/app.json")) = None
    /\ save_all (H:=array_sink "./logs/app.json") [sample1; LineSink.sample] o1 = (Ok tt, o2)
    /\ readArray (default "" (content o2 "./logs/app.json")) = None
    /\ os_fds o2 = os_fds (saveToFile sample1 "./logs/app.json" empty_OS).2.
Proof.
  apply (failed_append_corrupts "./logs/app.json"
           (saveToFile sample1 "./logs/app.json" empty_OS).2 [sample1] [sample1; LineSink.sample]
           LineSink.sample ENOSPC).
  - apply savableb_sound. vm_compute. reflexivity.
  - vm_compute. reflexivity.
  - discriminate.
Defined.

(** C30: [saveToFile] of part_002 can return with a file open.  On a path
    that is not there, when the write of the opening bracket fails, the
    call returns the error of the write, the file it created is there and
    empty, and its descriptor stays open: the open descriptors are those
    that were open and this one. *)
Theorem bracket_leaks (p : string) (o : OS) (j : logToJSON) (e : Errno) :
  savable o p -> content o p = None ->
  exists o',
    BracketLogger.saveToFile j p (with_faults (replicate 3 None ++ [Some e]) o)
    = (Err (PathError "write" p e), o')
    /\ content o' p = Some ""
    /\ os_fds o !! os_next o = None
    /\ os_fds o'
       = <[os_next o := {| of_name := p; of_key := resolve (os_cwd o) p; of_off := 0;
                           of_append := false |}]> (os_fds o)
    /\ size (os_fds o') = S (size (os_fds o)).
Proof.
  intros Hs Hd. destruct (bracket_write_fails p o j e Hs Hd) as (o' & Hr & Hfd & _ & Hc).
  pose proof (fds_bounded_fresh o 0 (proj1 (proj2 Hs))) as Hfresh.
  exists o'. split_and!; try done. by rewrite Hfd, map_size_insert_None.
Qed.

Lemma bracket_leaks_witness :
  exists o',
    BracketLogger.saveToFile sample1 "log.json"
      (with_faults (replicate 3 None ++ [Some ENOSPC]) empty_OS)
    = (Err (PathError "write" "log.json" ENOSPC), o')
    /\ content o' "log.json" = Some ""
    /\ os_fds empty_OS !! os_next empty_OS = None
    /\ os_fds o'
       = <[os_next empty_OS := {| of_name := "log.json";
                                  of_key := resolve (os_cwd empty_OS) "log.json";
                                  of_off := 0; of_append := false |}]> (os_fds empty_OS)
    /\ size (os_fds o') = S (size (os_fds empty_OS)).
Proof.
  apply (bracket_leaks "log.json" empty_OS sample1 ENOSPC).
  - apply savableb_sound. vm_compute. reflexivity.
  - vm_compute. reflexivity.
Defined.

(** C18: two callers of part_001 without a lock can destroy the log for
    good, with no fault and no error.  On a log that holds records there is
    a schedule of two callers after which both have returned nil, every
    descriptor is closed, and the file is no JSON array; whatever is saved
    to it later, alone and without error, it stays none. *)
Theorem saves_race_corrupts (p : string) (o : OS) (js later : list logToJSON)
    (j a b : logToJSON) :
  savable o p -> stored o p (js ++ [j]) ->
  exists s o2,
    runs (Caller0:=array_caller p) (o, [AStart a; AStart b]) s
    /\ s.2 = [AExit a [] (Ok tt); AExit b [] (Ok tt)]
    /\ readArray (default "" (content s.1 p)) = None
    /\ os_fds s.1 = os_fds o
    /\ save_all (H:=array_sink p) later s.1 = (Ok tt, o2)
    /\ readArray (default "" (content o2 p)) = None.
Proof.
  intros Hs Hst. destruct (raced p js j a b o Hs Hst) as (s & Hr & Hpc & Hd & Hs' & Hfd).
  destruct (damaged_save_all p js j later s.1 Hs' Hd) as (o2 & Hr2 & (u2 & Hc2 & _) & _).
  destruct Hd as (u & Hc & _). exists s, o2.
  split_and!; [done|done| |done|done|]; rewrite ?Hc, ?Hc2; apply readArray_scar.
Qed.

Lemma saves_race_corrupts_witness :
  exists s o2,
    runs (Caller0:=array_caller "log.json")
      ((saveToFile LineSink.sample "log.json" empty_OS).2,
       [AStart sample1; AStart LineSink.sample]) s
    /\ s.2 = [AExit sample1 [] (Ok tt); AExit LineSink.sample [] (Ok tt)]
    /\ readArray (default "" (content s.1 "log.json")) = None
    /\ os_fds s.1 = os_fds (saveToFile LineSink.sample "log.json" empty_OS).2
    /\ save_all (H:=array_sink "log.json") [sample1] s.1 = (Ok tt, o2)
    /\ readArray (default "" (content o2 "log.json")) = None.
Proof.
  apply (saves_race_corrupts "log.json" (saveToFile LineSink.sample "log.json" empty_OS).2
           [] [sample1] LineSink.sample sample1 LineSink.sample).
  - apply savableb_sound. vm_compute. reflexivity.
  - vm_compute. reflexivity.
Defined.

End Damage.
