(* ===== verification/Partial.v ===== *)
(** * Partial: what a failed save of part_002 leaves

    [saveToFile] of src/unnamed/part_002 enters a record in six calls on
    the open file: the closing bracket is cut, the end is sought, a comma
    is written, the end is sought again, the record is written, and the
    closing bracket.  A fault at one of them leaves what the calls before
    it have done.  The file is then the array it was (the cut fails), the
    array without its closing bracket (the first seek or the comma fails),
    that text and a comma (the second seek or the record fails), or the
    array of all records without its closing bracket (the bracket fails).

    The save that follows cuts two bytes again.  After a failed cut
    nothing is lost; after a comma the cut takes the comma, and the log is
    whole again without the record of the failed call.  In the other cases
    the cut takes the closing brace of the last record, and the file is no
    array from then on. *)

From S2P Require Import Prelude GoTime GoJson GoOS World Sink ArraySink LineSink Compose.
From S2P Require Import Paced BracketLogger Inv Live JsonRead LogRead Race Damage.

Module Partial.

Import GoJson GoOS Sink BracketLogger JsonRead LogRead Race Damage.

(** ** Calls under a plan

    A call the plan spares does what it does without a plan and leaves the
    rest of the plan; a call the plan stops returns the fault and leaves
    the state as it was. *)
Definition spares {A} (m : M OS error A) (o : OS) : Prop :=
  forall fs, m (with_faults (None :: fs) o)
             = ((m (with_faults [] o)).1, with_faults fs (m (with_faults [] o)).2).

Definition stops {A} (op name : string) (m : M OS error A) (o : OS) : Prop :=
  forall e fs, m (with_faults (Some e :: fs) o) = (Err (PathError op name e), with_faults fs o).

Lemma syscall_spares {A} (op name : string) (body : OS -> result Errno A * OS) (o : OS) :
  oblivious body -> spares (syscall op name body) o.
Proof. intros Hb fs. apply (syscall_plan op name body (with_faults (None :: fs) o) Hb). Qed.

Lemma syscall_stops {A} (op name : string) (body : OS -> result Errno A * OS) (o : OS) :
  stops op name (syscall op name body) o.
Proof. by intros e fs. Qed.

(** The bodies of the calls on an open file do not look at the plan. *)
Definition file_oblivious {A} (body : FileDesc -> string -> OS -> result Errno A * OS) : Prop :=
  forall f d, oblivious (body f d).

Lemma on_file_spares {A} (op : string) (fd : nat) (f : FileDesc)
    (body : FileDesc -> string -> OS -> result Errno A * OS) (o : OS) :
  file_oblivious body -> os_fds o !! fd = Some f -> spares (on_file op fd body) o.
Proof.
  intros Hb Hf fs. unfold on_file. simpl. rewrite Hf.
  apply (syscall_spares op (of_name f)). intros l o'.
  replace (node_at (with_faults l o') (of_key f)) with (node_at o' (of_key f)) by done.
  destruct (node_at o' (of_key f)) as [[|d]|]; [done|apply Hb|done].
Qed.

Lemma on_file_stops {A} (op : string) (fd : nat) (f : FileDesc)
    (body : FileDesc -> string -> OS -> result Errno A * OS) (o : OS) :
  os_fds o !! fd = Some f -> stops op (of_name f) (on_file op fd body) o.
Proof. intros Hf e fs. unfold on_file. simpl. by rewrite Hf. Qed.

Section Calls.
Context (o : OS) (fd : nat) (f : FileDesc) (Hf : os_fds o !! fd = Some f).

Lemma MkdirAll_spares (name : string) (perm : N) : spares (MkdirAll name perm) o.
Proof. apply syscall_spares. intros fs o'. simpl. by case_match. Qed.

Lemma Stat_spares (name : string) : spares (Stat name) o.
Proof.
  apply syscall_spares. intros fs o'. cbv zeta.
  replace (node_at (with_faults fs o') _) with (node_at o' (resolve (os_cwd o') name)) by done.
  by destruct (node_at o' _).
Qed.

Lemma fileExists_spares (name : string) : spares (fileExists name) o.
Proof.
  intros fs. unfold fileExists, try_, bind, ret. rewrite (Stat_spares name fs).
  by destruct (Stat name (with_faults [] o)) as [[]].
Qed.

Lemma OpenFile_spares (name : string) (flags : list Flag) (perm : N) :
  spares (OpenFile name flags perm) o.
Proof. apply syscall_spares, OpenFile_oblivious. Qed.

Lemma File_Stat_spares : spares (File_Stat fd) o.
Proof using Hf. by apply (on_file_spares _ _ f). Qed.

Lemma File_Truncate_spares (size : Z) : spares (File_Truncate fd size) o.
Proof using Hf. apply (on_file_spares _ _ f); [|done]. intros f' d fs o'. by case_match. Qed.

Lemma File_Seek_spares (offset : Z) (whence : Whence) : spares (File_Seek fd offset whence) o.
Proof using Hf. apply (on_file_spares _ _ f); [|done]. intros f' d fs o'. cbv zeta. by case_match. Qed.

Lemma File_WriteString_spares (s : string) : spares (File_WriteString fd s) o.
Proof using Hf. by apply (on_file_spares _ _ f). Qed.

Lemma File_Truncate_stops (size : Z) : stops "truncate" (of_name f) (File_Truncate fd size) o.
Proof using Hf. by apply on_file_stops. Qed.

Lemma File_Seek_stops (offset : Z) (whence : Whence) :
  stops "seek" (of_name f) (File_Seek fd offset whence) o.
Proof using Hf. by apply on_file_stops. Qed.

Lemma File_WriteString_stops (s : string) : stops "write" (of_name f) (File_WriteString fd s) o.
Proof using Hf. by apply on_file_stops. Qed.

End Calls.

(** A spared call and a stopped call in a sequence of calls. *)
Lemma bind_spared {A B} (m : M OS error A) (k : A -> M OS error B) (o o' : OS) (a : A)
    (fs : list (option Errno)) :
  spares m o -> os_faults o = [] -> m o = (Ok a, o') ->
  bind m k (with_faults (None :: fs) o) = k a (with_faults fs o').
Proof.
  intros Hm Hnf Ho. unfold bind. rewrite Hm.
  replace (with_faults [] o) with o by (by rewrite <- Hnf, with_faults_id). by rewrite Ho.
Qed.

Lemma bind_stopped {A B} (op name : string) (m : M OS error A) (k : A -> M OS error B)
    (o : OS) (e : Errno) (fs : list (option Errno)) :
  stops op name m o ->
  bind m k (with_faults (Some e :: fs) o) = (Err (PathError op name e), with_faults fs o).
Proof. intros Hm. unfold bind. by rewrite Hm. Qed.

(** ** The texts *)

Definition entrySep : string := "," +:+ String LF "".

(** An entry without its last line, the closing brace. *)
Definition openEntry (j : logToJSON) : string := Str.drop_end 2 (entryText j).

(** The entries before the last, each with the separator after it. *)
Definition entriesBefore (js : list logToJSON) : string :=
  match js with
  | [] => ""
  | _ => Join (entryText <$> js) entrySep +:+ entrySep
  end.

(** The array of [js] and [j] without its closing bracket. *)
Definition unclosedText (js : list logToJSON) (j : logToJSON) : string :=
  opening +:+ entriesBefore js +:+ entryText j.

(** The text every later file starts with: the array up to the last
    record, that record without its closing brace, and the start of the
    entry of the first save after the failure. *)
Definition bracketScar (js : list logToJSON) (j : logToJSON) : string :=
  opening +:+ entriesBefore js +:+ openEntry j +:+ entrySep +:+ "{".

(** The file starts with [pre] and has two bytes or more behind it. *)
Definition begins (pre : string) (o : OS) (p : string) : Prop :=
  exists u, content o p = Some (pre +:+ u) /\ 2 <= String.length u.

Definition scarred (js : list logToJSON) (j : logToJSON) (o : OS) (p : string) : Prop :=
  begins (bracketScar js j) o p.

(** The saves after which the log is an array again. *)
Definition heals (n : nat) : bool :=
  match n with
  | 0 | 3 | 4 => true
  | _ => false
  end.

Lemma openEntry_text (j : logToJSON) :
  exists m ms, members j = m :: ms
    /\ openEntry j
       = "{" +:+ (String LF "" +:+ "  ")
         +:+ Join (member (":" +:+ " ") <$> m :: ms) ("," +:+ String LF "" +:+ "  ").
Proof.
  unfold openEntry, entryText, MarshalIndent. destruct (members_first j) as [rest ->].
  eexists _, _. split; [done|]. cbv zeta.
  set (body := Join _ _). set (s := "{" +:+ (String LF "" +:+ "  ") +:+ body).
  replace (Str.drop_end 2 _) with (Str.drop_end 2 (s +:+ String LF "}"));
    [apply (Str.drop_end_app _ (String LF "}"))|].
  unfold s. by rewrite !Str.app_assoc.
Qed.

Lemma entryText_open (j : logToJSON) : entryText j = openEntry j +:+ String LF "}".
Proof.
  destruct (openEntry_text j) as (m & ms & Hm & ->).
  unfold entryText, MarshalIndent. rewrite Hm. by rewrite !Str.app_assoc.
Qed.

Lemma entryText_starts (j : logToJSON) (t : string) :
  exists u, entryText j +:+ t = String "{" u /\ 2 <= String.length u.
Proof.
  unfold entryText, MarshalIndent. destruct (members_first j) as [rest ->].
  eexists. rewrite !Str.app_assoc, Str.app_cons, Str.app_nil_l. split; [done|].
  rewrite Str.length_app. simpl. lia.
Qed.

Lemma entriesBefore_snoc (js : list logToJSON) (j : logToJSON) :
  entriesBefore (js ++ [j]) = entriesBefore js +:+ entryText j +:+ entrySep.
Proof.
  unfold entriesBefore. destruct js as [|j0 js]; [done|].
  rewrite fmap_app. change (entryText <$> [j]) with [entryText j].
  rewrite ArraySink.Join_snoc by done. by rewrite !Str.app_assoc.
Qed.

Lemma bracketText_last (js : list logToJSON) (j : logToJSON) :
  bracketText (js ++ [j]) = unclosedText js j +:+ String LF "]".
Proof.
  unfold bracketText, unclosedText, entriesBefore. destruct js as [|j0 js]; [done|].
  rewrite fmap_app. change (entryText <$> [j]) with [entryText j].
  rewrite ArraySink.Join_snoc by done. by rewrite !Str.app_assoc.
Qed.

Lemma unclosedText_open (js : list logToJSON) (j : logToJSON) :
  Str.drop_end 2 (unclosedText js j) = opening +:+ entriesBefore js +:+ openEntry j.
Proof.
  unfold unclosedText. rewrite (entryText_open j).
  replace (opening +:+ entriesBefore js +:+ openEntry j +:+ String LF "}")
    with ((opening +:+ entriesBefore js +:+ openEntry j) +:+ String LF "}")
    by (by rewrite !Str.app_assoc).
  apply (Str.drop_end_app _ (String LF "}")).
Qed.

Lemma length_unclosedText (js : list logToJSON) (j : logToJSON) :
  2 < String.length (unclosedText js j).
Proof.
  unfold unclosedText, opening. destruct (entryText_starts j "") as (u & Hu & Hl).
  rewrite Str.app_nil_r in Hu. rewrite !Str.length_app, Hu. simpl. lia.
Qed.

(** ** The reader on these texts *)

(** An entry without its closing brace, and an entry after it, is no
    object. *)
Lemma readRecord_openEntry (j : logToJSON) (t : string) :
  readRecord (openEntry j +:+ entrySep +:+ "{" +:+ t) = None.
Proof.
  destruct (openEntry_text j) as (m & ms & _ & ->). unfold readRecord, entrySep.
  pose proof (readObject_open (String LF "" +:+ "  ") (String LF "" +:+ "  ")
                "" (String LF "") " " m ms t
                eq_refl eq_refl eq_refl eq_refl eq_refl) as H.
  erewrite (f_equal readObject); [by rewrite H|]. by rewrite !Str.app_assoc.
Qed.

Lemma entryText_read (j : logToJSON) (t : string) :
  readRecord (entryText j +:+ t) = Some (validRecord j, t).
Proof. by apply readRecord_MarshalIndent. Qed.

Lemma entryText_item (j : logToJSON) (t : string) :
  exists c u, entryText j +:+ t = String c u /\ is_ws c = false /\ Ascii.eqb c "]" = false.
Proof. destruct (entryText_starts j t) as (u & -> & _). by eexists _, _. Qed.

(** A file that starts with the scar is no array, whatever follows. *)
Lemma readArray_bracketScar (js : list logToJSON) (j : logToJSON) (t : string) :
  readArray (bracketScar js j +:+ t) = None.
Proof.
  pose proof (readRecord_openEntry j t) as Hj. unfold entrySep in Hj.
  destruct (openEntry_text j) as (m & ms & _ & Hu).
  unfold readArray, bracketScar, opening, entriesBefore, entrySep.
  destruct js as [|j0 js0]; rewrite ?Str.app_nil_l, !Str.app_assoc, Str.app_cons, Str.app_nil_l;
    change (Ascii.eqb "[" "[") with true; cbv iota; rewrite Hu in Hj |- *.
  - by erewrite (readSeq_no_item readRecord "]"); [|reflexivity|reflexivity|exact Hj].
  - rewrite (readSeq_stuck readRecord "]" entryText validRecord (String LF "")
               (String LF "") entryText_read entryText_item); try done.
    intros fuel.
    by apply (readRest_no_item readRecord "]" (String LF "")); [| |exact Hj].
Qed.

(** ** The save that fails *)

(** The text of a file of [d] when call [n] of the six calls that enter
    [j] is the one that fails, and the name of that call. *)
Definition torn (d : string) (j : logToJSON) (n : nat) : string :=
  match n with
  | 0 => d
  | 1 | 2 => Str.drop_end 2 d
  | 3 | 4 => Str.drop_end 2 d +:+ "," +:+ String LF ""
  | _ => (Str.drop_end 2 d +:+ "," +:+ String LF "") +:+ entryText j
  end.

Definition failing (n : nat) : string :=
  match n with
  | 0 => "truncate"
  | 1 | 3 => "seek"
  | _ => "write"
  end.

Section Torn.
Context (cwd : list string) (M : gmap (list string) Node) (F : gmap nat FileDesc).
Context (name : string) (k : list string) (fd : nat) (j : logToJSON) (e : Errno).
Context (Hk : k <> []).

Local Abbreviation open_at := (st_open cwd M F name k fd).

Lemma seek_open (nx : nat) (d : string) (off : nat) :
  File_Seek fd 0 SeekEnd (open_at nx d off)
  = (Ok (Z.of_nat (String.length d) + 0)%Z, open_at nx d (String.length d)).
Proof using Hk.
  rewrite seek_end_open by (done || lia).
  by replace (Z.to_nat (Z.of_nat (String.length d) + 0)) with (String.length d) by lia.
Qed.

Lemma cut_open (nx : nat) (d : string) (off : nat) :
  2 < String.length d ->
  File_Truncate fd (Z.of_nat (String.length d) - 2) (open_at nx d off)
  = (Ok tt, open_at nx (Str.drop_end 2 d) off).
Proof using Hk.
  intros Hd. rewrite truncate_open by (done || lia). unfold Str.drop_end.
  rewrite resize_le by lia. do 3 f_equal. lia.
Qed.

(** A call on the open file that the plan spares, and one it stops. *)
Ltac spare H :=
  erewrite bind_spared;
    [|first [eapply File_Stat_spares|eapply File_Truncate_spares|eapply File_Seek_spares
            |eapply File_WriteString_spares]; apply lookup_insert_eq
     |reflexivity|apply H; done].

Ltac stop :=
  erewrite bind_stopped;
    [|first [eapply File_Truncate_stops|eapply File_Seek_stops|eapply File_WriteString_stops];
      apply lookup_insert_eq];
  by eexists.

Lemma writeEntry_torn (nx : nat) (d : string) (off n : nat) :
  2 < String.length d -> n <= 5 ->
  exists off',
    writeEntry j fd (with_faults (replicate (S n) None ++ [Some e]) (open_at nx d off))
    = (Err (PathError (failing n) name e), open_at nx (torn d j n) off').
Proof using Hk.
  intros Hd Hn. unfold writeEntry, jsonMarshalIndent. cbn [replicate app].
  spare stat_open. rewrite bind_ret_l. simpl fi_size.
  destruct (Z.ltb_spec 2 (Z.of_nat (String.length d))) as [_|]; [|lia].
  rewrite !bind_assoc.
  destruct n as [|n]; cbn [replicate app]; [stop|spare cut_open].
  rewrite !bind_assoc.
  destruct n as [|n]; cbn [replicate app]; [stop|spare seek_open].
  rewrite !bind_assoc.
  destruct n as [|n]; cbn [replicate app]; [stop|spare write_more].
  rewrite bind_ret_l.
  destruct n as [|n]; cbn [replicate app]; [stop|spare seek_open].
  destruct n as [|n]; cbn [replicate app]; [stop|spare write_more].
  destruct n as [|n]; cbn [replicate app]; [stop|lia].
Qed.

End Torn.

(** [saveToFile] on a file of more than two bytes, when the plan spares
    the four calls that come before the six that enter the record, spares
    [n] of these and stops the next: the error of that call is returned,
    the descriptor is released, and the file holds what the calls before
    have made of it. *)
Lemma saveToFile_torn (p : string) (o : OS) (d : string) (j : logToJSON) (e : Errno)
    (n : nat) :
  savable o p -> content o p = Some d -> 2 < String.length d -> n <= 5 ->
  exists o1,
    saveToFile j p (with_faults (replicate (4 + n) None ++ [Some e]) o)
    = (Err (PathError (failing n) p e), o1)
    /\ content o1 p = Some (torn d j n) /\ savable o1 p /\ os_fds o1 = os_fds o.
Proof.
  intros Hs Hc Hd Hn. destruct (MkdirAll_savable o p 493 Hs) as (m & Hm & Hmk & Hk & Hdir).
  pose proof Hs as (Hnf & Hb & Hname & Hfree & Hnd).
  apply content_file in Hc; [|apply Hname]. rewrite Hc in Hk.
  pose proof (fds_bounded_fresh o 0 Hb) as Hfd.
  destruct (writeEntry_torn (os_cwd o) m (os_fds o) p _ (os_next o) j e (proj2 Hname)
              (S (os_next o)) d 0 n Hd Hn) as [off' Hw].
  exists (ArraySink.saved (resolve (os_cwd o) p) (torn d j n) m 1 o). split.
  - unfold saveToFile, initFile. cbn [replicate app Nat.add].
    rewrite (bind_spared _ _ _ _ _ _ (MkdirAll_spares _ _ _) Hnf Hmk), bind_assoc.
    rewrite (bind_spared (fileExists p) _ (with_nodes (fun _ => m) o) _ _ _
               (fileExists_spares _ _) Hnf (ArraySink.fileExists_found o p Hnf Hname m _ Hk)).
    cbn [negb]. rewrite bind_ret_l, (made_closed o m _ d Hnf Hk).
    rewrite (bind_spared _ _ (st_closed (os_cwd o) m (os_fds o) (resolve (os_cwd o) p)
                                 (os_next o) d) _ _ _ (OpenFile_spares _ _ _ _) eq_refl
               (open_existing _ _ _ p _ _ (proj2 Hname) eq_refl d [O_RDWR] 420 eq_refl eq_refl)).
    rewrite (defer_run _ _ _ _ _ Hw), close_deferred_open by done.
    unfold st_closed, ArraySink.saved. by rewrite Hnf.
  - split; [by apply ArraySink.content_saved, Hname|].
    split; [by apply ArraySink.savable_saved|done].
Qed.

(** ** The saves that follow *)

Section Later.
Context (p : string).

(** A save on a state where it cannot fail, by the text of the file. *)
Lemma saveToFile_onto (o : OS) (d : string) (j : logToJSON) :
  savable o p -> content o p = Some d ->
  exists o', saveToFile j p o = (Ok tt, o') /\ content o' p = Some (entered d j)
    /\ savable o' p /\ os_fds o' = os_fds o.
Proof.
  intros Hs Hc. destruct (saveToFile_entered o p j Hs) as (m & Hm & ->). rewrite Hc.
  eexists. split; [done|]. split; [by apply ArraySink.content_saved, Hs|].
  split; [by apply ArraySink.savable_saved|done].
Qed.

(** A text on which a save makes the array of [js] and its record: the
    saves make the array of [js] and their records. *)
Lemma later_heals (o : OS) (t : string) (js later : list logToJSON) :
  savable o p -> content o p = Some t -> later <> [] ->
  (forall j, entered t j = bracketText (js ++ [j])) ->
  exists o', save_all (H:=bracket_sink p) later o = (Ok tt, o')
    /\ content o' p = Some (bracketText (js ++ later)) /\ os_fds o' = os_fds o.
Proof.
  intros Hs Hc Hl Ht. destruct later as [|j later]; [done|].
  destruct (saveToFile_onto o t j Hs Hc) as (o1 & Hr & Hc1 & Hs1 & Hfd1). rewrite Ht in Hc1.
  destruct (save_all_appends (H:=bracket_sink p) later o1 (js ++ [j]) Hs1)
    as (o2 & Hr2 & Hh & _ & Hfd2).
  { simpl. unfold stored. by destruct js. }
  exists o2. simpl. rewrite (bind_ok _ _ _ _ _ Hr). split_and!; [done| |congruence].
  simpl in Hh. unfold stored in Hh. rewrite <- app_assoc in Hh. by destruct js.
Qed.

(** The first save on an array without its closing bracket: the closing
    brace of the last record goes. *)
Lemma unclosed_save (o : OS) (js : list logToJSON) (j j' : logToJSON) :
  savable o p -> content o p = Some (unclosedText js j) ->
  exists o', saveToFile j' p o = (Ok tt, o') /\ scarred js j o' p
    /\ savable o' p /\ os_fds o' = os_fds o.
Proof.
  intros Hs Hc. destruct (saveToFile_onto o _ j' Hs Hc) as (o' & Hr & Hc' & Hs' & Hfd).
  exists o'. split_and!; try done.
  destruct (entryText_starts j' (String LF "]")) as (u & Hu & Hl). exists u. split; [|done].
  rewrite Hc'. unfold entered.
  destruct (Nat.ltb_spec 2 (String.length (unclosedText js j))) as [_|];
    [|pose proof (length_unclosedText js j); lia].
  rewrite unclosedText_open. unfold bracketScar, entrySep. rewrite !Str.app_assoc.
  change ("{" +:+ u) with (String "{" u). by rewrite <- Hu.
Qed.

(** A save takes two bytes off the end of the file: what the file starts
    with before the last two bytes stays, whatever is saved later. *)
Lemma begins_save (o : OS) (pre : string) (j' : logToJSON) :
  savable o p -> begins pre o p ->
  exists o', saveToFile j' p o = (Ok tt, o') /\ begins pre o' p
    /\ savable o' p /\ os_fds o' = os_fds o.
Proof.
  intros Hs (u & Hc & Hl).
  destruct (saveToFile_onto o _ j' Hs Hc) as (o' & Hr & Hc' & Hs' & Hfd).
  exists o'. split_and!; try done. unfold begins. rewrite Hc'. unfold entered.
  destruct (Nat.ltb_spec 2 (String.length (pre +:+ u))) as [_|Hlt].
  - exists (Str.drop_end 2 u +:+ "," +:+ String LF "" +:+ entryText j' +:+ String LF "]").
    split; [|rewrite !Str.length_app; simpl; lia].
    by rewrite drop_end_app_le, !Str.app_assoc.
  - exists (u +:+ entryText j' +:+ String LF "]").
    split; [by rewrite !Str.app_assoc|rewrite !Str.length_app; lia].
Qed.

Lemma begins_save_all (pre : string) (later : list logToJSON) :
  forall o, savable o p -> begins pre o p ->
  exists o', save_all (H:=bracket_sink p) later o = (Ok tt, o') /\ begins pre o' p
    /\ os_fds o' = os_fds o.
Proof.
  induction later as [|j' later IH]; intros o Hs Hd; [by exists o|].
  destruct (begins_save o pre j' Hs Hd) as (o1 & Hr & Hd1 & Hs1 & Hfd1).
  destruct (IH o1 Hs1 Hd1) as (o2 & Hr2 & Hd2 & Hfd2).
  exists o2. split_and!; [|done|congruence].
  simpl. by rewrite (bind_ok _ _ _ _ _ Hr).
Qed.

(** From an array without its closing bracket on: the file is no array
    after any saves. *)
Lemma later_scarred (o : OS) (js later : list logToJSON) (j : logToJSON) :
  savable o p -> content o p = Some (unclosedText js j) -> later <> [] ->
  exists o', save_all (H:=bracket_sink p) later o = (Ok tt, o')
    /\ readArray (default "" (content o' p)) = None /\ os_fds o' = os_fds o.
Proof.
  intros Hs Hc Hl. destruct later as [|j' later]; [done|].
  destruct (unclosed_save o js j j' Hs Hc) as (o1 & Hr & Hd1 & Hs1 & Hfd1).
  destruct (begins_save_all _ later o1 Hs1 Hd1) as (o2 & Hr2 & (u & Hc2 & _) & Hfd2).
  exists o2. split_and!; [|by rewrite Hc2; apply readArray_bracketScar|congruence].
  simpl. by rewrite (bind_ok _ _ _ _ _ Hr).
Qed.

End Later.

(** What the failed save has left, by the call that failed, for a log
    whose last record is [j0]. *)
Lemma torn_text (js : list logToJSON) (j0 j : logToJSON) (n : nat) :
  n <= 5 ->
  match n with
  | 0 | 3 | 4 =>
      forall j', entered (torn (bracketText (js ++ [j0])) j n) j'
                 = bracketText ((js ++ [j0]) ++ [j'])
  | 1 | 2 => torn (bracketText (js ++ [j0])) j n = unclosedText js j0
  | _ => torn (bracketText (js ++ [j0])) j n = unclosedText (js ++ [j0]) j
  end.
Proof.
  intros Hn. assert (Hjs : js ++ [j0] <> []) by (by destruct js).
  pose proof (length_bracketText _ Hjs) as Hl.
  pose proof (fun j' => entered_bracketText _ j' Hjs) as He.
  assert (Hd : Str.drop_end 2 (bracketText (js ++ [j0])) = unclosedText js j0).
  { rewrite bracketText_last. apply (Str.drop_end_app _ (String LF "]")). }
  assert (Hc : forall j', entered (unclosedText js j0 +:+ "," +:+ String LF "") j'
                          = bracketText ((js ++ [j0]) ++ [j'])).
  { intros j'. rewrite <- He. unfold entered. rewrite Hd.
    pose proof (length_unclosedText js j0) as Hl'.
    destruct (Nat.ltb_spec 2 (String.length (unclosedText js j0 +:+ "," +:+ String LF "")));
      [|rewrite Str.length_app in *; lia].
    destruct (Nat.ltb_spec 2 (String.length (bracketText (js ++ [j0])))); [|lia].
    by rewrite (Str.drop_end_app _ ("," +:+ String LF "")). }
  destruct n as [|[|[|[|[|[|n]]]]]]; cbn [torn]; rewrite ?Hd; try done; try lia.
  unfold unclosedText. rewrite entriesBefore_snoc. unfold entrySep.
  by rewrite !Str.app_assoc.
Qed.

(** ** The theorem *)

(** C23: a save of part_002 that fails while it enters its record heals or
    destroys the log, by the call that failed.  On a log that holds
    records, when the plan spares the calls up to one of the six that enter
    the record and stops that one, the call returns the error of it, no
    descriptor stays open, and the file holds what the calls before have
    made of it.  The saves after that, on a machine without faults, return
    nil.  When the cut, the second seek or the write of the record has
    failed, the file is then the array of the records the log held and of
    the later ones; when the first seek, the comma or the closing bracket
    has failed, it is no array, whatever is saved later. *)
Theorem failed_entry (p : string) (o : OS) (js later : list logToJSON) (j : logToJSON)
    (e : Errno) (n : nat) :
  savable o p -> stored o p js -> js <> [] -> later <> [] -> n <= 5 ->
  exists o1 o2,
    saveToFile j p (with_faults (replicate (4 + n) None ++ [Some e]) o)
    = (Err (PathError (failing n) p e), o1)
    /\ content o1 p = Some (torn (bracketText js) j n)
    /\ os_fds o1 = os_fds o
    /\ save_all (H:=bracket_sink p) later o1 = (Ok tt, o2)
    /\ readArray (default "" (content o2 p))
       = (if heals n then Some (validRecord <$> js ++ later) else None)
    /\ os_fds o2 = os_fds o.
Proof.
  intros Hs Hst Hjs Hl Hn. destruct (exists_last Hjs) as (js' & j0 & ->).
  assert (Hd : content o p = Some (bracketText (js' ++ [j0]))) by (by destruct js').
  destruct (saveToFile_torn p o _ j e n Hs Hd (length_bracketText _ Hjs) Hn)
    as (o1 & Hr & Hc & Hs1 & Hfd1).
  pose proof (torn_text js' j0 j n Hn) as Ht.
  assert (exists o2, save_all (H:=bracket_sink p) later o1 = (Ok tt, o2)
            /\ readArray (default "" (content o2 p))
               = (if heals n then Some (validRecord <$> (js' ++ [j0]) ++ later) else None)
            /\ os_fds o2 = os_fds o1) as (o2 & Hr2 & Hread & Hfd2).
  { destruct n as [|[|[|[|[|[|n]]]]]]; cbn [heals]; [..|lia];
      first [ destruct (later_heals p o1 _ _ later Hs1 Hc Hl Ht) as (o2 & ? & Hc2 & ?);
              exists o2; rewrite Hc2; split_and!; [done|apply readArray_bracketText|done]
            | rewrite Ht in Hc; destruct (later_scarred p o1 _ later _ Hs1 Hc Hl) as (o2 & ?);
              by exists o2 ]. }
  exists o1, o2. split_and!; [done..|congruence].
Qed.

Lemma failed_entry_witness :
  exists o1 o2,
    saveToFile LineSink.sample "./logs/app.json"
      (with_faults (replicate (4 + 5) None ++ [Some ENOSPC])
         (saveToFile sample "./logs/app.json" empty_OS).2)
    = (Err (PathError (failing 5) "./logs/app.json" ENOSPC), o1)
    /\ content o1 "./logs/app.json" = Some (torn (bracketText [sample]) LineSink.sample 5)
    /\ os_fds o1 = os_fds (saveToFile sample "./logs/app.json" empty_OS).2
    /\ save_all (H:=bracket_sink "./logs/app.json") [sample] o1 = (Ok tt, o2)
    /\ readArray (default "" (content o2 "./logs/app.json"))
       = (if heals 5 then Some (validRecord <$> [sample] ++ [sample]) else None)
    /\ os_fds o2 = os_fds (saveToFile sample "./logs/app.json" empty_OS).2.
Proof.
  apply (failed_entry "./logs/app.json" (saveToFile sample "./logs/app.json" empty_OS).2
           [sample] [sample] LineSink.sample ENOSPC 5).
  - apply savableb_sound. vm_compute. reflexivity.
  - vm_compute. reflexivity.
  - discriminate.
  - discriminate.
  - lia.
Defined.

End Partial.
