(* ===== verification/BracketRace.v ===== *)
(** * BracketRace: callers of part_002 on one log

    [saveToFile] of src/unnamed/part_002 measures the file, cuts it at the
    size it measured less two, writes a comma, and then the record and the
    closing bracket at the end of the file.  Callers that share the log
    take no lock.

    A caller that saves between the measure and the cut of another loses
    its record: the cut takes it away, the file is the array of the old
    records and the record of the caller that measured first, and both
    have returned nil ([stale_bracket_run]), as for part_001
    ([Race.stale_size_run]).  A caller that saves between the comma and
    the record of another closes the array, and the record of the other
    goes behind the closing bracket ([overrun_run]): the file is no array
    ([readArray_overrun]), and stays none whatever is saved to it later
    ([Partial.begins_save_all]). *)

From S2P Require Import Prelude GoTime GoJson GoOS Paths World Sink ArraySink LineSink Compose.
From S2P Require Import MainLogger Paced PathLogger BracketLogger Inv Live JsonRead LogRead Race.
From S2P Require Import Steps Damage Partial.

Module BracketRace.

Import GoJson GoOS Sink Inv Live JsonRead LogRead Race Steps Damage Partial.

#[local] Arguments alone : simpl never.

Ltac call := rewrite alone_S; simpl; unfold or_return.

(** ** The texts *)

(** The array of [js], closed, and behind it the entry of [a] and what
    later saves have added. *)
Definition overrun (js : list logToJSON) (a : logToJSON) : string :=
  BracketLogger.bracketText js +:+ BracketLogger.entryText a.

Lemma readArray_overrun (js : list logToJSON) (a : logToJSON) (u : string) :
  readArray (overrun js a +:+ u) = None.
Proof.
  unfold overrun. rewrite Str.app_assoc. apply readArray_bracketText_more.
  destruct (MarshalIndent_starts (members a) "" "  " u) as [v Hv].
  unfold BracketLogger.entryText. by rewrite Hv.
Qed.

(** A state without faults in which a descriptor without [O_APPEND] is
    open on a file, as a state of one open file. *)
Lemma as_open (o : OS) (F : gmap nat FileDesc) (fd : nat) (f : FileDesc) (d : string) :
  os_faults o = [] -> os_fds o = <[fd := f]> F -> of_append f = false ->
  os_nodes o !! of_key f = Some (NFile d) ->
  o = st_open (os_cwd o) (os_nodes o) F (of_name f) (of_key f) fd (os_next o) d (of_off f).
Proof.
  intros Hnf Hfd Hap Hd. destruct o as [c M G nx fs], f as [nm k off ap]; simpl in *; subst.
  unfold st_open. by rewrite (insert_id M).
Qed.

(** What is left of a file that has grown when it is cut at the size it
    had less two. *)
Lemma resize_stale (d t : string) :
  2 <= String.length d ->
  resize (String.length d - 2) (Str.drop_end 2 d +:+ t) = Str.drop_end 2 d.
Proof.
  intros Hd.
  assert (Hx : String.length (Str.drop_end 2 d) = String.length d - 2)
    by (unfold Str.drop_end; rewrite Str.length_take; lia).
  rewrite <- Hx, resize_le by (rewrite Str.length_app; lia).
  apply Str.take_app_length.
Qed.

Section Cut.
Context (cwd : list string) (M : gmap (list string) Node) (F : gmap nat FileDesc).
Context (name : string) (k : list string) (fd : nat) (p : string) (a : logToJSON).
Context (Hk : k <> []) (Hfd : F !! fd = None).

(** The cut and the comma, with the size [n] the caller measured, on a
    file that may have changed since: the file is cut to [n - 2] bytes and
    the comma is written at its end. *)
Lemma stale_cut_open (nx : nat) (d : string) (off n : nat) :
  2 < n ->
  alone (Caller0:=bracket_caller p) 3 (BMeasured a fd (Z.of_nat n))
    (st_open cwd M F name k fd nx d off)
  = (BReady a fd,
     st_open cwd M F name k fd nx (resize (n - 2) d +:+ entrySep)
       (String.length (resize (n - 2) d +:+ entrySep))).
Proof using Hk.
  intros Hn. call. destruct (Z.ltb_spec 2 (Z.of_nat n)) as [_|]; [|lia]. unfold or_return.
  rewrite truncate_open by (done || lia). simpl.
  replace (Z.to_nat (Z.of_nat n - 2)) with (n - 2) by lia.
  call. rewrite seek_end_open by (done || lia). simpl.
  replace (Z.to_nat (Z.of_nat (String.length (resize (n - 2) d)) + 0))
    with (String.length (resize (n - 2) d)) by lia.
  call. by rewrite write_more.
Qed.

(** The record and the closing bracket go to the end of what the file
    holds then, and the file is closed. *)
Lemma enter_open (nx : nat) (d : string) (off : nat) :
  alone (Caller0:=bracket_caller p) 4 (BReady a fd) (st_open cwd M F name k fd nx d off)
  = (BExit a [] (Ok tt),
     st_closed cwd M F k nx ((d +:+ BracketLogger.entryText a) +:+ String LF "]")).
Proof using Hk Hfd.
  call. rewrite seek_end_open by (done || lia). simpl.
  replace (Z.to_nat (Z.of_nat (String.length d) + 0)) with (String.length d) by lia.
  call. rewrite write_more by done. simpl.
  call. rewrite write_more by done. simpl.
  call. by rewrite close_deferred_open.
Qed.

End Cut.

Section Stale.
Context (p : string) (a : logToJSON).

(** The first four calls on a file that is there: the caller holds the
    file open and has its size. *)
Lemma bracket_measures (o : OS) (d : string) :
  savable o p -> content o p = Some d ->
  exists oA f,
    alone (Caller0:=bracket_caller p) 4 (BStart a) o
    = (BMeasured a (os_next o) (Z.of_nat (String.length d)), oA)
    /\ os_fds oA = <[os_next o := f]> (os_fds o)
    /\ of_key f = resolve (os_cwd o) p /\ of_append f = false
    /\ savable oA p /\ content oA p = Some d /\ os_cwd oA = os_cwd o.
Proof.
  intros Hs Hd.
  destruct (opens_measured o p d Hs Hd) as (o1 & oA & f & Hmk & Hex & Hop & Hst & Hrest).
  exists oA, f. split; [|done].
  call. rewrite Hmk. simpl. call. rewrite BracketLogger.fileExists_as, Hex. simpl.
  call. rewrite Hop. simpl. call. by rewrite Hst.
Qed.

Section Held.
Context (o : OS) (F : gmap nat FileDesc) (fd : nat) (f : FileDesc) (d : string).
Context (Hnf : os_faults o = []) (Hfds : os_fds o = <[fd := f]> F) (Hfd : F !! fd = None).
Context (Hap : of_append f = false) (Hne : of_key f <> []).
Context (Hd : os_nodes o !! of_key f = Some (NFile d)).

(** The state in which the caller holds the file, when the file holds
    [d'] and the offset is its end. *)
Definition holding (d' : string) : OS :=
  st_open (os_cwd o) (os_nodes o) F (of_name f) (of_key f) fd (os_next o) d'
    (String.length d').

(** The cut and the comma on a state in which the caller holds the file. *)
Lemma bracket_cuts (n : nat) :
  2 < n ->
  alone (Caller0:=bracket_caller p) 3 (BMeasured a fd (Z.of_nat n)) o
  = (BReady a fd, holding (resize (n - 2) d +:+ entrySep)).
Proof using All.
  intros Hn. rewrite (as_open o F fd f d) by done. by rewrite stale_cut_open.
Qed.

(** The record and the bracket. *)
Lemma bracket_enters :
  alone (Caller0:=bracket_caller p) 4 (BReady a fd) o
  = (BExit a [] (Ok tt),
     st_closed (os_cwd o) (os_nodes o) F (of_key f) (os_next o)
       ((d +:+ BracketLogger.entryText a) +:+ String LF "]")).
Proof using All.
  pose proof (enter_open (os_cwd o) (os_nodes o) F (of_name f) (of_key f) fd p a Hne Hfd
                (os_next o) d (of_off f)) as H.
  by rewrite <- (as_open o F fd f d) in H.
Qed.

(** The cut with a stale size and what follows it. *)
Lemma bracket_stale (n : nat) :
  2 < n ->
  alone (Caller0:=bracket_caller p) 7 (BMeasured a fd (Z.of_nat n)) o
  = (BExit a [] (Ok tt),
     st_closed (os_cwd o) (os_nodes o) F (of_key f) (os_next o)
       (((resize (n - 2) d +:+ entrySep) +:+ BracketLogger.entryText a) +:+ String LF "]")).
Proof using All.
  intros Hn. rewrite (alone_app 3 4), bracket_cuts by done. cbn [fst snd].
  unfold holding. by rewrite enter_open.
Qed.

(** The path can be saved to while the caller holds the file. *)
Lemma savable_holding (d' : string) :
  savable o p -> of_key f = resolve (os_cwd o) p -> savable (holding d') p.
Proof using Hfds.
  intros (_ & Hb & Hname & Hfree & _) Hkey. unfold savable, holding. simpl.
  split_and!; [done| |done| |by rewrite Hkey, lookup_insert_eq].
  - intros fd' f'. simpl. intros Hf. destruct (decide (fd' = fd)) as [->|Hn].
    + apply (Hb fd f). by rewrite Hfds, lookup_insert_eq.
    + apply (Hb fd' f'). rewrite Hfds, lookup_insert_ne by done.
      by rewrite lookup_insert_ne in Hf.
  - intros k' d'' Hk'. rewrite lookup_insert_ne; [by apply Hfree|].
    rewrite Hkey. intros <-. by apply (names_entry_off_way _ _ Hname).
Qed.

End Held.

(** A save on the file that was cut and has the comma enters its record
    in place of the comma. *)
Lemma entered_cut (js : list logToJSON) (b : logToJSON) :
  js <> [] ->
  BracketLogger.entered
    (resize (String.length (BracketLogger.bracketText js) - 2) (BracketLogger.bracketText js)
     +:+ entrySep) b
  = BracketLogger.bracketText (js ++ [b]).
Proof.
  intros Hjs. pose proof (BracketLogger.length_bracketText js Hjs) as Hl.
  rewrite resize_le by lia. fold (Str.drop_end 2 (BracketLogger.bracketText js)).
  rewrite <- BracketLogger.entered_bracketText by done. unfold BracketLogger.entered.
  assert (String.length (Str.drop_end 2 (BracketLogger.bracketText js) +:+ entrySep)
          = String.length (BracketLogger.bracketText js)) as ->.
  { rewrite Str.length_app. unfold Str.drop_end. rewrite Str.length_take.
    change (String.length entrySep) with 2. lia. }
  destruct (Nat.ltb_spec 2 (String.length (BracketLogger.bracketText js))) as [_|]; [|lia].
  by rewrite (Str.drop_end_app _ entrySep).
Qed.

Lemma bracket_text (o : OS) (js : list logToJSON) :
  js <> [] -> BracketLogger.stored o p js -> content o p = Some (BracketLogger.bracketText js).
Proof. by destruct js. Qed.

(** A save of another caller while the first holds the file. *)
Lemma saved_between (oA : OS) (d : string) (b : logToJSON) :
  savable oA p -> content oA p = Some d ->
  exists oB, alone (Caller0:=bracket_caller p) 14 (BStart b) oA = (BExit b [] (Ok tt), oB)
    /\ os_nodes oB !! resolve (os_cwd oA) p = Some (NFile (BracketLogger.entered d b))
    /\ savable oB p /\ os_fds oB = os_fds oA /\ os_cwd oB = os_cwd oA.
Proof.
  intros Hs Hc.
  destruct (saveToFile_onto p oA d b Hs Hc) as (oB & HB & HcB & HsB & HfdB).
  pose proof (BracketLogger_stable _ p (KeptAt0:=kept_at (Kept0:=grows_kept oA) p) b oA
                (grows_refl oA)) as (HcwdB & _).
  rewrite HB in HcwdB. simpl in HcwdB.
  exists oB. rewrite alone_bracket, HB. split_and!; try done.
  rewrite <- HcwdB. apply content_file; [apply HsB|done].
Qed.

(** The first caller measures the file, the second saves its record, the
    first goes on with the size it has: the record of the second is cut
    off the file. *)
Lemma stale_bracket_run (o : OS) (js : list logToJSON) (b : logToJSON) :
  savable o p -> BracketLogger.stored o p js -> js <> [] ->
  exists s, runs (Caller0:=bracket_caller p) (o, [BStart a; BStart b]) s
    /\ s.2 = [BExit a [] (Ok tt); BExit b [] (Ok tt)]
    /\ content s.1 p = Some (BracketLogger.bracketText (js ++ [a]))
    /\ os_fds s.1 = os_fds o.
Proof.
  intros Hs Hst Hjs. pose proof Hs as (Hnf & Hb & Hname & _).
  pose proof (bracket_text o js Hjs Hst) as Hc.
  pose proof (BracketLogger.length_bracketText js Hjs) as Hl.
  destruct (bracket_measures o _ Hs Hc) as (oA & f & HA & HfdA & Hkey & Hap & HsA & HcA & HcwdA).
  destruct (saved_between oA _ b HsA HcA) as (oB & HB & HcB & HsB & HfdB & HcwdB).
  rewrite HcwdA, <- Hkey in HcB. rewrite HfdA in HfdB.
  pose proof (bracket_stale oB (os_fds o) (os_next o) f _ (proj1 HsB) HfdB
                (fds_bounded_fresh o 0 Hb) Hap ltac:(rewrite Hkey; apply Hname) HcB _ Hl) as HC.
  match type of HC with _ = (_, ?o') =>
    exists (o', [BExit a [] (Ok tt); BExit b [] (Ok tt)]) end.
  split_and!; cbn [fst snd]; [|done| |done].
  - exact (alone_between (Caller0:=bracket_caller p) 4 14 7 _ _ _ _ _ _ _ _ _ HA HB HC).
  - rewrite content_node by (simpl; rewrite HcwdB, HcwdA; apply Hname).
    cbn [st_closed os_nodes os_cwd]. rewrite HcwdB, HcwdA, <- Hkey, lookup_insert_eq.
    rewrite <- BracketLogger.entered_bracketText by done. unfold BracketLogger.entered.
    destruct (Nat.ltb_spec 2 (String.length (BracketLogger.bracketText js))) as [_|]; [|lia].
    by rewrite !Str.app_assoc, resize_stale by lia.
Qed.

(** The first caller cuts the file and writes its comma, the second saves
    its record and closes the array, the first writes its record behind the
    closing bracket. *)
Lemma overrun_run (o : OS) (js : list logToJSON) (b : logToJSON) :
  savable o p -> BracketLogger.stored o p js -> js <> [] ->
  exists s, runs (Caller0:=bracket_caller p) (o, [BStart a; BStart b]) s
    /\ s.2 = [BExit a [] (Ok tt); BExit b [] (Ok tt)]
    /\ begins (overrun (js ++ [b]) a) s.1 p /\ savable s.1 p
    /\ os_fds s.1 = os_fds o.
Proof.
  intros Hs Hst Hjs. pose proof Hs as (Hnf & Hb & Hname & _).
  pose proof (bracket_text o js Hjs Hst) as Hc.
  pose proof (BracketLogger.length_bracketText js Hjs) as Hl.
  pose proof (fds_bounded_fresh o 0 Hb) as Hfd.
  destruct (bracket_measures o _ Hs Hc) as (oA & f & HA & HfdA & Hkey & Hap & HsA & HcA & HcwdA).
  assert (Hne : of_key f <> []) by (rewrite Hkey; apply Hname).
  pose proof (content_file p oA _ (proj2 (proj1 (proj2 (proj2 HsA)))) HcA) as HnA.
  rewrite HcwdA, <- Hkey in HnA.
  pose proof (bracket_cuts oA (os_fds o) (os_next o) f _ (proj1 HsA) HfdA Hfd Hap Hne HnA _ Hl)
    as HA2.
  set (cut := resize _ _ +:+ entrySep) in HA2.
  pose proof (entered_cut js b Hjs) as Hcut. fold cut in Hcut.
  destruct (saved_between (holding oA (os_fds o) (os_next o) f cut) cut b)
    as (oB & HB & HcB & HsB & HfdB & HcwdB).
  { apply savable_holding; [done|done|by rewrite HcwdA]. }
  { rewrite content_node by (simpl; rewrite HcwdA; apply Hname).
    simpl. by rewrite HcwdA, <- Hkey, lookup_insert_eq. }
  simpl in HcB, HfdB, HcwdB. rewrite HcwdA, <- Hkey, Hcut in HcB.
  pose proof (bracket_enters oB (os_fds o) (os_next o) _ _ (proj1 HsB) HfdB Hfd eq_refl Hne HcB)
    as HC.
  match type of HC with _ = (_, ?o') =>
    exists (o', [BExit a [] (Ok tt); BExit b [] (Ok tt)]) end.
  split_and!; cbn [fst snd]; [|done| | |done].
  - eapply (alone_between (Caller0:=bracket_caller p) 7 14 4); [|exact HB|exact HC].
    by rewrite (alone_app 4 3), HA.
  - exists (String LF "]"). split; [|simpl; lia].
    rewrite content_node by (simpl; rewrite HcwdB, HcwdA; apply Hname).
    simpl. by rewrite HcwdB, HcwdA, <- Hkey, lookup_insert_eq.
  - eapply (savable_file oB); [exact HsB|done| | |done|done]; simpl.
    + by rewrite HcwdB, HcwdA, <- Hkey.
    + rewrite HfdB. by apply insert_subseteq.
Qed.

End Stale.

(** ** The theorem *)

(** C19: callers of part_002 that share the log lose records and can
    destroy the log for good, with no fault and no error.  On a log that
    holds a record, two callers have a schedule after which both have
    returned nil, no descriptor is left open and the log is the array of
    the records it held and the record of the first caller: the first
    measures the file, the second saves its record, and the first cuts the
    file at the size it measured less two.  They have another after which
    both have returned nil, no descriptor is left open and the file is no
    JSON array: the second saves between the comma and the record of the
    first, whose record goes behind the closing bracket; whatever is saved
    to the file later, alone and without error, it stays none. *)
Theorem bracket_races (p : string) (o : OS) (js later : list logToJSON) (a b : logToJSON) :
  savable o p -> BracketLogger.stored o p js -> js <> [] ->
  (exists s, runs (Caller0:=bracket_caller p) (o, [BStart a; BStart b]) s
     /\ s.2 = [BExit a [] (Ok tt); BExit b [] (Ok tt)]
     /\ BracketLogger.stored s.1 p (js ++ [a])
     /\ readArray (default "" (content s.1 p)) = Some (validRecord <$> js ++ [a])
     /\ os_fds s.1 = os_fds o)
  /\ (exists s o2, runs (Caller0:=bracket_caller p) (o, [BStart a; BStart b]) s
     /\ s.2 = [BExit a [] (Ok tt); BExit b [] (Ok tt)]
     /\ readArray (default "" (content s.1 p)) = None
     /\ os_fds s.1 = os_fds o
     /\ save_all (H:=BracketLogger.bracket_sink p) later s.1 = (Ok tt, o2)
     /\ readArray (default "" (content o2 p)) = None).
Proof.
  intros Hs Hst Hjs. split.
  - destruct (stale_bracket_run p a o js b Hs Hst Hjs) as (s & Hr & Hpc & Hc & Hfd).
    exists s. split_and!; [done|done| |by rewrite Hc; apply readArray_bracketText|done].
    unfold BracketLogger.stored. by destruct (js ++ [a]) eqn:E; [destruct js|].
  - destruct (overrun_run p a o js b Hs Hst Hjs) as (s & Hr & Hpc & Hd & Hs' & Hfd).
    destruct (begins_save_all p _ later s.1 Hs' Hd) as (o2 & Hr2 & (u2 & Hc2 & _) & _).
    destruct Hd as (u & Hc & _). exists s, o2.
    split_and!; [done|done| |done|done|]; rewrite ?Hc, ?Hc2; apply readArray_overrun.
Qed.

Lemma bracket_races_witness :
  (exists s,
     runs (Caller0:=bracket_caller "log.json")
       ((BracketLogger.saveToFile LineSink.sample "log.json" empty_OS).2,
        [BStart ArraySink.sample1; BStart LineSink.sample]) s
     /\ s.2 = [BExit ArraySink.sample1 [] (Ok tt); BExit LineSink.sample [] (Ok tt)]
     /\ BracketLogger.stored s.1 "log.json" ([LineSink.sample] ++ [ArraySink.sample1])
     /\ readArray (default "" (content s.1 "log.json"))
        = Some (validRecord <$> [LineSink.sample] ++ [ArraySink.sample1])
     /\ os_fds s.1 = os_fds (BracketLogger.saveToFile LineSink.sample "log.json" empty_OS).2)
  /\ (exists s o2,
     runs (Caller0:=bracket_caller "log.json")
       ((BracketLogger.saveToFile LineSink.sample "log.json" empty_OS).2,
        [BStart ArraySink.sample1; BStart LineSink.sample]) s
     /\ s.2 = [BExit ArraySink.sample1 [] (Ok tt); BExit LineSink.sample [] (Ok tt)]
     /\ readArray (default "" (content s.1 "log.json")) = None
     /\ os_fds s.1 = os_fds (BracketLogger.saveToFile LineSink.sample "log.json" empty_OS).2
     /\ save_all (H:=BracketLogger.bracket_sink "log.json") [ArraySink.sample1] s.1 = (Ok tt, o2)
     /\ readArray (default "" (content o2 "log.json")) = None).
Proof.
  apply (bracket_races "log.json"
           (BracketLogger.saveToFile LineSink.sample "log.json" empty_OS).2
           [LineSink.sample] [ArraySink.sample1] ArraySink.sample1 LineSink.sample).
  - apply savableb_sound. vm_compute. reflexivity.
  - vm_compute. reflexivity.
  - discriminate.
Defined.

End BracketRace.
